(** * Netpbm: a shallow embedding of the image codec and raster engine

    The Go package [Netpbm] (files [pbm.go], [pgm.go], [ppm.go]) is
    embedded function by function.  Go's [int] is a 64-bit two's
    complement integer and is modelled as [Z] with the wrap-around
    written out; [uint8] is [Z] reduced modulo 256; slices are lists
    whose indexing panics out of range; [float64] is the IEEE-754
    binary64 format of [SpecFloat].  A method that can return an error,
    panic or loop is a computation in the [exec] monad. *)

From Stdlib Require Import ZArith Lia Bool Ascii String DecimalString DecimalPos.
From Stdlib Require Import Floats.SpecFloat.
From stdpp Require Import base tactics option list.

Local Open Scope Z_scope.

(** ** Outcomes of a Go call *)

(** Run-time panics the package can raise. *)
Inductive panic : Type :=
| PanicIndex                (* index out of range *)
| PanicMakeSlice            (* makeslice: len out of range *)
| PanicMsg (msg : string).  (* panic("...") *)

(** The [error] values built by [fmt.Errorf], one constructor per
    message format, with the row and column the message carries. *)
Inductive goerr : Type :=
| ErrReadMagic                       (* "error reading magic number: %v" *)
| ErrInvalidMagic (m : string)       (* "invalid magic number: %s" *)
| ErrReadDimensions                  (* "error reading dimensions: %v" *)
| ErrScanDimensions                  (* "invalid dimensions: %v" *)
| ErrNonPositiveDimensions           (* "invalid dimensions: width and height must be positive" *)
| ErrReadMaxValue                    (* "error reading max value: %v" *)
| ErrInvalidMaxValue                 (* "invalid max value: %v" *)
| ErrReadRow (y : Z)                 (* "error reading data at row %d: %v" *)
| ErrIndexOutOfRange (y : Z)         (* "index out of range at row %d" *)
| ErrIndexOutOfRangeAt (y x : Z)     (* "index out of range at row %d, column %d" *)
| ErrParsePixel (y x : Z)            (* "error parsing pixel value at row %d, column %d: %v" *)
| ErrParseChannel (ch : ascii) (y x : Z) (* "error parsing Red/Green/Blue value at row %d, column %d: %v" *)
| ErrUnexpectedEOF (y : Z)           (* "unexpected end of file at row %d" *)
| ErrShortRow (y expected got : Z)   (* "unexpected end of file at row %d, expected %d bytes, got %d" *)
| ErrInconsistentRow                 (* "inconsistent row length in data" *)
| ErrUnsupportedMagic (m : string)   (* "unsupported magic number: %s" *)
| ErrMagicNumber.                    (* "magic number error" *)

Inductive exec (A : Type) : Type :=
| Ret (a : A)        (* the call returns normally, with a nil error *)
| Err (e : goerr)    (* the call returns a non-nil error *)
| Panic (p : panic)  (* the call panics *)
| NoFuel.            (* the iteration budget given to an unbounded loop ran out *)

Arguments Ret {A} a.
Arguments Err {A} e.
Arguments Panic {A} p.
Arguments NoFuel {A}.

Definition exec_bind {A B : Type} (m : exec A) (k : A -> exec B) : exec B :=
  match m with
  | Ret a => k a
  | Err e => Err e
  | Panic p => Panic p
  | NoFuel => NoFuel
  end.

#[global] Instance exec_ret : MRet exec := fun A a => Ret a.
#[global] Instance exec_mbind : MBind exec := fun A B k m => exec_bind m k.
#[global] Instance exec_fmap : FMap exec := fun A B f m => exec_bind m (fun a => Ret (f a)).

(** [forM xs s body] runs [body] on the elements of [xs] in order,
    threading the state [s]: the shape of every counted [for] loop. *)
Fixpoint forM {A S : Type} (xs : list A) (s : S) (body : A -> S -> exec S) : exec S :=
  match xs with
  | [] => Ret s
  | x :: xs' => s' ← body x s; forM xs' s' body
  end.

(** ** Machine integers *)

Definition wrap64 (z : Z) : Z := (z + 2 ^ 63) mod 2 ^ 64 - 2 ^ 63.
Definition int_add (a b : Z) : Z := wrap64 (a + b).
Definition int_sub (a b : Z) : Z := wrap64 (a - b).
Definition int_mul (a b : Z) : Z := wrap64 (a * b).
Definition int_neg (a : Z) : Z := wrap64 (- a).

Definition uint8 (z : Z) : Z := z mod 256.
Definition uint16 (z : Z) : Z := z mod 65536.

(** [range lo hi] lists the values [i] taken by
    [for i := lo; i < hi; i++]. *)
Definition range (lo hi : Z) : list Z :=
  map (fun k => lo + Z.of_nat k) (seq 0 (Z.to_nat (hi - lo))).

(** [range_by lo hi step] lists the values taken by
    [for i := lo; i < hi; i += step], for a positive [step]. *)
Definition range_by (lo hi step : Z) : list Z :=
  map (fun k => lo + step * Z.of_nat k)
      (seq 0 (Z.to_nat ((hi - lo + step - 1) / step))).

(** ** Slices *)

(** [s[i]]: panics unless [0 <= i < len(s)]. *)
Definition index {A : Type} (s : list A) (i : Z) : exec A :=
  if i <? 0 then Panic PanicIndex
  else match s !! Z.to_nat i with
       | Some a => Ret a
       | None => Panic PanicIndex
       end.

(** [s[i] = v]. *)
Definition store {A : Type} (s : list A) (i : Z) (v : A) : exec (list A) :=
  if i <? 0 then Panic PanicIndex
  else match s !! Z.to_nat i with
       | Some _ => Ret (<[Z.to_nat i := v]> s)
       | None => Panic PanicIndex
       end.

(** [d[y][x]] and [d[y][x] = v] on a slice of slices. *)
Definition index2 {A : Type} (d : list (list A)) (y x : Z) : exec A :=
  row ← index d y; index row x.

Definition store2 {A : Type} (d : list (list A)) (y x : Z) (v : A) : exec (list (list A)) :=
  row ← index d y; row' ← store row x v; store d y row'.

(** [make([]T, n)] with the zero value [z].  The run time also
    refuses, by a panic, a length above its allocation limit, and the
    host may have less memory: the model describes [make] on lengths
    that can be allocated, see [allocatable]. *)
Definition make {A : Type} (z : A) (n : Z) : exec (list A) :=
  if n <? 0 then Panic PanicMakeSlice else Ret (replicate (Z.to_nat n) z).

(** A buffer is rectangular when it has [h] rows of [w] samples. *)
Definition rect {A : Type} (d : list (list A)) (w h : Z) : Prop :=
  0 <= w /\ 0 <= h /\ Z.of_nat (length d) = h /\
  Forall (fun row => Z.of_nat (length row) = w) d.

Record Pixel : Type := mkPixel { R : Z; G : Z; B : Z }.
Record Point : Type := mkPoint { X : Z; Y : Z }.

(** ** float64 *)

(** IEEE-754 binary64 with round-to-nearest-even, as Go's [float64]. *)
Definition prec : Z := 53.
Definition emax : Z := 1024.

Definition float64_of_int (z : Z) : spec_float := binary_normalize prec emax z 0 false.
Definition fadd : spec_float -> spec_float -> spec_float := SFadd prec emax.
Definition fmul : spec_float -> spec_float -> spec_float := SFmul prec emax.
Definition fdiv : spec_float -> spec_float -> spec_float := SFdiv prec emax.

(** The constant [0.5]. *)
Definition half : spec_float := binary_normalize prec emax 1 (-1) false.

(** Truncation toward zero of a finite float. *)
Definition ftrunc (f : spec_float) : option Z :=
  match f with
  | S754_zero _ => Some 0
  | S754_finite s m e =>
      let a := if 0 <=? e then Z.pos m * 2 ^ e else Z.pos m / 2 ^ (- e) in
      Some (if s then - a else a)
  | _ => None
  end.

(** [int(f)].  Go leaves the result implementation-dependent when the
    truncated value does not fit; amd64 yields the smallest [int]. *)
Definition int_of_float64 (f : spec_float) : Z :=
  match ftrunc f with
  | Some z => if (- 2 ^ 63 <=? z) && (z <? 2 ^ 63) then z else - 2 ^ 63
  | None => - 2 ^ 63
  end.

(** [uint8(f)]: exact when the truncated value is in [0, 255]; the low
    byte of [int(f)] otherwise (implementation-dependent in Go). *)
Definition uint8_of_float64 (f : spec_float) : Z := uint8 (int_of_float64 f).

(** ** Text: [strings] and [fmt] *)

(** A byte stream, and a Go [string] read from it, is a list of bytes.
    White space is the ASCII white space ['\t' '\n' '\v' '\f' '\r' ' '];
    the library also treats some non-ASCII runes as space, so the
    model describes the functions on ASCII text. *)
Definition NL : ascii := ascii_of_N 10.

Definition isSpace (c : ascii) : bool :=
  let n := N_of_ascii c in
  (((9 <=? n) && (n <=? 13)) || (n =? 32))%N.

Definition isDigit (c : ascii) : bool :=
  let n := N_of_ascii c in ((48 <=? n) && (n <=? 57))%N.

Definition isNL (c : ascii) : bool := Ascii.eqb c NL.

(** A line of ASCII text, without its newline. *)
Definition text_line (s : list ascii) : bool :=
  forallb (fun c => negb (isNL c) && (N_of_ascii c <? 128)%N) s.

(** Drop the longest prefix whose bytes satisfy [p]. *)
Fixpoint drop_while (p : ascii -> bool) (s : list ascii) : list ascii :=
  match s with
  | c :: s' => if p c then drop_while p s' else s
  | [] => []
  end.

(** Longest prefix whose bytes satisfy [p]. *)
Fixpoint take_while (p : ascii -> bool) (s : list ascii) : list ascii :=
  match s with
  | c :: s' => if p c then c :: take_while p s' else []
  | [] => []
  end.

(** [strings.TrimSpace], on ASCII text: the library also strips the
    spaces of Unicode outside ASCII, such as U+00A0. *)
Definition TrimSpace (s : list ascii) : list ascii :=
  reverse (drop_while isSpace (reverse (drop_while isSpace s))).

(** [strings.Fields]: the maximal runs of non-space bytes, in order.
    [cur] is the field being read, in reverse. *)
Fixpoint Fields_aux (cur : list ascii) (s : list ascii) : list (list ascii) :=
  match s with
  | [] => match cur with [] => [] | _ => [reverse cur] end
  | c :: s' =>
      if isSpace c
      then match cur with
           | [] => Fields_aux [] s'
           | _ => reverse cur :: Fields_aux [] s'
           end
      else Fields_aux (c :: cur) s'
  end.

Definition Fields (s : list ascii) : list (list ascii) := Fields_aux [] s.

(** Value of a run of decimal digits. *)
Definition digit_val (c : ascii) : Z := Z.of_N (N_of_ascii c) - 48.

Definition decimal (ds : list ascii) : Z :=
  fold_left (fun acc c => 10 * acc + digit_val c) ds 0.

(** [SkipSpace] of a [Sscanf] scan: spaces are skipped, a newline is
    the error "unexpected newline". *)
Fixpoint SkipSpace (s : list ascii) : option (list ascii) :=
  match s with
  | [] => Some []
  | c :: s' =>
      if isNL c then None
      else if isSpace c then SkipSpace s' else Some s
  end.

(** The verb [%d] into an [int]: optional sign, at least one digit,
    and a value that fits 64 bits.  Returns the value and the rest of
    the input; [None] is a scan error. *)
Definition scanInt (s : list ascii) : option (Z * list ascii) :=
  s ← SkipSpace s;
  match s with
  | [] => None
  | c :: s' =>
      let neg := Ascii.eqb c "-" in
      let s1 := if neg || Ascii.eqb c "+" then s' else s in
      let ds := take_while isDigit s1 in
      match ds with
      | [] => None
      | _ =>
          let v := if neg then - decimal ds else decimal ds in
          if (- 2 ^ 63 <=? v) && (v <? 2 ^ 63)
          then Some (v, drop_while isDigit s1) else None
      end
  end.

(** The verb [%d] into a [uint8]: no sign, at least one digit, and a
    value that fits 8 bits. *)
Definition scanUint8 (s : list ascii) : option (Z * list ascii) :=
  s ← SkipSpace s;
  let ds := take_while isDigit s in
  match ds with
  | [] => None
  | _ =>
      let v := decimal ds in
      if v <? 256 then Some (v, drop_while isDigit s) else None
  end.

(** A space in the format: the input must be at its end or continue
    with a space that is not a newline; the spaces are consumed. *)
Definition scanFormatSpace (s : list ascii) : option (list ascii) :=
  match s with
  | [] => Some []
  | c :: s' =>
      if negb (isSpace c) || isNL c then None
      else Some (drop_while (fun c => isSpace c && negb (isNL c)) s')
  end.

(** [fmt.Sscanf(s, "%d %d", &width, &height)]; input left over after
    the second number is not an error. *)
Definition Sscanf_d_d (s : list ascii) : option (Z * Z) :=
  '(w, s) ← scanInt s;
  s ← scanFormatSpace s;
  '(h, _) ← scanInt s;
  Some (w, h).

(** [fmt.Sscanf(s, "%d", &v)] with [v] a [uint8]. *)
Definition Sscanf_d_uint8 (s : list ascii) : option Z :=
  '(v, _) ← scanUint8 s; Some v.

(** [%d] of [fmt.Fprintf]. *)
Definition format_d (z : Z) : list ascii :=
  list_ascii_of_string (NilZero.string_of_int (Z.to_int z)).

Definition str (s : string) : list ascii := list_ascii_of_string s.

(** ** The buffered reader *)

(** [bufio.NewReader(file)] over a regular file: [rest] is the part of
    the file not yet handed to the caller, of which the first [nbuf]
    bytes sit in the reader's buffer of [defaultBufSize] bytes; [eof]
    records that the file answered the last fill with [io.EOF].  A
    read of a regular file returns as many bytes as were asked for,
    or all that are left. *)
Record Reader : Type := mkReader { rest : list ascii; nbuf : nat; eof : bool }.

Definition defaultBufSize : nat := 4096.

Definition NewReader (content : list ascii) : Reader :=
  {| rest := content; nbuf := 0; eof := false |}.

(** [b.fill()], called with room in the buffer: one read of the file
    into the free part of the buffer. *)
Definition fill (b : Reader) : Reader :=
  if (length (rest b) <=? nbuf b)%nat
  then {| rest := rest b; nbuf := nbuf b; eof := true |}
  else {| rest := rest b; nbuf := Nat.min defaultBufSize (length (rest b)); eof := eof b |}.

(** Position of the first byte satisfying [p]. *)
Fixpoint find_index (p : ascii -> bool) (s : list ascii) : option nat :=
  match s with
  | [] => None
  | c :: s' => if p c then Some O else S <$> find_index p s'
  end.

(** [b.ReadString('\n')]: the loop of [ReadSlice] and the fragments
    [acc] that [collectFragments] gathers while the buffer fills up
    without a newline.  The result is the line, whether the error is
    [io.EOF] (the only error a regular file gives) and the reader. *)
Fixpoint ReadString_loop (fuel : nat) (acc : list ascii) (b : Reader)
  : exec (list ascii * bool * Reader) :=
  match fuel with
  | O => NoFuel
  | S fuel' =>
      match find_index isNL (take (nbuf b) (rest b)) with
      | Some i =>
          Ret (acc ++ take (S i) (rest b), false,
               {| rest := drop (S i) (rest b); nbuf := nbuf b - S i; eof := eof b |})
      | None =>
          if eof b then
            Ret (acc ++ take (nbuf b) (rest b), true,
                 {| rest := drop (nbuf b) (rest b); nbuf := 0; eof := false |})
          else if (defaultBufSize <=? nbuf b)%nat then
            ReadString_loop fuel' (acc ++ take (nbuf b) (rest b))
              {| rest := drop (nbuf b) (rest b); nbuf := 0; eof := false |}
          else ReadString_loop fuel' acc (fill b)
      end
  end.

(** The loop runs at most three times per byte left in the file. *)
Definition ReadString (b : Reader) : exec (list ascii * bool * Reader) :=
  ReadString_loop (3 * length (rest b) + 4) [] b.

(** [n, err := b.Read(p)] with [len(p) = n]: the bytes copied into
    [p], whether [err] is [io.EOF], and the reader.  As the library
    documents, "the bytes are taken from at most one Read on the
    underlying Reader, hence n may be less than len(p)": the bytes
    come from the buffer when it holds any, and then no more than it
    holds; with an empty buffer they come from one read of the file,
    made straight into [p] when [p] is at least as large as the
    buffer. *)
Definition Read (b : Reader) (n : nat) : list ascii * bool * Reader :=
  match n with
  | O => if (0 <? nbuf b)%nat then ([], false, b)
         else ([], eof b, {| rest := rest b; nbuf := nbuf b; eof := false |})
  | _ =>
      if (nbuf b =? 0)%nat then
        if eof b then ([], true, {| rest := rest b; nbuf := 0; eof := false |})
        else if (defaultBufSize <=? n)%nat then
          (* large read, empty buffer: read the file straight into p *)
          match rest b with
          | [] => ([], true, {| rest := []; nbuf := 0; eof := false |})
          | _ => (take n (rest b), false,
                  {| rest := drop n (rest b); nbuf := 0; eof := false |})
          end
        else
          (* one read of the file into the buffer, then the copy *)
          match rest b with
          | [] => ([], true, {| rest := []; nbuf := 0; eof := false |})
          | _ =>
              let w := Nat.min defaultBufSize (length (rest b)) in
              let k := Nat.min n w in
              (take k (rest b), false,
               {| rest := drop k (rest b); nbuf := w - k; eof := false |})
          end
      else
        let k := Nat.min n (nbuf b) in
        (take k (rest b), false,
         {| rest := drop k (rest b); nbuf := nbuf b - k; eof := eof b |})
  end.

(** The slice [p] after [Read]: the bytes read, then the zeroes [make]
    put there. *)
Definition filled (n : nat) (got : list ascii) : list ascii :=
  got ++ replicate (n - length got) zero.

(** [s == t] on Go strings. *)
Definition bytes_eqb (s t : list ascii) : bool :=
  (string_of_list_ascii s =? string_of_list_ascii t)%string.

Definition byte_of_Z (z : Z) : ascii := ascii_of_N (Z.to_N (uint8 z)).
Definition Z_of_byte (c : ascii) : Z := Z.of_N (N_of_ascii c).

Definition len {A : Type} (s : list A) : Z := Z.of_nat (length s).

(** * pbm.go *)

Module PBM.

Record t : Type := mk {
  data : list (list bool);
  width : Z;
  height : Z;
  magicNumber : string
}.

(** One row of the P1 branch of [ReadPBM]: the fields of the line are
    stored from column 0 on; a field at column [width] or beyond is
    the error "index out of range at row y". *)
Definition readFieldP1 (width y : Z) (field : list ascii) (st : Z * list (list bool))
    : exec (Z * list (list bool)) :=
  let '(x, data) := st in
  if width <=? x then Err (ErrIndexOutOfRange y)
  else data ← store2 data y x (bytes_eqb field (str "1"));
       Ret (x + 1, data).

Definition readRowP1 (width y : Z) (fields : list (list ascii))
    (data : list (list bool)) : exec (list (list bool)) :=
  snd <$> forM fields (0, data) (readFieldP1 width y).

(** One row of the P4 branch: the bits of the row, most significant
    first. *)
Definition readRowP4 (width y : Z) (row : list ascii)
    (data : list (list bool)) : exec (list (list bool)) :=
  forM (range 0 width) data (fun x data =>
    let byteIndex := Z.quot x 8 in
    let bitIndex := 7 - Z.rem x 8 in
    b ← index row byteIndex;
    let bitValue := Z.land (Z.shiftr (Z_of_byte b) bitIndex) 1 in
    store2 data y x (negb (bitValue =? 0))).

(** The loop over the rows of the P1 branch, and its body: one line
    per row. *)
Definition readLineP1 (width y : Z) (st : Reader * list (list bool))
    : exec (Reader * list (list bool)) :=
  let '(reader, data) := st in
  '(line, err, reader) ← ReadString reader;
  if err : bool then Err (ErrReadRow y) else
  data ← readRowP1 width y (Fields line) data;
  Ret (reader, data).

Definition readRowsP1 (width height : Z) (reader : Reader)
    (data : list (list bool)) : exec (list (list bool)) :=
  snd <$> forM (range 0 height) (reader, data) (readLineP1 width).

(** The loop over the rows of the P4 branch: one [Read] per row. *)
Definition readRowsP4 (width height : Z) (reader : Reader)
    (data : list (list bool)) : exec (list (list bool)) :=
  let expectedBytesPerRow := Z.quot (int_add width 7) 8 in
  snd <$> forM (range 0 height) (reader, data) (fun y '(reader, data) =>
    _ ← make zero expectedBytesPerRow;
    let '(got, err, reader) := Read reader (Z.to_nat expectedBytesPerRow) in
    if err : bool then Err (ErrUnexpectedEOF y) else
    if len got <? expectedBytesPerRow
    then Err (ErrShortRow y expectedBytesPerRow (len got)) else
    data ← readRowP4 width y (filled (Z.to_nat expectedBytesPerRow) got) data;
    Ret (reader, data)).

(** [data := make([][]bool, height)] and a row of [width] for each. *)
Definition makeRows (width height : Z) : exec (list (list bool)) :=
  data ← make [] height;
  forM (range 0 (len data)) data (fun i data =>
    row ← make false width; store data i row).

(** [ReadPBM], from the content of the opened file. *)
Definition ReadPBM (content : list ascii) : exec t :=
  let reader := NewReader content in
  '(magicNumber, err, reader) ← ReadString reader;
  if err : bool then Err ErrReadMagic else
  let magicNumber := string_of_list_ascii (TrimSpace magicNumber) in
  if negb (magicNumber =? "P1")%string && negb (magicNumber =? "P4")%string
  then Err (ErrInvalidMagic magicNumber) else
  '(dimensions, err, reader) ← ReadString reader;
  if err : bool then Err ErrReadDimensions else
  match Sscanf_d_d (TrimSpace dimensions) with
  | None => Err ErrScanDimensions
  | Some (width, height) =>
      data ← makeRows width height;
      data ←
        (if (magicNumber =? "P1")%string then readRowsP1 width height reader data
         else if (magicNumber =? "P4")%string then readRowsP4 width height reader data
         else Ret data);
      Ret (mk data width height magicNumber)
  end.

(** [At] and [Set] index the buffer without any check of their own.
    ([Set] is a reserved word here, hence [Set_].) *)
Definition At (pbm : t) (x y : Z) : exec bool := index2 (data pbm) y x.

Definition Set_ (pbm : t) (x y : Z) (value : bool) : exec t :=
  data ← store2 (data pbm) y x value;
  Ret (mk data (width pbm) (height pbm) (magicNumber pbm)).

(** [saveP1]: the text written after the header. *)
Definition saveP1 (pbm : t) : exec (list ascii) :=
  forM (range 0 (height pbm)) [] (fun y out =>
    out ← forM (range 0 (width pbm)) out (fun x out =>
      v ← index2 (data pbm) y x;
      let out := out ++ (if v : bool then str "1" else str "0") in
      Ret (if x <? int_sub (width pbm) 1 then out ++ str " " else out));
    Ret (out ++ [NL])).

(** [saveP4]: the packed rows written after the header. *)
Definition saveP4 (pbm : t) : exec (list ascii) :=
  let expectedBytesPerRow := Z.quot (int_add (width pbm) 7) 8 in
  forM (range 0 (height pbm)) [] (fun y out =>
    row ← make zero expectedBytesPerRow;
    row ← forM (range 0 (width pbm)) row (fun x row =>
      let byteIndex := Z.quot x 8 in
      let bitIndex := 7 - Z.rem x 8 in
      v ← index2 (data pbm) y x;
      if v : bool then
        b ← index row byteIndex;
        store row byteIndex (byte_of_Z (Z.lor (Z_of_byte b) (Z.shiftl 1 bitIndex)))
      else Ret row);
    Ret (out ++ row)).

(** [Save]: the content of the file when [Save] returns [nil]. *)
Definition Save (pbm : t) : exec (list ascii) :=
  let header := str (magicNumber pbm) ++ [NL] ++ format_d (width pbm) ++ str " "
                ++ format_d (height pbm) ++ [NL] in
  if (magicNumber pbm =? "P1")%string then body ← saveP1 pbm; Ret (header ++ body)
  else if (magicNumber pbm =? "P4")%string then body ← saveP4 pbm; Ret (header ++ body)
  else Err (ErrUnsupportedMagic (magicNumber pbm)).

Definition Invert (pbm : t) : exec t :=
  data ← forM (range 0 (height pbm)) (data pbm) (fun y data =>
    forM (range 0 (width pbm)) data (fun x data =>
      v ← index2 data y x; store2 data y x (negb v)));
  Ret (mk data (width pbm) (height pbm) (magicNumber pbm)).

Definition Size (pbm : t) : Z * Z := (width pbm, height pbm).

(** [Flip]: in every row the samples [x] and [width-x-1] are
    exchanged, for [x] below [width/2]. *)
Definition Flip (pbm : t) : exec t :=
  data ← forM (range 0 (height pbm)) (data pbm) (fun y data =>
    forM (range 0 (Z.quot (width pbm) 2)) data (fun x data =>
      let x' := int_sub (int_sub (width pbm) x) 1 in
      a ← index2 data y x';
      b ← index2 data y x;
      data ← store2 data y x a;
      store2 data y x' b));
  Ret (mk data (width pbm) (height pbm) (magicNumber pbm)).

(** [Flop]: the rows [y] and [height-y-1] are exchanged, for [y]
    below [height/2]. *)
Definition Flop (pbm : t) : exec t :=
  data ← forM (range 0 (Z.quot (height pbm) 2)) (data pbm) (fun y data =>
    let y' := int_sub (int_sub (height pbm) y) 1 in
    a ← index data y';
    b ← index data y;
    data ← store data y a;
    store data y' b);
  Ret (mk data (width pbm) (height pbm) (magicNumber pbm)).

Definition SetMagicNumber (pbm : t) (magicNumber : string) : t :=
  mk (data pbm) (width pbm) (height pbm) magicNumber.

End PBM.

(** * pgm.go *)

Module PGM.

Record t : Type := mk {
  data : list (list Z);
  width : Z;
  height : Z;
  magicNumber : string;
  max : Z
}.

(** One row of the P2 branch of [ReadPGM], and the step for one
    field. *)
Definition readFieldP2 (width y : Z) (field : list ascii) (st : Z * list Z)
    : exec (Z * list Z) :=
  let '(x, rowData) := st in
  if width <=? x then Err (ErrIndexOutOfRange y)
  else match Sscanf_d_uint8 field with
       | None => Err (ErrParsePixel y x)
       | Some pixelValue =>
           rowData ← store rowData x pixelValue;
           Ret (x + 1, rowData)
       end.

Definition readRowP2 (width y : Z) (fields : list (list ascii))
    (rowData : list Z) : exec (list Z) :=
  snd <$> forM fields (0, rowData) (readFieldP2 width y).

(** One row of the P5 branch. *)
Definition readRowP5 (width expectedBytesPerPixel : Z) (row : list ascii)
    (rowData : list Z) : exec (list Z) :=
  forM (range 0 width) rowData (fun x rowData =>
    b ← index row (int_mul x expectedBytesPerPixel);
    store rowData x (Z_of_byte b)).

(** The loop over the rows of the P2 branch, and its body: one line
    per row. *)
Definition readLineP2 (width y : Z) (st : Reader * list (list Z))
    : exec (Reader * list (list Z)) :=
  let '(reader, data) := st in
  '(line, err, reader) ← ReadString reader;
  if err : bool then Err (ErrReadRow y) else
  rowData ← make 0 width;
  rowData ← readRowP2 width y (Fields line) rowData;
  data ← store data y rowData;
  Ret (reader, data).

Definition readRowsP2 (width height : Z) (reader : Reader)
    (data : list (list Z)) : exec (list (list Z)) :=
  snd <$> forM (range 0 height) (reader, data) (readLineP2 width).

(** The loop over the rows of the P5 branch: one [Read] per row. *)
Definition readRowsP5 (width height expectedBytesPerPixel : Z) (reader : Reader)
    (data : list (list Z)) : exec (list (list Z)) :=
  let n := int_mul width expectedBytesPerPixel in
  snd <$> forM (range 0 height) (reader, data) (fun y '(reader, data) =>
    _ ← make zero n;
    let '(got, err, reader) := Read reader (Z.to_nat n) in
    if err : bool then Err (ErrUnexpectedEOF y) else
    if len got <? n then Err (ErrShortRow y n (len got)) else
    rowData ← make 0 width;
    rowData ← readRowP5 width expectedBytesPerPixel (filled (Z.to_nat n) got) rowData;
    data ← store data y rowData;
    Ret (reader, data)).

(** [ReadPGM], from the content of the opened file. *)
Definition ReadPGM (content : list ascii) : exec t :=
  let reader := NewReader content in
  '(magicNumber, err, reader) ← ReadString reader;
  if err : bool then Err ErrReadMagic else
  let magicNumber := string_of_list_ascii (TrimSpace magicNumber) in
  if negb (magicNumber =? "P2")%string && negb (magicNumber =? "P5")%string
  then Err (ErrInvalidMagic magicNumber) else
  '(dimensions, err, reader) ← ReadString reader;
  if err : bool then Err ErrReadDimensions else
  match Sscanf_d_d (TrimSpace dimensions) with
  | None => Err ErrScanDimensions
  | Some (width, height) =>
      if (width <=? 0) || (height <=? 0) then Err ErrNonPositiveDimensions else
      '(maxValue, err, reader) ← ReadString reader;
      if err : bool then Err ErrReadMaxValue else
      match Sscanf_d_uint8 (TrimSpace maxValue) with
      | None => Err ErrInvalidMaxValue
      | Some max =>
          data ← make [] height;
          let expectedBytesPerPixel := 1 in
          data ←
            (if (magicNumber =? "P2")%string then readRowsP2 width height reader data
             else if (magicNumber =? "P5")%string
             then readRowsP5 width height expectedBytesPerPixel reader data
             else Ret data);
          Ret (mk data width height magicNumber max)
      end
  end.

Definition inside (pgm : t) (x y : Z) : bool :=
  (0 <=? x) && (x <? width pgm) && (0 <=? y) && (y <? height pgm).

Definition At (pgm : t) (x y : Z) : exec Z :=
  if inside pgm x y then index2 (data pgm) y x else Ret 0.

(** [Set] ([Set_]): nothing happens outside the image. *)
Definition Set_ (pgm : t) (x y : Z) (value : Z) : exec t :=
  if inside pgm x y then
    data ← store2 (data pgm) y x value;
    Ret (mk data (width pgm) (height pgm) (magicNumber pgm) (max pgm))
  else Ret pgm.

Definition saveP2PGM (pgm : t) : exec (list ascii) :=
  forM (range 0 (height pgm)) [] (fun y out =>
    out ← forM (range 0 (width pgm)) out (fun x out =>
      v ← index2 (data pgm) y x;
      let out := out ++ format_d v in
      Ret (if x <? int_sub (width pgm) 1 then out ++ str " " else out));
    Ret (out ++ [NL])).

Definition saveP5PGM (pgm : t) : exec (list ascii) :=
  forM (range 0 (height pgm)) [] (fun y out =>
    row ← make zero (width pgm);
    row ← forM (range 0 (width pgm)) row (fun x row =>
      v ← index2 (data pgm) y x;
      store row x (byte_of_Z v));
    Ret (out ++ row)).

(** [Save]: the content of the file when [Save] returns [nil]. *)
Definition Save (pgm : t) : exec (list ascii) :=
  let header := str (magicNumber pgm) ++ [NL]
                ++ format_d (width pgm) ++ str " " ++ format_d (height pgm) ++ [NL]
                ++ format_d (max pgm) ++ [NL] in
  if forallb (fun row => len row =? width pgm) (data pgm) then
    if (magicNumber pgm =? "P2")%string then body ← saveP2PGM pgm; Ret (header ++ body)
    else if (magicNumber pgm =? "P5")%string then body ← saveP5PGM pgm; Ret (header ++ body)
    else Ret header
  else Err ErrInconsistentRow.

(** [Invert] ranges over the buffer itself. *)
Definition Invert (pgm : t) : t :=
  mk (map (map (fun v => uint8 (uint8 (max pgm) - v))) (data pgm))
     (width pgm) (height pgm) (magicNumber pgm) (max pgm).

Definition SetMaxValue (pgm : t) (maxValue : Z) : exec t :=
  data ← forM (range 0 (height pgm)) (data pgm) (fun y data =>
    forM (range 0 (width pgm)) data (fun x data =>
      v ← index2 data y x;
      let scaledValue := fdiv (fmul (float64_of_int v) (float64_of_int maxValue))
                              (float64_of_int (max pgm)) in
      let newValue := uint8_of_float64 scaledValue in
      store2 data y x newValue));
  Ret (mk data (width pgm) (height pgm) (magicNumber pgm) maxValue).

Definition Size (pgm : t) : Z * Z := (width pgm, height pgm).

(** The loop of [Flip] on one row: [j] runs up from 0 and [k] down
    from [len-1], the two samples being exchanged while [j < k].
    [fuel] bounds the iterations. *)
Fixpoint flipRow (fuel : nat) (j k : Z) (row : list Z) : exec (list Z) :=
  if j <? k then
    match fuel with
    | O => NoFuel
    | S fuel' =>
        a ← index row k;
        b ← index row j;
        row ← store row j a;
        row ← store row k b;
        flipRow fuel' (int_add j 1) (int_sub k 1) row
    end
  else Ret row.

(** [Flip] ranges over the buffer itself; a row of [n] samples takes
    [n/2] exchanges. *)
Definition Flip (pgm : t) : exec t :=
  data ← forM (range 0 (len (data pgm))) (data pgm) (fun i data =>
    row ← index data i;
    row ← flipRow (length row) 0 (int_sub (len row) 1) row;
    store data i row);
  Ret (mk data (width pgm) (height pgm) (magicNumber pgm) (max pgm)).

Definition Flop (pgm : t) : exec t :=
  data ← forM (range 0 (Z.quot (height pgm) 2)) (data pgm) (fun i data =>
    let i' := int_sub (int_sub (height pgm) i) 1 in
    a ← index data i';
    b ← index data i;
    data ← store data i a;
    store data i' b);
  Ret (mk data (width pgm) (height pgm) (magicNumber pgm) (max pgm)).

Definition SetMagicNumber (pgm : t) (magicNumber : string) : t :=
  mk (data pgm) (width pgm) (height pgm) magicNumber (max pgm).

(** [Rotate90CW]: nothing happens unless both dimensions are positive;
    the new row [i] holds, at [j], the sample of row [height-j-1],
    column [i]. *)
Definition Rotate90CW (pgm : t) : exec t :=
  if (width pgm <=? 0) || (height pgm <=? 0) then Ret pgm else
  newData ← make [] (width pgm);
  newData ← forM (range 0 (width pgm)) newData (fun i newData =>
    row ← make 0 (height pgm);
    newData ← store newData i row;
    forM (range 0 (height pgm)) newData (fun j newData =>
      v ← index2 (data pgm) (int_sub (int_sub (height pgm) j) 1) i;
      store2 newData i j v));
  Ret (mk newData (height pgm) (width pgm) (magicNumber pgm) (max pgm)).

(** [ToPBM]: a sample is ink when it is below half the maximum. *)
Definition ToPBM (pgm : t) : exec PBM.t :=
  bits ← make [] (height pgm);
  bits ← forM (range 0 (height pgm)) bits (fun y bits =>
    row ← make false (width pgm);
    bits ← store bits y row;
    forM (range 0 (width pgm)) bits (fun x bits =>
      v ← index2 (data pgm) y x;
      store2 bits y x (v <? uint8 (Z.quot (max pgm) 2))));
  Ret (PBM.mk bits (width pgm) (height pgm) "P1").

End PGM.

(** * ppm.go *)

Module PPM.

Record t : Type := mk {
  data : list (list Pixel);
  width : Z;
  height : Z;
  magicNumber : string;
  max : Z
}.

Definition zeroPixel : Pixel := mkPixel 0 0 0.

(** One row of the P3 branch of [ReadPPM]: column [x] takes the
    fields [3x], [3x+1] and [3x+2] of the line. *)
Definition readRowP3 (width y : Z) (fields : list (list ascii))
    (rowData : list Pixel) : exec (list Pixel) :=
  forM (range 0 width) rowData (fun x rowData =>
    if len fields <=? int_add (int_mul x 3) 2 then Err (ErrIndexOutOfRangeAt y x) else
    fr ← index fields (int_mul x 3);
    match Sscanf_d_uint8 fr with
    | None => Err (ErrParseChannel "R" y x)
    | Some r =>
        fg ← index fields (int_add (int_mul x 3) 1);
        match Sscanf_d_uint8 fg with
        | None => Err (ErrParseChannel "G" y x)
        | Some g =>
            fb ← index fields (int_add (int_mul x 3) 2);
            match Sscanf_d_uint8 fb with
            | None => Err (ErrParseChannel "B" y x)
            | Some b => store rowData x (mkPixel r g b)
            end
        end
    end).

(** One row of the P6 branch. *)
Definition readRowP6 (width expectedBytesPerPixel : Z) (row : list ascii)
    (rowData : list Pixel) : exec (list Pixel) :=
  forM (range 0 width) rowData (fun x rowData =>
    r ← index row (int_mul x expectedBytesPerPixel);
    g ← index row (int_add (int_mul x expectedBytesPerPixel) 1);
    b ← index row (int_add (int_mul x expectedBytesPerPixel) 2);
    store rowData x (mkPixel (Z_of_byte r) (Z_of_byte g) (Z_of_byte b))).

(** The loop over the rows of the P3 branch, and its body: one line
    per row. *)
Definition readLineP3 (width y : Z) (st : Reader * list (list Pixel))
    : exec (Reader * list (list Pixel)) :=
  let '(reader, data) := st in
  '(line, err, reader) ← ReadString reader;
  if err : bool then Err (ErrReadRow y) else
  rowData ← make zeroPixel width;
  rowData ← readRowP3 width y (Fields line) rowData;
  data ← store data y rowData;
  Ret (reader, data).

Definition readRowsP3 (width height : Z) (reader : Reader)
    (data : list (list Pixel)) : exec (list (list Pixel)) :=
  snd <$> forM (range 0 height) (reader, data) (readLineP3 width).

(** The loop over the rows of the P6 branch: one [Read] per row. *)
Definition readRowsP6 (width height expectedBytesPerPixel : Z) (reader : Reader)
    (data : list (list Pixel)) : exec (list (list Pixel)) :=
  let n := int_mul width expectedBytesPerPixel in
  snd <$> forM (range 0 height) (reader, data) (fun y '(reader, data) =>
    _ ← make zero n;
    let '(got, err, reader) := Read reader (Z.to_nat n) in
    if err : bool then Err (ErrUnexpectedEOF y) else
    if len got <? n then Err (ErrShortRow y n (len got)) else
    rowData ← make zeroPixel width;
    rowData ← readRowP6 width expectedBytesPerPixel (filled (Z.to_nat n) got) rowData;
    data ← store data y rowData;
    Ret (reader, data)).

(** [ReadPPM], from the content of the opened file. *)
Definition ReadPPM (content : list ascii) : exec t :=
  let reader := NewReader content in
  '(magicNumber, err, reader) ← ReadString reader;
  if err : bool then Err ErrReadMagic else
  let magicNumber := string_of_list_ascii (TrimSpace magicNumber) in
  if negb (magicNumber =? "P3")%string && negb (magicNumber =? "P6")%string
  then Err (ErrInvalidMagic magicNumber) else
  '(dimensions, err, reader) ← ReadString reader;
  if err : bool then Err ErrReadDimensions else
  match Sscanf_d_d (TrimSpace dimensions) with
  | None => Err ErrScanDimensions
  | Some (width, height) =>
      if (width <=? 0) || (height <=? 0) then Err ErrNonPositiveDimensions else
      '(maxValue, err, reader) ← ReadString reader;
      if err : bool then Err ErrReadMaxValue else
      match Sscanf_d_uint8 (TrimSpace maxValue) with
      | None => Err ErrInvalidMaxValue
      | Some max =>
          data ← make [] height;
          let expectedBytesPerPixel := 3 in
          data ←
            (if (magicNumber =? "P3")%string then readRowsP3 width height reader data
             else if (magicNumber =? "P6")%string
             then readRowsP6 width height expectedBytesPerPixel reader data
             else Ret data);
          Ret (mk data width height magicNumber max)
      end
  end.

Definition outside (ppm : t) (x y : Z) : bool :=
  (x <? 0) || (width ppm <=? x) || (y <? 0) || (height ppm <=? y).

Definition inside (ppm : t) (x y : Z) : bool :=
  (0 <=? x) && (x <? width ppm) && (0 <=? y) && (y <? height ppm).

Definition with_data (ppm : t) (data : list (list Pixel)) : t :=
  mk data (width ppm) (height ppm) (magicNumber ppm) (max ppm).

(** [At] and [Set] ([Set_]) panic outside the image. *)
Definition At (ppm : t) (x y : Z) : exec Pixel :=
  if outside ppm x y then Panic (PanicMsg "Index out of bounds")
  else index2 (data ppm) y x.

Definition Set_ (ppm : t) (x y : Z) (value : Pixel) : exec t :=
  if outside ppm x y then Panic (PanicMsg "Index out of bounds")
  else with_data ppm <$> store2 (data ppm) y x value.

(** [Save]: the content of the file when [Save] returns [nil]. *)
Definition Save (ppm : t) : exec (list ascii) :=
  let P6 := (magicNumber ppm =? "P6")%string in
  let P3 := (magicNumber ppm =? "P3")%string in
  if P6 || P3 then
    let header := str (magicNumber ppm) ++ [NL]
                  ++ format_d (width ppm) ++ str " " ++ format_d (height ppm) ++ [NL]
                  ++ format_d (max ppm) ++ [NL] in
    forM (range 0 (height ppm)) header (fun y out =>
      out ← forM (range 0 (width ppm)) out (fun x out =>
        pixel ← index2 (data ppm) y x;
        if P6 then
          Ret (out ++ [byte_of_Z (R pixel); byte_of_Z (G pixel); byte_of_Z (B pixel)])
        else if P3 then
          Ret (out ++ format_d (R pixel) ++ str " " ++ format_d (G pixel) ++ str " "
                   ++ format_d (B pixel) ++ str " ")
        else Ret out);
      Ret (if P3 then out ++ [NL] else out))
  else Err ErrMagicNumber.

Definition Invert (ppm : t) : exec t :=
  with_data ppm <$> forM (range 0 (height ppm)) (data ppm) (fun y data =>
    forM (range 0 (width ppm)) data (fun x data =>
      pixel ← index2 data y x;
      store2 data y x
        (mkPixel (uint8 (255 - R pixel)) (uint8 (255 - G pixel)) (uint8 (255 - B pixel))))).

Definition SetMaxValue (ppm : t) (maxValue : Z) : exec t :=
  let scale (c : Z) : Z :=
    uint8_of_float64 (fdiv (fmul (float64_of_int c) (float64_of_int maxValue))
                           (float64_of_int (max ppm))) in
  data ← forM (range 0 (height ppm)) (data ppm) (fun y data =>
    forM (range 0 (width ppm)) data (fun x data =>
      p ← index2 data y x;
      data ← store2 data y x (mkPixel (scale (R p)) (G p) (B p));
      p ← index2 data y x;
      data ← store2 data y x (mkPixel (R p) (scale (G p)) (B p));
      p ← index2 data y x;
      store2 data y x (mkPixel (R p) (G p) (scale (B p)))));
  Ret (mk data (width ppm) (height ppm) (magicNumber ppm) maxValue).

(** [SetPixel]: nothing happens outside the image. *)
Definition SetPixel (ppm : t) (p : Point) (color : Pixel) : exec t :=
  if inside ppm (X p) (Y p)
  then with_data ppm <$> store2 (data ppm) (Y p) (X p) color
  else Ret ppm.

Definition abs (x : Z) : Z := if x <? 0 then int_neg x else x.

(** The [for] loop of [DrawLine]; [fuel] bounds its iterations. *)
Fixpoint DrawLine_loop (fuel : nat) (ppm : t) (x1 y1 x2 y2 dx dy sx sy err : Z)
    (color : Pixel) : exec t :=
  match fuel with
  | O => NoFuel
  | S fuel' =>
      ppm ← SetPixel ppm (mkPoint x1 y1) color;
      if (x1 =? x2) && (y1 =? y2) then Ret ppm else
      let e2 := int_mul 2 err in
      let '(err, x1) := if e2 >? int_neg dy then (int_sub err dy, int_add x1 sx)
                        else (err, x1) in
      let '(err, y1) := if e2 <? dx then (int_add err dx, int_add y1 sy)
                        else (err, y1) in
      DrawLine_loop fuel' ppm x1 y1 x2 y2 dx dy sx sy err color
  end.

Definition DrawLine (fuel : nat) (ppm : t) (p1 p2 : Point) (color : Pixel) : exec t :=
  let '(x1, y1) := (X p1, Y p1) in
  let '(x2, y2) := (X p2, Y p2) in
  let dx := abs (int_sub x2 x1) in
  let dy := abs (int_sub y2 y1) in
  let sx := if x1 <? x2 then 1 else -1 in
  let sy := if y1 <? y2 then 1 else -1 in
  let err := int_sub dx dy in
  DrawLine_loop fuel ppm x1 y1 x2 y2 dx dy sx sy err color.

Definition DrawRectangle (fuel : nat) (ppm : t) (p1 : Point) (width height : Z)
    (color : Pixel) : exec t :=
  let p2 := mkPoint (int_add (X p1) width) (Y p1) in
  let p3 := mkPoint (int_add (X p1) width) (int_add (Y p1) height) in
  let p4 := mkPoint (X p1) (int_add (Y p1) height) in
  ppm ← DrawLine fuel ppm p1 p2 color;
  ppm ← DrawLine fuel ppm p2 p3 color;
  ppm ← DrawLine fuel ppm p3 p4 color;
  DrawLine fuel ppm p4 p1 color.

(** [for w := width; w > 0; w--], with [p1.X++] after each rectangle. *)
Definition DrawFilledRectangle (fuel : nat) (ppm : t) (p1 : Point) (width height : Z)
    (color : Pixel) : exec t :=
  if (width <=? 0) || (height <=? 0) then Ret ppm else
  snd <$> forM (range 0 width) (p1, ppm) (fun k '(p1, ppm) =>
    let w := width - k in
    ppm ← DrawRectangle fuel ppm p1 w height color;
    Ret (mkPoint (int_add (X p1) 1) (Y p1), ppm)).

Definition setPixel (ppm : t) (x y : Z) (color : Pixel) : exec t :=
  if inside ppm x y
  then with_data ppm <$> store2 (data ppm) y x color
  else Ret ppm.

(** The first half of [DrawFilledPolygon]: the table [xco] of the
    x-intersections of each scanline, filled edge by edge. *)
Definition polygon_bounds (points : list Point) (p0 : Point) : Z * Z :=
  fold_left (fun '(minY, maxY) point =>
    let minY := if Y point <? minY then Y point else minY in
    let maxY := if Y point >? maxY then Y point else maxY in
    (minY, maxY)) points (Y p0, Y p0).

Definition polygon_xco (points : list Point) (minY maxY : Z) : exec (list (list Z)) :=
  xco ← make [] (int_add (int_sub maxY minY) 1);
  forM (range 0 (len points)) xco (fun i xco =>
    p1 ← index points i;
    p2 ← index points (Z.rem (int_add i 1) (len points));
    let '(start, end_) := if Y p1 <=? Y p2 then (p1, p2) else (p2, p1) in
    let slope := fdiv (float64_of_int (int_sub (X end_) (X start)))
                      (float64_of_int (int_sub (Y end_) (Y start))) in
    let x := float64_of_int (X start) in
    snd <$> forM (range (Y start) (Y end_ + 1)) (x, xco) (fun y '(x, xco) =>
      let i := int_sub y minY in
      row ← index xco i;
      xco ← store xco i (row ++ [int_of_float64 (fadd x half)]);
      Ret (fadd x slope, xco))).

(** The second half: rows are taken two at a time; on the first row of
    each couple [j] advances by 2, on the second by 1. *)
Definition polygon_draw (fuel : nat) (ppm : t) (xco : list (list Z)) (minY : Z)
    (color : Pixel) : exec t :=
  forM (range_by 0 (len xco) 2) ppm (fun i ppm =>
    row ← index xco i;
    ppm ← forM (range_by 0 (int_sub (len row) 1) 2) ppm (fun j ppm =>
      a ← index row j;
      b ← index row (int_add j 1);
      DrawLine fuel ppm (mkPoint a (int_add i minY)) (mkPoint b (int_add i minY)) color);
    if int_add i 1 <? len xco then
      row ← index xco (int_add i 1);
      forM (range 0 (int_sub (len row) 1)) ppm (fun j ppm =>
        a ← index row j;
        b ← index row (int_add j 1);
        DrawLine fuel ppm (mkPoint a (int_add (int_add i minY) 1))
                          (mkPoint b (int_add (int_add i minY) 1)) color)
    else Ret ppm).

Definition DrawFilledPolygon (fuel : nat) (ppm : t) (points : list Point)
    (color : Pixel) : exec t :=
  p0 ← index points 0;
  let '(minY, maxY) := polygon_bounds points p0 in
  xco ← polygon_xco points minY maxY;
  polygon_draw fuel ppm xco minY color.

Definition Size (ppm : t) : Z * Z := (width ppm, height ppm).

(** [Flip]: in every row the pixels [x] and [width-x-1] are
    exchanged, for [x] below [width/2]. *)
Definition Flip (ppm : t) : exec t :=
  with_data ppm <$> forM (range 0 (height ppm)) (data ppm) (fun y data =>
    forM (range 0 (Z.quot (width ppm) 2)) data (fun x data =>
      let x' := int_sub (int_sub (width ppm) x) 1 in
      a ← index2 data y x';
      b ← index2 data y x;
      data ← store2 data y x a;
      store2 data y x' b)).

Definition Flop (ppm : t) : exec t :=
  with_data ppm <$> forM (range 0 (Z.quot (height ppm) 2)) (data ppm) (fun y data =>
    let y' := int_sub (int_sub (height ppm) y) 1 in
    a ← index data y';
    b ← index data y;
    data ← store data y a;
    store data y' b).

Definition SetMagicNumber (ppm : t) (magicNumber : string) : t :=
  mk (data ppm) (width ppm) (height ppm) magicNumber (max ppm).

(** [Rotate90CW]: a buffer of [width] rows of [height] pixels, in
    which the pixel (x, y) of the image goes to row [x], column
    [height-y-1]. *)
Definition Rotate90CW (ppm : t) : exec t :=
  newData ← make [] (width ppm);
  newData ← forM (range 0 (len newData)) newData (fun i newData =>
    row ← make zeroPixel (height ppm); store newData i row);
  newData ← forM (range 0 (height ppm)) newData (fun y newData =>
    forM (range 0 (width ppm)) newData (fun x newData =>
      v ← index2 (data ppm) y x;
      store2 newData x (int_sub (int_sub (height ppm) y) 1) v));
  Ret (mk newData (height ppm) (width ppm) (magicNumber ppm) (max ppm)).

(** [ToPGM]: the gray value is the integer mean of the channels. *)
Definition ToPGM (ppm : t) : exec PGM.t :=
  grays ← make [] (height ppm);
  grays ← forM (range 0 (len grays)) grays (fun i grays =>
    row ← make 0 (width ppm); store grays i row);
  grays ← forM (range 0 (height ppm)) grays (fun y grays =>
    forM (range 0 (width ppm)) grays (fun x grays =>
      p ← index2 (data ppm) y x;
      let gray := uint8 (Z.quot (int_add (int_add (R p) (G p)) (B p)) 3) in
      store2 grays y x gray));
  Ret (PGM.mk grays (width ppm) (height ppm) "P2" (max ppm)).

(** [ToPBM]: a pixel is ink when the mean of its channels is below
    half the maximum. *)
Definition ToPBM (ppm : t) : exec PBM.t :=
  bits ← make [] (height ppm);
  bits ← forM (range 0 (len bits)) bits (fun i bits =>
    row ← make false (width ppm); store bits i row);
  let threshold := uint8 (Z.quot (max ppm) 2) in
  bits ← forM (range 0 (height ppm)) bits (fun y bits =>
    forM (range 0 (width ppm)) bits (fun x bits =>
      p ← index2 (data ppm) y x;
      let average :=
        Z.quot (uint16 (uint16 (uint16 (R p) + uint16 (G p)) + uint16 (B p))) 3 in
      store2 bits y x (average <? uint16 threshold)));
  Ret (PBM.mk bits (width ppm) (height ppm) "P1").

Definition clamp (value min max : Z) : Z :=
  if value <? min then min else if value >? max then max else value.

(** [drawHorizontalLine]: nothing on a row outside the image;
    otherwise both ends are brought inside [0, width-1] and every
    cell between them is set. *)
Definition drawHorizontalLine (ppm : t) (x1 x2 y : Z) (color : Pixel) : exec t :=
  if (y <? 0) || (height ppm <=? y) then Ret ppm else
  let '(x1, x2) := if x1 >? x2 then (x2, x1) else (x1, x2) in
  let x1 := clamp x1 0 (int_sub (width ppm) 1) in
  let x2 := clamp x2 0 (int_sub (width ppm) 1) in
  forM (range x1 (x2 + 1)) ppm (fun x ppm => setPixel ppm x y color).

Definition DrawTriangle (fuel : nat) (ppm : t) (p1 p2 p3 : Point) (color : Pixel)
    : exec t :=
  ppm ← DrawLine fuel ppm p1 p2 color;
  ppm ← DrawLine fuel ppm p2 p3 color;
  DrawLine fuel ppm p3 p1 color.

(** [DrawPolygon]: the lines between consecutive points, then the line
    from the last point back to the first. *)
Definition DrawPolygon (fuel : nat) (ppm : t) (points : list Point) (color : Pixel)
    : exec t :=
  ppm ← forM (range 0 (int_sub (len points) 1)) ppm (fun i ppm =>
    p ← index points i;
    q ← index points (int_add i 1);
    DrawLine fuel ppm p q color);
  p ← index points (int_sub (len points) 1);
  q ← index points 0;
  DrawLine fuel ppm p q color.

End PPM.

(** * Sample images and streams *)

Definition white : Pixel := mkPixel 255 255 255.
Definition black : Pixel := mkPixel 0 0 0.

(** A white P3 canvas of [w] by [h] pixels. *)
Definition canvas (w h : nat) : PPM.t :=
  PPM.mk (replicate h (replicate w white)) (Z.of_nat w) (Z.of_nat h) "P3" 255.

(** One pixel, dimmer than the image's maximum of 100. *)
Definition dim_ppm : PPM.t := PPM.mk [[mkPixel 10 20 30]] 1 1 "P3" 100.
Definition dim_pgm : PGM.t := PGM.mk [[10; 20; 30]] 3 1 "P2" 100.
Definition dots_pbm : PBM.t := PBM.mk [[true; false]; [false; true]] 2 2 "P1".

(** The 2x2 bitmap of the round-trip scenario. *)
Definition dots_stream : list ascii := str "P1
2 2
1 0
0 1
".

(** A P5 image of one row of 5000 samples, and its file. *)
Definition wide_pgm : PGM.t := PGM.mk [replicate 5000 0] 5000 1 "P5" 255.
Definition wide_stream : list ascii := str "P5
5000 1
255
" ++ replicate 5000 zero.

(** Streams with dimensions that are not positive. *)
Definition empty_p1 : list ascii := str "P1
0 0
".
Definition negative_p4 : list ascii := str "P4
-1 -1
".
Definition empty_p2 : list ascii := str "P2
0 0
255
".
Definition empty_p6 : list ascii := str "P6
0 0
255
".

(** Streams whose samples exceed the maximum of their header. *)
Definition bright_p2 : list ascii := str "P2
1 1
100
200
".
Definition bright_p5 : list ascii := str "P5
1 1
100
" ++ [byte_of_Z 200].
Definition bright_p3 : list ascii := str "P3
1 1
100
200 0 0
".
Definition bright_p6 : list ascii := str "P6
1 1
100
" ++ [byte_of_Z 200; zero; zero].


(** Two towers joined along the line y = 0: every scanline between
    the top and the bottom meets the four vertical edges at
    x = 0, 1, 3, 4, in this order. *)
Definition towers : list Point :=
  [mkPoint 0 0; mkPoint 0 3; mkPoint 1 3; mkPoint 1 0;
   mkPoint 3 0; mkPoint 3 3; mkPoint 4 3; mkPoint 4 0].

(** The pixel of an image at column [x] of row [y], if any. *)
Definition pixel_at (ppm : PPM.t) (x y : Z) : option Pixel :=
  PPM.data ppm !! Z.to_nat y ≫= fun row => row !! Z.to_nat x.

(** The second half of the polygon fill as the specification words
    it: on every scanline the entries are paired 0-1, 2-3, ... and a
    span is drawn between the two entries of each pair. *)
Definition spec_polygon_draw (fuel : nat) (ppm : PPM.t) (xco : list (list Z)) (minY : Z)
    (color : Pixel) : exec PPM.t :=
  forM (range 0 (len xco)) ppm (fun i ppm =>
    row ← index xco i;
    forM (range_by 0 (int_sub (len row) 1) 2) ppm (fun j ppm =>
      a ← index row j;
      b ← index row (int_add j 1);
      PPM.DrawLine fuel ppm (mkPoint a (int_add i minY)) (mkPoint b (int_add i minY)) color)).

(** A canvas of [w] by [h]: the fields and the buffer agree. *)
Definition is_canvas (ppm : PPM.t) (w h : Z) : Prop :=
  PPM.width ppm = w /\ PPM.height ppm = h /\ rect (PPM.data ppm) w h.

(** ** The line of the specification *)

(** The line as the specification words it, on the integers: from the
    state (x, y, err) the point (x, y) is plotted; unless it is the
    endpoint, x is stepped when 2 err > -dy (and err decreased by dy),
    and y is stepped when 2 err < dx (and err increased by dx), both
    tests being made on the same 2 err. *)
Section Bresenham.
Variables x2 y2 dx dy sx sy : Z.

Definition bres_next (s : Z * Z * Z) : Z * Z * Z :=
  let '(x, y, err) := s in
  let stepx := 2 * err >? - dy in
  let stepy := 2 * err <? dx in
  (if stepx then x + sx else x,
   if stepy then y + sy else y,
   err - (if stepx then dy else 0) + (if stepy then dx else 0)).

Inductive bres_trace : Z * Z * Z -> list Point -> Prop :=
| bres_stop (x y err : Z) :
    x = x2 -> y = y2 -> bres_trace (x, y, err) [mkPoint x y]
| bres_step (x y err : Z) (pts : list Point) :
    ~ (x = x2 /\ y = y2) ->
    bres_trace (bres_next (x, y, err)) pts ->
    bres_trace (x, y, err) (mkPoint x y :: pts).
End Bresenham.

(** dx = |x2 - x1|, dy = |y2 - y1|, the step signs from the order of
    the coordinates, and the initial error dx - dy. *)
Definition spec_line (p1 p2 : Point) (pts : list Point) : Prop :=
  let dx := Z.abs (X p2 - X p1) in
  let dy := Z.abs (Y p2 - Y p1) in
  let sx := if X p1 <? X p2 then 1 else -1 in
  let sy := if Y p1 <? Y p2 then 1 else -1 in
  bres_trace (X p2) (Y p2) dx dy sx sy (X p1, Y p1, dx - dy) pts.

(** Plotting a list of points, one [SetPixel] each. *)
Definition plot (ppm : PPM.t) (pts : list Point) (color : Pixel) : exec PPM.t :=
  forM pts ppm (fun p ppm => PPM.SetPixel ppm p color).

(** Coordinates far from the ends of the [int] range. *)
Definition coord (z : Z) : Prop := - 2 ^ 59 <= z <= 2 ^ 59.


#[global] Instance Point_eq_dec : EqDecision Point.
Proof. solve_decision. Defined.

(** ** Reading a stream line by line *)

(** The buffer holds a prefix of what is left, and the file is
    exhausted once it has answered [io.EOF]. *)
Definition reader_ok (b : Reader) : Prop :=
  (nbuf b <= length (rest b))%nat /\ (eof b = true -> nbuf b = length (rest b)).

(** No byte of [s] is a newline. *)
Definition no_newline (s : list ascii) : Prop := Forall (fun c => isNL c = false) s.

(* Literal strings are kept folded in goals. *)
Arguments str : simpl never.

(** The text of some rows, one line each. *)
Definition lines (rows : list (list ascii)) : list ascii :=
  concat (map (fun l => l ++ [NL]) rows).








(** Name the elements of a list [l] whose length [H] gives. *)
Ltac list_of_length l H :=
  repeat (let a := fresh "a" in destruct l as [|a l]; simpl in H; try lia);
  clear H.

(** ** Cells of a buffer *)

(** The sample at column [x] of row [y], if there is one. *)
Definition cell {A : Type} (d : list (list A)) (x y : Z) : option A :=
  d !! Z.to_nat y ≫= fun row => row !! Z.to_nat x.

(** Samples and pixels within the range of a byte. *)
Definition is_byte (z : Z) : bool := (0 <=? z) && (z <? 256).

Definition byte_pixel (p : Pixel) : bool := is_byte (R p) && is_byte (G p) && is_byte (B p).

(** The 255-complement of a pixel, in [uint8] arithmetic. *)
Definition complement (p : Pixel) : Pixel :=
  mkPixel (uint8 (255 - R p)) (uint8 (255 - G p)) (uint8 (255 - B p)).

(** Bitmaps, gray maps and pixel maps whose buffer has the size their
    fields announce. *)
Definition PBM_ok (pbm : PBM.t) : Prop :=
  rect (PBM.data pbm) (PBM.width pbm) (PBM.height pbm).

Definition PGM_ok (pgm : PGM.t) : Prop :=
  rect (PGM.data pgm) (PGM.width pgm) (PGM.height pgm).

Definition PPM_ok (ppm : PPM.t) : Prop :=
  rect (PPM.data ppm) (PPM.width ppm) (PPM.height ppm).

(** A length or a dimension that is an [int]. *)
Definition int_size (n : Z) : Prop := n < 2 ^ 63.

(** A gray map and a pixel map of two rows of three samples. *)
Definition steps_pgm : PGM.t := PGM.mk [[1; 2; 3]; [4; 5; 6]] 3 2 "P2" 9.

Definition steps_ppm : PPM.t :=
  PPM.mk [[mkPixel 1 2 3; mkPixel 4 5 6; mkPixel 7 8 9];
          [mkPixel 10 11 12; mkPixel 13 14 15; mkPixel 250 250 251]] 3 2 "P3" 255.

Definition steps_pbm : PBM.t :=
  PBM.mk [[true; false; false]; [false; true; true]] 3 2 "P1".

(** Discharge the rectangularity of a literal buffer. *)
Ltac literal_rect :=
  unfold PBM_ok, PGM_ok, PPM_ok, rect, int_size; simpl; repeat split; try lia;
  repeat constructor.


(** ** Quarter turns *)

(** Column [i] of a buffer, from the first row to the last. *)
Definition column {A : Type} (d : list (list A)) (i : nat) : list A :=
  omap (fun row => row !! i) d.

(** The buffer of [w] columns turned a quarter clockwise: its row [i]
    is the column [i] read from the bottom row to the top row. *)
Definition rotate_cw {A : Type} (d : list (list A)) (w : Z) : list (list A) :=
  map (fun i => column (reverse d) i) (seq 0 (Z.to_nat w)).

(** ** Conversions *)

(** The integer mean of the three channels of a pixel. *)
Definition mean (p : Pixel) : Z := (R p + G p + B p) / 3.

(** Ink is a value below half the maximum. *)
Definition ink (max v : Z) : bool := v <? uint8 (Z.quot max 2).

(** ** Painted regions *)

(** [ppm'] is the canvas [ppm] of [w] by [h] with the cells of
    [region] painted in [color]. *)
Definition paints (w h : Z) (ppm ppm' : PPM.t) (region : Z -> Z -> bool) (color : Pixel)
    : Prop :=
  is_canvas ppm' w h /\
  forall x y, 0 <= x < w -> 0 <= y < h ->
    pixel_at ppm' x y = if region x y then Some color else pixel_at ppm x y.

(** The cells of the horizontal segment between the columns [a] and
    [b] of row [r], and of the vertical segment between the rows [a]
    and [b] of column [c], the ends in either order. *)
Definition hseg (a b r : Z) (x y : Z) : bool :=
  (y =? r) && (Z.min a b <=? x) && (x <=? Z.max a b).

Definition vseg (a b c : Z) (x y : Z) : bool :=
  (x =? c) && (Z.min a b <=? y) && (y <=? Z.max a b).

(** The cells of the closed box between two opposite corners, and the
    cells of its border. *)
Definition box (x0 y0 x1 y1 : Z) (x y : Z) : bool :=
  (Z.min x0 x1 <=? x) && (x <=? Z.max x0 x1) &&
  (Z.min y0 y1 <=? y) && (y <=? Z.max y0 y1).

Definition border (x0 y0 x1 y1 : Z) (x y : Z) : bool :=
  box x0 y0 x1 y1 x y && ((x =? x0) || (x =? x1) || (y =? y0) || (y =? y1)).

(** ** Decoded rows *)

(** A row of [w] samples that satisfy [P]. *)
Definition row_of {A : Type} (P : A -> Prop) (w : Z) (row : list A) : Prop :=
  len row = w /\ Forall P row.


(** ** Lines of tokens *)

(** Tokens separated by one space, and tokens followed by one space
    each. *)
Fixpoint spaced (tokens : list (list ascii)) : list ascii :=
  match tokens with
  | [] => []
  | [t] => t
  | t :: ts => t ++ str " " ++ spaced ts
  end.

Definition trailed (tokens : list (list ascii)) : list ascii :=
  concat (map (fun t => t ++ str " ") tokens).

(** A token without a space in it. *)
Definition token (t : list ascii) : Prop :=
  t <> [] /\ Forall (fun c => isSpace c = false) t.

(** The token of a bit. *)
Definition bit_token (v : bool) : list ascii := if v then str "1" else str "0".

(** The three tokens of each pixel of a row. *)
Definition pixel_tokens (row : list Pixel) : list (list ascii) :=
  concat (map (fun p => [format_d (R p); format_d (G p); format_d (B p)]) row).
(** The three bytes of each pixel of a row. *)
Definition pixel_bytes (row : list Pixel) : list ascii :=
  concat (map (fun p => [byte_of_Z (R p); byte_of_Z (G p); byte_of_Z (B p)]) row).

(** ** Packed bits *)

(** Bit [q] of a packed row: the bits of a byte are numbered from the
    most significant one. *)
Definition bit_at (bytes : list ascii) (q : Z) : bool :=
  match bytes !! Z.to_nat (q / 8) with
  | Some b => Z.testbit (Z_of_byte b) (7 - q mod 8)
  | None => false
  end.

(** The bytes [bytes] hold the bits [row], and nothing else. *)
Definition packs (w : Z) (row : list bool) (bytes : list ascii) : Prop :=
  len bytes = (w + 7) / 8 /\
  forall q, 0 <= q < w -> row !! Z.to_nat q = Some (bit_at bytes q).

(** The 256 bytes. *)
Definition all_bytes : list ascii := map (fun n => ascii_of_nat n) (seq 0 256).

(** * Tonal operations *)

(** C1 (defect of [PPM.Invert]): the colour inversion complements every
    channel against the constant 255 and not against the image's own
    maximum.  On the one-pixel image (10,20,30) with maximum 100 it
    stores (245,235,225), where max - v is (90,80,70); the gray
    inversion of the same samples does store max - v, and the bitmap
    inversion negates. *)
Theorem C1_ppm_invert_ignores_max :
  PPM.Invert dim_ppm = Ret (PPM.mk [[mkPixel 245 235 225]] 1 1 "P3" 100) /\
  PPM.max dim_ppm - 10 = 90 /\
  PGM.Invert dim_pgm = PGM.mk [[90; 80; 70]] 3 1 "P2" 100 /\
  PBM.Invert dots_pbm = Ret (PBM.mk [[false; true]; [true; false]] 2 2 "P1").
Proof. repeat split; vm_compute; reflexivity. Qed.

(** C4 (defect of [PPM.Invert]): every channel of the one-pixel image
    (10,20,30) is at most its maximum 100, yet after [Invert] every
    channel exceeds the stored maximum, which is still 100. *)
Theorem C4_ppm_invert_breaks_bound :
  Forall (Forall (fun p => R p <= 100 /\ G p <= 100 /\ B p <= 100)) (PPM.data dim_ppm) /\
  exists ppm', PPM.Invert dim_ppm = Ret ppm' /\ PPM.max ppm' = 100 /\
    pixel_at ppm' 0 0 = Some (mkPixel 245 235 225) /\ PPM.max ppm' < 225.
Proof.
  split.
  - repeat constructor; simpl; lia.
  - eexists. split; [vm_compute; reflexivity|]. repeat split; reflexivity.
Qed.

(** What [PGM.Invert] stores, sample by sample. *)
Lemma PGM_Invert_data (pgm : PGM.t) :
  PGM.data (PGM.Invert pgm) =
  map (map (fun v => uint8 (uint8 (PGM.max pgm) - v))) (PGM.data pgm).
Proof. reflexivity. Qed.

Lemma uint8_small (z : Z) : 0 <= z < 256 -> uint8 z = z.
Proof. intros H. unfold uint8. apply Z.mod_small. lia. Qed.

(** On samples within the maximum the gray inversion is max - v, and
    the result is within the maximum again. *)
Lemma PGM_Invert_sample (m v : Z) :
  0 <= v <= m -> m < 256 ->
  uint8 (uint8 m - v) = m - v /\ 0 <= uint8 (uint8 m - v) <= m.
Proof.
  intros Hv Hm. rewrite (uint8_small m) by lia.
  rewrite uint8_small by lia. lia.
Qed.

(** X3: [PGM.Invert] keeps the bound of the samples: when the
    maximum is a byte and every sample lies between 0 and the maximum,
    so does every sample of the inverted image. *)
Lemma PGM_Invert_bounded (pgm : PGM.t) :
  PGM.max pgm < 256 ->
  Forall (Forall (fun v => 0 <= v <= PGM.max pgm)) (PGM.data pgm) ->
  Forall (Forall (fun v => 0 <= v <= PGM.max (PGM.Invert pgm))) (PGM.data (PGM.Invert pgm)).
Proof.
  intros Hm Hall. rewrite PGM_Invert_data. simpl.
  apply Forall_fmap. eapply Forall_impl; [exact Hall|].
  intros row Hrow. apply Forall_fmap. eapply Forall_impl; [exact Hrow|].
  intros v Hv. simpl in *.
  destruct (PGM_Invert_sample (PGM.max pgm) v) as [_ Hb]; lia.
Qed.

(** * Polygon fill *)

(** C5 (defect of [DrawFilledPolygon]): the intersections are appended
    in edge order, but only every other scanline pairs its entries
    0-1, 2-3: on the scanlines in between every two neighbouring
    entries are joined.  For the two towers, scanlines 1 and 2 hold the
    same entries 0, 1, 3, 4; the code paints the gap at x = 2 on
    scanline 1 and leaves it on scanline 2, where pairing on every
    scanline leaves both gaps. *)
Theorem C5_polygon_odd_rows_join_all :
  PPM.polygon_xco towers 0 3 =
    Ret [[0; 1; 1; 3; 4; 4]; [0; 1; 3; 4]; [0; 1; 3; 4]; [0; 0; 1; 3; 3; 4]] /\
  (exists ppm', PPM.DrawFilledPolygon 8 (canvas 5 4) towers black = Ret ppm' /\
     pixel_at ppm' 2 1 = Some black /\ pixel_at ppm' 2 2 = Some white) /\
  (exists ppm', (xco ← PPM.polygon_xco towers 0 3;
                 spec_polygon_draw 8 (canvas 5 4) xco 0 black) = Ret ppm' /\
     pixel_at ppm' 2 1 = Some white /\ pixel_at ppm' 2 2 = Some white).
Proof.
  split; [vm_compute; reflexivity|].
  split; eexists; (split; [vm_compute; reflexivity|]); split; reflexivity.
Qed.

(** * Decoding *)

(** C8 (defect of [ReadPBM]): the bitmap decoder does not check the
    sign of the dimensions.  A P1 stream announcing 0 by 0 decodes to
    an empty image without any error, and a P4 stream announcing -1 by
    -1 panics when the buffer is allocated; the gray and colour
    decoders reject the same dimensions with the error "invalid
    dimensions". *)
Theorem C8_bitmap_dimensions_unchecked :
  PBM.ReadPBM empty_p1 = Ret (PBM.mk [] 0 0 "P1") /\
  PBM.ReadPBM negative_p4 = Panic PanicMakeSlice /\
  PGM.ReadPGM empty_p2 = Err ErrNonPositiveDimensions /\
  PPM.ReadPPM empty_p6 = Err ErrNonPositiveDimensions.
Proof. repeat split; vm_compute; reflexivity. Qed.

(** C10: decoding does not enforce the sample bound.  There are P2 and
    P5 streams, and P3 and P6 streams, with a well-formed header whose
    maximum is below 255, that decode without error to an image
    holding a sample above the stored maximum. *)
Theorem C10_decoding_keeps_large_samples :
  (exists s pgm v, PGM.ReadPGM s = Ret pgm /\ PGM.magicNumber pgm = "P2"%string /\
     PGM.max pgm < 255 /\ PGM.data pgm !! 0%nat ≫= (.!! 0%nat) = Some v /\ PGM.max pgm < v) /\
  (exists s pgm v, PGM.ReadPGM s = Ret pgm /\ PGM.magicNumber pgm = "P5"%string /\
     PGM.max pgm < 255 /\ PGM.data pgm !! 0%nat ≫= (.!! 0%nat) = Some v /\ PGM.max pgm < v) /\
  (exists s ppm p, PPM.ReadPPM s = Ret ppm /\ PPM.magicNumber ppm = "P3"%string /\
     PPM.max ppm < 255 /\ pixel_at ppm 0 0 = Some p /\ PPM.max ppm < R p) /\
  (exists s ppm p, PPM.ReadPPM s = Ret ppm /\ PPM.magicNumber ppm = "P6"%string /\
     PPM.max ppm < 255 /\ pixel_at ppm 0 0 = Some p /\ PPM.max ppm < R p).
Proof.
  split; [|split; [|split]].
  - exists bright_p2, (PGM.mk [[200]] 1 1 "P2" 100), 200.
    split; [vm_compute; reflexivity|]. repeat split; simpl; lia.
  - exists bright_p5, (PGM.mk [[200]] 1 1 "P5" 100), 200.
    split; [vm_compute; reflexivity|]. repeat split; simpl; lia.
  - exists bright_p3, (PPM.mk [[mkPixel 200 0 0]] 1 1 "P3" 100), (mkPixel 200 0 0).
    split; [vm_compute; reflexivity|]. repeat split; simpl; lia.
  - exists bright_p6, (PPM.mk [[mkPixel 200 0 0]] 1 1 "P6" 100), (mkPixel 200 0 0).
    split; [vm_compute; reflexivity|]. repeat split; simpl; lia.
Qed.

(** The scenario of the 2x2 bitmap: the stream decodes to the buffer
    [[true,false],[false,true]] and is written back byte for byte. *)
Lemma dots_round_trip :
  PBM.ReadPBM dots_stream = Ret dots_pbm /\ PBM.Save dots_pbm = Ret dots_stream.
Proof. split; vm_compute; reflexivity. Qed.

(** C3 (defect of the binary decoders): a row is taken from one
    [Read] of the buffered reader, which returns no more than its
    4096-byte buffer holds.  The P5 image of one row of 5000 samples
    is saved as a 14-byte header and 5000 bytes; decoding that file
    stops at row 0 with 4082 of the 5000 bytes, so the image is not
    read back. *)
Theorem C3_binary_round_trip_fails_beyond_buffer :
  PGM.Save wide_pgm = Ret wide_stream /\
  PGM.ReadPGM wide_stream = Err (ErrShortRow 0 5000 4082).
Proof. split; vm_compute; reflexivity. Qed.

(** * Bounds policies *)

Lemma index_outside {A : Type} (s : list A) (i : Z) :
  ~ (0 <= i < len s) -> index s i = Panic PanicIndex.
Proof.
  intros H. unfold index, len in *. destruct (Z.ltb_spec i 0) as [|Hi]; [done|].
  destruct (s !! Z.to_nat i) eqn:E; [|done].
  apply lookup_lt_Some in E. lia.
Qed.

Lemma store_outside {A : Type} (s : list A) (i : Z) (v : A) :
  ~ (0 <= i < len s) -> store s i v = Panic PanicIndex.
Proof.
  intros H. unfold store, len in *. destruct (Z.ltb_spec i 0) as [|Hi]; [done|].
  destruct (s !! Z.to_nat i) eqn:E; [|done].
  apply lookup_lt_Some in E. lia.
Qed.

Lemma index_inside {A : Type} (s : list A) (i : Z) :
  0 <= i < len s -> exists a, s !! Z.to_nat i = Some a /\ index s i = Ret a.
Proof.
  intros H. unfold index, len in *. destruct (Z.ltb_spec i 0) as [|Hi]; [lia|].
  destruct (s !! Z.to_nat i) eqn:E; [eauto|].
  apply lookup_ge_None in E. lia.
Qed.

(** On a rectangular buffer a store outside the rectangle panics. *)
Lemma store2_outside {A : Type} (d : list (list A)) (w h y x : Z) (v : A) :
  rect d w h -> ~ (0 <= x < w /\ 0 <= y < h) -> store2 d y x v = Panic PanicIndex.
Proof.
  intros (Hw & Hh & Hlen & Hrows) Hout. unfold store2.
  destruct (decide (0 <= y < h)) as [Hy|Hy].
  - destruct (index_inside d y) as (row & Hrow & ->); [unfold len; lia|].
    simpl. rewrite store_outside; [done|].
    rewrite Forall_lookup in Hrows. specialize (Hrows _ _ Hrow).
    unfold len. lia.
  - rewrite index_outside; [done|unfold len; lia].
Qed.

Lemma PPM_inside_false (ppm : PPM.t) (x y : Z) :
  ~ (0 <= x < PPM.width ppm /\ 0 <= y < PPM.height ppm) ->
  PPM.inside ppm x y = false /\ PPM.outside ppm x y = true.
Proof. unfold PPM.inside, PPM.outside. intros H. split; lia. Qed.

(** C2 (amended): outside the image the panicking accessors are
    [PPM.Set] (with "Index out of bounds") and, on a rectangular
    bitmap, [PBM.Set] (with the run-time index panic); [PPM.SetPixel],
    the raster primitive [setPixel] and [PGM.Set] return normally and
    leave the whole image as it was. *)
Theorem C2_bounds_policies (ppm : PPM.t) (pgm : PGM.t) (pbm : PBM.t)
    (x y : Z) (color : Pixel) (gray : Z) (ink : bool) :
  ~ (0 <= x < PPM.width ppm /\ 0 <= y < PPM.height ppm) ->
  ~ (0 <= x < PGM.width pgm /\ 0 <= y < PGM.height pgm) ->
  rect (PBM.data pbm) (PBM.width pbm) (PBM.height pbm) ->
  ~ (0 <= x < PBM.width pbm /\ 0 <= y < PBM.height pbm) ->
  PPM.Set_ ppm x y color = Panic (PanicMsg "Index out of bounds") /\
  PBM.Set_ pbm x y ink = Panic PanicIndex /\
  PPM.SetPixel ppm (mkPoint x y) color = Ret ppm /\
  PPM.setPixel ppm x y color = Ret ppm /\
  PGM.Set_ pgm x y gray = Ret pgm.
Proof.
  intros Hppm Hpgm Hrect Hpbm.
  destruct (PPM_inside_false ppm x y Hppm) as [Hin Hout].
  repeat split.
  - unfold PPM.Set_. by rewrite Hout.
  - unfold PBM.Set_. by rewrite (store2_outside _ _ _ _ _ _ Hrect Hpbm).
  - unfold PPM.SetPixel. simpl. by rewrite Hin.
  - unfold PPM.setPixel. by rewrite Hin.
  - unfold PGM.Set_. replace (PGM.inside pgm x y) with false; [done|].
    unfold PGM.inside. lia.
Qed.

Lemma C2_bounds_policies_witness :
  PPM.Set_ (canvas 4 4) 4 0 black = Panic (PanicMsg "Index out of bounds") /\
  PBM.Set_ dots_pbm 4 0 true = Panic PanicIndex /\
  PPM.SetPixel (canvas 4 4) (mkPoint 4 0) black = Ret (canvas 4 4) /\
  PPM.setPixel (canvas 4 4) 4 0 black = Ret (canvas 4 4) /\
  PGM.Set_ dim_pgm 4 0 7 = Ret dim_pgm.
Proof.
  apply (C2_bounds_policies (canvas 4 4) dim_pgm dots_pbm 4 0 black 7 true).
  - simpl. lia.
  - simpl. lia.
  - unfold rect. simpl. repeat split; try lia. repeat constructor.
  - simpl. lia.
Defined.

(** C2 as stated fails: at x = width the exported [SetPixel] does not
    signal anything, it returns normally with the image unchanged, and
    so does [PGM.Set]. *)
Lemma C2_SetPixel_clips_silently :
  PPM.SetPixel (canvas 4 4) (mkPoint 4 0) black = Ret (canvas 4 4) /\
  (forall p, PPM.SetPixel (canvas 4 4) (mkPoint 4 0) black <> Panic p) /\
  (forall e, PPM.SetPixel (canvas 4 4) (mkPoint 4 0) black <> Err e) /\
  PGM.Set_ dim_pgm 3 0 7 = Ret dim_pgm.
Proof. repeat split; try (intros ?); vm_compute; congruence. Qed.

(** * Rectangles *)

(** C6 (amended): on a 5x5 canvas [DrawFilledRectangle((0,0), 3, 2,
    color)] sets exactly the 12 cells of the closed box x in [0,3],
    y in [0,2], the far corner of every border rectangle being
    (x+w, y+h), and leaves every other cell as it was. *)
Theorem C6_filled_rectangle_closed_box (ppm : PPM.t) (color : Pixel) (fuel : nat) :
  is_canvas ppm 5 5 -> (4 <= fuel)%nat ->
  exists ppm', PPM.DrawFilledRectangle fuel ppm (mkPoint 0 0) 3 2 color = Ret ppm' /\
    is_canvas ppm' 5 5 /\
    forall x y, 0 <= x < 5 -> 0 <= y < 5 ->
      pixel_at ppm' x y =
      if (x <=? 3) && (y <=? 2) then Some color else pixel_at ppm x y.
Proof.
  destruct ppm as [data w h magic mx]. unfold is_canvas, rect. simpl.
  intros (-> & -> & _ & _ & Hlen & Hrows) Hfuel.
  do 4 (destruct fuel as [|fuel]; [lia|]). clear Hfuel.
  do 5 (destruct data as [|? data]; [simpl in Hlen; lia|]).
  destruct data; [|simpl in Hlen; lia]. clear Hlen.
  repeat match goal with
         | H : Forall _ (_ :: _) |- _ => apply Forall_cons in H as [? H]
         end.
  repeat match goal with
         | H : Z.of_nat (length ?l) = 5 |- _ => list_of_length l H
         end.
  eexists. split; [vm_compute; reflexivity|].
  split.
  - simpl. repeat split; try lia. repeat constructor.
  - intros x y Hx Hy.
    assert (x = 0 \/ x = 1 \/ x = 2 \/ x = 3 \/ x = 4) as Hxs by lia.
    assert (y = 0 \/ y = 1 \/ y = 2 \/ y = 3 \/ y = 4) as Hys by lia.
    destruct Hxs as [->|[->|[->|[->| ->]]]];
      destruct Hys as [->|[->|[->|[->| ->]]]]; reflexivity.
Qed.

Lemma canvas_is_canvas (w h : nat) : is_canvas (canvas w h) (Z.of_nat w) (Z.of_nat h).
Proof.
  unfold is_canvas, rect, canvas. simpl. rewrite length_replicate.
  repeat split; try lia. apply Forall_replicate. by rewrite length_replicate.
Qed.

Lemma C6_filled_rectangle_closed_box_witness :
  exists ppm', PPM.DrawFilledRectangle 4 (canvas 5 5) (mkPoint 0 0) 3 2 black = Ret ppm' /\
    is_canvas ppm' 5 5 /\
    forall x y, 0 <= x < 5 -> 0 <= y < 5 ->
      pixel_at ppm' x y =
      if (x <=? 3) && (y <=? 2) then Some black else pixel_at (canvas 5 5) x y.
Proof.
  apply (C6_filled_rectangle_closed_box (canvas 5 5) black 4).
  - exact (canvas_is_canvas 5 5).
  - lia.
Defined.

(** C6 as stated fails: the cell (3,0) lies outside x in [0,3) and is
    painted all the same, as is (0,2) outside y in [0,2). *)
Lemma C6_cells_beyond_half_open_box :
  exists ppm', PPM.DrawFilledRectangle 4 (canvas 5 5) (mkPoint 0 0) 3 2 black = Ret ppm' /\
    pixel_at (canvas 5 5) 3 0 = Some white /\ pixel_at ppm' 3 0 = Some black /\
    pixel_at (canvas 5 5) 0 2 = Some white /\ pixel_at ppm' 0 2 = Some black.
Proof. eexists. split; [vm_compute; reflexivity|]. repeat split. Qed.

(** * Lines *)

Lemma wrap64_small (z : Z) : - 2 ^ 63 <= z < 2 ^ 63 -> wrap64 z = z.
Proof. intros H. unfold wrap64. rewrite Z.mod_small; lia. Qed.

Lemma bind_Ret {A B : Type} (a : A) (k : A -> exec B) : (Ret a ≫= k) = k a.
Proof. reflexivity. Qed.

Lemma DrawLine_loop_S (fuel : nat) (ppm : PPM.t) (x1 y1 x2 y2 dx dy sx sy err : Z)
    (color : Pixel) :
  PPM.DrawLine_loop (S fuel) ppm x1 y1 x2 y2 dx dy sx sy err color =
  ppm ← PPM.SetPixel ppm (mkPoint x1 y1) color;
  if (x1 =? x2) && (y1 =? y2) then Ret ppm else
  let e2 := int_mul 2 err in
  let stepx := e2 >? int_neg dy in
  let stepy := e2 <? dx in
  let err1 := if stepx then int_sub err dy else err in
  PPM.DrawLine_loop fuel ppm (if stepx then int_add x1 sx else x1)
    (if stepy then int_add y1 sy else y1) x2 y2 dx dy sx sy
    (if stepy then int_add err1 dx else err1) color.
Proof.
  simpl. destruct (PPM.SetPixel ppm (mkPoint x1 y1) color); try reflexivity.
  simpl. destruct ((x1 =? x2) && (y1 =? y2)); [reflexivity|].
  destruct (int_mul 2 err >? int_neg dy), (int_mul 2 err <? dx); reflexivity.
Qed.

(** The loop follows the trace of the specification and stops at the
    endpoint.  [a] and [b] count the steps still to make in x and in
    y; the error term is dx - dy + a dy - b dx, and stays between
    -2 dy and 2 dx, so that no operation wraps around. *)
Lemma DrawLine_loop_trace (x2 y2 dx dy sx sy : Z) (color : Pixel) :
  0 <= dx <= 2 ^ 60 -> 0 <= dy <= 2 ^ 60 ->
  sx = 1 \/ sx = -1 -> sy = 1 \/ sy = -1 ->
  coord x2 -> coord y2 ->
  forall (n : nat) (x y err a b : Z),
    Z.of_nat n = a + b -> 0 <= a <= dx -> 0 <= b <= dy ->
    x2 = x + sx * a -> y2 = y + sy * b ->
    err = dx - dy + a * dy - b * dx -> - 2 * dy <= err <= 2 * dx ->
    exists pts,
      bres_trace x2 y2 dx dy sx sy (x, y, err) pts /\
      (length pts <= S n)%nat /\
      head pts = Some (mkPoint x y) /\ last pts = Some (mkPoint x2 y2) /\
      forall fuel ppm, (length pts <= fuel)%nat ->
        PPM.DrawLine_loop fuel ppm x y x2 y2 dx dy sx sy err color = plot ppm pts color.
Proof.
  intros Hdx Hdy Hsx Hsy Hx2 Hy2. unfold coord in *.
  induction n as [n IH] using lt_wf_ind.
  intros x y err a b Hn Ha Hb Hx Hy Herr Hbnd.
  destruct (decide (a = 0 /\ b = 0)) as [[-> ->]|Hab].
  - (* the endpoint *)
    assert (x = x2) as -> by lia. assert (y = y2) as -> by lia.
    exists [mkPoint x2 y2]. split; [by constructor|].
    split; [simpl; lia|]. split; [done|]. split; [done|].
    intros fuel ppm Hfuel. destruct fuel as [|fuel]; [simpl in Hfuel; lia|].
    rewrite DrawLine_loop_S. unfold plot. simpl.
    destruct (PPM.SetPixel ppm (mkPoint x2 y2) color); try reflexivity.
    simpl. by rewrite !Z.eqb_refl.
  - (* a step *)
    assert (Hne : ~ (x = x2 /\ y = y2)) by (intros [-> ->]; apply Hab; nia).
    assert (Ha0 : a = 0 -> err <= - dy) by (intros ->; nia).
    assert (Hb0 : b = 0 -> dx <= err) by (intros ->; nia).
    set (stepx := 2 * err >? - dy). set (stepy := 2 * err <? dx).
    set (a' := if stepx then a - 1 else a).
    set (b' := if stepy then b - 1 else b).
    assert (Hprog : 0 <= a' <= a /\ 0 <= b' <= b /\ a' + b' < a + b).
    { subst a' b' stepx stepy.
      destruct (Z.gtb_spec (2 * err) (- dy)), (Z.ltb_spec (2 * err) dx); lia. }
    destruct Hprog as (Ha' & Hb' & Hlt).
    destruct (IH (Z.to_nat (a' + b')) ltac:(lia)
                (if stepx then x + sx else x) (if stepy then y + sy else y)
                (err - (if stepx then dy else 0) + (if stepy then dx else 0)) a' b')
      as (pts & Htr & Hlen & Hhd & Hlast & Hrun).
    { lia. } { lia. } { lia. }
    { subst a'. destruct stepx; lia. }
    { subst b'. destruct stepy; lia. }
    { subst a' b'. destruct stepx, stepy; lia. }
    { subst stepx stepy.
      destruct (Z.gtb_spec (2 * err) (- dy)), (Z.ltb_spec (2 * err) dx); lia. }
    exists (mkPoint x y :: pts). split; [by constructor|].
    split; [simpl; lia|]. split; [done|].
    split.
    { destruct pts as [|q pts]; [done|]. exact Hlast. }
    intros fuel ppm Hfuel. destruct fuel as [|fuel]; [simpl in Hfuel; lia|].
    rewrite DrawLine_loop_S. unfold plot. simpl.
    destruct (PPM.SetPixel ppm (mkPoint x y) color) as [ppm'| | |]; try reflexivity.
    simpl.
    replace ((x =? x2) && (y =? y2)) with false by (symmetry; lia).
    unfold int_mul, int_neg, int_sub, int_add.
    rewrite (wrap64_small (2 * err)) by lia.
    rewrite (wrap64_small (- dy)) by lia.
    fold stepx stepy.
    specialize (Hrun fuel ppm' ltac:(simpl in Hfuel; lia)).
    unfold plot in Hrun. rewrite <- Hrun.
    f_equal.
    + destruct stepx; [apply wrap64_small; lia|done].
    + destruct stepy; [apply wrap64_small; lia|done].
    + rewrite (wrap64_small (err - dy)) by lia.
      destruct stepx, stepy; rewrite ?wrap64_small by lia; lia.
Qed.

Lemma store_inside {A : Type} (s : list A) (i : Z) (v : A) :
  0 <= i < len s -> store s i v = Ret (<[Z.to_nat i := v]> s).
Proof.
  intros H. unfold store. destruct (Z.ltb_spec i 0) as [|Hi]; [lia|].
  destruct (index_inside s i H) as (a & -> & _). done.
Qed.

(** On a canvas [SetPixel] returns a canvas; the cell of the point, if
    it is on the canvas, holds the colour, and the others are kept. *)
Lemma SetPixel_canvas (ppm : PPM.t) (w h : Z) (p : Point) (color : Pixel) :
  is_canvas ppm w h ->
  exists ppm', PPM.SetPixel ppm p color = Ret ppm' /\ is_canvas ppm' w h /\
    forall x y, 0 <= x < w -> 0 <= y < h ->
      pixel_at ppm' x y =
      if bool_decide (mkPoint x y = p) then Some color else pixel_at ppm x y.
Proof.
  destruct ppm as [data pw ph magic mx], p as [px py].
  unfold is_canvas, rect. simpl. intros (-> & -> & Hw & Hh & Hlen & Hrows).
  unfold PPM.SetPixel, PPM.inside. simpl.
  destruct (decide (0 <= px < w /\ 0 <= py < h)) as [[Hpx Hpy]|Hout].
  - replace ((0 <=? px) && (px <? w) && (0 <=? py) && (py <? h)) with true
      by (symmetry; lia).
    unfold store2.
    destruct (index_inside data py) as (row & Hrow & ->); [unfold len; lia|].
    assert (Hrl : Z.of_nat (length row) = w).
    { rewrite Forall_lookup in Hrows. exact (Hrows _ _ Hrow). }
    rewrite bind_Ret, store_inside by (unfold len; lia).
    rewrite bind_Ret, store_inside by (unfold len; lia).
    eexists. split; [reflexivity|]. simpl. split.
    + repeat split; try lia.
      * rewrite length_insert. lia.
      * apply Forall_insert; [done|]. rewrite length_insert. lia.
    + intros x y Hx Hy. unfold pixel_at. simpl.
      destruct (decide (y = py)) as [->|Hy'].
      * rewrite list_lookup_insert_eq by lia. simpl.
        destruct (decide (x = px)) as [->|Hx'].
        -- rewrite list_lookup_insert_eq by lia.
           by rewrite bool_decide_eq_true_2.
        -- rewrite list_lookup_insert_ne by lia.
           rewrite bool_decide_eq_false_2 by congruence.
           by rewrite Hrow.
      * rewrite list_lookup_insert_ne by lia.
        by rewrite bool_decide_eq_false_2 by congruence.
  - replace ((0 <=? px) && (px <? w) && (0 <=? py) && (py <? h)) with false
      by (symmetry; lia).
    eexists. split; [reflexivity|]. split.
    + simpl. done.
    + intros x y Hx Hy.
      rewrite bool_decide_eq_false_2; [done|]. intros [= -> ->]. lia.
Qed.

(** Plotting points on a canvas paints exactly the cells of the points
    that lie on the canvas. *)
Lemma plot_canvas (pts : list Point) (color : Pixel) (w h : Z) (ppm : PPM.t) :
  is_canvas ppm w h ->
  exists ppm', plot ppm pts color = Ret ppm' /\ is_canvas ppm' w h /\
    forall x y, 0 <= x < w -> 0 <= y < h ->
      pixel_at ppm' x y =
      if bool_decide (mkPoint x y ∈ pts) then Some color else pixel_at ppm x y.
Proof.
  revert ppm. induction pts as [|p pts IH]; intros ppm Hc.
  - exists ppm. split; [done|]. split; [done|]. intros x y _ _.
    rewrite bool_decide_eq_false_2; [done|]. apply not_elem_of_nil.
  - destruct (SetPixel_canvas ppm w h p color Hc) as (ppm1 & Hset & Hc1 & Hpix1).
    destruct (IH ppm1 Hc1) as (ppm' & Hplot & Hc' & Hpix').
    exists ppm'. split; [|split; [done|]].
    + unfold plot in *. simpl. by rewrite Hset.
    + intros x y Hx Hy. rewrite Hpix', Hpix1 by done.
      destruct (decide (mkPoint x y ∈ pts)) as [Hin|Hin].
      * rewrite !bool_decide_eq_true_2; [done| |done]. by right.
      * rewrite (bool_decide_eq_false_2 _ Hin).
        destruct (decide (mkPoint x y = p)) as [<-|Hp].
        -- rewrite !bool_decide_eq_true_2; [done|by left|done].
        -- rewrite !bool_decide_eq_false_2; [done| |done].
           intros [?|?]%elem_of_cons; done.
Qed.

Lemma abs_small (z : Z) : - 2 ^ 62 <= z <= 2 ^ 62 -> PPM.abs z = Z.abs z.
Proof.
  intros H. unfold PPM.abs, int_neg. destruct (Z.ltb_spec z 0).
  - rewrite wrap64_small; lia.
  - lia.
Qed.

(** [DrawLine] plots the trace of the specification, from the first
    endpoint to the second. *)
Lemma DrawLine_trace (p1 p2 : Point) (color : Pixel) :
  coord (X p1) -> coord (Y p1) -> coord (X p2) -> coord (Y p2) ->
  exists pts, spec_line p1 p2 pts /\
    head pts = Some p1 /\ last pts = Some p2 /\
    (Z.of_nat (length pts) <= Z.abs (X p2 - X p1) + Z.abs (Y p2 - Y p1) + 1) /\
    forall fuel ppm, (length pts <= fuel)%nat ->
      PPM.DrawLine fuel ppm p1 p2 color = plot ppm pts color.
Proof.
  destruct p1 as [x1 y1], p2 as [x2 y2]. unfold coord. simpl.
  intros Hx1 Hy1 Hx2 Hy2.
  set (dx := Z.abs (x2 - x1)). set (dy := Z.abs (y2 - y1)).
  set (sx := if x1 <? x2 then 1 else -1). set (sy := if y1 <? y2 then 1 else -1).
  destruct (DrawLine_loop_trace x2 y2 dx dy sx sy color
              ltac:(lia) ltac:(lia)
              ltac:(subst sx; destruct (x1 <? x2); lia)
              ltac:(subst sy; destruct (y1 <? y2); lia)
              ltac:(unfold coord; lia) ltac:(unfold coord; lia)
              (Z.to_nat (dx + dy)) x1 y1 (dx - dy) dx dy)
    as (pts & Htr & Hlen & Hhd & Hlast & Hrun).
  { lia. } { lia. } { lia. }
  { subst sx dx. destruct (Z.ltb_spec x1 x2); lia. }
  { subst sy dy. destruct (Z.ltb_spec y1 y2); lia. }
  { lia. } { lia. }
  exists pts. split; [exact Htr|]. split; [done|]. split; [done|].
  split; [lia|].
  intros fuel ppm Hfuel. unfold PPM.DrawLine. simpl.
  unfold int_sub. rewrite !(wrap64_small (_ - _)) by lia.
  rewrite !abs_small by lia. fold dx dy.
  rewrite (wrap64_small (dx - dy)) by lia.
  by apply Hrun.
Qed.

(** C9 (amended): [DrawLine] plots the lattice points of the stated
    Bresenham variant for endpoints whose coordinates have a
    magnitude of at most 2^59.  For such endpoints
    there is a list of points that is a trace of the specification's
    rule (dx, dy, step signs, initial error dx - dy, the two tests on
    2 err), that starts at the first endpoint and ends at the second,
    and [DrawLine], given at least dx + dy + 1 iterations, returns the
    canvas with exactly the cells of these points painted.  In
    particular the line from (0,0) to (3,3) on a 4x4 canvas paints
    exactly the four diagonal cells. *)
Theorem C9_DrawLine_bresenham (ppm board : PPM.t) (w h : Z) (p1 p2 : Point)
    (color : Pixel) (fuel : nat) :
  coord (X p1) -> coord (Y p1) -> coord (X p2) -> coord (Y p2) ->
  is_canvas ppm w h -> is_canvas board 4 4 ->
  Z.abs (X p2 - X p1) + Z.abs (Y p2 - Y p1) + 1 <= Z.of_nat fuel ->
  (4 <= fuel)%nat ->
  (exists pts ppm',
     spec_line p1 p2 pts /\ head pts = Some p1 /\ last pts = Some p2 /\
     PPM.DrawLine fuel ppm p1 p2 color = Ret ppm' /\ is_canvas ppm' w h /\
     forall x y, 0 <= x < w -> 0 <= y < h ->
       pixel_at ppm' x y =
       if bool_decide (mkPoint x y ∈ pts) then Some color else pixel_at ppm x y) /\
  (exists board',
     PPM.DrawLine fuel board (mkPoint 0 0) (mkPoint 3 3) color = Ret board' /\
     forall x y, 0 <= x < 4 -> 0 <= y < 4 ->
       pixel_at board' x y = if x =? y then Some color else pixel_at board x y).
Proof.
  intros Hx1 Hy1 Hx2 Hy2 Hc Hb Hfuel H4. split.
  - destruct (DrawLine_trace p1 p2 color Hx1 Hy1 Hx2 Hy2)
      as (pts & Hspec & Hhd & Hlast & Hlen & Hrun).
    destruct (plot_canvas pts color w h ppm Hc) as (ppm' & Hplot & Hc' & Hpix).
    exists pts, ppm'. repeat (split; [done|]). split; [|done].
    rewrite Hrun by lia. exact Hplot.
  - clear Hc Hfuel. destruct board as [data bw bh magic mx].
    destruct Hb as (Hw & Hh & _ & _ & Hlen & Hrows). simpl in *. subst bw bh.
    do 4 (destruct fuel as [|fuel]; [lia|]). clear H4.
    do 4 (destruct data as [|? data]; [simpl in Hlen; lia|]).
    destruct data; [|simpl in Hlen; lia]. clear Hlen.
    repeat match goal with
           | H : Forall _ (_ :: _) |- _ => apply Forall_cons in H as [? H]
           end.
    repeat match goal with
           | H : Z.of_nat (length ?l) = 4 |- _ => list_of_length l H
           end.
    eexists. split; [vm_compute; reflexivity|].
    intros x y Hx Hy.
    assert (x = 0 \/ x = 1 \/ x = 2 \/ x = 3) as Hxs by lia.
    assert (y = 0 \/ y = 1 \/ y = 2 \/ y = 3) as Hys by lia.
    destruct Hxs as [->|[->|[->| ->]]];
      destruct Hys as [->|[->|[->| ->]]]; reflexivity.
Qed.

Lemma C9_DrawLine_bresenham_witness :
  (exists pts ppm',
     spec_line (mkPoint 0 0) (mkPoint 3 3) pts /\
     head pts = Some (mkPoint 0 0) /\ last pts = Some (mkPoint 3 3) /\
     PPM.DrawLine 7 (canvas 4 4) (mkPoint 0 0) (mkPoint 3 3) black = Ret ppm' /\
     is_canvas ppm' 4 4 /\
     forall x y, 0 <= x < 4 -> 0 <= y < 4 ->
       pixel_at ppm' x y =
       if bool_decide (mkPoint x y ∈ pts) then Some black else pixel_at (canvas 4 4) x y) /\
  (exists board',
     PPM.DrawLine 7 (canvas 4 4) (mkPoint 0 0) (mkPoint 3 3) black = Ret board' /\
     forall x y, 0 <= x < 4 -> 0 <= y < 4 ->
       pixel_at board' x y = if x =? y then Some black else pixel_at (canvas 4 4) x y).
Proof.
  apply (C9_DrawLine_bresenham (canvas 4 4) (canvas 4 4) 4 4
           (mkPoint 0 0) (mkPoint 3 3) black 7).
  - unfold coord. simpl. lia.
  - unfold coord. simpl. lia.
  - unfold coord. simpl. lia.
  - unfold coord. simpl. lia.
  - exact (canvas_is_canvas 4 4).
  - exact (canvas_is_canvas 4 4).
  - simpl. lia.
  - lia.
Defined.

(** Towards an endpoint of the same row the rule never leaves the
    row: with dy = 0 and an error that stays at dx > 0 it steps x
    only. *)
Lemma bres_trace_row (x2 y dx sx sy : Z) (s : Z * Z * Z) (pts : list Point) :
  0 < dx ->
  bres_trace x2 y dx 0 sx sy s pts ->
  snd (fst s) = y -> snd s = dx ->
  Forall (fun p => Y p = y) pts.
Proof.
  intros Hdx Htr. induction Htr as [x y0 err Hx Hy|x y0 err pts Hne Htr IH];
    simpl; intros Hy0 Herr; subst.
  - by repeat constructor.
  - constructor; [done|]. apply IH.
    + simpl. replace (2 * dx <? dx) with false by lia. done.
    + simpl. replace (2 * dx >? - 0) with true by lia.
      replace (2 * dx <? dx) with false by lia. lia.
Qed.

(** One iteration of the loop of [DrawLine] away from the endpoint. *)
Lemma DrawLine_loop_step (fuel : nat) (ppm ppm1 : PPM.t)
    (x1 y1 x2 y2 dx dy sx sy err : Z) (color : Pixel) :
  PPM.SetPixel ppm (mkPoint x1 y1) color = Ret ppm1 ->
  (x1 =? x2) && (y1 =? y2) = false ->
  PPM.DrawLine_loop (S fuel) ppm x1 y1 x2 y2 dx dy sx sy err color
  = PPM.DrawLine_loop fuel ppm1
      (if int_mul 2 err >? int_neg dy then int_add x1 sx else x1)
      (if int_mul 2 err <? dx then int_add y1 sy else y1)
      x2 y2 dx dy sx sy
      (let err1 := if int_mul 2 err >? int_neg dy then int_sub err dy else err in
       if int_mul 2 err <? dx then int_add err1 dx else err1)
      color.
Proof.
  intros Hset Hend. cbn [PPM.DrawLine_loop]. rewrite Hset, bind_Ret, Hend.
  cbv zeta. by destruct (int_mul 2 err >? int_neg dy), (int_mul 2 err <? dx).
Qed.

(** C9 as stated fails far from the origin.  From (0,1) towards
    (2^62 + 1, 1) the rule steps x, to (1,1), and no trace of it
    leaves row 1.  The code computes 2 err = 2^63 + 2 on 64 bits, a
    negative number: it plots (0,1), steps y instead of x, plots
    (0,0), and goes on from (1,-1). *)
Lemma C9_far_endpoint_leaves_rule :
  bres_next (2 ^ 62 + 1) 0 1 (-1) (0, 1, 2 ^ 62 + 1) = (1, 1, 2 ^ 62 + 1) /\
  (forall pts, spec_line (mkPoint 0 1) (mkPoint (2 ^ 62 + 1) 1) pts ->
     head pts = Some (mkPoint 0 1) /\ Forall (fun p => Y p = 1) pts) /\
  (forall fuel,
     PPM.DrawLine (S (S fuel)) (canvas 2 2) (mkPoint 0 1) (mkPoint (2 ^ 62 + 1) 1) black
     = PPM.DrawLine_loop fuel
         (PPM.mk [[black; white]; [black; white]] 2 2 "P3" 255)
         1 (-1) (2 ^ 62 + 1) 1 (2 ^ 62 + 1) 0 1 (-1) (- 2 ^ 62 + 3) black).
Proof.
  split; [vm_compute; reflexivity|]. split.
  - intros pts Hspec. unfold spec_line in Hspec. cbv zeta in Hspec. split.
    + by inversion Hspec.
    + apply (bres_trace_row (2 ^ 62 + 1) 1 (2 ^ 62 + 1) 1 (-1) (0, 1, 2 ^ 62 + 1) pts);
        [lia|exact Hspec|reflexivity|reflexivity].
  - intros fuel.
    transitivity (PPM.DrawLine_loop (S (S fuel)) (canvas 2 2)
                    0 1 (2 ^ 62 + 1) 1 (2 ^ 62 + 1) 0 1 (-1) (2 ^ 62 + 1) black).
    { unfold PPM.DrawLine. cbn [X Y].
      replace (PPM.abs (int_sub (2 ^ 62 + 1) 0)) with (2 ^ 62 + 1)
        by (vm_compute; reflexivity).
      replace (PPM.abs (int_sub 1 1)) with 0 by (vm_compute; reflexivity).
      replace (int_sub (2 ^ 62 + 1) 0) with (2 ^ 62 + 1) by (vm_compute; reflexivity).
      replace (0 <? 2 ^ 62 + 1) with true by (vm_compute; reflexivity).
      replace (1 <? 1) with false by (vm_compute; reflexivity).
      reflexivity. }
    rewrite (DrawLine_loop_step _ _
               (PPM.mk [[white; white]; [black; white]] 2 2 "P3" 255))
      by (vm_compute; reflexivity).
    replace (int_mul 2 (2 ^ 62 + 1)) with (- 2 ^ 63 + 2) by (vm_compute; reflexivity).
    replace (- 2 ^ 63 + 2 >? int_neg 0) with false by (vm_compute; reflexivity).
    replace (- 2 ^ 63 + 2 <? 2 ^ 62 + 1) with true by (vm_compute; reflexivity).
    cbv zeta iota.
    replace (int_add 1 (-1)) with 0 by (vm_compute; reflexivity).
    replace (int_add (2 ^ 62 + 1) (2 ^ 62 + 1)) with (- 2 ^ 63 + 2)
      by (vm_compute; reflexivity).
    rewrite (DrawLine_loop_step _ _
               (PPM.mk [[black; white]; [black; white]] 2 2 "P3" 255))
      by (vm_compute; reflexivity).
    replace (int_mul 2 (- 2 ^ 63 + 2)) with 4 by (vm_compute; reflexivity).
    replace (4 >? int_neg 0) with true by (vm_compute; reflexivity).
    replace (4 <? 2 ^ 62 + 1) with true by (vm_compute; reflexivity).
    cbv zeta iota.
    replace (int_add 0 1) with 1 by (vm_compute; reflexivity).
    replace (int_add 0 (-1)) with (-1) by (vm_compute; reflexivity).
    replace (int_add (int_sub (- 2 ^ 63 + 2) 0) (2 ^ 62 + 1)) with (- 2 ^ 62 + 3)
      by (vm_compute; reflexivity).
    reflexivity.
Qed.

(** The trace of the diagonal, step by step: both tests fire in every
    iteration. *)
Lemma diagonal_trace :
  spec_line (mkPoint 0 0) (mkPoint 3 3)
    [mkPoint 0 0; mkPoint 1 1; mkPoint 2 2; mkPoint 3 3].
Proof.
  unfold spec_line. simpl.
  do 3 (apply bres_step; [lia|]; simpl).
  by apply bres_stop.
Qed.

(** A state has one trace only. *)
Lemma bres_trace_unique (x2 y2 dx dy sx sy : Z) (s : Z * Z * Z) (pts pts' : list Point) :
  bres_trace x2 y2 dx dy sx sy s pts -> bres_trace x2 y2 dx dy sx sy s pts' -> pts = pts'.
Proof.
  intros H. revert pts'. induction H as [x y err Hx Hy|x y err pts Hne Htr IH];
    intros pts' H'; inversion H'; subst; try done.
  - exfalso. tauto.
  - exfalso. tauto.
  - f_equal. by apply IH.
Qed.

(** * The buffered reader *)

Lemma find_index_none (p : ascii -> bool) (s : list ascii) :
  Forall (fun c => p c = false) s -> find_index p s = None.
Proof. induction 1 as [|c s Hc _ IH]; simpl; [done|]. by rewrite Hc, IH. Qed.

Lemma find_index_first (p : ascii -> bool) (l t : list ascii) (c : ascii) :
  Forall (fun c => p c = false) l -> p c = true ->
  find_index p (l ++ c :: t) = Some (length l).
Proof.
  intros Hl Hc. induction Hl as [|a l Ha _ IH]; simpl.
  - by rewrite Hc.
  - by rewrite Ha, IH.
Qed.

Lemma text_line_no_newline (s : list ascii) : text_line s = true -> no_newline s.
Proof.
  unfold text_line, no_newline. rewrite forallb_forall, Forall_forall.
  intros H c Hc. specialize (H c (proj1 (list_elem_of_In _ _) Hc)).
  destruct (isNL c); [done|done].
Qed.

Lemma take_line {A : Type} (l t : list A) (c : A) :
  take (S (length l)) (l ++ c :: t) = l ++ [c].
Proof. induction l as [|a l IH]; simpl; [done|]. by rewrite <- IH. Qed.

Lemma drop_line {A : Type} (l t : list A) (c : A) :
  drop (S (length l)) (l ++ c :: t) = t.
Proof. induction l as [|a l IH]; simpl; [by rewrite drop_0|]. exact IH. Qed.

Lemma isNL_NL : isNL NL = true.
Proof. reflexivity. Qed.

Lemma defaultBufSize_pos : (0 < defaultBufSize)%nat.
Proof. unfold defaultBufSize. lia. Qed.

Section ReadLine.
Local Opaque defaultBufSize.

(** With the newline in the buffer the line is returned at once. *)
Lemma ReadString_loop_found (l tail acc : list ascii) (b : Reader) (fuel : nat) :
  reader_ok b -> rest b = l ++ NL :: tail -> no_newline l ->
  (length l < nbuf b)%nat -> (1 <= fuel)%nat ->
  exists b', ReadString_loop fuel acc b = Ret (acc ++ l ++ [NL], false, b') /\
    rest b' = tail /\ reader_ok b'.
Proof.
  destruct b as [rs nb e]. unfold reader_ok. simpl.
  intros [Hnb He] -> Hl Hlt Hfuel.
  destruct fuel as [|fuel]; [lia|]. simpl.
  rewrite length_app in Hnb, He. simpl in Hnb, He.
  assert (Htake : take nb (l ++ NL :: tail) =
                  l ++ NL :: take (nb - length l - 1) tail).
  { rewrite take_app_ge by lia.
    f_equal. destruct (nb - length l)%nat as [|k] eqn:E; [lia|].
    simpl. by rewrite Nat.sub_0_r. }
  rewrite Htake, (find_index_first isNL l _ NL Hl isNL_NL).
  eexists. split; [|split].
  - by rewrite take_line.
  - simpl. apply drop_line.
  - simpl. rewrite drop_line. split; [lia|]. intros H. specialize (He H). lia.
Qed.

Lemma ReadString_loop_line (n : nat) :
  forall (l tail acc : list ascii) (b : Reader) (fuel : nat),
    length l = n ->
    reader_ok b -> rest b = l ++ NL :: tail -> no_newline l ->
    (3 * length l + 3 <= fuel)%nat ->
    exists b', ReadString_loop fuel acc b = Ret (acc ++ l ++ [NL], false, b') /\
      rest b' = tail /\ reader_ok b'.
Proof.
  pose proof defaultBufSize_pos as Hpos.
  induction n as [n IH] using lt_wf_ind.
  intros l tail acc b fuel Hn Hok Hrest Hl Hfuel.
  (* a full buffer without the newline is handed over, and the rest follows *)
  assert (Hflush : forall acc b fuel,
    reader_ok b -> rest b = l ++ NL :: tail ->
    (defaultBufSize <= nbuf b <= length l)%nat -> (3 * length l + 2 <= fuel)%nat ->
    exists b', ReadString_loop fuel acc b = Ret (acc ++ l ++ [NL], false, b') /\
      rest b' = tail /\ reader_ok b').
  { clear acc b fuel Hok Hrest Hfuel.
    intros acc [rs nb e]. unfold reader_ok. simpl.
    intros fuel [Hnb He] -> [Hfull Hle] Hfuel.
    destruct fuel as [|fuel]; [lia|]. simpl.
    rewrite take_app_le by lia.
    rewrite find_index_none by (by apply Forall_take).
    destruct e.
    { specialize (He eq_refl). rewrite length_app in He. simpl in He. lia. }
    destruct (Nat.leb_spec defaultBufSize nb) as [_|?]; [|lia].
    rewrite drop_app_le by lia.
    destruct (IH (length (drop nb l)) ltac:(rewrite length_drop; lia)
                (drop nb l) tail (acc ++ take nb l)
                {| rest := drop nb l ++ NL :: tail; nbuf := 0; eof := false |} fuel)
      as (b' & Hrun & Hr & Hok'); try done.
    - split; simpl; [lia|done].
    - by apply Forall_drop.
    - rewrite length_drop. lia.
    - exists b'. split; [|done]. rewrite Hrun. do 3 f_equal.
      rewrite <- app_assoc. f_equal. by rewrite app_assoc, take_drop. }
  destruct (Nat.lt_ge_cases (length l) (nbuf b)) as [Hlt|Hge].
  { apply ReadString_loop_found; try done. lia. }
  destruct (Nat.le_gt_cases defaultBufSize (nbuf b)) as [Hfull|Hroom].
  { apply Hflush; try done. lia. }
  (* room in the buffer: one fill *)
  destruct b as [rs nb e]. destruct Hok as [Hnb He]. simpl in *. subst rs.
  destruct fuel as [|fuel]; [lia|]. simpl.
  rewrite take_app_le by lia.
  rewrite find_index_none by (by apply Forall_take).
  rewrite length_app in Hnb, He. simpl in Hnb, He.
  destruct e; [specialize (He eq_refl); lia|].
  destruct (Nat.leb_spec defaultBufSize nb) as [?|_]; [lia|].
  unfold fill. simpl. rewrite length_app. simpl.
  destruct (Nat.leb_spec (length l + S (length tail)) nb) as [?|_]; [lia|].
  set (nb1 := Nat.min defaultBufSize (length l + S (length tail))).
  assert (Hok1 : reader_ok {| rest := l ++ NL :: tail; nbuf := nb1; eof := false |}).
  { split; simpl; [|done]. rewrite length_app. simpl. lia. }
  destruct (Nat.lt_ge_cases (length l) nb1) as [Hlt1|Hge1].
  - apply ReadString_loop_found; try done. lia.
  - apply Hflush; try done; simpl; lia.
Qed.

(** A line that ends with a newline is read whole, and the reader is
    left at the byte after the newline. *)
Lemma ReadString_line (l tail : list ascii) (b : Reader) :
  reader_ok b -> rest b = l ++ NL :: tail -> no_newline l ->
  exists b', ReadString b = Ret (l ++ [NL], false, b') /\
    rest b' = tail /\ reader_ok b'.
Proof.
  intros Hok Hrest Hl. unfold ReadString.
  destruct (ReadString_loop_line (length l) l tail [] b
              (3 * length (rest b) + 4) eq_refl Hok Hrest Hl) as (b' & H & ?).
  - rewrite Hrest, length_app. simpl. lia.
  - exists b'. split; [exact H|done].
Qed.
End ReadLine.

Lemma NewReader_ok (content : list ascii) : reader_ok (NewReader content).
Proof. split; simpl; [lia|done]. Qed.

(** * Counted loops *)

Lemma forM_app {A S : Type} (xs ys : list A) (s : S) (body : A -> S -> exec S) :
  forM (xs ++ ys) s body = (s' ← forM xs s body; forM ys s' body).
Proof.
  revert s. induction xs as [|x xs IH]; intros s; simpl; [done|].
  destruct (body x s); simpl; auto.
Qed.

Lemma range_nil (lo hi : Z) : hi <= lo -> range lo hi = [].
Proof. intros H. unfold range. by replace (Z.to_nat (hi - lo)) with 0%nat by lia. Qed.

Lemma range_cons (lo hi : Z) : lo < hi -> range lo hi = lo :: range (lo + 1) hi.
Proof.
  intros H. unfold range.
  replace (Z.to_nat (hi - lo)) with (S (Z.to_nat (hi - (lo + 1)))) by lia.
  simpl. f_equal; [lia|].
  rewrite <- seq_shift, map_map. apply map_ext. intros k. lia.
Qed.


(** * Rectangular buffers *)


Lemma replicate_snoc {A : Type} (n : nat) (x : A) :
  replicate (S n) x = replicate n x ++ [x].
Proof. induction n as [|n IH]; simpl; [done|]. by rewrite <- IH. Qed.

Lemma insert_after_replicate {A : Type} (k : nat) (x y : A) (l : list A) :
  <[k:=x]> (replicate k x ++ y :: l) = replicate (S k) x ++ l.
Proof.
  rewrite replicate_snoc, <- app_assoc. simpl.
  induction k as [|k IH]; simpl; [done|]. by rewrite IH.
Qed.

(** The buffer [ReadPBM] allocates. *)
Lemma makeRows_rect (w h : Z) :
  0 <= w -> 0 <= h ->
  PBM.makeRows w h = Ret (replicate (Z.to_nat h) (replicate (Z.to_nat w) false)).
Proof.
  intros Hw Hh. unfold PBM.makeRows, make.
  destruct (Z.ltb_spec h 0) as [|_]; [lia|]. rewrite bind_Ret.
  destruct (Z.ltb_spec w 0) as [|_]; [lia|].
  unfold len. rewrite length_replicate.
  set (row := replicate (Z.to_nat w) false).
  assert (H : forall m k,
    forM (range (Z.of_nat k) (Z.of_nat (k + m)))
         (replicate k row ++ replicate m [])
         (fun i data => row ← Ret row; store data i row)
    = Ret (replicate (k + m) row)).
  { induction m as [|m IH]; intros k.
    - rewrite range_nil by lia. simpl. by rewrite Nat.add_0_r, app_nil_r.
    - rewrite range_cons by lia. simpl.
      rewrite store_inside by (unfold len; rewrite length_app, !length_replicate; simpl; lia).
      rewrite Nat2Z.id.
      rewrite insert_after_replicate, bind_Ret.
      replace (Z.of_nat k + 1) with (Z.of_nat (S k)) by lia.
      replace (k + S m)%nat with (S k + m)%nat by lia. apply IH. }
  exact (H (Z.to_nat h) 0%nat).
Qed.

Lemma replicate_rect {A : Type} (w h : Z) (x : A) :
  0 <= w -> 0 <= h -> rect (replicate (Z.to_nat h) (replicate (Z.to_nat w) x)) w h.
Proof.
  intros Hw Hh. repeat split; try lia.
  - rewrite length_replicate. lia.
  - apply Forall_replicate. rewrite length_replicate. lia.
Qed.

(** * Rows of ASCII samples *)




Lemma fmap_Err {A B : Type} (f : A -> B) (e : goerr) : f <$> (Err e : exec A) = Err e.
Proof. reflexivity. Qed.

Lemma bind_Err {A B : Type} (e : goerr) (k : A -> exec B) : (Err e ≫= k) = Err e.
Proof. reflexivity. Qed.

Lemma lines_cons (l : list ascii) (rows : list (list ascii)) (tail : list ascii) :
  lines (l :: rows) ++ tail = l ++ NL :: lines rows ++ tail.
Proof. unfold lines. simpl. by rewrite <- !app_assoc. Qed.






Lemma make_ok {A : Type} (z : A) (n : Z) :
  0 <= n -> make z n = Ret (replicate (Z.to_nat n) z).
Proof. intros H. unfold make. destruct (Z.ltb_spec n 0); [lia|done]. Qed.










(** * Dimensions *)

(** Reading the magic line and the line of the dimensions of a stream
    "magic\ndims\n...". *)
Ltac read_line H :=
  match goal with
  | Hok : reader_ok ?r, Hrest : rest ?r = ?l ++ NL :: ?t |- _ =>
      let r' := fresh "r" in
      let Hrs := fresh "Hrs" in
      let Hrest' := fresh "Hrest" in
      let Hok' := fresh "Hok" in
      destruct (ReadString_line l t r Hok Hrest H) as (r' & Hrs & Hrest' & Hok');
      rewrite Hrs, bind_Ret; cbv beta iota; clear Hrs Hok Hrest
  end.

(** X21: Every decoder answers a line of ASCII text that [Sscanf]
    cannot read as two dimensions with the error "invalid
    dimensions". *)
Lemma unparsable_dimensions (dims tail : list ascii) :
  text_line dims = true -> Sscanf_d_d (TrimSpace (dims ++ [NL])) = None ->
  PBM.ReadPBM (str "P1" ++ NL :: dims ++ NL :: tail) = Err ErrScanDimensions /\
  PBM.ReadPBM (str "P4" ++ NL :: dims ++ NL :: tail) = Err ErrScanDimensions /\
  PGM.ReadPGM (str "P2" ++ NL :: dims ++ NL :: tail) = Err ErrScanDimensions /\
  PGM.ReadPGM (str "P5" ++ NL :: dims ++ NL :: tail) = Err ErrScanDimensions /\
  PPM.ReadPPM (str "P3" ++ NL :: dims ++ NL :: tail) = Err ErrScanDimensions /\
  PPM.ReadPPM (str "P6" ++ NL :: dims ++ NL :: tail) = Err ErrScanDimensions.
Proof.
  intros Hdims%text_line_no_newline Hscan.
  repeat split;
    unfold PBM.ReadPBM, PGM.ReadPGM, PPM.ReadPPM; cbv zeta;
    match goal with
    | |- context [NewReader (?m ++ NL :: ?t)] =>
        pose proof (NewReader_ok (m ++ NL :: t)) as Hok;
        assert (Hrest : rest (NewReader (m ++ NL :: t)) = m ++ NL :: t) by done;
        assert (Hm : no_newline m) by (by repeat constructor)
    end;
    read_line Hm; read_line Hdims; by rewrite Hscan.
Qed.

(** X22: The gray and the colour decoders answer dimensions that are not
    positive with the error "invalid dimensions". *)
Lemma nonpositive_dimensions_rejected (dims tail : list ascii) (w h : Z) :
  no_newline dims -> Sscanf_d_d (TrimSpace (dims ++ [NL])) = Some (w, h) ->
  w <= 0 \/ h <= 0 ->
  PGM.ReadPGM (str "P2" ++ NL :: dims ++ NL :: tail) = Err ErrNonPositiveDimensions /\
  PGM.ReadPGM (str "P5" ++ NL :: dims ++ NL :: tail) = Err ErrNonPositiveDimensions /\
  PPM.ReadPPM (str "P3" ++ NL :: dims ++ NL :: tail) = Err ErrNonPositiveDimensions /\
  PPM.ReadPPM (str "P6" ++ NL :: dims ++ NL :: tail) = Err ErrNonPositiveDimensions.
Proof.
  intros Hdims Hscan Hneg.
  repeat split;
    unfold PGM.ReadPGM, PPM.ReadPPM; cbv zeta;
    match goal with
    | |- context [NewReader (?m ++ NL :: ?t)] =>
        pose proof (NewReader_ok (m ++ NL :: t)) as Hok;
        assert (Hrest : rest (NewReader (m ++ NL :: t)) = m ++ NL :: t) by done;
        assert (Hm : no_newline m) by (by repeat constructor)
    end;
    read_line Hm; read_line Hdims; rewrite Hscan; cbv beta iota;
    by replace ((w <=? 0) || (h <=? 0)) with true by (symmetry; lia).
Qed.

(** The bitmap decoder does not: with a height of 0 it returns an
    image without rows, and with a negative height it panics when it
    allocates the rows, whatever the width. *)
Lemma ReadPBM_nonpositive_height (dims tail : list ascii) (w h : Z) :
  no_newline dims -> Sscanf_d_d (TrimSpace (dims ++ [NL])) = Some (w, h) ->
  h <= 0 ->
  PBM.ReadPBM (str "P1" ++ NL :: dims ++ NL :: tail)
    = (if h <? 0 then Panic PanicMakeSlice else Ret (PBM.mk [] w h "P1")) /\
  PBM.ReadPBM (str "P4" ++ NL :: dims ++ NL :: tail)
    = (if h <? 0 then Panic PanicMakeSlice else Ret (PBM.mk [] w h "P4")).
Proof.
  intros Hdims Hscan Hneg.
  split;
    unfold PBM.ReadPBM; cbv zeta;
    match goal with
    | |- context [NewReader (?m ++ NL :: ?t)] =>
        pose proof (NewReader_ok (m ++ NL :: t)) as Hok;
        assert (Hrest : rest (NewReader (m ++ NL :: t)) = m ++ NL :: t) by done;
        assert (Hm : no_newline m) by (by repeat constructor)
    end;
    read_line Hm; read_line Hdims; rewrite Hscan; cbv beta iota;
    unfold PBM.makeRows, make;
    (destruct (Z.ltb_spec h 0) as [Hlt|Hge]; [reflexivity|]);
    assert (h = 0) as -> by lia; reflexivity.
Qed.

(** * Rescaling *)

(** The rescaling of [SetMaxValue] from a maximum of 100 to 255, and
    from 255 to 15: on every sample within the old maximum the
    float64 computation is the integer quotient v * new / old, which
    is within the new maximum. *)
Lemma SetMaxValue_rescale_samples :
  forallb (fun v =>
    let s := uint8_of_float64 (fdiv (fmul (float64_of_int v) (float64_of_int 255))
                                    (float64_of_int 100)) in
    (s =? v * 255 / 100) && (s <=? 255)) (range 0 101) = true /\
  forallb (fun v =>
    let s := uint8_of_float64 (fdiv (fmul (float64_of_int v) (float64_of_int 15))
                                    (float64_of_int 255)) in
    (s =? v * 15 / 255) && (s <=? 15)) (range 0 256) = true /\
  PGM.SetMaxValue dim_pgm 255 = Ret (PGM.mk [[25; 51; 76]] 3 1 "P2" 255) /\
  PPM.SetMaxValue dim_ppm 255 = Ret (PPM.mk [[mkPixel 25 51 76]] 1 1 "P3" 255).
Proof. repeat split; vm_compute; reflexivity. Qed.

(** * Cells and loops *)

Lemma cell_Some {A : Type} (d : list (list A)) (w h x y : Z) :
  rect d w h -> 0 <= x < w -> 0 <= y < h -> is_Some (cell d x y).
Proof.
  intros (Hw & Hh & Hlen & Hrows) Hx Hy. unfold cell.
  destruct (lookup_lt_is_Some_2 d (Z.to_nat y)) as [row Hrow]; [lia|].
  rewrite Hrow. simpl. apply lookup_lt_is_Some_2.
  rewrite Forall_lookup in Hrows. specialize (Hrows _ _ Hrow). lia.
Qed.

Lemma cell_outside {A : Type} (d : list (list A)) (w h x y : Z) :
  rect d w h -> 0 <= x -> 0 <= y -> ~ (x < w /\ y < h) -> cell d x y = None.
Proof.
  intros (Hw & Hh & Hlen & Hrows) Hx Hy Hout. unfold cell.
  destruct (d !! Z.to_nat y) as [row|] eqn:Hrow; [|done]. simpl.
  apply lookup_ge_None. pose proof (lookup_lt_Some _ _ _ Hrow).
  rewrite Forall_lookup in Hrows. specialize (Hrows _ _ Hrow). lia.
Qed.

Lemma index2_cell {A : Type} (d : list (list A)) (x y : Z) (v : A) :
  0 <= x -> 0 <= y -> cell d x y = Some v -> index2 d y x = Ret v.
Proof.
  intros Hx Hy. unfold cell, index2, index.
  destruct (Z.ltb_spec y 0); [lia|]. destruct (Z.ltb_spec x 0); [lia|].
  destruct (d !! Z.to_nat y) as [row|]; [|done]. simpl.
  by intros ->.
Qed.

Lemma store2_cell {A : Type} (d : list (list A)) (w h x y : Z) (v : A) :
  rect d w h -> 0 <= x < w -> 0 <= y < h ->
  exists d', store2 d y x v = Ret d' /\ rect d' w h /\
    forall x' y', 0 <= x' -> 0 <= y' ->
      cell d' x' y' = if bool_decide (x' = x /\ y' = y) then Some v else cell d x' y'.
Proof.
  intros (Hw & Hh & Hlen & Hrows) Hx Hy. unfold store2.
  destruct (index_inside d y) as (row & Hrow & ->); [unfold len; lia|].
  assert (Hrl : Z.of_nat (length row) = w).
  { rewrite Forall_lookup in Hrows. exact (Hrows _ _ Hrow). }
  rewrite bind_Ret, store_inside by (unfold len; lia).
  rewrite bind_Ret, store_inside by (unfold len; lia).
  eexists. split; [done|]. split.
  - repeat split; try lia.
    + rewrite length_insert. lia.
    + apply Forall_insert; [done|]. rewrite length_insert. lia.
  - intros x' y' Hx' Hy'. unfold cell.
    destruct (decide (y' = y)) as [->|Hne].
    + rewrite list_lookup_insert_eq by lia. simpl.
      destruct (decide (x' = x)) as [->|Hnx].
      * rewrite list_lookup_insert_eq by lia. by rewrite bool_decide_eq_true_2.
      * rewrite list_lookup_insert_ne by lia.
        rewrite bool_decide_eq_false_2 by tauto. by rewrite Hrow.
    + rewrite list_lookup_insert_ne by lia.
      by rewrite bool_decide_eq_false_2 by tauto.
Qed.

(** Two rectangular buffers of the same size with the same cells are
    equal. *)
Lemma rect_ext {A : Type} (d d' : list (list A)) (w h : Z) :
  rect d w h -> rect d' w h ->
  (forall x y, 0 <= x < w -> 0 <= y < h -> cell d x y = cell d' x y) -> d = d'.
Proof.
  intros (Hw & Hh & Hlen & Hrows) (_ & _ & Hlen' & Hrows') Hcells.
  apply list_eq. intros j.
  destruct (decide (j < length d)%nat) as [Hj|Hj].
  - destruct (lookup_lt_is_Some_2 d j Hj) as [row Hrow].
    destruct (lookup_lt_is_Some_2 d' j ltac:(lia)) as [row' Hrow'].
    rewrite Hrow, Hrow'. f_equal.
    rewrite Forall_lookup in Hrows, Hrows'.
    pose proof (Hrows _ _ Hrow). pose proof (Hrows' _ _ Hrow').
    apply list_eq. intros i.
    destruct (decide (i < length row)%nat) as [Hi|Hi].
    + specialize (Hcells (Z.of_nat i) (Z.of_nat j) ltac:(lia) ltac:(lia)).
      unfold cell in Hcells. rewrite !Nat2Z.id, Hrow, Hrow' in Hcells. exact Hcells.
    + rewrite !lookup_ge_None_2; [done|lia|lia].
  - rewrite !lookup_ge_None_2; [done|lia|lia].
Qed.

Lemma cell_map {A B : Type} (f : A -> B) (d : list (list A)) (x y : Z) :
  cell (map (map f) d) x y = f <$> cell d x y.
Proof.
  unfold cell. change (map (map f) d) with (map f <$> d).
  rewrite list_lookup_fmap. destruct (d !! Z.to_nat y) as [row|]; [|done].
  simpl. change (map f row) with (f <$> row). by rewrite list_lookup_fmap.
Qed.

Lemma rect_map {A B : Type} (f : A -> B) (d : list (list A)) (w h : Z) :
  rect d w h -> rect (map (map f) d) w h.
Proof.
  intros (Hw & Hh & Hlen & Hrows). repeat split; try done.
  - by rewrite length_map.
  - apply Forall_fmap. eapply Forall_impl; [exact Hrows|].
    intros row Hr. simpl. by rewrite length_map.
Qed.

(** A counted loop whose body always returns keeps an invariant that
    may depend on the counter. *)
Lemma forM_range_inv {S : Type} (I : Z -> S -> Prop) (body : Z -> S -> exec S)
    (lo hi : Z) (s : S) :
  lo <= hi -> I lo s ->
  (forall i s, lo <= i < hi -> I i s -> exists s', body i s = Ret s' /\ I (i + 1) s') ->
  exists s', forM (range lo hi) s body = Ret s' /\ I hi s'.
Proof.
  intros Hle. remember (Z.to_nat (hi - lo)) as n eqn:Hn. revert lo s Hle Hn.
  induction n as [|n IH]; intros lo s Hle Hn Hinit Hstep.
  - assert (hi = lo) as -> by lia. rewrite range_nil by lia. by exists s.
  - rewrite range_cons by lia. simpl.
    destruct (Hstep lo s ltac:(lia) Hinit) as (s1 & -> & H1). rewrite bind_Ret.
    apply IH; [lia|lia|done|]. intros i s2 Hi. apply Hstep. lia.
Qed.

(** The same for a loop that may stop with an error: when it returns,
    the invariant holds at the end. *)
Lemma forM_range_ret {S : Type} (I : Z -> S -> Prop) (body : Z -> S -> exec S)
    (lo hi : Z) (s s' : S) :
  lo <= hi -> I lo s ->
  (forall i s s', lo <= i < hi -> I i s -> body i s = Ret s' -> I (i + 1) s') ->
  forM (range lo hi) s body = Ret s' -> I hi s'.
Proof.
  intros Hle. remember (Z.to_nat (hi - lo)) as n eqn:Hn. revert lo s Hle Hn.
  induction n as [|n IH]; intros lo s Hle Hn Hinit Hstep.
  - assert (hi = lo) as -> by lia. rewrite range_nil by lia. simpl. by intros [= <-].
  - rewrite range_cons by lia. simpl.
    destruct (body lo s) as [s1| | |] eqn:Hb; try done. rewrite bind_Ret.
    apply IH; [lia|lia| |].
    + apply (Hstep lo s); [lia|done|done].
    + intros i s2 s3 Hi. apply Hstep. lia.
Qed.

(** Applying [f] to every cell of a rectangular buffer, row by row. *)
Lemma forM_cells {A : Type} (f : A -> A) (d : list (list A)) (w h : Z) :
  rect d w h ->
  forM (range 0 h) d (fun y d =>
    forM (range 0 w) d (fun x d => v ← index2 d y x; store2 d y x (f v)))
  = Ret (map (map f) d).
Proof.
  intros Hrect. pose proof Hrect as (Hw & Hh & _).
  destruct (forM_range_inv
    (fun y d' => rect d' w h /\ forall x' y', 0 <= x' < w -> 0 <= y' < h ->
       cell d' x' y' = if y' <? y then f <$> cell d x' y' else cell d x' y')
    (fun y d => forM (range 0 w) d (fun x d => v ← index2 d y x; store2 d y x (f v)))
    0 h d Hh) as (d' & Hrun & Hrect' & Hcells).
  - split; [done|]. intros x' y' Hx' Hy'. destruct (Z.ltb_spec y' 0); [lia|done].
  - intros y d1 Hy [Hr1 Hc1].
    destruct (forM_range_inv
      (fun x d' => rect d' w h /\ forall x' y', 0 <= x' < w -> 0 <= y' < h ->
         cell d' x' y' = if (y' <? y) || ((y' =? y) && (x' <? x))
                         then f <$> cell d x' y' else cell d x' y')
      (fun x d => v ← index2 d y x; store2 d y x (f v))
      0 w d1 Hw) as (d2 & Hrun2 & Hr2 & Hc2).
    + split; [done|]. intros x' y' Hx' Hy'. rewrite Hc1 by done.
      replace ((y' =? y) && (x' <? 0)) with false by lia. by rewrite orb_false_r.
    + intros x d2 Hx [Hr2 Hc2].
      destruct (cell_Some d w h x y Hrect ltac:(lia) ltac:(lia)) as [v Hv].
      assert (Hv2 : cell d2 x y = Some v).
      { rewrite Hc2 by lia. replace ((y <? y) || ((y =? y) && (x <? x))) with false by lia.
        done. }
      rewrite (index2_cell d2 x y v) by (done || lia). rewrite bind_Ret.
      destruct (store2_cell d2 w h x y (f v) Hr2 ltac:(lia) ltac:(lia))
        as (d3 & -> & Hr3 & Hc3).
      exists d3. split; [done|]. split; [done|].
      intros x' y' Hx' Hy'. rewrite Hc3 by lia. case_bool_decide as Hxy.
      * destruct Hxy as [-> ->].
        replace ((y <? y) || ((y =? y) && (x <? x + 1))) with true by lia.
        by rewrite Hv.
      * rewrite Hc2 by done.
        replace ((y' <? y) || ((y' =? y) && (x' <? x + 1)))
          with ((y' <? y) || ((y' =? y) && (x' <? x))) by lia. done.
    + exists d2. split; [done|]. split; [done|].
      intros x' y' Hx' Hy'. rewrite Hc2 by done.
      replace ((y' <? y) || ((y' =? y) && (x' <? w))) with (y' <? y + 1) by lia. done.
  - rewrite Hrun. f_equal. apply (rect_ext _ _ w h); [done|by apply rect_map|].
    intros x y Hx Hy. rewrite Hcells, cell_map by done.
    by replace (y <? h) with true by lia.
Qed.

(** * Inversion *)

(** On a bitmap whose buffer has the announced size, [Invert]
    negates every sample, and inverting the result gives the bitmap
    back. *)
Lemma PBM_Invert_twice (pbm : PBM.t) :
  PBM_ok pbm ->
  exists pbm', PBM.Invert pbm = Ret pbm' /\
    PBM.data pbm' = map (map negb) (PBM.data pbm) /\
    PBM.width pbm' = PBM.width pbm /\ PBM.height pbm' = PBM.height pbm /\
    PBM.Invert pbm' = Ret pbm.
Proof.
  destruct pbm as [d w h m]. unfold PBM_ok, PBM.Invert. simpl. intros Hrect.
  rewrite (forM_cells negb d w h Hrect), bind_Ret.
  eexists. split; [reflexivity|]. simpl. repeat split.
  rewrite (forM_cells negb _ w h (rect_map negb d w h Hrect)), bind_Ret.
  do 2 f_equal. rewrite map_map. rewrite <- (map_id d) at 2. apply map_ext.
  intros row. rewrite map_map. rewrite <- (map_id row) at 2. apply map_ext.
  intros b. apply negb_involutive.
Qed.

Lemma uint8_complement (m v : Z) :
  is_byte v = true -> uint8 (uint8 m - uint8 (uint8 m - v)) = v.
Proof.
  unfold is_byte, uint8. intros Hv.
  rewrite Zminus_mod_idemp_r. replace (m mod 256 - (m mod 256 - v)) with v by lia.
  apply Z.mod_small. lia.
Qed.

(** X2: the gray inversion is its own inverse on every gray map whose
    samples are bytes, whatever the maximum and whether or not the
    samples are within it. *)
Theorem PGM_Invert_involution (pgm : PGM.t) :
  forallb (forallb is_byte) (PGM.data pgm) = true ->
  PGM.Invert (PGM.Invert pgm) = pgm.
Proof.
  destruct pgm as [d w h m mx]. unfold PGM.Invert. simpl. intros Hb. f_equal.
  rewrite map_map. rewrite <- (map_id d) at 2. apply map_ext_in.
  intros row Hrow. rewrite map_map. rewrite <- (map_id row) at 2. apply map_ext_in.
  intros v Hv. apply uint8_complement.
  rewrite forallb_forall in Hb. specialize (Hb row Hrow).
  rewrite forallb_forall in Hb. by apply Hb.
Qed.

Lemma PGM_Invert_involution_witness : PGM.Invert (PGM.Invert steps_pgm) = steps_pgm.
Proof. apply (PGM_Invert_involution steps_pgm). reflexivity. Defined.

Lemma complement_involutive (p : Pixel) :
  byte_pixel p = true -> complement (complement p) = p.
Proof.
  destruct p as [r g b]. unfold byte_pixel, is_byte, complement, uint8. simpl.
  intros H. f_equal; rewrite Z.mod_small; rewrite ?Z.mod_small; lia.
Qed.

Lemma complement_byte (p : Pixel) : byte_pixel (complement p) = true.
Proof.
  unfold byte_pixel, is_byte, complement, uint8. simpl.
  pose proof (Z.mod_pos_bound (255 - R p) 256 ltac:(lia)).
  pose proof (Z.mod_pos_bound (255 - G p) 256 ltac:(lia)).
  pose proof (Z.mod_pos_bound (255 - B p) 256 ltac:(lia)). lia.
Qed.

Lemma PPM_Invert_data (ppm : PPM.t) :
  PPM_ok ppm ->
  PPM.Invert ppm = Ret (PPM.with_data ppm (map (map complement) (PPM.data ppm))).
Proof.
  intros Hrect.
  change (PPM.Invert ppm) with
    (PPM.with_data ppm <$>
       forM (range 0 (PPM.height ppm)) (PPM.data ppm) (fun y d =>
         forM (range 0 (PPM.width ppm)) d (fun x d =>
           v ← index2 d y x; store2 d y x (complement v)))).
  by rewrite (forM_cells complement _ _ _ Hrect).
Qed.

(** On a pixel map whose buffer has the announced size, [Invert]
    replaces every channel v by 255 - v, and on byte channels
    inverting the result gives the image back. *)
Lemma PPM_Invert_twice (ppm : PPM.t) :
  PPM_ok ppm -> forallb (forallb byte_pixel) (PPM.data ppm) = true ->
  exists ppm', PPM.Invert ppm = Ret ppm' /\
    PPM.data ppm' = map (map (fun p => mkPixel (255 - R p) (255 - G p) (255 - B p)))
                        (PPM.data ppm) /\
    PPM.max ppm' = PPM.max ppm /\
    PPM.Invert ppm' = Ret ppm.
Proof.
  intros Hrect Hb. rewrite (PPM_Invert_data ppm Hrect).
  eexists. split; [reflexivity|]. split; [|split; [done|]].
  - simpl. apply map_ext_in. intros row Hrow. apply map_ext_in. intros p Hp.
    rewrite forallb_forall in Hb. specialize (Hb row Hrow).
    rewrite forallb_forall in Hb. specialize (Hb p Hp).
    destruct p as [r g b]. unfold complement, byte_pixel, is_byte, uint8 in *. simpl in *.
    f_equal; apply Z.mod_small; lia.
  - rewrite PPM_Invert_data by (by apply rect_map).
    destruct ppm as [d w h m mx]. unfold PPM.with_data. simpl. do 2 f_equal.
    rewrite map_map. rewrite <- (map_id d) at 2. apply map_ext_in.
    intros row Hrow. rewrite map_map. rewrite <- (map_id row) at 2. apply map_ext_in.
    intros p Hp. apply complement_involutive. simpl in Hb.
    rewrite forallb_forall in Hb. specialize (Hb row Hrow).
    rewrite forallb_forall in Hb. by apply Hb.
Qed.

(** X1: on a bitmap and on a pixel map whose buffer has the announced
    size, [Invert] returns the image of the complements, the negation
    of every bit and 255 - v for every byte channel v, and inverting
    the result gives the image back. *)
Theorem Invert_involution (pbm : PBM.t) (ppm : PPM.t) :
  PBM_ok pbm ->
  PPM_ok ppm -> forallb (forallb byte_pixel) (PPM.data ppm) = true ->
  (exists pbm', PBM.Invert pbm = Ret pbm' /\
     PBM.data pbm' = map (map negb) (PBM.data pbm) /\
     PBM.width pbm' = PBM.width pbm /\ PBM.height pbm' = PBM.height pbm /\
     PBM.Invert pbm' = Ret pbm) /\
  (exists ppm', PPM.Invert ppm = Ret ppm' /\
     PPM.data ppm' = map (map (fun p => mkPixel (255 - R p) (255 - G p) (255 - B p)))
                         (PPM.data ppm) /\
     PPM.max ppm' = PPM.max ppm /\
     PPM.Invert ppm' = Ret ppm).
Proof.
  intros Hb Hp Hbytes. split.
  - by apply PBM_Invert_twice.
  - by apply PPM_Invert_twice.
Qed.

Lemma Invert_involution_witness :
  (exists pbm', PBM.Invert steps_pbm = Ret pbm' /\
     PBM.data pbm' = map (map negb) (PBM.data steps_pbm) /\
     PBM.width pbm' = PBM.width steps_pbm /\ PBM.height pbm' = PBM.height steps_pbm /\
     PBM.Invert pbm' = Ret steps_pbm) /\
  (exists ppm', PPM.Invert steps_ppm = Ret ppm' /\
     PPM.data ppm' = map (map (fun p => mkPixel (255 - R p) (255 - G p) (255 - B p)))
                         (PPM.data steps_ppm) /\
     PPM.max ppm' = PPM.max steps_ppm /\
     PPM.Invert ppm' = Ret steps_ppm).
Proof.
  apply (Invert_involution steps_pbm steps_ppm); [literal_rect|literal_rect|reflexivity].
Defined.

(** * Mirrors *)

Lemma cell_reverse_rows {A : Type} (d : list (list A)) (w h x y : Z) :
  rect d w h -> 0 <= x < w -> 0 <= y < h ->
  cell (map reverse d) x y = cell d (w - 1 - x) y.
Proof.
  intros (Hw & Hh & Hlen & Hrows) Hx Hy. unfold cell.
  change (map reverse d) with (reverse <$> d). rewrite list_lookup_fmap.
  destruct (d !! Z.to_nat y) as [row|] eqn:Hrow; [|done]. simpl.
  rewrite Forall_lookup in Hrows. specialize (Hrows _ _ Hrow).
  rewrite reverse_lookup by lia. f_equal. lia.
Qed.

Lemma rect_reverse_rows {A : Type} (d : list (list A)) (w h : Z) :
  rect d w h -> rect (map reverse d) w h.
Proof.
  intros (Hw & Hh & Hlen & Hrows). repeat split; try done.
  - by rewrite length_map.
  - apply Forall_fmap. eapply Forall_impl; [exact Hrows|].
    intros row Hr. simpl. by rewrite length_reverse.
Qed.

(** The loop of [PBM.Flip] and [PPM.Flip] reverses every row. *)
Lemma forM_flip {A : Type} (d : list (list A)) (w h : Z) :
  rect d w h -> int_size w ->
  forM (range 0 h) d (fun y d =>
    forM (range 0 (Z.quot w 2)) d (fun x d =>
      let x' := int_sub (int_sub w x) 1 in
      a ← index2 d y x';
      b ← index2 d y x;
      d ← store2 d y x a;
      store2 d y x' b))
  = Ret (map reverse d).
Proof.
  intros Hrect Hint. pose proof Hrect as (Hw & Hh & _). unfold int_size in Hint.
  assert (Hq : Z.quot w 2 = w / 2) by (apply Z.quot_div_nonneg; lia).
  rewrite Hq. clear Hq.
  assert (Hq : 0 <= w / 2 /\ 2 * (w / 2) <= w < 2 * (w / 2) + 2).
  { pose proof (Z.div_mod w 2 ltac:(lia)). pose proof (Z.mod_pos_bound w 2 ltac:(lia)). lia. }
  revert Hq. generalize (w / 2). intros q Hq.
  destruct (forM_range_inv
    (fun y d' => rect d' w h /\ forall x' y', 0 <= x' < w -> 0 <= y' < h ->
       cell d' x' y' = if y' <? y then cell d (w - 1 - x') y' else cell d x' y')
    (fun y d => forM (range 0 q) d (fun x d =>
      let x' := int_sub (int_sub w x) 1 in
      a ← index2 d y x'; b ← index2 d y x;
      d ← store2 d y x a; store2 d y x' b))
    0 h d Hh) as (d' & Hrun & Hrect' & Hcells).
  - split; [done|]. intros x' y' Hx' Hy'. destruct (Z.ltb_spec y' 0); [lia|done].
  - intros y d1 Hy [Hr1 Hc1].
    destruct (forM_range_inv
      (fun x d' => rect d' w h /\ forall x' y', 0 <= x' < w -> 0 <= y' < h ->
         cell d' x' y' =
         if (y' <? y) || ((y' =? y) && ((x' <? x) || (w - 1 - x' <? x)))
         then cell d (w - 1 - x') y' else cell d x' y')
      (fun x d =>
        let x' := int_sub (int_sub w x) 1 in
        a ← index2 d y x'; b ← index2 d y x;
        d ← store2 d y x a; store2 d y x' b)
      0 q d1 ltac:(lia)) as (d2 & Hrun2 & Hr2 & Hc2).
    + split; [done|]. intros x' y' Hx' Hy'. rewrite Hc1 by done.
      replace ((y' =? y) && ((x' <? 0) || (w - 1 - x' <? 0))) with false by lia.
      by rewrite orb_false_r.
    + intros x d2 Hx [Hr2 Hc2]. cbv zeta.
      unfold int_sub. rewrite (wrap64_small (w - x)) by lia.
      rewrite (wrap64_small (w - x - 1)) by lia.
      destruct (cell_Some d w h (w - x - 1) y Hrect ltac:(lia) ltac:(lia)) as [a Ha].
      destruct (cell_Some d w h x y Hrect ltac:(lia) ltac:(lia)) as [b Hb].
      rewrite (index2_cell d2 (w - x - 1) y a); [|lia|lia|].
      2:{ rewrite Hc2 by lia.
          replace ((y <? y) || ((y =? y) && ((w - x - 1 <? x) || (w - 1 - (w - x - 1) <? x))))
            with false by lia. done. }
      rewrite bind_Ret, (index2_cell d2 x y b); [|lia|lia|].
      2:{ rewrite Hc2 by lia.
          replace ((y <? y) || ((y =? y) && ((x <? x) || (w - 1 - x <? x))))
            with false by lia. done. }
      rewrite bind_Ret.
      destruct (store2_cell d2 w h x y a Hr2 ltac:(lia) ltac:(lia))
        as (d3 & -> & Hr3 & Hc3). rewrite bind_Ret.
      destruct (store2_cell d3 w h (w - x - 1) y b Hr3 ltac:(lia) ltac:(lia))
        as (d4 & -> & Hr4 & Hc4).
      exists d4. split; [done|]. split; [done|].
      intros x' y' Hx' Hy'. rewrite Hc4 by lia. case_bool_decide as H4.
      * destruct H4 as [-> ->].
        replace ((y <? y) || ((y =? y) && ((w - x - 1 <? x + 1) || (w - 1 - (w - x - 1) <? x + 1))))
          with true by lia.
        replace (w - 1 - (w - x - 1)) with x by lia. done.
      * rewrite Hc3 by lia. case_bool_decide as H3.
        -- destruct H3 as [-> ->].
           replace ((y <? y) || ((y =? y) && ((x <? x + 1) || (w - 1 - x <? x + 1))))
             with true by lia.
           replace (w - 1 - x) with (w - x - 1) by lia. done.
        -- rewrite Hc2 by done.
           replace ((y' <? y) || ((y' =? y) && ((x' <? x + 1) || (w - 1 - x' <? x + 1))))
             with ((y' <? y) || ((y' =? y) && ((x' <? x) || (w - 1 - x' <? x)))) by lia.
           done.
    + exists d2. split; [done|]. split; [done|].
      intros x' y' Hx' Hy'. rewrite Hc2 by done.
      destruct (decide (y' = y)) as [->|Hne].
      * replace (y <? y + 1) with true by lia. replace (y <? y) with false by lia.
        replace (y =? y) with true by lia. simpl.
        destruct (Z.ltb_spec x' q), (Z.ltb_spec (w - 1 - x') q); simpl; try done.
        f_equal. lia.
      * replace (y' =? y) with false by lia. simpl. rewrite orb_false_r.
        by replace (y' <? y + 1) with (y' <? y) by lia.
  - rewrite Hrun. f_equal. apply (rect_ext _ _ w h); [done|by apply rect_reverse_rows|].
    intros x y Hx Hy. rewrite Hcells by done.
    rewrite (cell_reverse_rows d w h) by done.
    by replace (y <? h) with true by lia.
Qed.

Lemma index_lookup {A : Type} (l : list A) (i : Z) (a : A) :
  0 <= i -> l !! Z.to_nat i = Some a -> index l i = Ret a.
Proof.
  intros Hi Hl. unfold index. destruct (Z.ltb_spec i 0); [lia|]. by rewrite Hl.
Qed.

(** The loop of [Flop] reverses the order of the rows. *)
Lemma forM_flop {A : Type} (d : list A) (h : Z) :
  len d = h -> int_size h ->
  forM (range 0 (Z.quot h 2)) d (fun y d =>
    let y' := int_sub (int_sub h y) 1 in
    a ← index d y';
    b ← index d y;
    d ← store d y a;
    store d y' b)
  = Ret (reverse d).
Proof.
  unfold len, int_size. intros Hlen Hint.
  assert (Hq : Z.quot h 2 = h / 2) by (apply Z.quot_div_nonneg; lia).
  rewrite Hq. clear Hq.
  assert (Hq : 0 <= h / 2 /\ 2 * (h / 2) <= h < 2 * (h / 2) + 2).
  { pose proof (Z.div_mod h 2 ltac:(lia)). pose proof (Z.mod_pos_bound h 2 ltac:(lia)). lia. }
  revert Hq. generalize (h / 2). intros q Hq.
  destruct (forM_range_inv
    (fun y d' => length d' = length d /\ forall j : nat, (j < length d)%nat ->
       d' !! j = if (Z.of_nat j <? y) || (h - 1 - Z.of_nat j <? y)
                 then d !! (length d - 1 - j)%nat else d !! j)
    (fun y d =>
      let y' := int_sub (int_sub h y) 1 in
      a ← index d y'; b ← index d y; d ← store d y a; store d y' b)
    0 q d ltac:(lia)) as (d' & Hrun & Hlen' & Hrows).
  - split; [done|]. intros j Hj.
    by replace ((Z.of_nat j <? 0) || (h - 1 - Z.of_nat j <? 0)) with false by lia.
  - intros y d1 Hy [Hl1 Hr1]. cbv zeta.
    unfold int_sub. rewrite (wrap64_small (h - y)) by lia.
    rewrite (wrap64_small (h - y - 1)) by lia.
    destruct (lookup_lt_is_Some_2 d (Z.to_nat (h - y - 1)) ltac:(lia)) as [a Ha].
    destruct (lookup_lt_is_Some_2 d (Z.to_nat y) ltac:(lia)) as [b Hb].
    rewrite (index_lookup d1 (h - y - 1) a); [|lia|].
    2:{ rewrite Hr1 by lia. rewrite Z2Nat.id by lia.
        replace ((h - y - 1 <? y) || (h - 1 - (h - y - 1) <? y)) with false by lia. done. }
    rewrite bind_Ret, (index_lookup d1 y b); [|lia|].
    2:{ rewrite Hr1 by lia. rewrite Z2Nat.id by lia.
        replace ((y <? y) || (h - 1 - y <? y)) with false by lia. done. }
    rewrite bind_Ret, store_inside by (unfold len; lia).
    rewrite bind_Ret, store_inside by (unfold len; rewrite length_insert; lia).
    eexists. split; [done|]. split; [by rewrite !length_insert|].
    intros j Hj.
    destruct (decide (j = Z.to_nat (h - y - 1))) as [->|Hj1].
    + rewrite list_lookup_insert_eq by (rewrite length_insert; lia).
      rewrite Z2Nat.id by lia.
      replace ((h - y - 1 <? y + 1) || (h - 1 - (h - y - 1) <? y + 1)) with true by lia.
      rewrite <- Hb. f_equal. lia.
    + rewrite list_lookup_insert_ne by done.
      destruct (decide (j = Z.to_nat y)) as [->|Hj2].
      * rewrite list_lookup_insert_eq by lia.
        rewrite Z2Nat.id by lia.
        replace ((y <? y + 1) || (h - 1 - y <? y + 1)) with true by lia.
        rewrite <- Ha. f_equal. lia.
      * rewrite list_lookup_insert_ne by done. rewrite Hr1 by done.
        by replace ((Z.of_nat j <? y + 1) || (h - 1 - Z.of_nat j <? y + 1))
          with ((Z.of_nat j <? y) || (h - 1 - Z.of_nat j <? y)) by lia.
  - etrans; [exact Hrun|]. f_equal. apply list_eq. intros j.
    destruct (decide (j < length d)%nat) as [Hj|Hj].
    + rewrite Hrows, reverse_lookup by done.
      destruct (Z.ltb_spec (Z.of_nat j) q), (Z.ltb_spec (h - 1 - Z.of_nat j) q);
        simpl; try (f_equal; lia).
    + rewrite !lookup_ge_None_2; [done|rewrite length_reverse; lia|lia].
Qed.

(** X4: on a bitmap and on a pixel map whose buffer has the announced
    size, [Flip] reverses every row and leaves the rest as it is, and
    flipping the result gives the image back. *)
Theorem Flip_reverses_rows (pbm : PBM.t) (ppm : PPM.t) :
  PBM_ok pbm -> int_size (PBM.width pbm) ->
  PPM_ok ppm -> int_size (PPM.width ppm) ->
  (exists pbm', PBM.Flip pbm = Ret pbm' /\
     pbm' = PBM.mk (map reverse (PBM.data pbm)) (PBM.width pbm) (PBM.height pbm)
                   (PBM.magicNumber pbm) /\
     PBM.Flip pbm' = Ret pbm) /\
  (exists ppm', PPM.Flip ppm = Ret ppm' /\
     ppm' = PPM.mk (map reverse (PPM.data ppm)) (PPM.width ppm) (PPM.height ppm)
                   (PPM.magicNumber ppm) (PPM.max ppm) /\
     PPM.Flip ppm' = Ret ppm).
Proof.
  intros Hb Hbw Hp Hpw. split.
  - destruct pbm as [d w h m]. unfold PBM_ok, PBM.Flip in *. simpl in *.
    pose proof (forM_flip d w h Hb Hbw) as H1.
    pose proof (forM_flip _ w h (rect_reverse_rows d w h Hb) Hbw) as H2.
    cbv zeta in H1, H2. rewrite H1, bind_Ret.
    eexists. split; [reflexivity|]. split; [reflexivity|]. simpl.
    rewrite H2, bind_Ret. do 2 f_equal.
    rewrite map_map. rewrite <- (map_id d) at 2. apply map_ext.
    intros row. apply reverse_involutive.
  - destruct ppm as [d w h m mx]. unfold PPM_ok, PPM.Flip, PPM.with_data in *. simpl in *.
    pose proof (forM_flip d w h Hp Hpw) as H1.
    pose proof (forM_flip _ w h (rect_reverse_rows d w h Hp) Hpw) as H2.
    cbv zeta in H1, H2. rewrite H1.
    eexists. split; [reflexivity|]. split; [reflexivity|]. simpl.
    rewrite H2. simpl. do 2 f_equal.
    rewrite map_map. rewrite <- (map_id d) at 2. apply map_ext.
    intros row. apply reverse_involutive.
Qed.

Lemma Flip_reverses_rows_witness :
  (exists pbm', PBM.Flip steps_pbm = Ret pbm' /\
     pbm' = PBM.mk (map reverse (PBM.data steps_pbm)) (PBM.width steps_pbm)
                   (PBM.height steps_pbm) (PBM.magicNumber steps_pbm) /\
     PBM.Flip pbm' = Ret steps_pbm) /\
  (exists ppm', PPM.Flip steps_ppm = Ret ppm' /\
     ppm' = PPM.mk (map reverse (PPM.data steps_ppm)) (PPM.width steps_ppm)
                   (PPM.height steps_ppm) (PPM.magicNumber steps_ppm) (PPM.max steps_ppm) /\
     PPM.Flip ppm' = Ret steps_ppm).
Proof. apply (Flip_reverses_rows steps_pbm steps_ppm); literal_rect. Defined.

(** X6: [Flop], in the three formats, on an image of [height] rows
    reverses the order of the rows, and flopping the result gives the
    image back. *)
Theorem Flop_reverses_rows_order (pbm : PBM.t) (pgm : PGM.t) (ppm : PPM.t) :
  len (PBM.data pbm) = PBM.height pbm -> int_size (PBM.height pbm) ->
  len (PGM.data pgm) = PGM.height pgm -> int_size (PGM.height pgm) ->
  len (PPM.data ppm) = PPM.height ppm -> int_size (PPM.height ppm) ->
  (exists pbm', PBM.Flop pbm = Ret pbm' /\
     pbm' = PBM.mk (reverse (PBM.data pbm)) (PBM.width pbm) (PBM.height pbm)
                   (PBM.magicNumber pbm) /\
     PBM.Flop pbm' = Ret pbm) /\
  (exists pgm', PGM.Flop pgm = Ret pgm' /\
     pgm' = PGM.mk (reverse (PGM.data pgm)) (PGM.width pgm) (PGM.height pgm)
                   (PGM.magicNumber pgm) (PGM.max pgm) /\
     PGM.Flop pgm' = Ret pgm) /\
  (exists ppm', PPM.Flop ppm = Ret ppm' /\
     ppm' = PPM.mk (reverse (PPM.data ppm)) (PPM.width ppm) (PPM.height ppm)
                   (PPM.magicNumber ppm) (PPM.max ppm) /\
     PPM.Flop ppm' = Ret ppm).
Proof.
  intros Hb Hbh Hg Hgh Hp Hph. split; [|split].
  - destruct pbm as [d w h m]. unfold PBM.Flop in *. simpl in *.
    pose proof (forM_flop d h Hb Hbh) as H1.
    assert (Hlen' : len (reverse d) = h) by (unfold len in *; by rewrite length_reverse).
    pose proof (forM_flop (reverse d) h Hlen' Hbh) as H2.
    cbv zeta in H1, H2. rewrite H1, bind_Ret.
    eexists. split; [reflexivity|]. split; [reflexivity|]. simpl.
    rewrite H2, bind_Ret. by rewrite reverse_involutive.
  - destruct pgm as [d w h m mx]. unfold PGM.Flop in *. simpl in *.
    pose proof (forM_flop d h Hg Hgh) as H1.
    assert (Hlen' : len (reverse d) = h) by (unfold len in *; by rewrite length_reverse).
    pose proof (forM_flop (reverse d) h Hlen' Hgh) as H2.
    cbv zeta in H1, H2. rewrite H1, bind_Ret.
    eexists. split; [reflexivity|]. split; [reflexivity|]. simpl.
    rewrite H2, bind_Ret. by rewrite reverse_involutive.
  - destruct ppm as [d w h m mx]. unfold PPM.Flop, PPM.with_data in *. simpl in *.
    pose proof (forM_flop d h Hp Hph) as H1.
    assert (Hlen' : len (reverse d) = h) by (unfold len in *; by rewrite length_reverse).
    pose proof (forM_flop (reverse d) h Hlen' Hph) as H2.
    cbv zeta in H1, H2. rewrite H1.
    eexists. split; [reflexivity|]. split; [reflexivity|]. simpl.
    rewrite H2. simpl. by rewrite reverse_involutive.
Qed.

Lemma Flop_reverses_rows_order_witness :
  (exists pbm', PBM.Flop steps_pbm = Ret pbm' /\
     pbm' = PBM.mk (reverse (PBM.data steps_pbm)) (PBM.width steps_pbm)
                   (PBM.height steps_pbm) (PBM.magicNumber steps_pbm) /\
     PBM.Flop pbm' = Ret steps_pbm) /\
  (exists pgm', PGM.Flop steps_pgm = Ret pgm' /\
     pgm' = PGM.mk (reverse (PGM.data steps_pgm)) (PGM.width steps_pgm)
                   (PGM.height steps_pgm) (PGM.magicNumber steps_pgm) (PGM.max steps_pgm) /\
     PGM.Flop pgm' = Ret steps_pgm) /\
  (exists ppm', PPM.Flop steps_ppm = Ret ppm' /\
     ppm' = PPM.mk (reverse (PPM.data steps_ppm)) (PPM.width steps_ppm)
                   (PPM.height steps_ppm) (PPM.magicNumber steps_ppm) (PPM.max steps_ppm) /\
     PPM.Flop ppm' = Ret steps_ppm).
Proof.
  apply (Flop_reverses_rows_order steps_pbm steps_pgm steps_ppm);
    solve [reflexivity | literal_rect].
Defined.

(** The two-pointer loop of [PGM.Flip]: from [j] and [k] it mirrors
    the samples between the two and keeps the others. *)
Lemma flipRow_spec (fuel : nat) :
  forall (j k : Z) (row : list Z),
    0 <= j -> k < len row -> int_size (len row) -> k - j < Z.of_nat fuel ->
    exists row', PGM.flipRow fuel j k row = Ret row' /\ length row' = length row /\
      forall i : nat, row' !! i =
        if bool_decide (j <= Z.of_nat i <= k) then row !! Z.to_nat (j + k - Z.of_nat i)
        else row !! i.
Proof.
  induction fuel as [|fuel IH]; intros j k row Hj Hk Hn Hfuel.
  - exists row. simpl. replace (j <? k) with false by lia.
    repeat split. intros i. case_bool_decide; [|done].
    f_equal. lia.
  - simpl. destruct (Z.ltb_spec j k) as [Hlt|Hge].
    + unfold int_size, len in *.
      destruct (index_inside row k) as (a & Ha & ->); [unfold len; lia|].
      destruct (index_inside row j) as (b & Hb & ->); [unfold len; lia|].
      rewrite !bind_Ret. rewrite store_inside by (unfold len; lia).
      rewrite bind_Ret. rewrite store_inside
        by (unfold len; rewrite length_insert; lia).
      rewrite bind_Ret. unfold int_add, int_sub.
      rewrite !wrap64_small by lia.
      destruct (IH (j + 1) (k - 1) (<[Z.to_nat k:=b]> (<[Z.to_nat j:=a]> row)))
        as (row' & Hrun & Hlen & Hrow');
        [lia|unfold len; rewrite !length_insert; lia
        |unfold len; rewrite !length_insert; lia|lia|].
      exists row'. split; [exact Hrun|]. split; [by rewrite Hlen, !length_insert|].
      intros i. rewrite Hrow'.
      destruct (decide (Z.of_nat i = j)) as [Hij|Hij].
      { rewrite bool_decide_false by lia. rewrite bool_decide_true by lia.
        rewrite list_lookup_insert_ne by lia.
        replace i with (Z.to_nat j) by lia.
        rewrite list_lookup_insert_eq by lia.
        rewrite <- Ha. f_equal. lia. }
      destruct (decide (Z.of_nat i = k)) as [Hik|Hik].
      { rewrite bool_decide_false by lia. rewrite bool_decide_true by lia.
        replace i with (Z.to_nat k) by lia.
        rewrite list_lookup_insert_eq by (rewrite length_insert; lia).
        rewrite <- Hb. f_equal. lia. }
      case_bool_decide; [rewrite bool_decide_true by lia|rewrite bool_decide_false by lia].
      * rewrite !list_lookup_insert_ne by lia. f_equal. lia.
      * by rewrite !list_lookup_insert_ne by lia.
    + exists row. repeat split. intros i. case_bool_decide; [|done].
      f_equal. lia.
Qed.

Lemma flipRow_reverse (row : list Z) :
  int_size (len row) ->
  PGM.flipRow (length row) 0 (int_sub (len row) 1) row = Ret (reverse row).
Proof.
  intros Hn. unfold int_size, len in *. unfold int_sub.
  rewrite wrap64_small by lia.
  destruct (flipRow_spec (length row) 0 (Z.of_nat (length row) - 1) row)
    as (row' & -> & Hlen & Hrow'); [lia|unfold len; lia|done|lia|].
  f_equal. apply list_eq. intros i.
  rewrite Hrow'. destruct (decide (i < length row)%nat) as [Hi|Hi].
  - rewrite bool_decide_true by lia. rewrite reverse_lookup by done.
    f_equal. lia.
  - rewrite bool_decide_false by lia.
    rewrite !lookup_ge_None_2; [done|rewrite length_reverse; lia|lia].
Qed.

(** X5: [PGM.Flip] reverses every row of the buffer, whatever the
    lengths of the rows and the announced dimensions, and flipping
    twice gives the image back. *)
Theorem PGM_Flip_reverses_rows (pgm : PGM.t) :
  Forall (fun row => int_size (len row)) (PGM.data pgm) ->
  exists pgm', PGM.Flip pgm = Ret pgm' /\
    pgm' = PGM.mk (map reverse (PGM.data pgm)) (PGM.width pgm) (PGM.height pgm)
                  (PGM.magicNumber pgm) (PGM.max pgm) /\
    PGM.Flip pgm' = Ret pgm.
Proof.
  assert (Hloop : forall d : list (list Z),
    Forall (fun row => int_size (len row)) d ->
    forM (range 0 (len d)) d (fun i data =>
      row ← index data i;
      row ← PGM.flipRow (length row) 0 (int_sub (len row) 1) row;
      store data i row) = Ret (map reverse d)).
  { intros d Hd.
    destruct (forM_range_inv
      (fun i s => length s = length d /\
         forall n : nat, s !! n =
           if bool_decide (Z.of_nat n < i) then reverse <$> d !! n else d !! n)
      (fun i data =>
        row ← index data i;
        row ← PGM.flipRow (length row) 0 (int_sub (len row) 1) row;
        store data i row) 0 (len d) d) as (s' & Hrun & Hlen & Hs').
    - unfold len. lia.
    - split; [done|]. intros n. by rewrite bool_decide_false by lia.
    - intros i s Hi (Hlen & Hs). unfold len in Hi.
      destruct (index_inside s i) as (row & Hrow & ->); [unfold len; lia|].
      rewrite bind_Ret.
      assert (Hrow' : d !! Z.to_nat i = Some row).
      { rewrite Hs in Hrow. by rewrite bool_decide_false in Hrow by lia. }
      rewrite Forall_lookup in Hd. rewrite flipRow_reverse by (by eapply Hd).
      rewrite bind_Ret. rewrite store_inside by (unfold len; lia).
      eexists. split; [reflexivity|]. split; [by rewrite length_insert|].
      intros n. destruct (decide (n = Z.to_nat i)) as [->|Hn].
      + rewrite list_lookup_insert_eq by lia. rewrite bool_decide_true by lia.
        by rewrite Hrow'.
      + rewrite list_lookup_insert_ne by done. rewrite Hs.
        case_bool_decide; [rewrite bool_decide_true by lia|rewrite bool_decide_false by lia];
          done.
    - rewrite Hrun. f_equal. apply list_eq. intros n. rewrite Hs', list_lookup_fmap.
      case_bool_decide as Hn; [done|].
      unfold len in Hn. rewrite !lookup_ge_None_2 by lia. done. }
  intros Hd. destruct pgm as [d w h m mx]. unfold PGM.Flip. simpl in *.
  rewrite (Hloop d Hd), bind_Ret.
  eexists. split; [reflexivity|]. split; [reflexivity|]. simpl.
  rewrite Hloop, bind_Ret.
  - do 2 f_equal. rewrite map_map. rewrite <- (map_id d) at 2. apply map_ext.
    intros row. apply reverse_involutive.
  - apply Forall_fmap. eapply Forall_impl; [exact Hd|].
    intros row. unfold len. simpl. by rewrite length_reverse.
Qed.

Lemma PGM_Flip_reverses_rows_witness :
  exists pgm', PGM.Flip steps_pgm = Ret pgm' /\
    pgm' = PGM.mk (map reverse (PGM.data steps_pgm)) (PGM.width steps_pgm)
                  (PGM.height steps_pgm) (PGM.magicNumber steps_pgm) (PGM.max steps_pgm) /\
    PGM.Flip pgm' = Ret steps_pgm.
Proof.
  apply (PGM_Flip_reverses_rows steps_pgm).
  repeat constructor; unfold int_size; simpl; lia.
Defined.

(** * Quarter turns *)

Lemma column_lookup {A : Type} (d : list (list A)) (i c : nat) :
  Forall (fun row => (i < length row)%nat) d ->
  column d i !! c = d !! c ≫= fun row => row !! i.
Proof.
  intros Hd. revert c. induction Hd as [|row d Hrow Hd IH]; intros c; [done|].
  unfold column. simpl. destruct (lookup_lt_is_Some_2 row i Hrow) as [a Ha].
  rewrite Ha. simpl. destruct c as [|c]; simpl; [done|]. apply IH.
Qed.

Lemma column_length {A : Type} (d : list (list A)) (i : nat) :
  Forall (fun row => (i < length row)%nat) d -> length (column d i) = length d.
Proof.
  intros Hd. induction Hd as [|row d Hrow Hd IH]; [done|].
  unfold column. simpl. destruct (lookup_lt_is_Some_2 row i Hrow) as [a Ha].
  rewrite Ha. simpl. f_equal. apply IH.
Qed.

Lemma rect_columns {A : Type} (d : list (list A)) (w h : Z) (i : nat) :
  rect d w h -> Z.of_nat i < w -> Forall (fun row => (i < length row)%nat) (reverse d).
Proof.
  intros (Hw & Hh & Hlen & Hrows) Hi. apply Forall_reverse.
  eapply Forall_impl; [exact Hrows|]. intros row Hr. simpl in Hr. lia.
Qed.

Lemma rotate_cw_rect {A : Type} (d : list (list A)) (w h : Z) :
  rect d w h -> rect (rotate_cw d w) h w.
Proof.
  intros Hrect. pose proof Hrect as (Hw & Hh & Hlen & Hrows).
  unfold rotate_cw. repeat split; try done.
  - rewrite length_map, length_seq. lia.
  - apply Forall_fmap, Forall_forall. intros i Hi. apply elem_of_seq in Hi. simpl.
    rewrite column_length by (apply (rect_columns d w h); [done|lia]).
    rewrite length_reverse. lia.
Qed.

Lemma rotate_cw_cell {A : Type} (d : list (list A)) (w h c r : Z) :
  rect d w h -> 0 <= c < h -> 0 <= r < w ->
  cell (rotate_cw d w) c r = cell d r (h - 1 - c).
Proof.
  intros Hrect Hc Hr. pose proof Hrect as (Hw & Hh & Hlen & Hrows).
  unfold cell, rotate_cw.
  change (map ?f ?l) with (f <$> l). rewrite list_lookup_fmap.
  rewrite lookup_seq_lt by lia. simpl.
  rewrite column_lookup by (apply (rect_columns d w h); [done|lia]).
  rewrite reverse_lookup by lia.
  replace (length d - S (Z.to_nat c))%nat with (Z.to_nat (h - 1 - c)) by lia.
  done.
Qed.

(** The rows allocated one by one. *)
Lemma forM_alloc_rows {A : Type} (z : A) (e : list A) (w h : Z) :
  0 <= w -> 0 <= h ->
  forM (range 0 (len (replicate (Z.to_nat h) e))) (replicate (Z.to_nat h) e)
       (fun i d => row ← make z w; store d i row)
  = Ret (replicate (Z.to_nat h) (replicate (Z.to_nat w) z)).
Proof.
  intros Hw Hh. unfold len. rewrite length_replicate, Z2Nat.id by lia.
  destruct (forM_range_inv
    (fun i s => length s = Z.to_nat h /\
       forall n : nat, (n < Z.to_nat h)%nat ->
         s !! n = Some (if bool_decide (Z.of_nat n < i) then replicate (Z.to_nat w) z else e))
    (fun i d => row ← make z w; store d i row) 0 h (replicate (Z.to_nat h) e) Hh)
    as (s' & Hrun & Hlen & Hs').
  - split; [by rewrite length_replicate|]. intros n Hn.
    rewrite bool_decide_false by lia. by apply lookup_replicate_2.
  - intros i s Hi (Hlen & Hs). unfold make.
    destruct (Z.ltb_spec w 0); [lia|]. rewrite bind_Ret.
    rewrite store_inside by (unfold len; lia).
    eexists. split; [reflexivity|]. split; [by rewrite length_insert|].
    intros n Hn. destruct (decide (n = Z.to_nat i)) as [->|Hne].
    + rewrite list_lookup_insert_eq by lia. by rewrite bool_decide_true by lia.
    + rewrite list_lookup_insert_ne by done. rewrite Hs by done.
      case_bool_decide; [rewrite bool_decide_true by lia|rewrite bool_decide_false by lia];
        done.
  - rewrite Hrun. f_equal. apply list_eq. intros n.
    destruct (decide (n < Z.to_nat h)%nat) as [Hn|Hn].
    + rewrite Hs' by done. rewrite bool_decide_true by lia.
      symmetry. by apply lookup_replicate_2.
    + rewrite !lookup_ge_None_2; [done|rewrite length_replicate; lia|lia].
Qed.

(** The copying loop of [PPM.Rotate90CW]. *)
Lemma forM_rotate {A : Type} (z : A) (d : list (list A)) (w h : Z) :
  rect d w h -> int_size h ->
  forM (range 0 h) (replicate (Z.to_nat w) (replicate (Z.to_nat h) z)) (fun y nd =>
    forM (range 0 w) nd (fun x nd =>
      v ← index2 d y x;
      store2 nd x (int_sub (int_sub h y) 1) v))
  = Ret (rotate_cw d w).
Proof.
  intros Hrect Hint. pose proof Hrect as (Hw & Hh & _). unfold int_size in Hint.
  set (I := fun (y x : Z) (nd : list (list A)) =>
    rect nd h w /\ forall c r, 0 <= c < h -> 0 <= r < w ->
      cell nd c r = if (h - 1 - c <? y) || ((h - 1 - c =? y) && (r <? x))
                    then cell d r (h - 1 - c) else Some z).
  destruct (forM_range_inv (fun y nd => I y 0 nd)
    (fun y nd => forM (range 0 w) nd (fun x nd =>
      v ← index2 d y x; store2 nd x (int_sub (int_sub h y) 1) v))
    0 h (replicate (Z.to_nat w) (replicate (Z.to_nat h) z)) Hh)
    as (nd' & Hrun & Hrect' & Hcells).
  - split; [by apply replicate_rect|]. intros c r Hc Hr.
    replace ((h - 1 - c <? 0) || ((h - 1 - c =? 0) && (r <? 0))) with false by lia.
    unfold cell. rewrite lookup_replicate_2 by lia. simpl.
    by rewrite lookup_replicate_2 by lia.
  - intros y nd Hy HI.
    destruct (forM_range_inv (fun x nd => I y x nd)
      (fun x nd => v ← index2 d y x; store2 nd x (int_sub (int_sub h y) 1) v)
      0 w nd Hw HI) as (nd1 & Hrun1 & Hr1 & Hc1).
    + intros x nd0 Hx (Hr0 & Hc0).
      destruct (cell_Some d w h x y Hrect Hx Hy) as [v Hv].
      rewrite (index2_cell d x y v) by (done || lia). rewrite bind_Ret.
      unfold int_sub. rewrite (wrap64_small (h - y)) by lia.
      rewrite wrap64_small by lia.
      destruct (store2_cell nd0 h w (h - y - 1) x v Hr0 ltac:(lia) Hx)
        as (nd2 & -> & Hr2 & Hc2).
      eexists. split; [reflexivity|]. split; [done|].
      intros c r Hc Hr. rewrite Hc2 by lia. rewrite Hc0 by done.
      case_bool_decide as Hcr.
      * destruct Hcr as [-> ->].
        replace (h - 1 - (h - y - 1)) with y by lia.
        replace ((y <? y) || ((y =? y) && (x <? x + 1))) with true by lia. done.
      * destruct (Z.ltb_spec (h - 1 - c) y); simpl; [done|].
        destruct (Z.eqb_spec (h - 1 - c) y) as [Hcy|Hcy]; simpl; [|done].
        assert (r <> x) by (intros ->; apply Hcr; split; [lia|done]).
        destruct (Z.ltb_spec r x), (Z.ltb_spec r (x + 1)); try lia; done.
    + exists nd1. split; [exact Hrun1|]. split; [done|].
      intros c r Hc Hr. rewrite Hc1 by done.
      destruct (Z.ltb_spec (h - 1 - c) y), (Z.ltb_spec (h - 1 - c) (y + 1)),
        (Z.eqb_spec (h - 1 - c) y), (Z.eqb_spec (h - 1 - c) (y + 1)); try lia; simpl;
        try done.
      * by replace (r <? w) with true by lia.
      * by replace (r <? 0) with false by lia.
  - rewrite Hrun. f_equal.
    apply (rect_ext _ _ h w); [done|by apply rotate_cw_rect|].
    intros c r Hc Hr. rewrite Hcells by done.
    rewrite (rotate_cw_cell d w h) by done.
    by replace (h - 1 - c <? h) with true by lia.
Qed.

(** What [PPM.Rotate90CW] returns on a pixel map whose buffer has the
    announced size. *)
Lemma PPM_Rotate90CW_run (ppm : PPM.t) :
  PPM_ok ppm -> int_size (PPM.height ppm) ->
  PPM.Rotate90CW ppm =
    Ret (PPM.mk (rotate_cw (PPM.data ppm) (PPM.width ppm)) (PPM.height ppm)
                (PPM.width ppm) (PPM.magicNumber ppm) (PPM.max ppm)).
Proof.
  intros Hrect Hint. destruct ppm as [d w h m mx]. unfold PPM_ok, PPM.Rotate90CW in *.
  simpl in *. pose proof Hrect as (Hw & Hh & _).
  rewrite (make_ok (A := list Pixel) [] w) by done. rewrite bind_Ret.
  rewrite forM_alloc_rows by done. rewrite bind_Ret.
  by rewrite forM_rotate.
Qed.

(** X7: on a pixel map whose buffer has the announced size,
    [PPM.Rotate90CW] returns an image with the dimensions exchanged,
    whose buffer has the new size, and in which the pixel (x, y) of
    the image is found in column [height-1-y] of row [x]. *)
Theorem PPM_Rotate90CW_quarter_turn (ppm : PPM.t) :
  PPM_ok ppm -> int_size (PPM.height ppm) ->
  exists ppm', PPM.Rotate90CW ppm = Ret ppm' /\ PPM_ok ppm' /\
    PPM.width ppm' = PPM.height ppm /\ PPM.height ppm' = PPM.width ppm /\
    PPM.magicNumber ppm' = PPM.magicNumber ppm /\ PPM.max ppm' = PPM.max ppm /\
    forall x y, 0 <= x < PPM.width ppm -> 0 <= y < PPM.height ppm ->
      cell (PPM.data ppm') (PPM.height ppm - 1 - y) x = cell (PPM.data ppm) x y.
Proof.
  intros Hrect Hint. rewrite PPM_Rotate90CW_run by done.
  eexists. split; [reflexivity|]. unfold PPM_ok in *. simpl.
  split; [by apply rotate_cw_rect|]. repeat split.
  intros x y Hx Hy.
  rewrite (rotate_cw_cell _ (PPM.width ppm) (PPM.height ppm)) by (done || lia).
  f_equal. lia.
Qed.

Lemma PPM_Rotate90CW_quarter_turn_witness :
  exists ppm', PPM.Rotate90CW steps_ppm = Ret ppm' /\ PPM_ok ppm' /\
    PPM.width ppm' = PPM.height steps_ppm /\ PPM.height ppm' = PPM.width steps_ppm /\
    PPM.magicNumber ppm' = PPM.magicNumber steps_ppm /\ PPM.max ppm' = PPM.max steps_ppm /\
    forall x y, 0 <= x < PPM.width steps_ppm -> 0 <= y < PPM.height steps_ppm ->
      cell (PPM.data ppm') (PPM.height steps_ppm - 1 - y) x = cell (PPM.data steps_ppm) x y.
Proof. apply (PPM_Rotate90CW_quarter_turn steps_ppm); literal_rect. Defined.

Lemma rotate_cw_row {A : Type} (d : list (list A)) (w h i : Z) :
  rect d w h -> 0 <= i < w ->
  exists row, rotate_cw d w !! Z.to_nat i = Some row /\ length row = Z.to_nat h /\
    forall c, 0 <= c < h -> row !! Z.to_nat c = cell d i (h - 1 - c).
Proof.
  intros Hrect Hi. pose proof (rotate_cw_rect d w h Hrect) as (_ & _ & Hlen & Hrows).
  destruct (lookup_lt_is_Some_2 (rotate_cw d w) (Z.to_nat i)) as [row Hrow]; [lia|].
  exists row. split; [done|]. split.
  - rewrite Forall_lookup in Hrows. specialize (Hrows _ _ Hrow). simpl in Hrows. lia.
  - intros c Hc. rewrite <- (rotate_cw_cell d w h c i) by done.
    unfold cell. by rewrite Hrow.
Qed.

(** The loop of [PGM.Rotate90CW], which allocates and fills the new
    rows one after the other. *)
Lemma forM_rotate_rows {A : Type} (z : A) (d : list (list A)) (w h : Z) :
  rect d w h -> int_size h ->
  forM (range 0 w) (replicate (Z.to_nat w) []) (fun i nd =>
    row ← make z h;
    nd ← store nd i row;
    forM (range 0 h) nd (fun j nd =>
      v ← index2 d (int_sub (int_sub h j) 1) i;
      store2 nd i j v))
  = Ret (rotate_cw d w).
Proof.
  intros Hrect Hint. pose proof Hrect as (Hw & Hh & _). unfold int_size in Hint.
  pose proof (rotate_cw_rect d w h Hrect) as (_ & _ & Hrl & _).
  destruct (forM_range_inv
    (fun i s => length s = Z.to_nat w /\
       forall n : nat, (n < Z.to_nat w)%nat ->
         s !! n = if bool_decide (Z.of_nat n < i) then rotate_cw d w !! n else Some [])
    (fun i nd =>
      row ← make z h;
      nd ← store nd i row;
      forM (range 0 h) nd (fun j nd =>
        v ← index2 d (int_sub (int_sub h j) 1) i;
        store2 nd i j v))
    0 w (replicate (Z.to_nat w) []) Hw) as (s' & Hrun & Hlen & Hs').
  - split; [by rewrite length_replicate|]. intros n Hn.
    rewrite bool_decide_false by lia. by apply lookup_replicate_2.
  - intros i s Hi (Hlen & Hs).
    rewrite make_ok, bind_Ret by done.
    rewrite store_inside, bind_Ret by (unfold len; lia).
    destruct (rotate_cw_row d w h i Hrect Hi) as (target & Htarget & Htl & Htc).
    destruct (forM_range_inv
      (fun j s1 => length s1 = Z.to_nat w /\
         (forall n : nat, n <> Z.to_nat i -> s1 !! n = s !! n) /\
         exists row, s1 !! Z.to_nat i = Some row /\ length row = Z.to_nat h /\
           forall c, 0 <= c < h ->
             row !! Z.to_nat c = if c <? j then target !! Z.to_nat c else Some z)
      (fun j nd =>
        v ← index2 d (int_sub (int_sub h j) 1) i;
        store2 nd i j v)
      0 h (<[Z.to_nat i:=replicate (Z.to_nat h) z]> s) Hh)
      as (s1 & Hrun1 & Hlen1 & Hother & row & Hrow & Hrowl & Hrowc).
    + split; [by rewrite length_insert|]. split.
      * intros n Hn. by rewrite list_lookup_insert_ne by done.
      * eexists. split; [by rewrite list_lookup_insert_eq by lia|].
        split; [by rewrite length_replicate|]. intros c Hc.
        replace (c <? 0) with false by lia. by apply lookup_replicate_2; lia.
    + intros j s1 Hj (Hlen1 & Hother & row & Hrow & Hrowl & Hrowc).
      unfold int_sub. rewrite (wrap64_small (h - j)) by lia.
      rewrite wrap64_small by lia.
      destruct (cell_Some d w h i (h - j - 1) Hrect Hi ltac:(lia)) as [v Hv].
      rewrite (index2_cell d i (h - j - 1) v) by (done || lia). rewrite bind_Ret.
      unfold store2. rewrite (index_lookup s1 i row) by (done || lia).
      rewrite bind_Ret, store_inside, bind_Ret by (unfold len; lia).
      rewrite store_inside by (unfold len; lia).
      eexists. split; [reflexivity|]. split; [by rewrite length_insert|]. split.
      * intros n Hn. rewrite list_lookup_insert_ne by done. by apply Hother.
      * eexists. split; [by rewrite list_lookup_insert_eq by lia|].
        split; [by rewrite length_insert|]. intros c Hc.
        destruct (decide (c = j)) as [->|Hcj].
        -- rewrite list_lookup_insert_eq by lia.
           replace (j <? j + 1) with true by lia.
           rewrite Htc by done. rewrite <- Hv. f_equal. lia.
        -- rewrite list_lookup_insert_ne by lia. rewrite Hrowc by done.
           destruct (Z.ltb_spec c j), (Z.ltb_spec c (j + 1)); try lia; done.
    + exists s1. split; [exact Hrun1|]. split; [done|].
      intros n Hn. destruct (decide (n = Z.to_nat i)) as [->|Hne].
      * rewrite bool_decide_true by lia. rewrite Hrow, Htarget. f_equal.
        apply list_eq. intros c. destruct (decide (c < Z.to_nat h)%nat) as [Hc|Hc].
        -- specialize (Hrowc (Z.of_nat c) ltac:(lia)). rewrite Nat2Z.id in Hrowc.
           rewrite Hrowc. by replace (Z.of_nat c <? h) with true by lia.
        -- rewrite !lookup_ge_None_2; [done|lia|lia].
      * rewrite Hother by done. rewrite Hs by done.
        case_bool_decide; [rewrite bool_decide_true by lia|rewrite bool_decide_false by lia];
          done.
  - rewrite Hrun. f_equal. apply list_eq. intros n.
    destruct (decide (n < Z.to_nat w)%nat) as [Hn|Hn].
    + rewrite Hs' by done. by rewrite bool_decide_true by lia.
    + rewrite !lookup_ge_None_2; [done|lia|lia].
Qed.

(** X8: [PGM.Rotate90CW] leaves an image without columns or without
    rows as it is; otherwise, on a gray map whose buffer has the
    announced size, it exchanges the dimensions and stores the buffer
    turned a quarter clockwise. *)
Theorem PGM_Rotate90CW_quarter_turn (pgm : PGM.t) :
  PGM_ok pgm -> int_size (PGM.height pgm) ->
  PGM.Rotate90CW pgm =
    Ret (if (PGM.width pgm <=? 0) || (PGM.height pgm <=? 0) then pgm
         else PGM.mk (rotate_cw (PGM.data pgm) (PGM.width pgm)) (PGM.height pgm)
                     (PGM.width pgm) (PGM.magicNumber pgm) (PGM.max pgm)).
Proof.
  intros Hrect Hint. destruct pgm as [d w h m mx]. unfold PGM_ok, PGM.Rotate90CW in *.
  simpl in *. pose proof Hrect as (Hw & Hh & _).
  destruct ((w <=? 0) || (h <=? 0)); [done|].
  rewrite (make_ok (A := list Z) [] w) by done. rewrite bind_Ret.
  by rewrite forM_rotate_rows.
Qed.

Lemma PGM_Rotate90CW_quarter_turn_witness :
  PGM.Rotate90CW steps_pgm =
    Ret (if (PGM.width steps_pgm <=? 0) || (PGM.height steps_pgm <=? 0) then steps_pgm
         else PGM.mk (rotate_cw (PGM.data steps_pgm) (PGM.width steps_pgm))
                     (PGM.height steps_pgm) (PGM.width steps_pgm)
                     (PGM.magicNumber steps_pgm) (PGM.max steps_pgm)).
Proof. apply (PGM_Rotate90CW_quarter_turn steps_pgm); literal_rect. Defined.

(** Four quarter turns give the buffer back, and two give the buffer
    with its rows reversed and in the reverse order. *)
Lemma rotate_cw_twice {A : Type} (d : list (list A)) (w h : Z) :
  rect d w h -> rotate_cw (rotate_cw d w) h = reverse (map reverse d).
Proof.
  intros Hrect. pose proof Hrect as (Hw & Hh & Hlen & Hrows).
  pose proof (rotate_cw_rect d w h Hrect) as Hr1.
  pose proof (rotate_cw_rect _ h w Hr1) as Hr2.
  assert (Hr3 : rect (reverse (map reverse d)) w h).
  { repeat split; try done.
    - by rewrite length_reverse, length_map.
    - apply Forall_reverse, Forall_fmap. eapply Forall_impl; [exact Hrows|].
      intros row Hr. simpl. by rewrite length_reverse. }
  apply (rect_ext _ _ w h); [done|done|].
  intros x y Hx Hy.
  rewrite (rotate_cw_cell _ h w) by done.
  rewrite (rotate_cw_cell d w h) by (done || lia).
  unfold cell. rewrite reverse_lookup by (rewrite length_map; lia).
  change (map reverse d) with (reverse <$> d). rewrite list_lookup_fmap, length_fmap.
  replace (length d - S (Z.to_nat y))%nat with (Z.to_nat (h - 1 - y)) by lia.
  destruct (lookup_lt_is_Some_2 d (Z.to_nat (h - 1 - y))) as [row Hrow]; [lia|].
  rewrite Hrow. simpl. rewrite Forall_lookup in Hrows. specialize (Hrows _ _ Hrow).
  simpl in Hrows. rewrite reverse_lookup by lia. f_equal. lia.
Qed.

Lemma rotate_cw_four {A : Type} (d : list (list A)) (w h : Z) :
  rect d w h -> rotate_cw (rotate_cw (rotate_cw (rotate_cw d w) h) w) h = d.
Proof.
  intros Hrect. pose proof Hrect as (Hw & Hh & Hlen & Hrows).
  pose proof (rotate_cw_rect d w h Hrect) as Hr1.
  pose proof (rotate_cw_rect _ h w Hr1) as Hr2.
  rewrite (rotate_cw_twice _ w h) by done.
  rewrite (rotate_cw_twice d w h) by done.
  change (map reverse (reverse (map reverse d)))
    with (reverse <$> reverse (map reverse d)).
  rewrite fmap_reverse, reverse_involutive.
  change (reverse <$> map reverse d) with (map reverse (map reverse d)).
  rewrite map_map.
  rewrite <- (map_id d) at 2. apply map_ext. intros row. apply reverse_involutive.
Qed.

(** X9: on a pixel map whose buffer has the announced size, two
    quarter turns are a [Flip] followed by a [Flop], and four quarter
    turns give the image back. *)
Theorem PPM_Rotate90CW_turns (ppm : PPM.t) :
  PPM_ok ppm -> int_size (PPM.width ppm) -> int_size (PPM.height ppm) ->
  (exists ppm', (a ← PPM.Rotate90CW ppm; PPM.Rotate90CW a) = Ret ppm' /\
     (a ← PPM.Flip ppm; PPM.Flop a) = Ret ppm') /\
  (a ← PPM.Rotate90CW ppm; b ← PPM.Rotate90CW a; c ← PPM.Rotate90CW b;
   PPM.Rotate90CW c) = Ret ppm.
Proof.
  intros Hrect Hiw Hih. destruct ppm as [d w h m mx]. unfold PPM_ok in *. simpl in *.
  pose proof (rotate_cw_rect d w h Hrect) as Hr1.
  pose proof (rotate_cw_rect _ h w Hr1) as Hr2.
  pose proof (rotate_cw_rect _ w h Hr2) as Hr3.
  split.
  - rewrite PPM_Rotate90CW_run, bind_Ret by done. simpl.
    rewrite PPM_Rotate90CW_run by done. simpl.
    eexists. split; [reflexivity|].
    unfold PPM.Flip, PPM.Flop, PPM.with_data. simpl.
    pose proof (forM_flip d w h Hrect Hiw) as H1. cbv zeta in H1. rewrite H1. simpl.
    assert (Hlen : len (map reverse d) = h).
    { destruct Hrect as (_ & _ & Hlen & _). unfold len. by rewrite length_map. }
    pose proof (forM_flop (map reverse d) h Hlen Hih) as H2. cbv zeta in H2.
    rewrite H2. simpl. by rewrite (rotate_cw_twice d w h).
  - rewrite PPM_Rotate90CW_run, bind_Ret by done. simpl.
    rewrite PPM_Rotate90CW_run, bind_Ret by done. simpl.
    rewrite PPM_Rotate90CW_run, bind_Ret by done. simpl.
    rewrite PPM_Rotate90CW_run by done. simpl.
    by rewrite (rotate_cw_four d w h).
Qed.

Lemma PPM_Rotate90CW_turns_witness :
  (exists ppm', (a ← PPM.Rotate90CW steps_ppm; PPM.Rotate90CW a) = Ret ppm' /\
     (a ← PPM.Flip steps_ppm; PPM.Flop a) = Ret ppm') /\
  (a ← PPM.Rotate90CW steps_ppm; b ← PPM.Rotate90CW a; c ← PPM.Rotate90CW b;
   PPM.Rotate90CW c) = Ret steps_ppm.
Proof. apply (PPM_Rotate90CW_turns steps_ppm); literal_rect. Defined.

(** * Conversions *)

(** A buffer of zero values filled, cell by cell, with the images by
    [f] of the cells of a buffer of the same size. *)
Lemma forM_fill {A B : Type} (f : A -> B) (z : B) (d : list (list A)) (w h : Z) :
  rect d w h ->
  forM (range 0 h) (replicate (Z.to_nat h) (replicate (Z.to_nat w) z)) (fun y s =>
    forM (range 0 w) s (fun x s => v ← index2 d y x; store2 s y x (f v)))
  = Ret (map (map f) d).
Proof.
  intros Hrect. pose proof Hrect as (Hw & Hh & _).
  set (I := fun (y x : Z) (s : list (list B)) =>
    rect s w h /\ forall x' y', 0 <= x' < w -> 0 <= y' < h ->
      cell s x' y' = if (y' <? y) || ((y' =? y) && (x' <? x))
                     then f <$> cell d x' y' else Some z).
  destruct (forM_range_inv (fun y s => I y 0 s)
    (fun y s => forM (range 0 w) s (fun x s => v ← index2 d y x; store2 s y x (f v)))
    0 h (replicate (Z.to_nat h) (replicate (Z.to_nat w) z)) Hh)
    as (s' & Hrun & Hrect' & Hcells).
  - split; [by apply replicate_rect|]. intros x' y' Hx' Hy'.
    replace ((y' <? 0) || ((y' =? 0) && (x' <? 0))) with false by lia.
    unfold cell. rewrite lookup_replicate_2 by lia. simpl.
    by rewrite lookup_replicate_2 by lia.
  - intros y s Hy HI.
    destruct (forM_range_inv (fun x s => I y x s)
      (fun x s => v ← index2 d y x; store2 s y x (f v)) 0 w s Hw HI)
      as (s1 & Hrun1 & Hr1 & Hc1).
    + intros x s0 Hx (Hr0 & Hc0).
      destruct (cell_Some d w h x y Hrect Hx Hy) as [v Hv].
      rewrite (index2_cell d x y v) by (done || lia). rewrite bind_Ret.
      destruct (store2_cell s0 w h x y (f v) Hr0 Hx Hy) as (s2 & -> & Hr2 & Hc2).
      eexists. split; [reflexivity|]. split; [done|].
      intros x' y' Hx' Hy'. rewrite Hc2 by lia. rewrite Hc0 by done.
      case_bool_decide as Hxy.
      * destruct Hxy as [-> ->].
        replace ((y <? y) || ((y =? y) && (x <? x + 1))) with true by lia.
        by rewrite Hv.
      * destruct (Z.ltb_spec y' y); simpl; [done|].
        destruct (Z.eqb_spec y' y) as [Hyy|Hyy]; simpl; [|done].
        assert (x' <> x) by (intros ->; apply Hxy; split; [done|lia]).
        destruct (Z.ltb_spec x' x), (Z.ltb_spec x' (x + 1)); try lia; done.
    + exists s1. split; [exact Hrun1|]. split; [done|].
      intros x' y' Hx' Hy'. rewrite Hc1 by done.
      destruct (Z.ltb_spec y' y), (Z.ltb_spec y' (y + 1)),
        (Z.eqb_spec y' y), (Z.eqb_spec y' (y + 1)); try lia; simpl; try done.
      * by replace (x' <? w) with true by lia.
      * by replace (x' <? 0) with false by lia.
  - rewrite Hrun. f_equal.
    apply (rect_ext _ _ w h); [done|by apply rect_map|].
    intros x y Hx Hy. rewrite Hcells by done. rewrite cell_map.
    by replace (y <? h) with true by lia.
Qed.

(** The same when every row is allocated just before it is filled. *)
Lemma forM_fill_rows {A B : Type} (f : A -> B) (z : B) (d : list (list A)) (w h : Z) :
  rect d w h ->
  forM (range 0 h) (replicate (Z.to_nat h) []) (fun y s =>
    row ← make z w;
    s ← store s y row;
    forM (range 0 w) s (fun x s => v ← index2 d y x; store2 s y x (f v)))
  = Ret (map (map f) d).
Proof.
  intros Hrect. pose proof Hrect as (Hw & Hh & Hdl & Hrows).
  destruct (forM_range_inv
    (fun y s => length s = Z.to_nat h /\
       forall n : nat, (n < Z.to_nat h)%nat ->
         s !! n = if bool_decide (Z.of_nat n < y) then map f <$> d !! n else Some [])
    (fun y s =>
      row ← make z w;
      s ← store s y row;
      forM (range 0 w) s (fun x s => v ← index2 d y x; store2 s y x (f v)))
    0 h (replicate (Z.to_nat h) []) Hh) as (s' & Hrun & Hlen & Hs').
  - split; [by rewrite length_replicate|]. intros n Hn.
    rewrite bool_decide_false by lia. by apply lookup_replicate_2.
  - intros y s Hy (Hlen & Hs).
    rewrite make_ok, bind_Ret by done.
    rewrite store_inside, bind_Ret by (unfold len; lia).
    destruct (lookup_lt_is_Some_2 d (Z.to_nat y)) as [src Hsrc]; [lia|].
    assert (Hsl : Z.of_nat (length src) = w).
    { rewrite Forall_lookup in Hrows. exact (Hrows _ _ Hsrc). }
    destruct (forM_range_inv
      (fun x s1 => length s1 = Z.to_nat h /\
         (forall n : nat, n <> Z.to_nat y -> s1 !! n = s !! n) /\
         exists row, s1 !! Z.to_nat y = Some row /\ length row = Z.to_nat w /\
           forall c, 0 <= c < w ->
             row !! Z.to_nat c = if c <? x then f <$> src !! Z.to_nat c else Some z)
      (fun x s => v ← index2 d y x; store2 s y x (f v))
      0 w (<[Z.to_nat y:=replicate (Z.to_nat w) z]> s) Hw)
      as (s1 & Hrun1 & Hlen1 & Hother & row & Hrow & Hrowl & Hrowc).
    + split; [by rewrite length_insert|]. split.
      * intros n Hn. by rewrite list_lookup_insert_ne by done.
      * eexists. split; [by rewrite list_lookup_insert_eq by lia|].
        split; [by rewrite length_replicate|]. intros c Hc.
        replace (c <? 0) with false by lia. by apply lookup_replicate_2; lia.
    + intros x s1 Hx (Hlen1 & Hother & row & Hrow & Hrowl & Hrowc).
      destruct (lookup_lt_is_Some_2 src (Z.to_nat x)) as [v Hv]; [lia|].
      unfold index2. rewrite (index_lookup d y src) by (done || lia).
      rewrite bind_Ret, (index_lookup src x v) by (done || lia). rewrite bind_Ret.
      unfold store2. rewrite (index_lookup s1 y row) by (done || lia).
      rewrite bind_Ret, store_inside, bind_Ret by (unfold len; lia).
      rewrite store_inside by (unfold len; lia).
      eexists. split; [reflexivity|]. split; [by rewrite length_insert|]. split.
      * intros n Hn. rewrite list_lookup_insert_ne by done. by apply Hother.
      * eexists. split; [by rewrite list_lookup_insert_eq by lia|].
        split; [by rewrite length_insert|]. intros c Hc.
        destruct (decide (c = x)) as [->|Hcx].
        -- rewrite list_lookup_insert_eq by lia.
           replace (x <? x + 1) with true by lia. by rewrite Hv.
        -- rewrite list_lookup_insert_ne by lia. rewrite Hrowc by done.
           destruct (Z.ltb_spec c x), (Z.ltb_spec c (x + 1)); try lia; done.
    + exists s1. split; [exact Hrun1|]. split; [done|].
      intros n Hn. destruct (decide (n = Z.to_nat y)) as [->|Hne].
      * rewrite bool_decide_true by lia. rewrite Hrow, Hsrc. simpl. f_equal.
        apply list_eq. intros c. change (map f src) with (f <$> src).
        rewrite list_lookup_fmap.
        destruct (decide (c < Z.to_nat w)%nat) as [Hc|Hc].
        -- specialize (Hrowc (Z.of_nat c) ltac:(lia)). rewrite Nat2Z.id in Hrowc.
           rewrite Hrowc. by replace (Z.of_nat c <? w) with true by lia.
        -- rewrite !lookup_ge_None_2; [done|lia|lia].
      * rewrite Hother by done. rewrite Hs by done.
        case_bool_decide; [rewrite bool_decide_true by lia|rewrite bool_decide_false by lia];
          done.
  - rewrite Hrun. f_equal. apply list_eq. intros n.
    change (map (map f) d) with (map f <$> d). rewrite list_lookup_fmap.
    destruct (decide (n < Z.to_nat h)%nat) as [Hn|Hn].
    + rewrite Hs' by done. by rewrite bool_decide_true by lia.
    + rewrite !lookup_ge_None_2; [done|lia|lia].
Qed.

(** X10: on a gray map whose buffer has the announced size [ToPBM]
    returns a P1 bitmap of the same size in which a cell is ink
    exactly when its sample is below half the maximum, the half being
    rounded down. *)
Theorem PGM_ToPBM_threshold (pgm : PGM.t) :
  PGM_ok pgm ->
  PGM.ToPBM pgm =
    Ret (PBM.mk (map (map (ink (PGM.max pgm))) (PGM.data pgm))
                (PGM.width pgm) (PGM.height pgm) "P1").
Proof.
  intros Hrect. destruct pgm as [d w h m mx]. unfold PGM_ok, PGM.ToPBM in *.
  simpl in *. pose proof Hrect as (Hw & Hh & _).
  rewrite (make_ok (A := list bool) [] h) by done. rewrite bind_Ret.
  pose proof (forM_fill_rows (ink mx) false d w h Hrect) as Hrun.
  unfold ink in Hrun at 1. by rewrite Hrun.
Qed.

Lemma PGM_ToPBM_threshold_witness :
  PGM.ToPBM steps_pgm =
    Ret (PBM.mk (map (map (ink (PGM.max steps_pgm))) (PGM.data steps_pgm))
                (PGM.width steps_pgm) (PGM.height steps_pgm) "P1").
Proof. apply (PGM_ToPBM_threshold steps_pgm); literal_rect. Defined.

Lemma mean_byte (p : Pixel) :
  byte_pixel p = true ->
  uint8 (Z.quot (int_add (int_add (R p) (G p)) (B p)) 3) = mean p /\
  Z.quot (uint16 (uint16 (uint16 (R p) + uint16 (G p)) + uint16 (B p))) 3 = mean p /\
  0 <= mean p < 256.
Proof.
  unfold byte_pixel, is_byte, mean. intros H.
  assert (0 <= R p < 256 /\ 0 <= G p < 256 /\ 0 <= B p < 256) as (Hr & Hg & Hb) by lia.
  assert (Hq : 0 <= (R p + G p + B p) / 3 < 256).
  { split; [apply Z.div_pos; lia|apply Z.div_lt_upper_bound; lia]. }
  unfold int_add. rewrite (wrap64_small (R p + G p)) by lia.
  rewrite wrap64_small by lia.
  unfold uint16. rewrite !(Z.mod_small (R p)), !(Z.mod_small (G p)), !(Z.mod_small (B p))
    by lia.
  rewrite (Z.mod_small (R p + G p)) by lia. rewrite Z.mod_small by lia.
  rewrite Z.quot_div_nonneg by lia. rewrite uint8_small by done. done.
Qed.

Lemma PPM_ToPGM_run (ppm : PPM.t) :
  PPM_ok ppm -> forallb (forallb byte_pixel) (PPM.data ppm) = true ->
  PPM.ToPGM ppm =
    Ret (PGM.mk (map (map mean) (PPM.data ppm)) (PPM.width ppm) (PPM.height ppm)
                "P2" (PPM.max ppm)).
Proof.
  intros Hrect Hbytes. destruct ppm as [d w h m mx]. unfold PPM_ok, PPM.ToPGM in *.
  simpl in *. pose proof Hrect as (Hw & Hh & _).
  rewrite (make_ok (A := list Z) [] h) by done. rewrite bind_Ret.
  rewrite forM_alloc_rows by done. rewrite bind_Ret.
  rewrite (forM_fill (fun p => uint8 (Z.quot (int_add (int_add (R p) (G p)) (B p)) 3))
             0 d w h Hrect).
  rewrite bind_Ret. do 2 f_equal.
  apply map_ext_in. intros row Hrow. apply map_ext_in. intros p Hp.
  apply mean_byte. rewrite forallb_forall in Hbytes.
  specialize (Hbytes row Hrow). rewrite forallb_forall in Hbytes. by apply Hbytes.
Qed.

(** X11: on a pixel map of byte channels whose buffer has the
    announced size, [ToPGM] returns a P2 gray map of the same size and
    the same maximum, whose samples are the integer means of the
    three channels, and are bytes again. *)
Theorem PPM_ToPGM_means (ppm : PPM.t) :
  PPM_ok ppm -> forallb (forallb byte_pixel) (PPM.data ppm) = true ->
  exists pgm, PPM.ToPGM ppm = Ret pgm /\
    pgm = PGM.mk (map (map mean) (PPM.data ppm)) (PPM.width ppm) (PPM.height ppm)
                 "P2" (PPM.max ppm) /\
    PGM_ok pgm /\ forallb (forallb is_byte) (PGM.data pgm) = true.
Proof.
  intros Hrect Hbytes. rewrite PPM_ToPGM_run by done.
  eexists. split; [reflexivity|]. split; [reflexivity|]. split.
  - unfold PGM_ok. simpl. by apply rect_map.
  - simpl. rewrite forallb_forall. intros row' Hrow'.
    apply in_map_iff in Hrow' as (row & <- & Hrow).
    rewrite forallb_forall. intros v Hv. apply in_map_iff in Hv as (p & <- & Hp).
    rewrite forallb_forall in Hbytes. specialize (Hbytes row Hrow).
    rewrite forallb_forall in Hbytes. specialize (Hbytes p Hp).
    destruct (mean_byte p Hbytes) as (_ & _ & Hm). unfold is_byte. lia.
Qed.

Lemma PPM_ToPGM_means_witness :
  exists pgm, PPM.ToPGM steps_ppm = Ret pgm /\
    pgm = PGM.mk (map (map mean) (PPM.data steps_ppm)) (PPM.width steps_ppm)
                 (PPM.height steps_ppm) "P2" (PPM.max steps_ppm) /\
    PGM_ok pgm /\ forallb (forallb is_byte) (PGM.data pgm) = true.
Proof. apply (PPM_ToPGM_means steps_ppm); [literal_rect|reflexivity]. Defined.

(** X12: on a pixel map of byte channels whose buffer has the
    announced size, the bitmap of [PPM.ToPBM] is the bitmap that
    [PGM.ToPBM] gives for the gray map of [ToPGM]. *)
Theorem PPM_ToPBM_through_ToPGM (ppm : PPM.t) :
  PPM_ok ppm -> forallb (forallb byte_pixel) (PPM.data ppm) = true ->
  exists pbm, PPM.ToPBM ppm = Ret pbm /\
    (pgm ← PPM.ToPGM ppm; PGM.ToPBM pgm) = Ret pbm.
Proof.
  intros Hrect Hbytes. rewrite PPM_ToPGM_run, bind_Ret by done.
  destruct ppm as [d w h m mx]. unfold PPM_ok, PPM.ToPBM, PGM.ToPBM in *.
  simpl in *. pose proof Hrect as (Hw & Hh & _).
  rewrite (make_ok (A := list bool) [] h) by done. rewrite !bind_Ret.
  rewrite forM_alloc_rows by done. rewrite bind_Ret.
  rewrite (forM_fill (fun p =>
    Z.quot (uint16 (uint16 (uint16 (R p) + uint16 (G p)) + uint16 (B p))) 3
      <? uint16 (uint8 (Z.quot mx 2))) false d w h Hrect).
  rewrite (forM_fill_rows (fun v => v <? uint8 (Z.quot mx 2)) false
             (map (map mean) d) w h (rect_map mean d w h Hrect)).
  rewrite !bind_Ret. eexists. split; [reflexivity|]. do 2 f_equal.
  rewrite map_map. apply map_ext_in. intros row Hrow.
  rewrite map_map. apply map_ext_in. intros p Hp.
  rewrite forallb_forall in Hbytes. specialize (Hbytes row Hrow).
  rewrite forallb_forall in Hbytes. specialize (Hbytes p Hp).
  destruct (mean_byte p Hbytes) as (_ & -> & _).
  f_equal. unfold uint16, uint8. symmetry. apply Z.mod_small.
  pose proof (Z.mod_pos_bound (Z.quot mx 2) 256 ltac:(lia)). lia.
Qed.

Lemma PPM_ToPBM_through_ToPGM_witness :
  exists pbm, PPM.ToPBM steps_ppm = Ret pbm /\
    (pgm ← PPM.ToPGM steps_ppm; PGM.ToPBM pgm) = Ret pbm.
Proof. apply (PPM_ToPBM_through_ToPGM steps_ppm); [literal_rect|reflexivity]. Defined.

(** * Segments and boxes *)

Lemma paints_trans (w h : Z) (ppm ppm1 ppm2 : PPM.t) (r1 r2 : Z -> Z -> bool)
    (color : Pixel) :
  paints w h ppm ppm1 r1 color -> paints w h ppm1 ppm2 r2 color ->
  paints w h ppm ppm2 (fun x y => r1 x y || r2 x y) color.
Proof.
  intros (_ & H1) (Hc & H2). split; [done|]. intros x y Hx Hy.
  rewrite H2, H1 by done. by destruct (r1 x y), (r2 x y).
Qed.

Lemma paints_ext (w h : Z) (ppm ppm' : PPM.t) (r r' : Z -> Z -> bool) (color : Pixel) :
  (forall x y, 0 <= x < w -> 0 <= y < h -> r x y = r' x y) ->
  paints w h ppm ppm' r color -> paints w h ppm ppm' r' color.
Proof.
  intros Hr (Hc & H). split; [done|]. intros x y Hx Hy.
  by rewrite H, Hr by done.
Qed.

(** With dy = 0 the rule only steps x: the trace is the segment from
    the current column to the last. *)
Lemma bres_trace_horizontal (x2 y2 dx sx sy : Z) (s : Z * Z * Z) (pts : list Point) :
  bres_trace x2 y2 dx 0 sx sy s pts ->
  forall x, s = (x, y2, dx) ->
    (x <> x2 -> 0 < dx) -> (sx = 1 /\ x <= x2 \/ sx = -1 /\ x2 <= x) ->
    forall p, p ∈ pts <-> Y p = y2 /\ Z.min x x2 <= X p <= Z.max x x2.
Proof.
  induction 1 as [x y err Hx Hy|x y err pts Hne Htr IH]; intros x0 [= -> -> ->] Hdx Hs p.
  - rewrite list_elem_of_singleton. destruct p as [px py]. simpl.
    split; [intros [= -> ->]; lia|intros [-> ?]; f_equal; lia].
  - assert (Hxne : x0 <> x2) by (intros ->; by apply Hne).
    specialize (Hdx Hxne). simpl in IH.
    replace (2 * dx >? - 0) with true in IH by lia.
    replace (2 * dx <? dx) with false in IH by lia.
    specialize (IH (x0 + sx) ltac:(f_equal; f_equal; lia) ltac:(lia) ltac:(lia) p).
    rewrite elem_of_cons, IH. destruct p as [px py]. simpl.
    split.
    + intros [[= -> ->]|[-> ?]]; lia.
    + intros [-> Hp]. destruct (decide (px = x0)) as [->|?]; [by left|right; lia].
Qed.

(** With dx = 0 it only steps y. *)
Lemma bres_trace_vertical (x2 y2 dy sx sy : Z) (s : Z * Z * Z) (pts : list Point) :
  bres_trace x2 y2 0 dy sx sy s pts ->
  forall y, s = (x2, y, - dy) ->
    (y <> y2 -> 0 < dy) -> (sy = 1 /\ y <= y2 \/ sy = -1 /\ y2 <= y) ->
    forall p, p ∈ pts <-> X p = x2 /\ Z.min y y2 <= Y p <= Z.max y y2.
Proof.
  induction 1 as [x y err Hx Hy|x y err pts Hne Htr IH]; intros y0 [= -> -> ->] Hdy Hs p.
  - rewrite list_elem_of_singleton. destruct p as [px py]. simpl.
    split; [intros [= -> ->]; lia|intros [-> ?]; f_equal; lia].
  - assert (Hyne : y0 <> y2) by (intros ->; by apply Hne).
    specialize (Hdy Hyne). simpl in IH.
    replace (2 * - dy >? - dy) with false in IH by lia.
    replace (2 * - dy <? 0) with true in IH by lia.
    specialize (IH (y0 + sy) ltac:(f_equal; lia) ltac:(lia) ltac:(lia) p).
    rewrite elem_of_cons, IH. destruct p as [px py]. simpl.
    split.
    + intros [[= -> ->]|[-> ?]]; lia.
    + intros [-> Hp]. destruct (decide (py = y0)) as [->|?]; [by left|right; lia].
Qed.

(** A horizontal and a vertical [DrawLine] paint their segment. *)
Lemma DrawLine_hseg (ppm : PPM.t) (w h a b r : Z) (color : Pixel) (fuel : nat) :
  coord a -> coord b -> coord r -> is_canvas ppm w h ->
  Z.abs (b - a) + 1 <= Z.of_nat fuel ->
  exists ppm', PPM.DrawLine fuel ppm (mkPoint a r) (mkPoint b r) color = Ret ppm' /\
    paints w h ppm ppm' (hseg a b r) color.
Proof.
  intros Ha Hb Hr Hc Hfuel.
  destruct (DrawLine_trace (mkPoint a r) (mkPoint b r) color Ha Hr Hb Hr)
    as (pts & Hspec & _ & _ & Hlen & Hrun).
  simpl in Hlen. rewrite Z.sub_diag in Hlen. simpl in Hlen.
  destruct (plot_canvas pts color w h ppm Hc) as (ppm' & Hplot & Hc' & Hpix).
  exists ppm'. split; [rewrite Hrun by lia; exact Hplot|]. split; [done|].
  intros x y Hx Hy. rewrite Hpix by done.
  unfold spec_line in Hspec. simpl in Hspec.
  rewrite Z.sub_diag in Hspec. simpl in Hspec. rewrite Z.sub_0_r in Hspec.
  pose proof (bres_trace_horizontal _ _ _ _ _ _ _ Hspec a eq_refl
    ltac:(lia) ltac:(destruct (Z.ltb_spec a b); lia) (mkPoint x y)) as Hin.
  simpl in Hin. unfold hseg.
  destruct (decide (mkPoint x y ∈ pts)) as [Hp|Hp].
  - rewrite bool_decide_eq_true_2 by done. apply Hin in Hp.
    by replace ((y =? r) && (Z.min a b <=? x) && (x <=? Z.max a b)) with true by lia.
  - rewrite bool_decide_eq_false_2 by done.
    destruct ((y =? r) && (Z.min a b <=? x) && (x <=? Z.max a b)) eqn:E; [|done].
    exfalso. apply Hp, Hin. lia.
Qed.

Lemma DrawLine_vseg (ppm : PPM.t) (w h a b c : Z) (color : Pixel) (fuel : nat) :
  coord a -> coord b -> coord c -> is_canvas ppm w h ->
  Z.abs (b - a) + 1 <= Z.of_nat fuel ->
  exists ppm', PPM.DrawLine fuel ppm (mkPoint c a) (mkPoint c b) color = Ret ppm' /\
    paints w h ppm ppm' (vseg a b c) color.
Proof.
  intros Ha Hb Hcc Hc Hfuel.
  destruct (DrawLine_trace (mkPoint c a) (mkPoint c b) color Hcc Ha Hcc Hb)
    as (pts & Hspec & _ & _ & Hlen & Hrun).
  simpl in Hlen. rewrite Z.sub_diag in Hlen. simpl in Hlen.
  destruct (plot_canvas pts color w h ppm Hc) as (ppm' & Hplot & Hc' & Hpix).
  exists ppm'. split; [rewrite Hrun by lia; exact Hplot|]. split; [done|].
  intros x y Hx Hy. rewrite Hpix by done.
  unfold spec_line in Hspec. simpl in Hspec.
  rewrite Z.sub_diag in Hspec. simpl in Hspec.
  pose proof (bres_trace_vertical _ _ _ _ _ _ _ Hspec a eq_refl
    ltac:(lia) ltac:(destruct (Z.ltb_spec a b); lia) (mkPoint x y)) as Hin.
  simpl in Hin. unfold vseg.
  destruct (decide (mkPoint x y ∈ pts)) as [Hp|Hp].
  - rewrite bool_decide_eq_true_2 by done. apply Hin in Hp.
    by replace ((x =? c) && (Z.min a b <=? y) && (y <=? Z.max a b)) with true by lia.
  - rewrite bool_decide_eq_false_2 by done.
    destruct ((x =? c) && (Z.min a b <=? y) && (y <=? Z.max a b)) eqn:E; [|done].
    exfalso. apply Hp, Hin. lia.
Qed.

(** [DrawRectangle] paints the border of the box between its corner
    and the opposite corner. *)
Lemma DrawRectangle_paints (ppm : PPM.t) (w h : Z) (p : Point) (wd ht : Z)
    (color : Pixel) (fuel : nat) :
  coord (X p) -> coord (Y p) -> coord (X p + wd) -> coord (Y p + ht) ->
  is_canvas ppm w h ->
  Z.max (Z.abs wd) (Z.abs ht) + 1 <= Z.of_nat fuel ->
  exists ppm', PPM.DrawRectangle fuel ppm p wd ht color = Ret ppm' /\
    paints w h ppm ppm' (border (X p) (Y p) (X p + wd) (Y p + ht)) color.
Proof.
  intros Hx Hy Hx' Hy' Hc Hfuel. destruct p as [x0 y0]. simpl in *.
  unfold PPM.DrawRectangle. simpl. unfold int_add.
  assert (Hcoord : forall z, coord z -> wrap64 z = z).
  { intros z Hz. unfold coord in Hz. apply wrap64_small. lia. }
  rewrite !Hcoord by done.
  destruct (DrawLine_hseg ppm w h x0 (x0 + wd) y0 color fuel) as (ppm1 & -> & H1);
    [done|done|done|done|lia|].
  rewrite bind_Ret.
  destruct (DrawLine_vseg ppm1 w h y0 (y0 + ht) (x0 + wd) color fuel) as (ppm2 & -> & H2);
    [done|done|done|apply H1|lia|].
  rewrite bind_Ret.
  destruct (DrawLine_hseg ppm2 w h (x0 + wd) x0 (y0 + ht) color fuel) as (ppm3 & -> & H3);
    [done|done|done|apply H2|lia|].
  rewrite bind_Ret.
  destruct (DrawLine_vseg ppm3 w h (y0 + ht) y0 x0 color fuel) as (ppm4 & -> & H4);
    [done|done|done|apply H3|lia|].
  exists ppm4. split; [done|].
  pose proof (paints_trans _ _ _ _ _ _ _ _
    (paints_trans _ _ _ _ _ _ _ _ (paints_trans _ _ _ _ _ _ _ _ H1 H2) H3) H4) as H.
  revert H. apply paints_ext. intros x y _ _.
  unfold hseg, vseg, border, box. lia.
Qed.

(** The loop of [DrawFilledRectangle]: after [k] rectangles the
    columns to the left of [X + k] are filled. *)
Lemma DrawFilledRectangle_paints (ppm : PPM.t) (w h : Z) (p : Point) (wd ht : Z)
    (color : Pixel) (fuel : nat) :
  coord (X p) -> coord (Y p) -> coord (X p + wd) -> coord (Y p + ht) ->
  is_canvas ppm w h -> 0 < wd -> 0 < ht ->
  Z.max wd ht + 1 <= Z.of_nat fuel ->
  exists ppm', PPM.DrawFilledRectangle fuel ppm p wd ht color = Ret ppm' /\
    paints w h ppm ppm' (box (X p) (Y p) (X p + wd) (Y p + ht)) color.
Proof.
  intros Hx Hy Hx' Hy' Hc Hwd Hht Hfuel. destruct p as [x0 y0]. simpl in *.
  unfold PPM.DrawFilledRectangle.
  replace ((wd <=? 0) || (ht <=? 0)) with false by lia.
  set (region := fun (k x y : Z) =>
    (0 <? k) && box x0 y0 (x0 + wd) (y0 + ht) x y &&
    ((x <? x0 + k) || (x =? x0 + wd) || (y =? y0) || (y =? y0 + ht))).
  destruct (forM_range_inv
    (fun k (s : Point * PPM.t) =>
       fst s = mkPoint (x0 + k) y0 /\ paints w h ppm (snd s) (region k) color)
    (fun k '(p1, ppm) =>
       let w := wd - k in
       ppm ← PPM.DrawRectangle fuel ppm p1 w ht color;
       Ret (mkPoint (int_add (X p1) 1) (Y p1), ppm))
    0 wd (mkPoint x0 y0, ppm)) as ([p' ppm'] & Hrun & _ & Hpaint).
  - lia.
  - simpl. split; [f_equal; lia|]. split; [done|]. intros x y _ _. done.
  - intros k [p1 ppm1] Hk (Hp1 & Hpaint1). simpl in Hp1, Hpaint1. subst p1.
    unfold coord in *.
    destruct (DrawRectangle_paints ppm1 w h (mkPoint (x0 + k) y0) (wd - k) ht color fuel)
      as (ppm2 & Hrun2 & Hpaint2); simpl; try (unfold coord; lia); [apply Hpaint1|].
    cbv zeta. rewrite Hrun2, bind_Ret. simpl.
    eexists. split; [reflexivity|]. simpl. split.
    + unfold int_add. rewrite wrap64_small by lia. f_equal. lia.
    + pose proof (paints_trans _ _ _ _ _ _ _ _ Hpaint1 Hpaint2) as H.
      revert H. apply paints_ext. intros x y _ _.
      unfold region, border, box. simpl. lia.
  - exists ppm'. cbv zeta in Hrun |- *. rewrite Hrun. split; [done|]. simpl in Hpaint.
    revert Hpaint. apply paints_ext. intros x y _ _.
    unfold region, box. lia.
Qed.

(** X13: on a canvas, a [DrawLine] between two points of the same row
    paints exactly the cells of the row between the two columns, and
    one between two points of the same column exactly the cells of the
    column between the two rows, the ends included and in either
    order (coordinates of a magnitude of at most 2^59, enough
    iterations). *)
Theorem DrawLine_axis_aligned (ppm : PPM.t) (w h a b c : Z) (color : Pixel) (fuel : nat) :
  coord a -> coord b -> coord c -> is_canvas ppm w h ->
  Z.abs (b - a) + 1 <= Z.of_nat fuel ->
  (exists ppm', PPM.DrawLine fuel ppm (mkPoint a c) (mkPoint b c) color = Ret ppm' /\
     is_canvas ppm' w h /\
     forall x y, 0 <= x < w -> 0 <= y < h ->
       pixel_at ppm' x y =
       if (y =? c) && (Z.min a b <=? x) && (x <=? Z.max a b) then Some color
       else pixel_at ppm x y) /\
  (exists ppm', PPM.DrawLine fuel ppm (mkPoint c a) (mkPoint c b) color = Ret ppm' /\
     is_canvas ppm' w h /\
     forall x y, 0 <= x < w -> 0 <= y < h ->
       pixel_at ppm' x y =
       if (x =? c) && (Z.min a b <=? y) && (y <=? Z.max a b) then Some color
       else pixel_at ppm x y).
Proof.
  intros Ha Hb Hcc Hc Hfuel. split.
  - destruct (DrawLine_hseg ppm w h a b c color fuel Ha Hb Hcc Hc Hfuel)
      as (ppm' & Hrun & Hc' & Hpix).
    by exists ppm'.
  - destruct (DrawLine_vseg ppm w h a b c color fuel Ha Hb Hcc Hc Hfuel)
      as (ppm' & Hrun & Hc' & Hpix).
    by exists ppm'.
Qed.

Lemma DrawLine_axis_aligned_witness :
  (exists ppm', PPM.DrawLine 4 (canvas 5 5) (mkPoint 3 1) (mkPoint 0 1) black = Ret ppm' /\
     is_canvas ppm' 5 5 /\
     forall x y, 0 <= x < 5 -> 0 <= y < 5 ->
       pixel_at ppm' x y =
       if (y =? 1) && (Z.min 3 0 <=? x) && (x <=? Z.max 3 0) then Some black
       else pixel_at (canvas 5 5) x y) /\
  (exists ppm', PPM.DrawLine 4 (canvas 5 5) (mkPoint 1 3) (mkPoint 1 0) black = Ret ppm' /\
     is_canvas ppm' 5 5 /\
     forall x y, 0 <= x < 5 -> 0 <= y < 5 ->
       pixel_at ppm' x y =
       if (x =? 1) && (Z.min 3 0 <=? y) && (y <=? Z.max 3 0) then Some black
       else pixel_at (canvas 5 5) x y).
Proof.
  apply (DrawLine_axis_aligned (canvas 5 5) 5 5 3 0 1 black 4).
  - unfold coord. lia.
  - unfold coord. lia.
  - unfold coord. lia.
  - exact (canvas_is_canvas 5 5).
  - simpl. lia.
Defined.

(** X14: on a canvas [DrawRectangle] paints exactly the border of the
    closed box between its corner (x, y) and the opposite corner
    (x + width, y + height), whatever the signs of the width and of
    the height, when the coordinates of both corners have a magnitude
    of at most 2^59 and each line is given enough iterations. *)
Theorem DrawRectangle_border (ppm : PPM.t) (w h : Z) (p : Point) (wd ht : Z)
    (color : Pixel) (fuel : nat) :
  coord (X p) -> coord (Y p) -> coord (X p + wd) -> coord (Y p + ht) ->
  is_canvas ppm w h ->
  Z.max (Z.abs wd) (Z.abs ht) + 1 <= Z.of_nat fuel ->
  exists ppm', PPM.DrawRectangle fuel ppm p wd ht color = Ret ppm' /\
    is_canvas ppm' w h /\
    forall x y, 0 <= x < w -> 0 <= y < h ->
      pixel_at ppm' x y =
      if border (X p) (Y p) (X p + wd) (Y p + ht) x y then Some color
      else pixel_at ppm x y.
Proof.
  intros Hx Hy Hx' Hy' Hc Hfuel.
  destruct (DrawRectangle_paints ppm w h p wd ht color fuel Hx Hy Hx' Hy' Hc Hfuel)
    as (ppm' & Hrun & Hc' & Hpix).
  by exists ppm'.
Qed.

Lemma DrawRectangle_border_witness :
  exists ppm', PPM.DrawRectangle 4 (canvas 5 5) (mkPoint 1 1) 3 2 black = Ret ppm' /\
    is_canvas ppm' 5 5 /\
    forall x y, 0 <= x < 5 -> 0 <= y < 5 ->
      pixel_at ppm' x y =
      if border 1 1 (1 + 3) (1 + 2) x y then Some black
      else pixel_at (canvas 5 5) x y.
Proof.
  apply (DrawRectangle_border (canvas 5 5) 5 5 (mkPoint 1 1) 3 2 black 4).
  - unfold coord. simpl. lia.
  - unfold coord. simpl. lia.
  - unfold coord. simpl. lia.
  - unfold coord. simpl. lia.
  - exact (canvas_is_canvas 5 5).
  - simpl. lia.
Defined.

(** X15: on a canvas [DrawFilledRectangle] with a positive width and
    a positive height paints exactly the closed box between (x, y)
    and (x + width, y + height): [width + 1] columns of [height + 1]
    cells, when the coordinates of both corners have a magnitude of
    at most 2^59 and each line is given enough iterations. *)
Theorem DrawFilledRectangle_box (ppm : PPM.t) (w h : Z) (p : Point) (wd ht : Z)
    (color : Pixel) (fuel : nat) :
  coord (X p) -> coord (Y p) -> coord (X p + wd) -> coord (Y p + ht) ->
  is_canvas ppm w h -> 0 < wd -> 0 < ht ->
  Z.max wd ht + 1 <= Z.of_nat fuel ->
  exists ppm', PPM.DrawFilledRectangle fuel ppm p wd ht color = Ret ppm' /\
    is_canvas ppm' w h /\
    forall x y, 0 <= x < w -> 0 <= y < h ->
      pixel_at ppm' x y =
      if (X p <=? x) && (x <=? X p + wd) && (Y p <=? y) && (y <=? Y p + ht)
      then Some color else pixel_at ppm x y.
Proof.
  intros Hx Hy Hx' Hy' Hc Hwd Hht Hfuel.
  destruct (DrawFilledRectangle_paints ppm w h p wd ht color fuel
              Hx Hy Hx' Hy' Hc Hwd Hht Hfuel) as (ppm' & Hrun & Hc' & Hpix).
  exists ppm'. split; [done|]. split; [done|].
  intros x y Hx0 Hy0. rewrite Hpix by done. unfold box.
  replace ((Z.min (X p) (X p + wd) <=? x) && (x <=? Z.max (X p) (X p + wd)) &&
           (Z.min (Y p) (Y p + ht) <=? y) && (y <=? Z.max (Y p) (Y p + ht)))
    with ((X p <=? x) && (x <=? X p + wd) && (Y p <=? y) && (y <=? Y p + ht)) by lia.
  done.
Qed.

Lemma DrawFilledRectangle_box_witness :
  exists ppm', PPM.DrawFilledRectangle 4 (canvas 5 5) (mkPoint 1 1) 3 2 black = Ret ppm' /\
    is_canvas ppm' 5 5 /\
    forall x y, 0 <= x < 5 -> 0 <= y < 5 ->
      pixel_at ppm' x y =
      if (1 <=? x) && (x <=? 1 + 3) && (1 <=? y) && (y <=? 1 + 2)
      then Some black else pixel_at (canvas 5 5) x y.
Proof.
  apply (DrawFilledRectangle_box (canvas 5 5) 5 5 (mkPoint 1 1) 3 2 black 4).
  - unfold coord. simpl. lia.
  - unfold coord. simpl. lia.
  - unfold coord. simpl. lia.
  - unfold coord. simpl. lia.
  - exact (canvas_is_canvas 5 5).
  - lia.
  - lia.
  - simpl. lia.
Defined.

(** * Outlines *)

(** X17: [DrawTriangle] is [DrawPolygon] on its three corners; a
    polygon of one point is the line from the point to itself; and on
    an empty list of points [DrawPolygon] and [DrawFilledPolygon]
    panic with an index out of range. *)
Theorem DrawPolygon_small_cases (fuel : nat) (ppm : PPM.t) (p1 p2 p3 : Point)
    (color : Pixel) :
  PPM.DrawPolygon fuel ppm [p1; p2; p3] color = PPM.DrawTriangle fuel ppm p1 p2 p3 color /\
  PPM.DrawPolygon fuel ppm [p1] color = PPM.DrawLine fuel ppm p1 p1 color /\
  PPM.DrawPolygon fuel ppm [] color = Panic PanicIndex /\
  PPM.DrawFilledPolygon fuel ppm [] color = Panic PanicIndex.
Proof.
  repeat split.
  unfold PPM.DrawPolygon, PPM.DrawTriangle. simpl.
  destruct (PPM.DrawLine fuel ppm p1 p2 color) as [ppm1| | |]; simpl; try done.
  destruct (PPM.DrawLine fuel ppm1 p2 p3 color) as [ppm2| | |]; simpl; done.
Qed.

(** X16: on a canvas [DrawTriangle] paints exactly the cells of the
    three traces of the line rule, from the first corner to the
    second, from the second to the third and from the third back to
    the first, when the coordinates of the three corners have a
    magnitude of at most 2^59 and each line is given enough
    iterations. *)
Theorem DrawTriangle_outline (ppm : PPM.t) (w h : Z) (p1 p2 p3 : Point) (color : Pixel)
    (fuel : nat) :
  coord (X p1) -> coord (Y p1) -> coord (X p2) -> coord (Y p2) ->
  coord (X p3) -> coord (Y p3) -> is_canvas ppm w h ->
  Z.abs (X p2 - X p1) + Z.abs (Y p2 - Y p1) + 1 <= Z.of_nat fuel ->
  Z.abs (X p3 - X p2) + Z.abs (Y p3 - Y p2) + 1 <= Z.of_nat fuel ->
  Z.abs (X p1 - X p3) + Z.abs (Y p1 - Y p3) + 1 <= Z.of_nat fuel ->
  exists a b c ppm',
    spec_line p1 p2 a /\ spec_line p2 p3 b /\ spec_line p3 p1 c /\
    PPM.DrawTriangle fuel ppm p1 p2 p3 color = Ret ppm' /\ is_canvas ppm' w h /\
    forall x y, 0 <= x < w -> 0 <= y < h ->
      pixel_at ppm' x y =
      if bool_decide (mkPoint x y ∈ a ++ b ++ c) then Some color else pixel_at ppm x y.
Proof.
  intros Hx1 Hy1 Hx2 Hy2 Hx3 Hy3 Hc Hf1 Hf2 Hf3.
  destruct (DrawLine_trace p1 p2 color Hx1 Hy1 Hx2 Hy2) as (a & Ha & _ & _ & Hla & Hra).
  destruct (DrawLine_trace p2 p3 color Hx2 Hy2 Hx3 Hy3) as (b & Hb & _ & _ & Hlb & Hrb).
  destruct (DrawLine_trace p3 p1 color Hx3 Hy3 Hx1 Hy1) as (c & Hcc & _ & _ & Hlc & Hrc).
  destruct (plot_canvas (a ++ b ++ c) color w h ppm Hc) as (ppm' & Hplot & Hc' & Hpix).
  exists a, b, c, ppm'. repeat (split; [done|]). split; [|done].
  unfold PPM.DrawTriangle. rewrite Hra by lia.
  unfold plot in *. rewrite forM_app in Hplot.
  destruct (forM a ppm _) as [ppm1| | |]; simpl in *; try done.
  rewrite Hrb by lia. rewrite forM_app in Hplot.
  destruct (forM b ppm1 _) as [ppm2| | |]; simpl in *; try done.
  rewrite Hrc by lia. exact Hplot.
Qed.

Lemma DrawTriangle_outline_witness :
  exists a b c ppm',
    spec_line (mkPoint 0 0) (mkPoint 3 0) a /\ spec_line (mkPoint 3 0) (mkPoint 0 3) b /\
    spec_line (mkPoint 0 3) (mkPoint 0 0) c /\
    PPM.DrawTriangle 7 (canvas 5 5) (mkPoint 0 0) (mkPoint 3 0) (mkPoint 0 3) black
      = Ret ppm' /\ is_canvas ppm' 5 5 /\
    forall x y, 0 <= x < 5 -> 0 <= y < 5 ->
      pixel_at ppm' x y =
      if bool_decide (mkPoint x y ∈ a ++ b ++ c) then Some black
      else pixel_at (canvas 5 5) x y.
Proof.
  apply (DrawTriangle_outline (canvas 5 5) 5 5 (mkPoint 0 0) (mkPoint 3 0) (mkPoint 0 3)
           black 7).
  - unfold coord. simpl. lia.
  - unfold coord. simpl. lia.
  - unfold coord. simpl. lia.
  - unfold coord. simpl. lia.
  - unfold coord. simpl. lia.
  - unfold coord. simpl. lia.
  - exact (canvas_is_canvas 5 5).
  - simpl. lia.
  - simpl. lia.
  - simpl. lia.
Defined.

(** * Clamped spans *)

Lemma elem_of_range (lo hi x : Z) : x ∈ range lo hi <-> lo <= x < hi.
Proof.
  unfold range. change (map ?f ?l) with (f <$> l). rewrite list_elem_of_fmap.
  split.
  - intros (k & -> & Hk). apply elem_of_seq in Hk. lia.
  - intros Hx. exists (Z.to_nat (x - lo)). split; [lia|]. apply elem_of_seq. lia.
Qed.

Lemma forM_setPixel (xs : list Z) (ppm : PPM.t) (y : Z) (color : Pixel) :
  forM xs ppm (fun x ppm => PPM.setPixel ppm x y color)
  = plot ppm (map (fun x => mkPoint x y) xs) color.
Proof.
  revert ppm. induction xs as [|x xs IH]; intros ppm; [done|].
  unfold plot in *. simpl.
  change (PPM.SetPixel ppm (mkPoint x y) color) with (PPM.setPixel ppm x y color).
  destruct (PPM.setPixel ppm x y color) as [ppm1| | |]; simpl; auto.
Qed.

(** X18: on a canvas of at least one column [drawHorizontalLine]
    does nothing on a row outside the canvas; on a row of the canvas
    it brings both ends into the columns 0 .. width-1 and paints the
    cells between them, so that a span that lies wholly to the left
    or to the right of the canvas still paints the cell of the first
    or of the last column. *)
Theorem drawHorizontalLine_clamps (ppm : PPM.t) (w h a b r : Z) (color : Pixel) :
  is_canvas ppm w h -> 0 < w -> int_size w ->
  exists ppm', PPM.drawHorizontalLine ppm a b r color = Ret ppm' /\
    is_canvas ppm' w h /\
    forall x y, 0 <= x < w -> 0 <= y < h ->
      pixel_at ppm' x y =
      if (y =? r) && (Z.max 0 (Z.min (w - 1) (Z.min a b)) <=? x)
                  && (x <=? Z.max 0 (Z.min (w - 1) (Z.max a b)))
      then Some color else pixel_at ppm x y.
Proof.
  intros Hc Hw Hint. pose proof Hc as (Hcw & Hch & _). unfold int_size in Hint.
  unfold PPM.drawHorizontalLine. rewrite Hcw, Hch.
  destruct (Z.ltb_spec r 0) as [Hr0|Hr0]; simpl.
  { exists ppm. split; [done|]. split; [done|]. intros x y Hx Hy.
    by replace (y =? r) with false by lia. }
  destruct (Z.leb_spec h r) as [Hrh|Hrh].
  { exists ppm. split; [done|]. split; [done|]. intros x y Hx Hy.
    by replace (y =? r) with false by lia. }
  unfold int_sub. rewrite wrap64_small by lia.
  set (lo := Z.max 0 (Z.min (w - 1) (Z.min a b))).
  set (hi := Z.max 0 (Z.min (w - 1) (Z.max a b))).
  assert (Hrun : (let '(x1, x2) := if a >? b then (b, a) else (a, b) in
                  forM (range (PPM.clamp x1 0 (w - 1)) (PPM.clamp x2 0 (w - 1) + 1)) ppm
                    (fun x ppm => PPM.setPixel ppm x r color))
                 = plot ppm (map (fun x => mkPoint x r) (range lo (hi + 1))) color).
  { rewrite <- forM_setPixel. subst lo hi. unfold PPM.clamp.
    destruct (Z.gtb_spec a b);
      repeat match goal with
             | |- context [?x <? ?y] => destruct (Z.ltb_spec x y)
             | |- context [?x >? ?y] => destruct (Z.gtb_spec x y)
             end; try lia; do 2 f_equal; lia. }
  rewrite Hrun.
  destruct (plot_canvas (map (fun x => mkPoint x r) (range lo (hi + 1))) color w h ppm Hc)
    as (ppm' & Hplot & Hc' & Hpix).
  exists ppm'. split; [done|]. split; [done|].
  intros x y Hx Hy. rewrite Hpix by done.
  assert (Hin : mkPoint x y ∈ map (fun x => mkPoint x r) (range lo (hi + 1))
                <-> y = r /\ lo <= x <= hi).
  { change (map ?f ?l) with (f <$> l). rewrite list_elem_of_fmap. split.
    - intros (x' & [= -> ->] & Hx'). apply elem_of_range in Hx'. lia.
    - intros [-> Hlh]. exists x. split; [done|]. apply elem_of_range. lia. }
  destruct (decide (y = r /\ lo <= x <= hi)) as [Hyes|Hno].
  - rewrite bool_decide_eq_true_2 by (by apply Hin).
    by replace ((y =? r) && (lo <=? x) && (x <=? hi)) with true by lia.
  - rewrite bool_decide_eq_false_2 by (by rewrite Hin).
    by replace ((y =? r) && (lo <=? x) && (x <=? hi)) with false by lia.
Qed.

Lemma drawHorizontalLine_clamps_witness :
  exists ppm', PPM.drawHorizontalLine (canvas 5 5) (-7) (-3) 2 black = Ret ppm' /\
    is_canvas ppm' 5 5 /\
    forall x y, 0 <= x < 5 -> 0 <= y < 5 ->
      pixel_at ppm' x y =
      if (y =? 2) && (Z.max 0 (Z.min (5 - 1) (Z.min (-7) (-3))) <=? x)
                  && (x <=? Z.max 0 (Z.min (5 - 1) (Z.max (-7) (-3))))
      then Some black else pixel_at (canvas 5 5) x y.
Proof.
  apply (drawHorizontalLine_clamps (canvas 5 5) 5 5 (-7) (-3) 2 black).
  - exact (canvas_is_canvas 5 5).
  - lia.
  - unfold int_size. lia.
Defined.

(** * Truncated and foreign headers *)

Section ReadEOF.
Local Opaque defaultBufSize.

(** Without a newline in what is left, [ReadString] returns all of it
    with [io.EOF]. *)
Lemma ReadString_loop_eof (n : nat) :
  forall (acc : list ascii) (b : Reader) (fuel : nat),
    length (rest b) = n -> reader_ok b -> no_newline (rest b) ->
    (3 * n + 3 <= fuel)%nat ->
    exists b', ReadString_loop fuel acc b = Ret (acc ++ rest b, true, b') /\
      rest b' = [] /\ reader_ok b'.
Proof.
  pose proof defaultBufSize_pos as Hpos.
  induction n as [n IH] using lt_wf_ind.
  intros acc b fuel Hn Hok Hnl Hfuel.
  (* at the end of the file the buffer is handed over *)
  assert (Hend : forall acc b fuel,
    reader_ok b -> no_newline (rest b) -> eof b = true -> (1 <= fuel)%nat ->
    exists b', ReadString_loop fuel acc b = Ret (acc ++ rest b, true, b') /\
      rest b' = [] /\ reader_ok b').
  { clear. intros acc [rs nb e]. unfold reader_ok. simpl.
    intros fuel [Hnb He] Hnl -> Hfuel. specialize (He eq_refl). subst nb.
    destruct fuel as [|fuel]; [lia|]. simpl.
    rewrite find_index_none by (by apply Forall_take).
    rewrite firstn_all, drop_all.
    eexists. split; [reflexivity|]. split; [done|]. split; simpl; [lia|done]. }
  (* a full buffer is handed over, and the rest follows *)
  assert (Hflush : forall acc b fuel,
    length (rest b) = n -> reader_ok b -> no_newline (rest b) -> eof b = false ->
    (defaultBufSize <= nbuf b)%nat -> (3 * n + 1 <= fuel)%nat ->
    exists b', ReadString_loop fuel acc b = Ret (acc ++ rest b, true, b') /\
      rest b' = [] /\ reader_ok b').
  { clear acc b fuel Hn Hok Hnl Hfuel.
    intros acc [rs nb e]. unfold reader_ok. simpl.
    intros fuel Hn [Hnb He] Hnl -> Hfull Hfuel.
    destruct fuel as [|fuel]; [lia|]. simpl.
    rewrite find_index_none by (by apply Forall_take).
    destruct (Nat.leb_spec defaultBufSize nb) as [_|?]; [|lia].
    destruct (IH (length (drop nb rs)) ltac:(rewrite length_drop; lia)
                (acc ++ take nb rs)
                {| rest := drop nb rs; nbuf := 0; eof := false |} fuel)
      as (b' & Hrun & Hr & Hok'); try done.
    - split; simpl; [lia|done].
    - by apply Forall_drop.
    - rewrite length_drop. lia.
    - exists b'. split; [|done]. rewrite Hrun. simpl.
      by rewrite <- app_assoc, take_drop. }
  destruct (eof b) eqn:He.
  { apply Hend; try done. lia. }
  destruct (Nat.le_gt_cases defaultBufSize (nbuf b)) as [Hfull|Hroom].
  { apply Hflush; try done. lia. }
  (* room in the buffer: one fill *)
  destruct b as [rs nb e]. destruct Hok as [Hnb Heof]. simpl in *. subst e.
  destruct fuel as [|fuel]; [lia|]. simpl.
  rewrite find_index_none by (by apply Forall_take).
  destruct (Nat.leb_spec defaultBufSize nb) as [?|_]; [lia|].
  unfold fill. simpl.
  destruct (Nat.leb_spec (length rs) nb) as [Hall|Hmore].
  - apply Hend; try done; [|lia]. split; simpl; [done|lia].
  - set (nb1 := Nat.min defaultBufSize (length rs)).
    destruct (Nat.le_gt_cases defaultBufSize nb1) as [Hfull1|Hroom1].
    + apply Hflush; try done; simpl; try lia. split; simpl; [lia|done].
    + (* the file is shorter than the buffer: a second fill meets its end *)
      destruct fuel as [|fuel]; [lia|]. simpl.
      rewrite find_index_none by (by apply Forall_take).
      destruct (Nat.leb_spec defaultBufSize nb1) as [?|_]; [lia|].
      unfold fill. simpl.
      destruct (Nat.leb_spec (length rs) nb1) as [_|?]; [|lia].
      apply Hend; try done; [|lia]. split; simpl; lia.
Qed.

Lemma ReadString_eof (content : list ascii) :
  no_newline content ->
  exists b', ReadString (NewReader content) = Ret (content, true, b').
Proof.
  intros Hnl. unfold ReadString.
  destruct (ReadString_loop_eof (length content) [] (NewReader content)
              (3 * length (rest (NewReader content)) + 4) eq_refl
              (NewReader_ok content) Hnl) as (b' & H & _).
  - simpl. lia.
  - exists b'. exact H.
Qed.

Lemma ReadString_eof_at (b : Reader) :
  reader_ok b -> no_newline (rest b) ->
  exists b', ReadString b = Ret (rest b, true, b').
Proof.
  intros Hok Hnl. unfold ReadString.
  destruct (ReadString_loop_eof (length (rest b)) [] b
              (3 * length (rest b) + 4) eq_refl Hok Hnl) as (b' & H & _).
  - lia.
  - exists b'. exact H.
Qed.
End ReadEOF.

(** X19: a file that ends before its first newline is answered with
    the error "error reading magic number" by the three decoders,
    whatever it holds; one that has a valid magic number and ends
    before the second newline with "error reading dimensions". *)
Theorem truncated_header (content dims : list ascii) :
  no_newline content -> no_newline dims ->
  PBM.ReadPBM content = Err ErrReadMagic /\
  PGM.ReadPGM content = Err ErrReadMagic /\
  PPM.ReadPPM content = Err ErrReadMagic /\
  PBM.ReadPBM (str "P1" ++ NL :: dims) = Err ErrReadDimensions /\
  PBM.ReadPBM (str "P4" ++ NL :: dims) = Err ErrReadDimensions /\
  PGM.ReadPGM (str "P2" ++ NL :: dims) = Err ErrReadDimensions /\
  PGM.ReadPGM (str "P5" ++ NL :: dims) = Err ErrReadDimensions /\
  PPM.ReadPPM (str "P3" ++ NL :: dims) = Err ErrReadDimensions /\
  PPM.ReadPPM (str "P6" ++ NL :: dims) = Err ErrReadDimensions.
Proof.
  intros Hc Hdims.
  destruct (ReadString_eof content Hc) as (b' & Hrun).
  split; [|split; [|split]];
    try (unfold PBM.ReadPBM, PGM.ReadPGM, PPM.ReadPPM; cbv zeta;
         by rewrite Hrun).
  repeat split;
    unfold PBM.ReadPBM, PGM.ReadPGM, PPM.ReadPPM; cbv zeta;
    match goal with
    | |- context [NewReader (?m ++ NL :: ?t)] =>
        pose proof (NewReader_ok (m ++ NL :: t)) as Hok;
        assert (Hrest : rest (NewReader (m ++ NL :: t)) = m ++ NL :: t) by done;
        assert (Hm : no_newline m) by (by repeat constructor)
    end;
    read_line Hm;
    match goal with
    | Hok : reader_ok ?r, Hrest : rest ?r = dims |- _ =>
        rewrite <- Hrest in Hdims;
        destruct (ReadString_eof_at r Hok Hdims) as (r' & ->)
    end; done.
Qed.

Lemma truncated_header_witness :
  PBM.ReadPBM (str "P1") = Err ErrReadMagic /\
  PGM.ReadPGM (str "P1") = Err ErrReadMagic /\
  PPM.ReadPPM (str "P1") = Err ErrReadMagic /\
  PBM.ReadPBM (str "P1" ++ NL :: str "2 2") = Err ErrReadDimensions /\
  PBM.ReadPBM (str "P4" ++ NL :: str "2 2") = Err ErrReadDimensions /\
  PGM.ReadPGM (str "P2" ++ NL :: str "2 2") = Err ErrReadDimensions /\
  PGM.ReadPGM (str "P5" ++ NL :: str "2 2") = Err ErrReadDimensions /\
  PPM.ReadPPM (str "P3" ++ NL :: str "2 2") = Err ErrReadDimensions /\
  PPM.ReadPPM (str "P6" ++ NL :: str "2 2") = Err ErrReadDimensions.
Proof.
  apply (truncated_header (str "P1") (str "2 2")).
  - unfold no_newline. vm_compute. repeat constructor.
  - unfold no_newline. vm_compute. repeat constructor.
Defined.

(** X20: a first line of ASCII text that, once trimmed, is not one of
    the two magic numbers of the format is answered with the error
    "invalid magic number" carrying the trimmed line; in particular
    every decoder refuses the files of the two other formats. *)
Theorem foreign_magic (line tail : list ascii) (m : string) :
  text_line line = true -> m = string_of_list_ascii (TrimSpace (line ++ [NL])) ->
  (m <> "P1"%string -> m <> "P4"%string ->
   PBM.ReadPBM (line ++ NL :: tail) = Err (ErrInvalidMagic m)) /\
  (m <> "P2"%string -> m <> "P5"%string ->
   PGM.ReadPGM (line ++ NL :: tail) = Err (ErrInvalidMagic m)) /\
  (m <> "P3"%string -> m <> "P6"%string ->
   PPM.ReadPPM (line ++ NL :: tail) = Err (ErrInvalidMagic m)).
Proof.
  intros Hline%text_line_no_newline ->.
  pose proof (NewReader_ok (line ++ NL :: tail)) as Hok.
  assert (Hrest : rest (NewReader (line ++ NL :: tail)) = line ++ NL :: tail) by done.
  destruct (ReadString_line line tail _ Hok Hrest Hline) as (r & Hrun & _ & _).
  repeat split; intros Ha Hb;
    unfold PBM.ReadPBM, PGM.ReadPGM, PPM.ReadPPM; cbv zeta;
    rewrite Hrun, bind_Ret; cbv beta iota;
    apply String.eqb_neq in Ha, Hb; by rewrite Ha, Hb.
Qed.

Lemma foreign_magic_witness :
  PBM.ReadPBM (str "P2 " ++ NL :: str "1 1") = Err (ErrInvalidMagic "P2") /\
  PGM.ReadPGM (str "P6 " ++ NL :: str "1 1") = Err (ErrInvalidMagic "P6") /\
  PPM.ReadPPM (str "P1 " ++ NL :: str "1 1") = Err (ErrInvalidMagic "P1").
Proof.
  split; [|split].
  - apply (foreign_magic (str "P2 ") (str "1 1") "P2");
      [reflexivity|reflexivity|discriminate|discriminate].
  - apply (foreign_magic (str "P6 ") (str "1 1") "P6");
      [reflexivity|reflexivity|discriminate|discriminate].
  - apply (foreign_magic (str "P1 ") (str "1 1") "P1");
      [reflexivity|reflexivity|discriminate|discriminate].
Defined.

(** * Decoded images *)

Lemma bind_Ret_inv {A B : Type} (m : exec A) (k : A -> exec B) (b : B) :
  (m ≫= k) = Ret b -> exists a, m = Ret a /\ k a = Ret b.
Proof. destruct m as [a| | |]; try done. intros H. by exists a. Qed.

Lemma fmap_Ret_inv {A B : Type} (f : A -> B) (m : exec A) (b : B) :
  f <$> m = Ret b -> exists a, m = Ret a /\ b = f a.
Proof. destruct m as [a| | |]; try done. intros [= <-]. by exists a. Qed.

Lemma store_Ret_inv {A : Type} (s s' : list A) (i : Z) (v : A) :
  store s i v = Ret s' -> 0 <= i < len s /\ s' = <[Z.to_nat i:=v]> s.
Proof.
  unfold store. destruct (Z.ltb_spec i 0); [done|].
  destruct (s !! Z.to_nat i) eqn:E; [|done]. intros [= <-].
  apply lookup_lt_Some in E. unfold len. split; [lia|done].
Qed.

Lemma index_Ret_inv {A : Type} (s : list A) (i : Z) (a : A) :
  index s i = Ret a -> 0 <= i /\ s !! Z.to_nat i = Some a.
Proof.
  unfold index. destruct (Z.ltb_spec i 0); [done|].
  destruct (s !! Z.to_nat i) eqn:E; [|done]. by intros [= <-].
Qed.

Lemma make_Ret_inv {A : Type} (z : A) (n : Z) (l : list A) :
  make z n = Ret l -> 0 <= n /\ l = replicate (Z.to_nat n) z.
Proof. unfold make. destruct (Z.ltb_spec n 0); [done|]. by intros [= <-]. Qed.

(** A loop over a list whose body may fail: when it returns, an
    invariant of the body holds. *)
Lemma forM_ret_inv {A S : Type} (I : S -> Prop) (body : A -> S -> exec S)
    (xs : list A) (s s' : S) :
  I s -> (forall x s s', I s -> body x s = Ret s' -> I s') ->
  forM xs s body = Ret s' -> I s'.
Proof.
  intros Hs Hstep. revert s Hs. induction xs as [|x xs IH]; intros s Hs; simpl.
  - by intros [= <-].
  - intros H. apply bind_Ret_inv in H as (s1 & H1 & H2).
    apply (IH s1); [|done]. by apply (Hstep x s).
Qed.

Lemma row_of_insert {A : Type} (P : A -> Prop) (w : Z) (row : list A) (i : nat) (v : A) :
  row_of P w row -> P v -> row_of P w (<[i:=v]> row).
Proof.
  intros [Hl Hall] Hv. split.
  - unfold len in *. by rewrite length_insert.
  - destruct (decide (i < length row)%nat).
    + by apply Forall_insert.
    + by rewrite list_insert_ge by lia.
Qed.

Lemma row_of_replicate {A : Type} (P : A -> Prop) (w : Z) (z : A) :
  0 <= w -> P z -> row_of P w (replicate (Z.to_nat w) z).
Proof.
  intros Hw Hz. split.
  - unfold len. rewrite length_replicate. lia.
  - by apply Forall_replicate.
Qed.

(** A loop that stores one good row per iteration leaves a buffer of
    good rows. *)
Lemma rows_loop_shape {Rd A : Type} (good : list A -> Prop) (h : Z)
    (body : Z -> Rd * list (list A) -> exec (Rd * list (list A)))
    (r0 r : Rd) (d0 d : list (list A)) :
  0 <= h -> length d0 = Z.to_nat h ->
  (forall y r d r' d', 0 <= y < h -> body y (r, d) = Ret (r', d') ->
     exists row, good row /\ d' = <[Z.to_nat y:=row]> d) ->
  forM (range 0 h) (r0, d0) body = Ret (r, d) ->
  length d = Z.to_nat h /\ Forall good d.
Proof.
  intros Hh Hlen Hstep Hrun.
  pose proof (forM_range_ret
    (fun y (s : Rd * list (list A)) =>
       length (snd s) = Z.to_nat h /\
       forall n row, (Z.of_nat n < y) -> snd s !! n = Some row -> good row)
    body 0 h (r0, d0) (r, d) Hh) as H.
  destruct H as [Hl Hgood]; [| |exact Hrun|].
  - split; [done|]. intros n row Hn. lia.
  - intros y [r1 d1] [r2 d2] Hy [Hl1 Hg1] Hb. simpl in *.
    destruct (Hstep y r1 d1 r2 d2 Hy Hb) as (row & Hrow & ->).
    split; [by rewrite length_insert|]. intros n row' Hn Hl'.
    destruct (decide (n = Z.to_nat y)) as [->|Hne].
    + rewrite list_lookup_insert_eq in Hl' by lia. by injection Hl' as <-.
    + rewrite list_lookup_insert_ne in Hl' by done. apply (Hg1 n); [lia|done].
  - simpl in *. split; [done|]. apply Forall_lookup. intros n row Hrow.
    apply (Hgood n); [|done]. apply lookup_lt_Some in Hrow. lia.
Qed.

Lemma take_while_all (p : ascii -> bool) (s : list ascii) :
  Forall (fun c => p c = true) (take_while p s).
Proof.
  induction s as [|c s IH]; simpl; [done|].
  destruct (p c) eqn:E; [by constructor|done].
Qed.

Lemma decimal_nonneg (ds : list ascii) :
  Forall (fun c => isDigit c = true) ds -> 0 <= decimal ds.
Proof.
  intros Hds. unfold decimal.
  assert (H : forall acc, 0 <= acc ->
            0 <= fold_left (fun a c => 10 * a + digit_val c) ds acc).
  { induction Hds as [|c ds Hc Hds IH]; intros acc Hacc; simpl; [done|].
    apply IH. unfold digit_val, isDigit in *. cbv zeta in Hc.
    apply andb_prop in Hc as [H1 H2]. apply N.leb_le in H1, H2. lia. }
  by apply H.
Qed.

(** What [%d] reads into a [uint8] is a byte. *)
Lemma Sscanf_d_uint8_byte (f : list ascii) (v : Z) :
  Sscanf_d_uint8 f = Some v -> is_byte v = true.
Proof.
  unfold Sscanf_d_uint8, scanUint8. destruct (SkipSpace f) as [s|]; [|done]. simpl.
  pose proof (decimal_nonneg _ (take_while_all isDigit s)) as Hnn.
  destruct (take_while isDigit s) as [|c ds] eqn:E; [done|].
  destruct (Z.ltb_spec (decimal (c :: ds)) 256); [|done].
  simpl. intros [= <-]. unfold is_byte. lia.
Qed.

Lemma Z_of_byte_byte (c : ascii) : is_byte (Z_of_byte c) = true.
Proof.
  unfold is_byte, Z_of_byte. pose proof (N_ascii_bounded c). lia.
Qed.

Lemma readRowP2_shape (w y : Z) (fields : list (list ascii)) (row0 row : list Z) :
  row_of (fun v => is_byte v = true) w row0 ->
  PGM.readRowP2 w y fields row0 = Ret row ->
  row_of (fun v => is_byte v = true) w row.
Proof.
  intros H0 Hrun. unfold PGM.readRowP2 in Hrun.
  apply fmap_Ret_inv in Hrun as ([x row'] & Hrun & ->). simpl.
  apply (forM_ret_inv (fun st : Z * list Z => row_of (fun v => is_byte v = true) w (snd st))
           (PGM.readFieldP2 w y) fields (0, row0) (x, row') H0); [|exact Hrun].
  intros f [x1 r1] [x2 r2] Hr1 Hstep. simpl in *.
  destruct (w <=? x1); [done|].
  destruct (Sscanf_d_uint8 f) as [v|] eqn:Hv; [|done].
  apply bind_Ret_inv in Hstep as (r3 & Hst & [= <- <-]).
  apply store_Ret_inv in Hst as [_ ->].
  apply row_of_insert; [done|]. by apply (Sscanf_d_uint8_byte f).
Qed.

Lemma readRowP5_shape (w k : Z) (bytes : list ascii) (row0 row : list Z) :
  row_of (fun v => is_byte v = true) w row0 ->
  PGM.readRowP5 w k bytes row0 = Ret row ->
  row_of (fun v => is_byte v = true) w row.
Proof.
  intros H0 Hrun. unfold PGM.readRowP5 in Hrun.
  eapply (forM_ret_inv (row_of (fun v => is_byte v = true) w)); [exact H0| |exact Hrun].
  cbv beta. intros x r1 r2 Hr1 Hstep.
  apply bind_Ret_inv in Hstep as (b & _ & Hst).
  apply store_Ret_inv in Hst as [_ ->].
  apply row_of_insert; [done|]. apply Z_of_byte_byte.
Qed.

(** X24: an image that [ReadPGM] returns is well formed: its magic
    number is P2 or P5, its dimensions are positive, its buffer has
    [height] rows of [width] samples, and its maximum and its samples
    are bytes. *)
Theorem ReadPGM_well_formed (content : list ascii) (pgm : PGM.t) :
  PGM.ReadPGM content = Ret pgm ->
  (PGM.magicNumber pgm = "P2"%string \/ PGM.magicNumber pgm = "P5"%string) /\
  0 < PGM.width pgm /\ 0 < PGM.height pgm /\ PGM_ok pgm /\
  is_byte (PGM.max pgm) = true /\
  Forall (Forall (fun v => is_byte v = true)) (PGM.data pgm).
Proof.
  unfold PGM.ReadPGM. cbv zeta. intros H.
  apply bind_Ret_inv in H as ([[magic e1] r1] & _ & H). destruct e1; [done|].
  set (m := string_of_list_ascii (TrimSpace magic)) in *.
  destruct (negb (m =? "P2")%string && negb (m =? "P5")%string) eqn:Hm; [done|].
  apply bind_Ret_inv in H as ([[dims e2] r2] & _ & H). destruct e2; [done|].
  destruct (Sscanf_d_d (TrimSpace dims)) as [[w h]|]; [|done].
  destruct (Z.leb_spec w 0) as [|Hw]; [done|].
  destruct (Z.leb_spec h 0) as [|Hh]; [done|]. simpl in H.
  apply bind_Ret_inv in H as ([[maxv e3] r3] & _ & H). destruct e3; [done|].
  destruct (Sscanf_d_uint8 (TrimSpace maxv)) as [mx|] eqn:Hmx; [|done].
  apply bind_Ret_inv in H as (d0 & Hd0 & H).
  apply make_Ret_inv in Hd0 as [_ ->].
  apply bind_Ret_inv in H as (d & Hd & [= <-]). simpl.
  assert (Hmagic : m = "P2"%string \/ m = "P5"%string).
  { destruct (String.eqb_spec m "P2"); [by left|].
    destruct (String.eqb_spec m "P5"); [by right|done]. }
  split; [done|]. split; [done|]. split; [done|].
  assert (Hshape : length d = Z.to_nat h /\
                   Forall (row_of (fun v => is_byte v = true) w) d).
  { destruct (m =? "P2")%string.
    - unfold PGM.readRowsP2 in Hd.
      apply fmap_Ret_inv in Hd as ([r d'] & Hd & ->). simpl.
      eapply (rows_loop_shape _ h); [lia|by rewrite length_replicate| |exact Hd].
      intros y ra da rb db Hy Hstep. unfold PGM.readLineP2 in Hstep.
      apply bind_Ret_inv in Hstep as ([[line e] rd] & _ & Hstep).
      destruct e; [done|].
      apply bind_Ret_inv in Hstep as (row0 & Hrow0 & Hstep).
      apply make_Ret_inv in Hrow0 as [_ ->].
      apply bind_Ret_inv in Hstep as (row & Hrow & Hstep).
      apply bind_Ret_inv in Hstep as (dc & Hst & [= <- <-]).
      apply store_Ret_inv in Hst as [_ ->].
      exists row. split; [|done].
      eapply readRowP2_shape; [|exact Hrow].
      by apply row_of_replicate; [lia|].
    - destruct (m =? "P5")%string.
      + unfold PGM.readRowsP5 in Hd. cbv zeta in Hd.
        apply fmap_Ret_inv in Hd as ([r d'] & Hd & ->). simpl.
        eapply (rows_loop_shape _ h); [lia|by rewrite length_replicate| |exact Hd].
        intros y ra da rb db Hy Hstep. cbv beta iota in Hstep.
        apply bind_Ret_inv in Hstep as (buf & _ & Hstep).
        destruct (Read ra (Z.to_nat (int_mul w 1))) as [[got e] rd].
        destruct e; [done|].
        destruct (len got <? int_mul w 1); [done|].
        apply bind_Ret_inv in Hstep as (row0 & Hrow0 & Hstep).
        apply make_Ret_inv in Hrow0 as [_ ->].
        apply bind_Ret_inv in Hstep as (row & Hrow & Hstep).
        apply bind_Ret_inv in Hstep as (dc & Hst & [= <- <-]).
        apply store_Ret_inv in Hst as [_ ->].
        exists row. split; [|done].
        eapply readRowP5_shape; [|exact Hrow].
        by apply row_of_replicate; [lia|].
      + destruct Hmagic; done. }
  destruct Hshape as [Hlen Hrows]. split; [|split].
  - unfold PGM_ok, rect. simpl. repeat split; try lia.
    eapply Forall_impl; [exact Hrows|]. intros row [Hr _]. exact Hr.
  - by apply (Sscanf_d_uint8_byte (TrimSpace maxv)).
  - eapply Forall_impl; [exact Hrows|]. intros row [_ Hr]. exact Hr.
Qed.

Lemma ReadPGM_well_formed_witness :
  (PGM.magicNumber (PGM.mk [[200]] 1 1 "P2" 100) = "P2"%string \/
   PGM.magicNumber (PGM.mk [[200]] 1 1 "P2" 100) = "P5"%string) /\
  0 < PGM.width (PGM.mk [[200]] 1 1 "P2" 100) /\
  0 < PGM.height (PGM.mk [[200]] 1 1 "P2" 100) /\
  PGM_ok (PGM.mk [[200]] 1 1 "P2" 100) /\
  is_byte (PGM.max (PGM.mk [[200]] 1 1 "P2" 100)) = true /\
  Forall (Forall (fun v => is_byte v = true)) (PGM.data (PGM.mk [[200]] 1 1 "P2" 100)).
Proof.
  apply (ReadPGM_well_formed bright_p2 (PGM.mk [[200]] 1 1 "P2" 100)).
  vm_compute. reflexivity.
Defined.

Lemma readRowP3_shape (w y : Z) (fields : list (list ascii)) (row0 row : list Pixel) :
  row_of (fun p => byte_pixel p = true) w row0 ->
  PPM.readRowP3 w y fields row0 = Ret row ->
  row_of (fun p => byte_pixel p = true) w row.
Proof.
  intros H0 Hrun. unfold PPM.readRowP3 in Hrun.
  eapply (forM_ret_inv (row_of (fun p => byte_pixel p = true) w)); [exact H0| |exact Hrun].
  cbv beta. intros x r1 r2 Hr1 Hstep.
  destruct (len fields <=? int_add (int_mul x 3) 2); [done|].
  apply bind_Ret_inv in Hstep as (fr & _ & Hstep).
  destruct (Sscanf_d_uint8 fr) as [r|] eqn:Hr; [|done].
  apply bind_Ret_inv in Hstep as (fg & _ & Hstep).
  destruct (Sscanf_d_uint8 fg) as [g|] eqn:Hg; [|done].
  apply bind_Ret_inv in Hstep as (fb & _ & Hstep).
  destruct (Sscanf_d_uint8 fb) as [b|] eqn:Hb; [|done].
  apply store_Ret_inv in Hstep as [_ ->].
  apply row_of_insert; [done|]. unfold byte_pixel. simpl.
  by rewrite (Sscanf_d_uint8_byte fr r), (Sscanf_d_uint8_byte fg g),
    (Sscanf_d_uint8_byte fb b).
Qed.

Lemma readRowP6_shape (w k : Z) (bytes : list ascii) (row0 row : list Pixel) :
  row_of (fun p => byte_pixel p = true) w row0 ->
  PPM.readRowP6 w k bytes row0 = Ret row ->
  row_of (fun p => byte_pixel p = true) w row.
Proof.
  intros H0 Hrun. unfold PPM.readRowP6 in Hrun.
  eapply (forM_ret_inv (row_of (fun p => byte_pixel p = true) w)); [exact H0| |exact Hrun].
  cbv beta. intros x r1 r2 Hr1 Hstep.
  apply bind_Ret_inv in Hstep as (r & _ & Hstep).
  apply bind_Ret_inv in Hstep as (g & _ & Hstep).
  apply bind_Ret_inv in Hstep as (b & _ & Hstep).
  apply store_Ret_inv in Hstep as [_ ->].
  apply row_of_insert; [done|]. unfold byte_pixel. simpl.
  by rewrite !Z_of_byte_byte.
Qed.

(** X25: an image that [ReadPPM] returns is well formed: its magic
    number is P3 or P6, its dimensions are positive, its buffer has
    [height] rows of [width] pixels, and its maximum and the channels
    of its pixels are bytes. *)
Theorem ReadPPM_well_formed (content : list ascii) (ppm : PPM.t) :
  PPM.ReadPPM content = Ret ppm ->
  (PPM.magicNumber ppm = "P3"%string \/ PPM.magicNumber ppm = "P6"%string) /\
  0 < PPM.width ppm /\ 0 < PPM.height ppm /\ PPM_ok ppm /\
  is_byte (PPM.max ppm) = true /\
  Forall (Forall (fun p => byte_pixel p = true)) (PPM.data ppm).
Proof.
  unfold PPM.ReadPPM. cbv zeta. intros H.
  apply bind_Ret_inv in H as ([[magic e1] r1] & _ & H). destruct e1; [done|].
  set (m := string_of_list_ascii (TrimSpace magic)) in *.
  destruct (negb (m =? "P3")%string && negb (m =? "P6")%string) eqn:Hm; [done|].
  apply bind_Ret_inv in H as ([[dims e2] r2] & _ & H). destruct e2; [done|].
  destruct (Sscanf_d_d (TrimSpace dims)) as [[w h]|]; [|done].
  destruct (Z.leb_spec w 0) as [|Hw]; [done|].
  destruct (Z.leb_spec h 0) as [|Hh]; [done|]. simpl in H.
  apply bind_Ret_inv in H as ([[maxv e3] r3] & _ & H). destruct e3; [done|].
  destruct (Sscanf_d_uint8 (TrimSpace maxv)) as [mx|] eqn:Hmx; [|done].
  apply bind_Ret_inv in H as (d0 & Hd0 & H).
  apply make_Ret_inv in Hd0 as [_ ->].
  apply bind_Ret_inv in H as (d & Hd & [= <-]). simpl.
  assert (Hmagic : m = "P3"%string \/ m = "P6"%string).
  { destruct (String.eqb_spec m "P3"); [by left|].
    destruct (String.eqb_spec m "P6"); [by right|done]. }
  split; [done|]. split; [done|]. split; [done|].
  assert (Hshape : length d = Z.to_nat h /\
                   Forall (row_of (fun p => byte_pixel p = true) w) d).
  { destruct (m =? "P3")%string.
    - unfold PPM.readRowsP3 in Hd.
      apply fmap_Ret_inv in Hd as ([r d'] & Hd & ->). simpl.
      eapply (rows_loop_shape _ h); [lia|by rewrite length_replicate| |exact Hd].
      intros y ra da rb db Hy Hstep. unfold PPM.readLineP3 in Hstep.
      apply bind_Ret_inv in Hstep as ([[line e] rd] & _ & Hstep).
      destruct e; [done|].
      apply bind_Ret_inv in Hstep as (row0 & Hrow0 & Hstep).
      apply make_Ret_inv in Hrow0 as [_ ->].
      apply bind_Ret_inv in Hstep as (row & Hrow & Hstep).
      apply bind_Ret_inv in Hstep as (dc & Hst & [= <- <-]).
      apply store_Ret_inv in Hst as [_ ->].
      exists row. split; [|done].
      eapply readRowP3_shape; [|exact Hrow].
      by apply row_of_replicate; [lia|].
    - destruct (m =? "P6")%string.
      + unfold PPM.readRowsP6 in Hd. cbv zeta in Hd.
        apply fmap_Ret_inv in Hd as ([r d'] & Hd & ->). simpl.
        eapply (rows_loop_shape _ h); [lia|by rewrite length_replicate| |exact Hd].
        intros y ra da rb db Hy Hstep. cbv beta iota in Hstep.
        apply bind_Ret_inv in Hstep as (buf & _ & Hstep).
        destruct (Read ra (Z.to_nat (int_mul w 3))) as [[got e] rd].
        destruct e; [done|].
        destruct (len got <? int_mul w 3); [done|].
        apply bind_Ret_inv in Hstep as (row0 & Hrow0 & Hstep).
        apply make_Ret_inv in Hrow0 as [_ ->].
        apply bind_Ret_inv in Hstep as (row & Hrow & Hstep).
        apply bind_Ret_inv in Hstep as (dc & Hst & [= <- <-]).
        apply store_Ret_inv in Hst as [_ ->].
        exists row. split; [|done].
        eapply readRowP6_shape; [|exact Hrow].
        by apply row_of_replicate; [lia|].
      + destruct Hmagic; done. }
  destruct Hshape as [Hlen Hrows]. split; [|split].
  - unfold PPM_ok, rect. simpl. repeat split; try lia.
    eapply Forall_impl; [exact Hrows|]. intros row [Hr _]. exact Hr.
  - by apply (Sscanf_d_uint8_byte (TrimSpace maxv)).
  - eapply Forall_impl; [exact Hrows|]. intros row [_ Hr]. exact Hr.
Qed.

Lemma ReadPPM_well_formed_witness :
  (PPM.magicNumber (PPM.mk [[mkPixel 200 0 0]] 1 1 "P3" 100) = "P3"%string \/
   PPM.magicNumber (PPM.mk [[mkPixel 200 0 0]] 1 1 "P3" 100) = "P6"%string) /\
  0 < PPM.width (PPM.mk [[mkPixel 200 0 0]] 1 1 "P3" 100) /\
  0 < PPM.height (PPM.mk [[mkPixel 200 0 0]] 1 1 "P3" 100) /\
  PPM_ok (PPM.mk [[mkPixel 200 0 0]] 1 1 "P3" 100) /\
  is_byte (PPM.max (PPM.mk [[mkPixel 200 0 0]] 1 1 "P3" 100)) = true /\
  Forall (Forall (fun p => byte_pixel p = true))
         (PPM.data (PPM.mk [[mkPixel 200 0 0]] 1 1 "P3" 100)).
Proof.
  apply (ReadPPM_well_formed bright_p3 (PPM.mk [[mkPixel 200 0 0]] 1 1 "P3" 100)).
  vm_compute. reflexivity.
Defined.

(** A store in a buffer keeps its number of rows and their lengths. *)
Lemma store2_shape {A : Type} (d d' : list (list A)) (w : Z) (y x : Z) (v : A) :
  Forall (fun row => len row = w) d -> store2 d y x v = Ret d' ->
  length d' = length d /\ Forall (fun row => len row = w) d'.
Proof.
  intros Hd Hst. unfold store2 in Hst.
  apply bind_Ret_inv in Hst as (row & Hrow & Hst).
  apply index_Ret_inv in Hrow as [Hy Hrow].
  apply bind_Ret_inv in Hst as (row' & Hrow' & Hst).
  apply store_Ret_inv in Hrow' as [_ ->]. apply store_Ret_inv in Hst as [Hyl ->].
  split; [by rewrite length_insert|].
  apply Forall_insert; [done|]. unfold len in *. rewrite length_insert.
  rewrite Forall_lookup in Hd. exact (Hd _ _ Hrow).
Qed.

(** X23: a bitmap that [ReadPBM] returns has the magic number P1 or
    P4, a height that is not negative and a buffer of [height] rows
    of [width] samples; with at least one row the width is not
    negative either. *)
Theorem ReadPBM_well_formed (content : list ascii) (pbm : PBM.t) :
  PBM.ReadPBM content = Ret pbm ->
  (PBM.magicNumber pbm = "P1"%string \/ PBM.magicNumber pbm = "P4"%string) /\
  0 <= PBM.height pbm /\ len (PBM.data pbm) = PBM.height pbm /\
  Forall (fun row => len row = PBM.width pbm) (PBM.data pbm) /\
  (0 < PBM.height pbm -> PBM_ok pbm).
Proof.
  unfold PBM.ReadPBM. cbv zeta. intros H.
  apply bind_Ret_inv in H as ([[magic e1] r1] & _ & H). destruct e1; [done|].
  set (m := string_of_list_ascii (TrimSpace magic)) in *.
  destruct (negb (m =? "P1")%string && negb (m =? "P4")%string) eqn:Hm; [done|].
  apply bind_Ret_inv in H as ([[dims e2] r2] & _ & H). destruct e2; [done|].
  destruct (Sscanf_d_d (TrimSpace dims)) as [[w h]|]; [|done].
  apply bind_Ret_inv in H as (d0 & Hd0 & H).
  apply bind_Ret_inv in H as (d & Hd & [= <-]). simpl.
  assert (Hmagic : m = "P1"%string \/ m = "P4"%string).
  { destruct (String.eqb_spec m "P1"); [by left|].
    destruct (String.eqb_spec m "P4"); [by right|done]. }
  split; [done|].
  (* the buffer allocated at the start *)
  unfold PBM.makeRows in Hd0.
  apply bind_Ret_inv in Hd0 as (e & He & Hd0). apply make_Ret_inv in He as [Hh ->].
  assert (H0 : length d0 = Z.to_nat h /\ Forall (fun row => len row = w) d0 /\
               (0 < h -> 0 <= w)).
  { unfold len in Hd0. rewrite length_replicate, Z2Nat.id in Hd0 by done.
    pose proof (forM_range_ret
      (fun i (s : list (list bool)) => length s = Z.to_nat h /\
         (forall n row, Z.of_nat n < i -> s !! n = Some row -> len row = w) /\
         (0 < i -> 0 <= w))
      (fun i data => row ← make false w; store data i row)
      0 h (replicate (Z.to_nat h) []) d0 Hh) as Hinv.
    destruct Hinv as (Hl & Hrows & Hw); [| |exact Hd0|].
    - split; [by rewrite length_replicate|]. split; [|lia]. intros n row Hn. lia.
    - intros i s s' Hi (Hl & Hrows & Hw) Hstep.
      apply bind_Ret_inv in Hstep as (row & Hrow & Hst).
      apply make_Ret_inv in Hrow as [Hw0 ->]. apply store_Ret_inv in Hst as [_ ->].
      split; [by rewrite length_insert|]. split; [|done].
      intros n row Hn Hlk. destruct (decide (n = Z.to_nat i)) as [->|Hne].
      + rewrite list_lookup_insert_eq in Hlk by lia. injection Hlk as <-.
        unfold len. rewrite length_replicate. lia.
      + rewrite list_lookup_insert_ne in Hlk by done. apply (Hrows n); [lia|done].
    - split; [done|]. split; [|done]. apply Forall_lookup. intros n row Hlk.
      apply (Hrows n); [|done]. apply lookup_lt_Some in Hlk. lia. }
  destruct H0 as (Hl0 & Hrows0 & Hw0).
  assert (Hshape : length d = Z.to_nat h /\ Forall (fun row => len row = w) d).
  { set (I := fun s : Reader * list (list bool) =>
               length (snd s) = Z.to_nat h /\ Forall (fun row => len row = w) (snd s)).
    assert (Hrow : forall xs (body : Z -> list (list bool) -> exec (list (list bool))) s s',
      (forall x s s', body x s = Ret s' ->
         length s = Z.to_nat h /\ Forall (fun row => len row = w) s ->
         length s' = Z.to_nat h /\ Forall (fun row => len row = w) s') ->
      length s = Z.to_nat h /\ Forall (fun row => len row = w) s ->
      forM xs s body = Ret s' ->
      length s' = Z.to_nat h /\ Forall (fun row => len row = w) s').
    { intros xs body s s' Hb Hs Hrun.
      eapply (forM_ret_inv (fun s => length s = Z.to_nat h /\
                                     Forall (fun row => len row = w) s));
        [exact Hs| |exact Hrun].
      intros x s1 s2 Hs1 Hstep. by apply (Hb x s1). }
    destruct (m =? "P1")%string.
    - unfold PBM.readRowsP1 in Hd.
      apply fmap_Ret_inv in Hd as ([r d'] & Hd & ->).
      change (I (r, d')).
      eapply (forM_ret_inv I); [|
        |exact Hd]; [by split|].
      intros y [ra da] [rb db] Hs Hstep. unfold PBM.readLineP1 in Hstep.
      apply bind_Ret_inv in Hstep as ([[line e] rd] & _ & Hstep).
      destruct e; [done|].
      apply bind_Ret_inv in Hstep as (dc & Hrowrun & [= <- <-]).
      unfold PBM.readRowP1 in Hrowrun.
      apply fmap_Ret_inv in Hrowrun as ([x dd] & Hrowrun & ->).
      unfold I in *. simpl in *.
      eapply (forM_ret_inv (fun st : Z * list (list bool) =>
                length (snd st) = Z.to_nat h /\ Forall (fun row => len row = w) (snd st))
                (PBM.readFieldP1 w y) (Fields line) (0, da) (x, dd) Hs); [|exact Hrowrun].
      intros f [x1 d1] [x2 d2] [Hl1 Hr1] Hf. simpl in *.
      destruct (w <=? x1); [done|].
      apply bind_Ret_inv in Hf as (d3 & Hst & [= <- <-]).
      destruct (store2_shape d1 d3 w y x1 _ Hr1 Hst) as [Hl3 Hr3].
      split; [lia|done].
    - destruct (m =? "P4")%string.
      + unfold PBM.readRowsP4 in Hd. cbv zeta in Hd.
        apply fmap_Ret_inv in Hd as ([r d'] & Hd & ->).
        change (I (r, d')).
        eapply (forM_ret_inv I); [| |exact Hd]; [by split|].
        intros y [ra da] [rb db] Hs Hstep. cbv beta iota in Hstep.
        apply bind_Ret_inv in Hstep as (buf & _ & Hstep).
        destruct (Read ra _) as [[got e] rd].
        destruct e; [done|].
        destruct (len got <? _); [done|].
        apply bind_Ret_inv in Hstep as (dc & Hrowrun & [= <- <-]).
        unfold I in *. simpl in *. unfold PBM.readRowP4 in Hrowrun.
        eapply Hrow; [|exact Hs|exact Hrowrun].
        cbv beta. intros x s1 s2 Hstep [Hl1 Hr1].
        apply bind_Ret_inv in Hstep as (b & _ & Hst).
        destruct (store2_shape s1 s2 w y x _ Hr1 Hst) as [Hl3 Hr3].
        split; [lia|done].
      + destruct Hmagic; done. }
  destruct Hshape as [Hl Hrows]. unfold len at 1.
  split; [done|]. split; [lia|]. split; [done|].
  intros Hpos. unfold PBM_ok, rect. simpl. repeat split; try lia.
  exact Hrows.
Qed.

Lemma ReadPBM_well_formed_witness :
  (PBM.magicNumber dots_pbm = "P1"%string \/ PBM.magicNumber dots_pbm = "P4"%string) /\
  0 <= PBM.height dots_pbm /\ len (PBM.data dots_pbm) = PBM.height dots_pbm /\
  Forall (fun row => len row = PBM.width dots_pbm) (PBM.data dots_pbm) /\
  (0 < PBM.height dots_pbm -> PBM_ok dots_pbm).
Proof.
  apply (ReadPBM_well_formed dots_stream dots_pbm).
  vm_compute. reflexivity.
Defined.

(** * Printed and scanned numbers *)

Lemma digit_not_space (c : ascii) :
  isDigit c = true ->
  isSpace c = false /\ isNL c = false /\ Ascii.eqb c "-" = false /\
  Ascii.eqb c "+" = false /\ 0 <= digit_val c <= 9.
Proof.
  destruct c as [[] [] [] [] [] [] [] []]; intros H; try discriminate H;
    repeat split; vm_compute; congruence.
Qed.

Lemma take_while_app (p : ascii -> bool) (ds rest : list ascii) :
  Forall (fun c => p c = true) ds ->
  match rest with [] => True | c :: _ => p c = false end ->
  take_while p (ds ++ rest) = ds /\ drop_while p (ds ++ rest) = rest.
Proof.
  intros Hds Hrest. induction Hds as [|c ds Hc Hds IH]; simpl.
  - destruct rest as [|c rest]; [done|]. simpl. by rewrite Hrest.
  - rewrite Hc. destruct IH as [-> ->]. done.
Qed.

(** The digits of the decimal numeral [d]. *)
Lemma uint_digits (d : Decimal.uint) :
  Forall (fun c => isDigit c = true)
         (list_ascii_of_string (NilEmpty.string_of_uint d)).
Proof. induction d; simpl; constructor; done. Qed.

Lemma uint_decimal_acc (d : Decimal.uint) (acc : positive) :
  fold_left (fun a c => 10 * a + digit_val c)
            (list_ascii_of_string (NilEmpty.string_of_uint d)) (Z.pos acc)
  = Z.pos (Pos.of_uint_acc d acc).
Proof.
  revert acc. induction d; intros acc; simpl; [done|..];
    match goal with
    | |- context [digit_val ?c] =>
        let v := eval vm_compute in (digit_val c) in
        change (digit_val c) with v
    end;
    rewrite <- IHd; f_equal; lia.
Qed.

Lemma uint_decimal (d : Decimal.uint) :
  decimal (list_ascii_of_string (NilEmpty.string_of_uint d)) = Z.of_N (Pos.of_uint d).
Proof.
  unfold decimal. induction d; simpl; [done|exact IHd|..];
    match goal with
    | |- context [digit_val ?c] =>
        let v := eval vm_compute in (digit_val c) in
        change (digit_val c) with v
    end;
    simpl; apply uint_decimal_acc.
Qed.

(** [%d] prints a number that is not negative as a run of digits,
    which has the number as its value. *)
Lemma format_d_digits (n : Z) :
  0 <= n ->
  format_d n <> [] /\ Forall (fun c => isDigit c = true) (format_d n) /\
  decimal (format_d n) = n.
Proof.
  intros Hn. unfold format_d. destruct n as [|p|p]; [| |lia].
  - simpl. split; [done|]. split; [by repeat constructor|reflexivity].
  - simpl. pose proof (Unsigned.to_uint_nonnil p) as Hnn.
    assert (Heq : NilZero.string_of_uint (Pos.to_uint p)
                  = NilEmpty.string_of_uint (Pos.to_uint p)).
    { unfold NilZero.string_of_uint. by destruct (Pos.to_uint p). }
    rewrite Heq. split; [|split].
    + by destruct (Pos.to_uint p).
    + apply uint_digits.
    + rewrite uint_decimal, DecimalPos.Unsigned.of_to. done.
Qed.

Lemma scanInt_digits (ds rest : list ascii) :
  ds <> [] -> Forall (fun c => isDigit c = true) ds ->
  match rest with [] => True | c :: _ => isDigit c = false end ->
  0 <= decimal ds < 2 ^ 63 ->
  scanInt (ds ++ rest) = Some (decimal ds, rest).
Proof.
  intros Hne Hds Hrest Hv. destruct ds as [|c ds]; [done|].
  pose proof (Forall_inv Hds) as Hc. simpl in Hc.
  destruct (digit_not_space c Hc) as (Hsp & Hnl & Hm & Hp & _).
  unfold scanInt. simpl SkipSpace. rewrite Hnl, Hsp.
  unfold mbind, option_bind. cbv beta iota.
  rewrite Hm, Hp. simpl orb. cbv iota.
  destruct (take_while_app isDigit (c :: ds) rest Hds Hrest) as [Ht Hd].
  simpl app in Ht, Hd. rewrite Ht, Hd.
  replace ((- 2 ^ 63 <=? decimal (c :: ds)) && (decimal (c :: ds) <? 2 ^ 63)) with true
    by lia.
  done.
Qed.

Lemma scanUint8_digits (ds rest : list ascii) :
  ds <> [] -> Forall (fun c => isDigit c = true) ds ->
  match rest with [] => True | c :: _ => isDigit c = false end ->
  decimal ds < 256 ->
  scanUint8 (ds ++ rest) = Some (decimal ds, rest).
Proof.
  intros Hne Hds Hrest Hv. destruct ds as [|c ds]; [done|].
  pose proof (Forall_inv Hds) as Hc. simpl in Hc.
  destruct (digit_not_space c Hc) as (Hsp & Hnl & Hm & Hp & _).
  unfold scanUint8. simpl SkipSpace. rewrite Hnl, Hsp.
  unfold mbind, option_bind. cbv beta iota zeta.
  destruct (take_while_app isDigit (c :: ds) rest Hds Hrest) as [Ht Hd].
  simpl app in Ht, Hd. rewrite Ht, Hd.
  by replace (decimal (c :: ds) <? 256) with true by lia.
Qed.

(** A byte that is printed and scanned back. *)
Lemma Sscanf_format_byte (v : Z) :
  is_byte v = true -> Sscanf_d_uint8 (format_d v) = Some v.
Proof.
  unfold is_byte. intros Hv.
  destruct (format_d_digits v ltac:(lia)) as (Hne & Hds & Hdec).
  unfold Sscanf_d_uint8.
  pose proof (scanUint8_digits (format_d v) [] Hne Hds I ltac:(lia)) as H.
  rewrite app_nil_r in H. rewrite H. simpl. by rewrite Hdec.
Qed.

(** Text that begins and ends with a byte that is not a space, read
    as a line and trimmed. *)
Lemma TrimSpace_line (s : list ascii) (c e : ascii) (mid : list ascii) :
  s = c :: mid -> last s = Some e -> isSpace c = false -> isSpace e = false ->
  TrimSpace (s ++ [NL]) = s.
Proof.
  intros -> Hlast Hc He. unfold TrimSpace. simpl drop_while. rewrite Hc.
  change (c :: mid ++ [NL]) with ((c :: mid) ++ [NL]).
  rewrite reverse_app. simpl.
  change (reverse [NL]) with [NL]. simpl.
  destruct (reverse (c :: mid)) as [|e' r] eqn:Hrev.
  { apply (f_equal length) in Hrev. rewrite length_reverse in Hrev. done. }
  assert (e' = e) as ->.
  { rewrite <- (reverse_involutive (c :: mid)), Hrev in Hlast.
    rewrite reverse_cons, last_snoc in Hlast. by injection Hlast. }
  simpl. rewrite He. rewrite <- Hrev. apply reverse_involutive.
Qed.

Lemma digits_no_newline (ds : list ascii) :
  Forall (fun c => isDigit c = true) ds -> no_newline ds.
Proof.
  intros H. unfold no_newline. eapply Forall_impl; [exact H|].
  intros c Hc. by destruct (digit_not_space c Hc) as (_ & ? & _).
Qed.

Lemma digits_no_space (ds : list ascii) :
  Forall (fun c => isDigit c = true) ds -> Forall (fun c => isSpace c = false) ds.
Proof.
  intros H. eapply Forall_impl; [exact H|].
  intros c Hc. by destruct (digit_not_space c Hc) as (? & _).
Qed.

Lemma last_app_nonempty {A : Type} (l1 l2 : list A) :
  l2 <> [] -> last (l1 ++ l2) = last l2.
Proof.
  intros H. destruct l2 as [|a l2] using rev_ind; [done|].
  by rewrite app_assoc, !last_snoc.
Qed.

Lemma last_Forall {A : Type} (P : A -> Prop) (l : list A) :
  l <> [] -> Forall P l -> exists e, last l = Some e /\ P e.
Proof.
  intros Hne Hl. destruct l as [|a l] using rev_ind; [done|].
  exists a. rewrite last_snoc. split; [done|].
  apply Forall_app in Hl as [_ Ha]. by apply Forall_inv in Ha.
Qed.

(** The line of the dimensions that [Save] writes is read back. *)
Lemma dimensions_round_trip (w h : Z) :
  0 <= w < 2 ^ 63 -> 0 <= h < 2 ^ 63 ->
  no_newline (format_d w ++ str " " ++ format_d h) /\
  Sscanf_d_d (TrimSpace ((format_d w ++ str " " ++ format_d h) ++ [NL])) = Some (w, h).
Proof.
  intros Hw Hh.
  destruct (format_d_digits w ltac:(lia)) as (Hwne & Hwd & Hwv).
  destruct (format_d_digits h ltac:(lia)) as (Hhne & Hhd & Hhv).
  split.
  - unfold no_newline. apply Forall_app. split; [by apply digits_no_newline|].
    apply Forall_app. split; [by repeat constructor|by apply digits_no_newline].
  - destruct (format_d w) as [|c dw] eqn:Ew; [done|].
    destruct (last_Forall _ (format_d h) Hhne (digits_no_space _ Hhd)) as (e & Hlast & He).
    rewrite (TrimSpace_line ((c :: dw) ++ str " " ++ format_d h) c e
               (dw ++ str " " ++ format_d h)).
    + unfold Sscanf_d_d.
      rewrite (scanInt_digits (c :: dw) (str " " ++ format_d h)); [|done|done|done|lia].
      unfold mbind, option_bind. cbv beta iota. simpl scanFormatSpace.
      assert (Hdrop : drop_while (fun c => isSpace c && negb (isNL c)) (format_d h)
                      = format_d h).
      { destruct (format_d h) as [|c' dh]; [done|]. simpl.
        apply Forall_inv in Hhd. destruct (digit_not_space c' Hhd) as (-> & _). done. }
      rewrite Hdrop.
      pose proof (scanInt_digits (format_d h) [] Hhne Hhd I ltac:(lia)) as Hs.
      rewrite app_nil_r in Hs. rewrite Hs. by rewrite Hwv, Hhv.
    + done.
    + rewrite app_assoc. by rewrite last_app_nonempty.
    + apply Forall_inv in Hwd. by destruct (digit_not_space c Hwd) as (? & _).
    + done.
Qed.

(** * Lines of tokens *)

Lemma Fields_aux_token (t cur rest : list ascii) :
  Forall (fun c => isSpace c = false) t ->
  Fields_aux cur (t ++ rest) = Fields_aux (reverse t ++ cur) rest.
Proof.
  intros Ht. revert cur. induction Ht as [|c t Hc Ht IH]; intros cur; [done|].
  simpl. rewrite Hc, IH. by rewrite reverse_cons, <- app_assoc.
Qed.

Lemma token_no_newline (t : list ascii) : token t -> no_newline t.
Proof.
  intros [_ Ht]. unfold no_newline. eapply Forall_impl; [exact Ht|].
  intros c Hc. unfold isNL. destruct (Ascii.eqb_spec c NL) as [->|]; [|done].
  by vm_compute in Hc.
Qed.

Lemma spaced_cons (t : list ascii) (ts : list (list ascii)) :
  ts <> [] -> spaced (t :: ts) = t ++ str " " ++ spaced ts.
Proof. by destruct ts. Qed.

Lemma spaced_no_newline (ts : list (list ascii)) :
  Forall token ts -> no_newline (spaced ts).
Proof.
  induction 1 as [|t ts Ht Hts IH]; [by constructor|].
  destruct ts as [|t' ts]; [by apply token_no_newline|].
  rewrite spaced_cons by done. unfold no_newline in *.
  apply Forall_app. split; [by apply token_no_newline|].
  apply Forall_app. split; [by repeat constructor|done].
Qed.

Lemma trailed_no_newline (ts : list (list ascii)) :
  Forall token ts -> no_newline (trailed ts).
Proof.
  induction 1 as [|t ts Ht Hts IH]; [by constructor|].
  unfold trailed, no_newline in *. simpl. rewrite <- app_assoc.
  apply Forall_app. split; [by apply token_no_newline|].
  apply Forall_app. split; [by repeat constructor|done].
Qed.

Lemma Fields_aux_end (t : list ascii) :
  token t -> Fields_aux [] (t ++ [NL]) = [t].
Proof.
  intros [Hne Ht]. rewrite Fields_aux_token by done. rewrite app_nil_r. simpl.
  destruct (reverse t) as [|c r] eqn:E.
  { apply (f_equal length) in E. rewrite length_reverse in E. by destruct t. }
  by rewrite <- E, reverse_involutive.
Qed.

Lemma Fields_aux_space (t rest : list ascii) :
  token t -> Fields_aux [] (t ++ str " " ++ rest) = t :: Fields_aux [] rest.
Proof.
  intros [Hne Ht]. rewrite Fields_aux_token by done. rewrite app_nil_r. simpl.
  destruct (reverse t) as [|c r] eqn:E.
  { apply (f_equal length) in E. rewrite length_reverse in E. by destruct t. }
  by rewrite <- E, reverse_involutive.
Qed.

(** [Fields] gives back the tokens of a line. *)
Lemma Fields_spaced (ts : list (list ascii)) :
  Forall token ts -> Fields (spaced ts ++ [NL]) = ts.
Proof.
  unfold Fields. induction 1 as [|t ts Ht Hts IH]; [done|].
  destruct ts as [|t' ts]; [by apply Fields_aux_end|].
  rewrite spaced_cons by done. rewrite <- !app_assoc.
  rewrite Fields_aux_space by done. by rewrite IH.
Qed.

Lemma Fields_trailed (ts : list (list ascii)) :
  Forall token ts -> Fields (trailed ts ++ [NL]) = ts.
Proof.
  unfold Fields, trailed. induction 1 as [|t ts Ht Hts IH]; [done|].
  simpl. rewrite <- !app_assoc.
  rewrite Fields_aux_space by done. by rewrite IH.
Qed.

Lemma bit_token_token (v : bool) : token (bit_token v).
Proof. destruct v; split; try done; by repeat constructor. Qed.

Lemma format_d_token (v : Z) : 0 <= v -> token (format_d v).
Proof.
  intros Hv. destruct (format_d_digits v Hv) as (Hne & Hds & _).
  split; [done|by apply digits_no_space].
Qed.

(** * Written rows *)

(** The loop that writes the samples of a row with a space between
    them. *)
Lemma save_spaced_row {A : Type} (tok : A -> list ascii) (d : list (list A))
    (w y : Z) (row : list A) :
  0 <= y -> d !! Z.to_nat y = Some row -> len row = w -> int_size w ->
  forall (n : nat) (x : Z) (out : list ascii),
    0 <= x -> Z.of_nat n = w - x ->
    forM (range x w) out (fun x out =>
      v ← index2 d y x;
      let out := out ++ tok v in
      Ret (if x <? int_sub w 1 then out ++ str " " else out))
    = Ret (out ++ spaced (map tok (drop (Z.to_nat x) row))).
Proof.
  intros Hy Hrow Hlen Hint. unfold int_size, len in *.
  induction n as [|n IH]; intros x out Hx Hn.
  - rewrite range_nil by lia. rewrite drop_ge by lia. simpl. by rewrite app_nil_r.
  - match goal with |- forM _ _ ?b = _ => set (body := b) in * end.
    rewrite range_cons by lia. simpl forM.
    destruct (lookup_lt_is_Some_2 row (Z.to_nat x)) as [v Hv]; [lia|].
    assert (Hhead : body x out
                    = Ret (if x <? w - 1 then (out ++ tok v) ++ str " " else out ++ tok v)).
    { subst body. cbv beta zeta.
      unfold index2. rewrite (index_lookup d y row) by done.
      rewrite bind_Ret, (index_lookup row x v) by done. rewrite bind_Ret.
      unfold int_sub. by rewrite wrap64_small by lia. }
    rewrite Hhead, bind_Ret.
    rewrite (IH (x + 1)) by lia. f_equal.
    rewrite (drop_S row v (Z.to_nat x)) by done.
    replace (Z.to_nat (x + 1)) with (S (Z.to_nat x)) by lia.
    simpl map. destruct (Z.ltb_spec x (w - 1)) as [Hlt|Hge].
    + rewrite spaced_cons.
      * by rewrite <- !app_assoc.
      * intros Hnil. apply (f_equal length) in Hnil.
        rewrite length_map, length_drop in Hnil. simpl in Hnil. lia.
    + rewrite drop_ge by lia. simpl. by rewrite app_nil_r.
Qed.

(** The loop over the rows: one line each. *)
Lemma save_spaced_rows {A : Type} (tok : A -> list ascii) (d : list (list A)) (w h : Z) :
  rect d w h -> int_size w ->
  forall (n : nat) (y : Z) (out : list ascii),
    0 <= y -> Z.of_nat n = h - y ->
    forM (range y h) out (fun y out =>
      out ← forM (range 0 w) out (fun x out =>
        v ← index2 d y x;
        let out := out ++ tok v in
        Ret (if x <? int_sub w 1 then out ++ str " " else out));
      Ret (out ++ [NL]))
    = Ret (out ++ lines (map (fun row => spaced (map tok row)) (drop (Z.to_nat y) d))).
Proof.
  intros (Hw & Hh & Hlen & Hrows) Hint.
  induction n as [|n IH]; intros y out Hy Hn.
  - rewrite range_nil by lia. rewrite drop_ge by lia. simpl. by rewrite app_nil_r.
  - match goal with |- forM _ _ ?b = _ => set (body := b) in * end.
    rewrite range_cons by lia. simpl forM.
    destruct (lookup_lt_is_Some_2 d (Z.to_nat y)) as [row Hrow]; [lia|].
    assert (Hrl : len row = w).
    { rewrite Forall_lookup in Hrows. exact (Hrows _ _ Hrow). }
    assert (Hhead : body y out = Ret ((out ++ spaced (map tok row)) ++ [NL])).
    { subst body. cbv beta.
      rewrite (save_spaced_row tok d w y row Hy Hrow Hrl Hint (Z.to_nat w) 0 out)
        by lia.
      by rewrite bind_Ret. }
    rewrite Hhead, bind_Ret. rewrite (IH (y + 1)) by lia. f_equal.
    rewrite (drop_S d row (Z.to_nat y)) by done.
    replace (Z.to_nat (y + 1)) with (S (Z.to_nat y)) by lia.
    simpl map. unfold lines. simpl. by rewrite <- !app_assoc.
Qed.

(** * Round trips of the ASCII formats *)

Lemma bit_token_read (v : bool) : bytes_eqb (bit_token v) (str "1") = v.
Proof. by destruct v. Qed.

Lemma insert_middle {A : Type} (pre old : list A) (o v : A) :
  <[length pre:=v]> (pre ++ o :: old) = (pre ++ [v]) ++ old.
Proof.
  rewrite insert_app_r_alt by lia. rewrite Nat.sub_diag. simpl.
  by rewrite <- app_assoc.
Qed.

(** The tokens of a row of bits are stored one after the other. *)
Lemma readFieldsP1_exact (w y : Z) (suffix : list bool) :
  forall (pre old : list bool) (data : list (list bool)),
    0 <= y -> data !! Z.to_nat y = Some (pre ++ old) ->
    length old = length suffix -> len pre + len suffix <= w ->
    forM (map bit_token suffix) (len pre, data) (PBM.readFieldP1 w y)
    = Ret (len pre + len suffix, <[Z.to_nat y:=pre ++ suffix]> data).
Proof.
  induction suffix as [|v suffix IH]; intros pre old data Hy Hrow Hlen Hw.
  - destruct old; [|done]. simpl. unfold len. simpl.
    rewrite Z.add_0_r. rewrite app_nil_r in *. by rewrite list_insert_id.
  - destruct old as [|o old]; [done|]. simpl in Hlen.
    unfold len in *. simpl length in Hw. simpl map. simpl forM.
    replace (w <=? Z.of_nat (length pre)) with false by lia.
    unfold store2. rewrite (index_lookup data y _ Hy Hrow), bind_Ret.
    rewrite store_inside by (unfold len; rewrite length_app; simpl; lia).
    rewrite bind_Ret.
    rewrite store_inside by (unfold len; apply lookup_lt_Some in Hrow; lia).
    rewrite !bind_Ret. rewrite Nat2Z.id, insert_middle, bit_token_read.
    replace (Z.of_nat (length pre) + 1) with (Z.of_nat (length (pre ++ [v])))
      by (rewrite length_app; simpl; lia).
    rewrite (IH (pre ++ [v]) old).
    + rewrite list_insert_insert_eq. rewrite <- app_assoc. simpl.
      do 2 f_equal. rewrite length_app. simpl. lia.
    + done.
    + apply list_lookup_insert_eq. by apply lookup_lt_Some in Hrow.
    + lia.
    + rewrite length_app. simpl. lia.
Qed.

(** The lines that [saveP1] writes are read back row by row. *)
Lemma readLinesP1_exact (w : Z) (rows : list (list bool)) :
  forall (done old : list (list bool)) (reader : Reader) (tail : list ascii),
    length old = length rows ->
    Forall (fun row => len row = w) rows -> Forall (fun row => len row = w) old ->
    reader_ok reader ->
    rest reader = lines (map (fun row => spaced (map bit_token row)) rows) ++ tail ->
    exists reader',
      forM (range (len done) (len done + len rows)) (reader, done ++ old) (PBM.readLineP1 w)
      = Ret (reader', done ++ rows) /\
      rest reader' = tail /\ reader_ok reader'.
Proof.
  induction rows as [|row rows IH]; intros done old reader tail Hlen Hrows Hold Hok Hrest.
  - destruct old; [|done]. unfold len. simpl. rewrite range_nil by lia.
    exists reader. by rewrite app_nil_r in *.
  - destruct old as [|o old]; [done|]. simpl in Hlen.
    apply Forall_cons in Hrows as [Hrow Hrows]. apply Forall_cons in Hold as [Ho Hold].
    simpl map in Hrest. rewrite lines_cons in Hrest.
    assert (Htok : Forall token (map bit_token row)).
    { apply Forall_fmap, Forall_forall. intros v _. apply bit_token_token. }
    destruct (ReadString_line _ _ reader Hok Hrest (spaced_no_newline _ Htok))
      as (r1 & Hrs & Hrest1 & Hok1).
    unfold len in *. simpl length. rewrite range_cons by lia. simpl forM.
    rewrite Hrs, bind_Ret. cbv beta iota.
    rewrite Fields_spaced by done. unfold PBM.readRowP1.
    pose proof (readFieldsP1_exact w (Z.of_nat (length done)) row [] o (done ++ o :: old))
      as Hfields.
    unfold len in Hfields. simpl length in Hfields. simpl app in Hfields.
    change (Z.of_nat 0) with 0 in Hfields. rewrite Z.add_0_l in Hfields.
    rewrite Hfields; [|lia| |lia|lia].
    2:{ rewrite Nat2Z.id. rewrite lookup_app_r by lia. by rewrite Nat.sub_diag. }
    simpl. rewrite Nat2Z.id, insert_middle.
    destruct (IH (done ++ [row]) old r1 tail ltac:(lia) Hrows Hold Hok1 Hrest1)
      as (r' & Hrun & Hrest' & Hok').
    exists r'. split; [|done].
    rewrite length_app in Hrun. simpl length in Hrun.
    replace (Z.of_nat (length done) + 1) with (Z.of_nat (length done + 1)) by lia.
    replace (Z.of_nat (length done) + Z.of_nat (S (length rows)))
      with (Z.of_nat (length done + 1) + Z.of_nat (length rows)) by lia.
    rewrite Hrun. by rewrite <- app_assoc.
Qed.

(** X26: a bitmap with the magic number P1 whose buffer has the
    announced size is saved to a file from which [ReadPBM] returns the
    same bitmap, whatever the size of the image. *)
Theorem PBM_P1_round_trip (pbm : PBM.t) :
  PBM_ok pbm -> PBM.magicNumber pbm = "P1"%string ->
  int_size (PBM.width pbm) -> int_size (PBM.height pbm) ->
  exists file, PBM.Save pbm = Ret file /\ PBM.ReadPBM file = Ret pbm.
Proof.
  destruct pbm as [d w h m]. unfold PBM_ok, int_size. simpl.
  intros Hrect -> Hiw Hih. pose proof Hrect as (Hw & Hh & Hlen & Hrows).
  unfold PBM.Save, PBM.saveP1. cbv zeta.
  cbn [PBM.magicNumber PBM.width PBM.height PBM.data].
  change ("P1" =? "P1")%string with true. cbv iota.
  pose proof (save_spaced_rows bit_token d w h Hrect Hiw (Z.to_nat h) 0 []
                ltac:(lia) ltac:(lia)) as Hsave.
  cbv zeta in Hsave. unfold bit_token in Hsave at 1 2.
  change (Z.to_nat 0) with 0%nat in Hsave. rewrite drop_0 in Hsave.
  rewrite Hsave, bind_Ret. rewrite app_nil_l.
  eexists. split; [reflexivity|].
  destruct (dimensions_round_trip w h ltac:(lia) ltac:(lia)) as [Hnl Hscan].
  set (dims := format_d w ++ str " " ++ format_d h) in *.
  set (body := lines (map (fun row => spaced (map bit_token row)) d)).
  replace ((str "P1" ++ [NL] ++ format_d w ++ str " " ++ format_d h ++ [NL]) ++ body)
    with (str "P1" ++ NL :: dims ++ NL :: body ++ [])
    by (subst dims; rewrite app_nil_r, <- !app_assoc; reflexivity).
  unfold PBM.ReadPBM. cbv zeta.
  destruct (ReadString_line (str "P1") (dims ++ NL :: body ++ [])
              (NewReader (str "P1" ++ NL :: dims ++ NL :: body ++ []))
              (NewReader_ok _) eq_refl)
    as (r1 & Hrs1 & Hrest1 & Hok1).
  { repeat constructor. }
  rewrite Hrs1, bind_Ret. cbv beta iota.
  change (string_of_list_ascii (TrimSpace (str "P1" ++ [NL]))) with "P1"%string.
  change ("P1" =? "P1")%string with true.
  change ("P1" =? "P4")%string with false.
  cbv beta iota. simpl negb. simpl andb. cbv iota.
  destruct (ReadString_line dims _ r1 Hok1 Hrest1 Hnl) as (r2 & Hrs2 & Hrest2 & Hok2).
  rewrite Hrs2, bind_Ret. cbv beta iota.
  rewrite Hscan. cbv beta iota.
  rewrite makeRows_rect, bind_Ret by done.
  unfold PBM.readRowsP1.
  destruct (readLinesP1_exact w d [] (replicate (Z.to_nat h) (replicate (Z.to_nat w) false))
              r2 [] ) as (r3 & Hrun & _).
  - rewrite length_replicate. lia.
  - done.
  - apply Forall_replicate. unfold len. rewrite length_replicate. lia.
  - done.
  - done.
  - unfold len in Hrun. simpl length in Hrun. simpl app in Hrun.
    change (Z.of_nat 0) with 0 in Hrun. rewrite Z.add_0_l, Hlen in Hrun.
    rewrite Hrun. reflexivity.
Qed.

Lemma PBM_P1_round_trip_witness :
  exists file, PBM.Save steps_pbm = Ret file /\ PBM.ReadPBM file = Ret steps_pbm.
Proof.
  apply (PBM_P1_round_trip steps_pbm); [literal_rect|reflexivity|..];
    unfold int_size; simpl; lia.
Defined.

Lemma TrimSpace_format_d (v : Z) : 0 <= v -> TrimSpace (format_d v ++ [NL]) = format_d v.
Proof.
  intros Hv. destruct (format_d_digits v Hv) as (Hne & Hds & _).
  destruct (last_Forall _ (format_d v) Hne (digits_no_space _ Hds)) as (e & Hlast & He).
  destruct (format_d v) as [|c mid] eqn:E; [done|].
  apply (TrimSpace_line _ c e mid); try done.
  apply Forall_inv in Hds. by destruct (digit_not_space c Hds) as (? & _).
Qed.

(** The tokens of a row of samples are stored one after the other. *)
Lemma readFieldsP2_exact (w y : Z) (suffix : list Z) :
  forall (pre old : list Z),
    Forall (fun v => is_byte v = true) suffix ->
    length old = length suffix -> len pre + len suffix <= w ->
    forM (map format_d suffix) (len pre, pre ++ old) (PGM.readFieldP2 w y)
    = Ret (len pre + len suffix, pre ++ suffix).
Proof.
  induction suffix as [|v suffix IH]; intros pre old Hbytes Hlen Hw.
  - destruct old; [|done]. simpl. unfold len. simpl. by rewrite Z.add_0_r.
  - destruct old as [|o old]; [done|]. simpl in Hlen.
    apply Forall_cons in Hbytes as [Hv Hbytes].
    unfold len in *. simpl length in Hw. simpl map. simpl forM.
    replace (w <=? Z.of_nat (length pre)) with false by lia.
    rewrite Sscanf_format_byte by done.
    rewrite store_inside by (unfold len; rewrite length_app; simpl; lia).
    rewrite !bind_Ret. rewrite Nat2Z.id, insert_middle.
    replace (Z.of_nat (length pre) + 1) with (Z.of_nat (length (pre ++ [v])))
      by (rewrite length_app; simpl; lia).
    rewrite (IH (pre ++ [v]) old) by (done || lia || (rewrite length_app; simpl; lia)).
    rewrite <- app_assoc. simpl. do 2 f_equal. rewrite length_app. simpl. lia.
Qed.

(** The lines that [saveP2PGM] writes are read back row by row. *)
Lemma readLinesP2_exact (w : Z) (rows : list (list Z)) :
  forall (done old : list (list Z)) (reader : Reader) (tail : list ascii),
    0 <= w -> length old = length rows ->
    Forall (fun row => len row = w /\ Forall (fun v => is_byte v = true) row) rows ->
    reader_ok reader ->
    rest reader = lines (map (fun row => spaced (map format_d row)) rows) ++ tail ->
    exists reader',
      forM (range (len done) (len done + len rows)) (reader, done ++ old) (PGM.readLineP2 w)
      = Ret (reader', done ++ rows) /\
      rest reader' = tail /\ reader_ok reader'.
Proof.
  induction rows as [|row rows IH]; intros done old reader tail Hw Hlen Hrows Hok Hrest.
  - destruct old; [|done]. unfold len. simpl. rewrite range_nil by lia.
    exists reader. by rewrite app_nil_r in *.
  - destruct old as [|o old]; [done|]. simpl in Hlen.
    apply Forall_cons in Hrows as [[Hrow Hbytes] Hrows].
    simpl map in Hrest. rewrite lines_cons in Hrest.
    assert (Htok : Forall token (map format_d row)).
    { apply Forall_fmap. eapply Forall_impl; [exact Hbytes|].
      intros v Hv. simpl. apply format_d_token. unfold is_byte in Hv. lia. }
    destruct (ReadString_line _ _ reader Hok Hrest (spaced_no_newline _ Htok))
      as (r1 & Hrs & Hrest1 & Hok1).
    unfold len in *. simpl length. rewrite range_cons by lia. simpl forM.
    rewrite Hrs, bind_Ret. cbv beta iota.
    rewrite Fields_spaced by done.
    rewrite make_ok, bind_Ret by done. unfold PGM.readRowP2.
    pose proof (readFieldsP2_exact w (Z.of_nat (length done)) row []
                  (replicate (Z.to_nat w) 0) Hbytes) as Hfields.
    unfold len in Hfields. simpl length in Hfields. simpl app in Hfields.
    change (Z.of_nat 0) with 0 in Hfields. rewrite Z.add_0_l in Hfields.
    rewrite Hfields by (rewrite ?length_replicate; lia).
    simpl. rewrite store_inside by (unfold len; rewrite length_app; simpl; lia).
    rewrite bind_Ret. rewrite Nat2Z.id, insert_middle.
    destruct (IH (done ++ [row]) old r1 tail Hw ltac:(lia) Hrows Hok1 Hrest1)
      as (r' & Hrun & Hrest' & Hok').
    exists r'. split; [|done].
    rewrite length_app in Hrun. simpl length in Hrun.
    replace (Z.of_nat (length done) + 1) with (Z.of_nat (length done + 1)) by lia.
    replace (Z.of_nat (length done) + Z.of_nat (S (length rows)))
      with (Z.of_nat (length done + 1) + Z.of_nat (length rows)) by lia.
    rewrite bind_Ret, Hrun. by rewrite <- app_assoc.
Qed.

(** X27: a gray map with the magic number P2, positive dimensions, a
    buffer of the announced size and a maximum and samples that are
    bytes is saved to a file from which [ReadPGM] returns the same
    gray map, whatever the size of the image. *)
Theorem PGM_P2_round_trip (pgm : PGM.t) :
  PGM_ok pgm -> PGM.magicNumber pgm = "P2"%string ->
  0 < PGM.width pgm -> 0 < PGM.height pgm ->
  int_size (PGM.width pgm) -> int_size (PGM.height pgm) ->
  is_byte (PGM.max pgm) = true ->
  Forall (Forall (fun v => is_byte v = true)) (PGM.data pgm) ->
  exists file, PGM.Save pgm = Ret file /\ PGM.ReadPGM file = Ret pgm.
Proof.
  destruct pgm as [d w h m mx]. unfold PGM_ok, int_size. simpl.
  intros Hrect -> Hw0 Hh0 Hiw Hih Hmx Hbytes.
  pose proof Hrect as (Hw & Hh & Hlen & Hrows).
  unfold PGM.Save, PGM.saveP2PGM. cbv zeta.
  cbn [PGM.magicNumber PGM.width PGM.height PGM.data PGM.max].
  assert (Hcheck : forallb (fun row => len row =? w) d = true).
  { apply forallb_forall. intros row Hin. apply list_elem_of_In in Hin.
    rewrite Forall_forall in Hrows. specialize (Hrows row Hin). unfold len. lia. }
  rewrite Hcheck. change ("P2" =? "P2")%string with true. cbv iota.
  pose proof (save_spaced_rows format_d d w h Hrect Hiw (Z.to_nat h) 0 []
                ltac:(lia) ltac:(lia)) as Hsave.
  cbv zeta in Hsave. change (Z.to_nat 0) with 0%nat in Hsave. rewrite drop_0 in Hsave.
  rewrite Hsave, bind_Ret. rewrite app_nil_l.
  eexists. split; [reflexivity|].
  destruct (dimensions_round_trip w h ltac:(lia) ltac:(lia)) as [Hnl Hscan].
  set (dims := format_d w ++ str " " ++ format_d h) in *.
  set (body := lines (map (fun row => spaced (map format_d row)) d)).
  replace ((str "P2" ++ [NL] ++ format_d w ++ str " " ++ format_d h ++ [NL]
            ++ format_d mx ++ [NL]) ++ body)
    with (str "P2" ++ NL :: dims ++ NL :: format_d mx ++ NL :: body ++ [])
    by (subst dims; rewrite app_nil_r, <- !app_assoc; reflexivity).
  unfold PGM.ReadPGM. cbv zeta.
  destruct (ReadString_line (str "P2") (dims ++ NL :: format_d mx ++ NL :: body ++ [])
              (NewReader (str "P2" ++ NL :: dims ++ NL :: format_d mx ++ NL :: body ++ []))
              (NewReader_ok _) eq_refl)
    as (r1 & Hrs1 & Hrest1 & Hok1).
  { repeat constructor. }
  rewrite Hrs1, bind_Ret. cbv beta iota.
  change (string_of_list_ascii (TrimSpace (str "P2" ++ [NL]))) with "P2"%string.
  change ("P2" =? "P2")%string with true.
  change ("P2" =? "P5")%string with false.
  cbv beta iota. simpl negb. simpl andb. cbv iota.
  destruct (ReadString_line dims _ r1 Hok1 Hrest1 Hnl) as (r2 & Hrs2 & Hrest2 & Hok2).
  rewrite Hrs2, bind_Ret. cbv beta iota.
  rewrite Hscan. cbv beta iota.
  replace ((w <=? 0) || (h <=? 0)) with false by lia.
  assert (Hmx0 : 0 <= mx) by (unfold is_byte in Hmx; lia).
  destruct (format_d_digits mx Hmx0) as (_ & Hmxd & _).
  destruct (ReadString_line (format_d mx) _ r2 Hok2 Hrest2 (digits_no_newline _ Hmxd))
    as (r3 & Hrs3 & Hrest3 & Hok3).
  rewrite Hrs3, bind_Ret. cbv beta iota.
  rewrite TrimSpace_format_d, Sscanf_format_byte by done.
  rewrite (make_ok (A := list Z) [] h), bind_Ret by done.
  unfold PGM.readRowsP2.
  destruct (readLinesP2_exact w d [] (replicate (Z.to_nat h) []) r3 [])
    as (r4 & Hrun & _).
  - done.
  - rewrite length_replicate. lia.
  - apply Forall_forall. intros row Hin. split.
    + rewrite Forall_forall in Hrows. by apply Hrows.
    + rewrite Forall_forall in Hbytes. by apply Hbytes.
  - done.
  - done.
  - unfold len in Hrun. simpl length in Hrun. simpl app in Hrun.
    change (Z.of_nat 0) with 0 in Hrun. rewrite Z.add_0_l, Hlen in Hrun.
    rewrite Hrun. reflexivity.
Qed.

Lemma PGM_P2_round_trip_witness :
  exists file, PGM.Save steps_pgm = Ret file /\ PGM.ReadPGM file = Ret steps_pgm.
Proof.
  apply (PGM_P2_round_trip steps_pgm).
  - literal_rect.
  - reflexivity.
  - simpl. lia.
  - simpl. lia.
  - unfold int_size. simpl. lia.
  - unfold int_size. simpl. lia.
  - reflexivity.
  - repeat constructor.
Defined.

Lemma pixel_tokens_length (row : list Pixel) :
  length (pixel_tokens row) = (3 * length row)%nat.
Proof. unfold pixel_tokens. induction row as [|p row IH]; simpl; [done|]. lia. Qed.

Lemma pixel_tokens_lookup (row : list Pixel) (x : nat) (p : Pixel) :
  row !! x = Some p ->
  pixel_tokens row !! (3 * x)%nat = Some (format_d (R p)) /\
  pixel_tokens row !! (3 * x + 1)%nat = Some (format_d (G p)) /\
  pixel_tokens row !! (3 * x + 2)%nat = Some (format_d (B p)).
Proof.
  revert x. induction row as [|q row IH]; intros x Hx; [done|].
  destruct x as [|x].
  - injection Hx as ->. done.
  - simpl in Hx. destruct (IH x Hx) as (Hr & Hg & Hb).
    replace (3 * S x)%nat with (S (S (S (3 * x)))) by lia.
    unfold pixel_tokens in *. simpl. done.
Qed.

Lemma pixel_tokens_token (row : list Pixel) :
  Forall (fun p => byte_pixel p = true) row -> Forall token (pixel_tokens row).
Proof.
  unfold pixel_tokens. induction 1 as [|p row Hp Hrow IH]; [done|]. simpl.
  unfold byte_pixel, is_byte in Hp.
  repeat (constructor; [apply format_d_token; lia|]). exact IH.
Qed.

(** The loops of [Save] for the format P3. *)
Lemma save_trailed_row (d : list (list Pixel)) (w y : Z) (row : list Pixel) :
  0 <= y -> d !! Z.to_nat y = Some row -> len row = w ->
  forall (n : nat) (x : Z) (out : list ascii),
    0 <= x -> Z.of_nat n = w - x ->
    forM (range x w) out (fun x out =>
      pixel ← index2 d y x;
      Ret (out ++ format_d (R pixel) ++ str " " ++ format_d (G pixel) ++ str " "
               ++ format_d (B pixel) ++ str " "))
    = Ret (out ++ trailed (pixel_tokens (drop (Z.to_nat x) row))).
Proof.
  intros Hy Hrow Hlen. unfold len in *.
  induction n as [|n IH]; intros x out Hx Hn.
  - rewrite range_nil by lia. rewrite drop_ge by lia. simpl. by rewrite app_nil_r.
  - match goal with |- forM _ _ ?b = _ => set (body := b) in * end.
    rewrite range_cons by lia. simpl forM.
    destruct (lookup_lt_is_Some_2 row (Z.to_nat x)) as [p Hp]; [lia|].
    assert (Hhead : body x out
                    = Ret (out ++ format_d (R p) ++ str " " ++ format_d (G p) ++ str " "
                               ++ format_d (B p) ++ str " ")).
    { subst body. cbv beta.
      unfold index2. rewrite (index_lookup d y row) by done.
      by rewrite bind_Ret, (index_lookup row x p) by done. }
    rewrite Hhead, bind_Ret.
    rewrite (IH (x + 1)) by lia. f_equal.
    rewrite (drop_S row p (Z.to_nat x)) by done.
    replace (Z.to_nat (x + 1)) with (S (Z.to_nat x)) by lia.
    unfold pixel_tokens, trailed. cbn [map concat app]. by rewrite <- !app_assoc.
Qed.

Lemma save_trailed_rows (d : list (list Pixel)) (w h : Z) :
  rect d w h ->
  forall (n : nat) (y : Z) (out : list ascii),
    0 <= y -> Z.of_nat n = h - y ->
    forM (range y h) out (fun y out =>
      out ← forM (range 0 w) out (fun x out =>
        pixel ← index2 d y x;
        Ret (out ++ format_d (R pixel) ++ str " " ++ format_d (G pixel) ++ str " "
                 ++ format_d (B pixel) ++ str " "));
      Ret (out ++ [NL]))
    = Ret (out ++ lines (map (fun row => trailed (pixel_tokens row)) (drop (Z.to_nat y) d))).
Proof.
  intros (Hw & Hh & Hlen & Hrows).
  induction n as [|n IH]; intros y out Hy Hn.
  - rewrite range_nil by lia. rewrite drop_ge by lia. simpl. by rewrite app_nil_r.
  - match goal with |- forM _ _ ?b = _ => set (body := b) in * end.
    rewrite range_cons by lia. simpl forM.
    destruct (lookup_lt_is_Some_2 d (Z.to_nat y)) as [row Hrow]; [lia|].
    assert (Hrl : len row = w).
    { rewrite Forall_lookup in Hrows. exact (Hrows _ _ Hrow). }
    assert (Hhead : body y out = Ret ((out ++ trailed (pixel_tokens row)) ++ [NL])).
    { subst body. cbv beta.
      rewrite (save_trailed_row d w y row Hy Hrow Hrl (Z.to_nat w) 0 out) by lia.
      by rewrite bind_Ret. }
    rewrite Hhead, bind_Ret. rewrite (IH (y + 1)) by lia. f_equal.
    rewrite (drop_S d row (Z.to_nat y)) by done.
    replace (Z.to_nat (y + 1)) with (S (Z.to_nat y)) by lia.
    simpl map. unfold lines. simpl. by rewrite <- !app_assoc.
Qed.

(** The tokens of a row of pixels are read back three by three. *)
Lemma readRowP3_exact (w y : Z) (row : list Pixel) :
  len row = w -> int_size (3 * w) ->
  Forall (fun p => byte_pixel p = true) row ->
  PPM.readRowP3 w y (pixel_tokens row) (replicate (Z.to_nat w) PPM.zeroPixel) = Ret row.
Proof.
  intros Hlen Hint Hbytes. unfold PPM.readRowP3, int_size in *. unfold len in Hlen.
  destruct (forM_range_inv
    (fun x rd => rd = take (Z.to_nat x) row ++ replicate (Z.to_nat (w - x)) PPM.zeroPixel)
    (fun x rowData =>
      if len (pixel_tokens row) <=? int_add (int_mul x 3) 2
      then Err (ErrIndexOutOfRangeAt y x) else
      fr ← index (pixel_tokens row) (int_mul x 3);
      match Sscanf_d_uint8 fr with
      | None => Err (ErrParseChannel "R" y x)
      | Some r =>
          fg ← index (pixel_tokens row) (int_add (int_mul x 3) 1);
          match Sscanf_d_uint8 fg with
          | None => Err (ErrParseChannel "G" y x)
          | Some g =>
              fb ← index (pixel_tokens row) (int_add (int_mul x 3) 2);
              match Sscanf_d_uint8 fb with
              | None => Err (ErrParseChannel "B" y x)
              | Some b => store rowData x (mkPixel r g b)
              end
          end
      end)
    0 w (replicate (Z.to_nat w) PPM.zeroPixel)) as (rd & Hrun & Hrd).
  - lia.
  - simpl. by rewrite Z.sub_0_r.
  - intros x rd Hx ->.
    destruct (lookup_lt_is_Some_2 row (Z.to_nat x)) as [p Hp]; [lia|].
    destruct (pixel_tokens_lookup row (Z.to_nat x) p Hp) as (Hr & Hg & Hb).
    rewrite Forall_lookup in Hbytes. pose proof (Hbytes _ _ Hp) as Hbp.
    unfold byte_pixel in Hbp. apply andb_prop in Hbp as [Hbp HB].
    apply andb_prop in Hbp as [HR HG].
    unfold int_add, int_mul, len. rewrite pixel_tokens_length.
    assert (Hx3 : - 2 ^ 63 <= x * 3 < 2 ^ 63) by lia.
    rewrite !(wrap64_small (x * 3)) by exact Hx3.
    assert (Hx4 : - 2 ^ 63 <= x * 3 + 2 < 2 ^ 63) by lia.
    assert (Hx5 : - 2 ^ 63 <= x * 3 + 1 < 2 ^ 63) by lia.
    rewrite (wrap64_small (x * 3 + 1)) by exact Hx5.
    rewrite !(wrap64_small (x * 3 + 2)) by exact Hx4.
    rewrite Nat2Z.inj_mul, Hlen. change (Z.of_nat 3) with 3.
    replace (3 * w <=? x * 3 + 2) with false by lia.
    rewrite (index_lookup _ (x * 3) (format_d (R p)))
      by (try lia; by replace (Z.to_nat (x * 3)) with (3 * Z.to_nat x)%nat by lia).
    rewrite bind_Ret, Sscanf_format_byte by done.
    rewrite (index_lookup _ (x * 3 + 1) (format_d (G p)))
      by (try lia; by replace (Z.to_nat (x * 3 + 1)) with (3 * Z.to_nat x + 1)%nat by lia).
    rewrite bind_Ret, Sscanf_format_byte by done.
    rewrite (index_lookup _ (x * 3 + 2) (format_d (B p)))
      by (try lia; by replace (Z.to_nat (x * 3 + 2)) with (3 * Z.to_nat x + 2)%nat by lia).
    rewrite bind_Ret, Sscanf_format_byte by done.
    rewrite store_inside
      by (unfold len; rewrite length_app, length_take, length_replicate; lia).
    eexists. split; [reflexivity|].
    replace (Z.to_nat (w - x)) with (S (Z.to_nat (w - (x + 1)))) by lia.
    simpl replicate.
    replace (Z.to_nat x) with (length (take (Z.to_nat x) row)) at 1
      by (rewrite length_take; lia).
    rewrite insert_middle.
    replace (Z.to_nat (x + 1)) with (S (Z.to_nat x)) by lia.
    rewrite (take_S_r row (Z.to_nat x) p Hp). by destruct p.
  - rewrite Hrun. f_equal. rewrite Hrd, Z.sub_diag. simpl.
    rewrite app_nil_r. apply take_ge. lia.
Qed.

(** The lines that [Save] writes for P3 are read back row by row. *)
Lemma readLinesP3_exact (w : Z) (rows : list (list Pixel)) :
  forall (done old : list (list Pixel)) (reader : Reader) (tail : list ascii),
    0 <= w -> int_size (3 * w) -> length old = length rows ->
    Forall (fun row => len row = w /\ Forall (fun p => byte_pixel p = true) row) rows ->
    reader_ok reader ->
    rest reader = lines (map (fun row => trailed (pixel_tokens row)) rows) ++ tail ->
    exists reader',
      forM (range (len done) (len done + len rows)) (reader, done ++ old) (PPM.readLineP3 w)
      = Ret (reader', done ++ rows) /\
      rest reader' = tail /\ reader_ok reader'.
Proof.
  induction rows as [|row rows IH];
    intros done old reader tail Hw Hint Hlen Hrows Hok Hrest.
  - destruct old; [|done]. unfold len. simpl. rewrite range_nil by lia.
    exists reader. by rewrite app_nil_r in *.
  - destruct old as [|o old]; [done|]. simpl in Hlen.
    apply Forall_cons in Hrows as [[Hrow Hbytes] Hrows].
    simpl map in Hrest. rewrite lines_cons in Hrest.
    pose proof (pixel_tokens_token row Hbytes) as Htok.
    destruct (ReadString_line _ _ reader Hok Hrest (trailed_no_newline _ Htok))
      as (r1 & Hrs & Hrest1 & Hok1).
    unfold len in *. simpl length. rewrite range_cons by lia. simpl forM.
    rewrite Hrs, bind_Ret. cbv beta iota.
    rewrite Fields_trailed by done.
    rewrite make_ok, bind_Ret by done.
    rewrite readRowP3_exact by done. rewrite bind_Ret.
    rewrite store_inside by (unfold len; rewrite length_app; simpl; lia).
    rewrite bind_Ret. rewrite Nat2Z.id, insert_middle.
    destruct (IH (done ++ [row]) old r1 tail Hw Hint ltac:(lia) Hrows Hok1 Hrest1)
      as (r' & Hrun & Hrest' & Hok').
    exists r'. split; [|done].
    rewrite length_app in Hrun. simpl length in Hrun.
    replace (Z.of_nat (length done) + 1) with (Z.of_nat (length done + 1)) by lia.
    replace (Z.of_nat (length done) + Z.of_nat (S (length rows)))
      with (Z.of_nat (length done + 1) + Z.of_nat (length rows)) by lia.
    rewrite bind_Ret, Hrun. by rewrite <- app_assoc.
Qed.

(** X28: a pixel map with the magic number P3, positive dimensions, a
    buffer of the announced size and a maximum and channels that are
    bytes is saved to a file from which [ReadPPM] returns the same
    pixel map, whatever the size of the image. *)
Theorem PPM_P3_round_trip (ppm : PPM.t) :
  PPM_ok ppm -> PPM.magicNumber ppm = "P3"%string ->
  0 < PPM.width ppm -> 0 < PPM.height ppm ->
  int_size (3 * PPM.width ppm) -> int_size (PPM.height ppm) ->
  is_byte (PPM.max ppm) = true ->
  Forall (Forall (fun p => byte_pixel p = true)) (PPM.data ppm) ->
  exists file, PPM.Save ppm = Ret file /\ PPM.ReadPPM file = Ret ppm.
Proof.
  destruct ppm as [d w h m mx]. unfold PPM_ok. simpl.
  intros Hrect -> Hw0 Hh0 Hiw Hih Hmx Hbytes.
  pose proof Hrect as (Hw & Hh & Hlen & Hrows).
  unfold PPM.Save. cbv zeta.
  cbn [PPM.magicNumber PPM.width PPM.height PPM.data PPM.max].
  change ("P3" =? "P6")%string with false. change ("P3" =? "P3")%string with true.
  cbv iota. simpl orb. cbv iota.
  pose proof (save_trailed_rows d w h Hrect (Z.to_nat h) 0
                (str "P3" ++ [NL] ++ format_d w ++ str " " ++ format_d h ++ [NL]
                   ++ format_d mx ++ [NL])
                ltac:(lia) ltac:(lia)) as Hsave.
  change (Z.to_nat 0) with 0%nat in Hsave. rewrite drop_0 in Hsave.
  rewrite Hsave.
  eexists. split; [reflexivity|].
  unfold int_size in *.
  destruct (dimensions_round_trip w h ltac:(lia) ltac:(lia)) as [Hnl Hscan].
  set (dims := format_d w ++ str " " ++ format_d h) in *.
  set (body := lines (map (fun row => trailed (pixel_tokens row)) d)).
  replace ((str "P3" ++ [NL] ++ format_d w ++ str " " ++ format_d h ++ [NL]
            ++ format_d mx ++ [NL]) ++ body)
    with (str "P3" ++ NL :: dims ++ NL :: format_d mx ++ NL :: body ++ [])
    by (subst dims; rewrite app_nil_r, <- !app_assoc; reflexivity).
  unfold PPM.ReadPPM. cbv zeta.
  destruct (ReadString_line (str "P3") (dims ++ NL :: format_d mx ++ NL :: body ++ [])
              (NewReader (str "P3" ++ NL :: dims ++ NL :: format_d mx ++ NL :: body ++ []))
              (NewReader_ok _) eq_refl)
    as (r1 & Hrs1 & Hrest1 & Hok1).
  { repeat constructor. }
  rewrite Hrs1, bind_Ret. cbv beta iota.
  change (string_of_list_ascii (TrimSpace (str "P3" ++ [NL]))) with "P3"%string.
  change ("P3" =? "P3")%string with true.
  change ("P3" =? "P6")%string with false.
  cbv beta iota. simpl negb. simpl andb. cbv iota.
  destruct (ReadString_line dims _ r1 Hok1 Hrest1 Hnl) as (r2 & Hrs2 & Hrest2 & Hok2).
  rewrite Hrs2, bind_Ret. cbv beta iota.
  rewrite Hscan. cbv beta iota.
  replace ((w <=? 0) || (h <=? 0)) with false by lia.
  assert (Hmx0 : 0 <= mx) by (unfold is_byte in Hmx; lia).
  destruct (format_d_digits mx Hmx0) as (_ & Hmxd & _).
  destruct (ReadString_line (format_d mx) _ r2 Hok2 Hrest2 (digits_no_newline _ Hmxd))
    as (r3 & Hrs3 & Hrest3 & Hok3).
  rewrite Hrs3, bind_Ret. cbv beta iota.
  rewrite TrimSpace_format_d, Sscanf_format_byte by done.
  rewrite (make_ok (A := list Pixel) [] h), bind_Ret by done.
  unfold PPM.readRowsP3.
  destruct (readLinesP3_exact w d [] (replicate (Z.to_nat h) []) r3 [])
    as (r4 & Hrun & _).
  - done.
  - done.
  - rewrite length_replicate. lia.
  - apply Forall_forall. intros row Hin. split.
    + rewrite Forall_forall in Hrows. by apply Hrows.
    + rewrite Forall_forall in Hbytes. by apply Hbytes.
  - done.
  - done.
  - unfold len in Hrun. simpl length in Hrun. simpl app in Hrun.
    change (Z.of_nat 0) with 0 in Hrun. rewrite Z.add_0_l, Hlen in Hrun.
    rewrite Hrun. reflexivity.
Qed.

Lemma PPM_P3_round_trip_witness :
  exists file, PPM.Save steps_ppm = Ret file /\ PPM.ReadPPM file = Ret steps_ppm.
Proof.
  apply (PPM_P3_round_trip steps_ppm).
  - literal_rect.
  - reflexivity.
  - simpl. lia.
  - simpl. lia.
  - unfold int_size. simpl. lia.
  - unfold int_size. simpl. lia.
  - reflexivity.
  - repeat constructor.
Defined.

(** * Round trips of the binary formats *)

Section Buffered.
Local Opaque defaultBufSize.

(** With all that is left of the file in the buffer, a line is
    returned at once and the rest stays in the buffer. *)
Lemma ReadString_buffered (l tail : list ascii) (b : Reader) :
  rest b = l ++ NL :: tail -> no_newline l -> nbuf b = length (rest b) ->
  ReadString b = Ret (l ++ [NL], false,
                      {| rest := tail; nbuf := length tail; eof := eof b |}).
Proof.
  destruct b as [rs nb e]. simpl. intros -> Hl ->.
  unfold ReadString. simpl rest.
  replace (3 * length (l ++ NL :: tail) + 4)%nat
    with (S (3 * length (l ++ NL :: tail) + 3)) by lia.
  simpl ReadString_loop. rewrite firstn_all.
  rewrite (find_index_first isNL l tail NL Hl isNL_NL).
  rewrite take_line, drop_line. do 3 f_equal.
  rewrite length_app. simpl. lia.
Qed.

(** A file that fits the buffer is read whole by the first fill. *)
Lemma ReadString_first (l tail : list ascii) :
  no_newline l -> (length (l ++ NL :: tail) <= defaultBufSize)%nat ->
  ReadString (NewReader (l ++ NL :: tail))
  = Ret (l ++ [NL], false, {| rest := tail; nbuf := length tail; eof := false |}).
Proof.
  intros Hl Hfit. pose proof defaultBufSize_pos as Hpos.
  unfold ReadString, NewReader. simpl rest.
  replace (3 * length (l ++ NL :: tail) + 4)%nat
    with (S (S (3 * length (l ++ NL :: tail) + 2))) by lia.
  simpl ReadString_loop.
  destruct (Nat.leb_spec defaultBufSize 0) as [?|_]; [lia|].
  unfold fill. simpl.
  destruct (Nat.leb_spec (length (l ++ NL :: tail)) 0) as [H0|_].
  { rewrite length_app in H0. simpl in H0. lia. }
  rewrite Nat.min_r by lia. cbn [rest nbuf eof]. rewrite firstn_all.
  rewrite (find_index_first isNL l tail NL Hl isNL_NL).
  rewrite take_line, drop_line. do 3 f_equal.
  rewrite length_app. simpl. lia.
Qed.

(** A row that is in the buffer is read whole. *)
Lemma Read_buffered (n : nat) (row tail : list ascii) (e : bool) :
  length row = n -> (0 < n)%nat ->
  Read {| rest := row ++ tail; nbuf := length (row ++ tail); eof := e |} n
  = (row, false, {| rest := tail; nbuf := length tail; eof := e |}).
Proof.
  intros Hn Hpos. unfold Read. destruct n as [|n]; [lia|]. simpl rest. simpl nbuf.
  rewrite length_app.
  destruct (Nat.eqb_spec (length row + length tail) 0) as [H0|_]; [lia|].
  rewrite Nat.min_l by lia. rewrite <- Hn.
  rewrite take_app_length, drop_app_length. do 2 f_equal. lia.
Qed.
End Buffered.

Lemma byte_round_trip (v : Z) : is_byte v = true -> Z_of_byte (byte_of_Z v) = v.
Proof.
  unfold is_byte, Z_of_byte, byte_of_Z. intros Hv.
  rewrite uint8_small by lia. rewrite N_ascii_embedding by lia. lia.
Qed.

(** The row that [saveP5PGM] writes. *)
Lemma save_bytes_row (d : list (list Z)) (w y : Z) (row : list Z) :
  0 <= y -> d !! Z.to_nat y = Some row -> len row = w ->
  forM (range 0 w) (replicate (Z.to_nat w) zero) (fun x out =>
    v ← index2 d y x; store out x (byte_of_Z v))
  = Ret (map byte_of_Z row).
Proof.
  intros Hy Hrow Hlen. unfold len in Hlen.
  destruct (forM_range_inv
    (fun x out => out = map byte_of_Z (take (Z.to_nat x) row)
                        ++ replicate (Z.to_nat (w - x)) zero)
    (fun x out => v ← index2 d y x; store out x (byte_of_Z v))
    0 w (replicate (Z.to_nat w) zero)) as (out & Hrun & Hout).
  - lia.
  - simpl. by rewrite Z.sub_0_r.
  - intros x out Hx ->.
    destruct (lookup_lt_is_Some_2 row (Z.to_nat x)) as [v Hv]; [lia|].
    unfold index2. rewrite (index_lookup d y row) by done.
    rewrite bind_Ret, (index_lookup row x v) by (done || lia). rewrite bind_Ret.
    rewrite store_inside
      by (unfold len; rewrite length_app, length_map, length_take, length_replicate; lia).
    eexists. split; [reflexivity|].
    replace (Z.to_nat (w - x)) with (S (Z.to_nat (w - (x + 1)))) by lia.
    simpl replicate.
    replace (Z.to_nat x) with (length (map byte_of_Z (take (Z.to_nat x) row))) at 1
      by (rewrite length_map, length_take; lia).
    rewrite insert_middle.
    replace (Z.to_nat (x + 1)) with (S (Z.to_nat x)) by lia.
    rewrite (take_S_r row (Z.to_nat x) v Hv). by rewrite map_app.
  - rewrite Hrun. f_equal. rewrite Hout, Z.sub_diag. simpl.
    rewrite app_nil_r. by rewrite take_ge by lia.
Qed.

Lemma save_bytes_rows (d : list (list Z)) (w h : Z) :
  rect d w h ->
  forall (n : nat) (y : Z) (out : list ascii),
    0 <= y -> Z.of_nat n = h - y ->
    forM (range y h) out (fun y out =>
      row ← make zero w;
      row ← forM (range 0 w) row (fun x row =>
        v ← index2 d y x; store row x (byte_of_Z v));
      Ret (out ++ row))
    = Ret (out ++ concat (map (map byte_of_Z) (drop (Z.to_nat y) d))).
Proof.
  intros (Hw & Hh & Hlen & Hrows).
  induction n as [|n IH]; intros y out Hy Hn.
  - rewrite range_nil by lia. rewrite drop_ge by lia. simpl. by rewrite app_nil_r.
  - match goal with |- forM _ _ ?b = _ => set (body := b) in * end.
    rewrite range_cons by lia. simpl forM.
    destruct (lookup_lt_is_Some_2 d (Z.to_nat y)) as [row Hrow]; [lia|].
    assert (Hrl : len row = w).
    { rewrite Forall_lookup in Hrows. exact (Hrows _ _ Hrow). }
    assert (Hhead : body y out = Ret (out ++ map byte_of_Z row)).
    { subst body. cbv beta. rewrite make_ok, bind_Ret by done.
      by rewrite (save_bytes_row d w y row Hy Hrow Hrl), bind_Ret. }
    rewrite Hhead, bind_Ret. rewrite (IH (y + 1)) by lia. f_equal.
    rewrite (drop_S d row (Z.to_nat y)) by done.
    replace (Z.to_nat (y + 1)) with (S (Z.to_nat y)) by lia.
    simpl. by rewrite <- app_assoc.
Qed.

(** The bytes of a row are read back as its samples. *)
Lemma readRowP5_exact (w : Z) (row : list Z) :
  len row = w -> int_size w -> Forall (fun v => is_byte v = true) row ->
  PGM.readRowP5 w 1 (map byte_of_Z row) (replicate (Z.to_nat w) 0) = Ret row.
Proof.
  intros Hlen Hint Hbytes. unfold PGM.readRowP5, int_size in *. unfold len in Hlen.
  destruct (forM_range_inv
    (fun x rd => rd = take (Z.to_nat x) row ++ replicate (Z.to_nat (w - x)) 0)
    (fun x rowData =>
      b ← index (map byte_of_Z row) (int_mul x 1);
      store rowData x (Z_of_byte b))
    0 w (replicate (Z.to_nat w) 0)) as (rd & Hrun & Hrd).
  - lia.
  - simpl. by rewrite Z.sub_0_r.
  - intros x rd Hx ->.
    destruct (lookup_lt_is_Some_2 row (Z.to_nat x)) as [v Hv]; [lia|].
    unfold int_mul. rewrite Z.mul_1_r, wrap64_small by lia.
    rewrite (index_lookup _ x (byte_of_Z v))
      by (try lia; change (map byte_of_Z row) with (byte_of_Z <$> row);
          by rewrite list_lookup_fmap, Hv).
    rewrite bind_Ret.
    rewrite store_inside
      by (unfold len; rewrite length_app, length_take, length_replicate; lia).
    eexists. split; [reflexivity|].
    replace (Z.to_nat (w - x)) with (S (Z.to_nat (w - (x + 1)))) by lia.
    simpl replicate.
    replace (Z.to_nat x) with (length (take (Z.to_nat x) row)) at 1
      by (rewrite length_take; lia).
    rewrite insert_middle.
    replace (Z.to_nat (x + 1)) with (S (Z.to_nat x)) by lia.
    rewrite (take_S_r row (Z.to_nat x) v Hv).
    rewrite Forall_lookup in Hbytes. by rewrite (byte_round_trip v (Hbytes _ _ Hv)).
  - rewrite Hrun. f_equal. rewrite Hrd, Z.sub_diag. simpl.
    rewrite app_nil_r. apply take_ge. lia.
Qed.

(** The rows that [saveP5PGM] writes are read back one [Read] each,
    as long as they are in the buffer. *)
Lemma readRowsP5_exact (w : Z) (e : bool)
    (body : Z -> Reader * list (list Z) -> exec (Reader * list (list Z))) :
  0 < w -> int_size w ->
  (forall y reader data, body y (reader, data) =
     (_ ← make zero (int_mul w 1);
      let '(got, err, reader) := Read reader (Z.to_nat (int_mul w 1)) in
      if err : bool then Err (ErrUnexpectedEOF y) else
      if len got <? int_mul w 1 then Err (ErrShortRow y (int_mul w 1) (len got)) else
      rowData ← make 0 w;
      rowData ← PGM.readRowP5 w 1 (filled (Z.to_nat (int_mul w 1)) got) rowData;
      data ← store data y rowData;
      Ret (reader, data))) ->
  forall (rows done old : list (list Z)) (tail : list ascii),
    length old = length rows ->
    Forall (fun row => len row = w /\ Forall (fun v => is_byte v = true) row) rows ->
    forM (range (len done) (len done + len rows))
         ({| rest := concat (map (map byte_of_Z) rows) ++ tail;
             nbuf := length (concat (map (map byte_of_Z) rows) ++ tail);
             eof := e |}, done ++ old) body
    = Ret ({| rest := tail; nbuf := length tail; eof := e |}, done ++ rows).
Proof.
  intros Hw Hint Hbody. unfold int_size in Hint.
  induction rows as [|row rows IH]; intros done old tail Hlen Hrows.
  - destruct old; [|done]. unfold len. simpl. rewrite range_nil by lia.
    by rewrite app_nil_r.
  - destruct old as [|o old]; [done|]. simpl in Hlen.
    apply Forall_cons in Hrows as [[Hrow Hbytes] Hrows].
    unfold len in *. simpl length. rewrite range_cons by lia. simpl forM.
    rewrite Hbody. unfold int_mul. rewrite Z.mul_1_r, wrap64_small by lia.
    rewrite (make_ok zero w), bind_Ret by lia.
    rewrite <- app_assoc.
    rewrite (Read_buffered (Z.to_nat w) (map byte_of_Z row))
      by (rewrite ?length_map; lia).
    cbv iota beta.
    replace (len (map byte_of_Z row) <? w) with false
      by (unfold len; rewrite length_map; lia).
    rewrite (make_ok 0 w), bind_Ret by lia.
    unfold filled. rewrite length_map.
    replace (Z.to_nat w - length row)%nat with 0%nat by lia. simpl replicate.
    rewrite app_nil_r.
    rewrite readRowP5_exact by (done || (unfold int_size; lia)).
    rewrite bind_Ret.
    rewrite store_inside by (unfold len; rewrite length_app; simpl; lia).
    rewrite !bind_Ret. rewrite Nat2Z.id, insert_middle.
    specialize (IH (done ++ [row]) old tail ltac:(lia) Hrows).
    rewrite length_app in IH. simpl length in IH.
    replace (Z.of_nat (length done) + 1) with (Z.of_nat (length done + 1)) by lia.
    replace (Z.of_nat (length done) + Z.of_nat (S (length rows)))
      with (Z.of_nat (length done + 1) + Z.of_nat (length rows)) by lia.
    replace (Z.of_nat (length row) <? w) with false by lia.
    rewrite bind_Ret, IH. by rewrite <- app_assoc.
Qed.

(** A gray map with the magic number P5, positive dimensions, a
    buffer of the announced size and a maximum and samples that are
    bytes is saved to a file from which, when the file is not longer
    than the buffer of the reader, [ReadPGM] returns the same gray
    map. *)
Lemma PGM_P5_round_trip (pgm : PGM.t) :
  PGM_ok pgm -> PGM.magicNumber pgm = "P5"%string ->
  0 < PGM.width pgm -> 0 < PGM.height pgm ->
  int_size (PGM.width pgm) -> int_size (PGM.height pgm) ->
  is_byte (PGM.max pgm) = true ->
  Forall (Forall (fun v => is_byte v = true)) (PGM.data pgm) ->
  exists file, PGM.Save pgm = Ret file /\
    ((length file <= defaultBufSize)%nat -> PGM.ReadPGM file = Ret pgm).
Proof.
  destruct pgm as [d w h m mx]. unfold PGM_ok, int_size. simpl.
  intros Hrect -> Hw0 Hh0 Hiw Hih Hmx Hbytes.
  pose proof Hrect as (Hw & Hh & Hlen & Hrows).
  unfold PGM.Save, PGM.saveP5PGM. cbv zeta.
  cbn [PGM.magicNumber PGM.width PGM.height PGM.data PGM.max].
  assert (Hcheck : forallb (fun row => len row =? w) d = true).
  { apply forallb_forall. intros row Hin. apply list_elem_of_In in Hin.
    rewrite Forall_forall in Hrows. specialize (Hrows row Hin). unfold len. lia. }
  rewrite Hcheck. change ("P5" =? "P2")%string with false.
  change ("P5" =? "P5")%string with true. cbv iota.
  pose proof (save_bytes_rows d w h Hrect (Z.to_nat h) 0 [] ltac:(lia) ltac:(lia))
    as Hsave.
  change (Z.to_nat 0) with 0%nat in Hsave. rewrite drop_0 in Hsave.
  rewrite Hsave, bind_Ret. rewrite app_nil_l.
  eexists. split; [reflexivity|]. intros Hfit.
  destruct (dimensions_round_trip w h ltac:(lia) ltac:(lia)) as [Hnl Hscan].
  set (dims := format_d w ++ str " " ++ format_d h) in *.
  set (body := concat (map (map byte_of_Z) d)) in *.
  assert (Hfile : (str "P5" ++ [NL] ++ format_d w ++ str " " ++ format_d h ++ [NL]
                   ++ format_d mx ++ [NL]) ++ body
                  = str "P5" ++ NL :: dims ++ NL :: format_d mx ++ NL :: body ++ []).
  { subst dims. rewrite app_nil_r, <- !app_assoc. reflexivity. }
  rewrite Hfile in Hfit |- *.
  unfold PGM.ReadPGM. cbv zeta.
  rewrite ReadString_first by (done || by repeat constructor).
  rewrite bind_Ret. cbv beta iota.
  change (string_of_list_ascii (TrimSpace (str "P5" ++ [NL]))) with "P5"%string.
  change ("P5" =? "P2")%string with false.
  change ("P5" =? "P5")%string with true.
  cbv beta iota. simpl negb. simpl andb. cbv iota.
  rewrite (ReadString_buffered dims (format_d mx ++ NL :: body ++ [])) by done.
  rewrite bind_Ret. cbv beta iota.
  rewrite Hscan. cbv beta iota.
  replace ((w <=? 0) || (h <=? 0)) with false by lia.
  assert (Hmx0 : 0 <= mx) by (unfold is_byte in Hmx; lia).
  destruct (format_d_digits mx Hmx0) as (_ & Hmxd & _).
  rewrite (ReadString_buffered (format_d mx) (body ++ []))
    by (done || by apply digits_no_newline).
  rewrite bind_Ret. cbv beta iota.
  rewrite TrimSpace_format_d, Sscanf_format_byte by done.
  rewrite (make_ok (A := list Z) [] h), bind_Ret by done.
  unfold PGM.readRowsP5. cbv zeta. subst body.
  match goal with
  | |- context [forM _ _ ?b] =>
      pose proof (readRowsP5_exact w false b Hw0 Hiw ltac:(reflexivity)
                    d [] (replicate (Z.to_nat h) []) []) as Hrun
  end.
  change (len (@nil (list Z))) with 0 in Hrun. cbn [app] in Hrun.
  rewrite Z.add_0_l in Hrun. replace (len d) with h in Hrun by (unfold len; lia).
  cbn [eof]. rewrite Hrun.
  - reflexivity.
  - rewrite length_replicate. lia.
  - apply Forall_forall. intros row Hin. split.
    + rewrite Forall_forall in Hrows. by apply Hrows.
    + rewrite Forall_forall in Hbytes. by apply Hbytes.
Qed.

Lemma pixel_bytes_length (row : list Pixel) :
  length (pixel_bytes row) = (3 * length row)%nat.
Proof. unfold pixel_bytes. induction row as [|p row IH]; simpl; [done|]. lia. Qed.

Lemma pixel_bytes_lookup (row : list Pixel) (x : nat) (p : Pixel) :
  row !! x = Some p ->
  pixel_bytes row !! (3 * x)%nat = Some (byte_of_Z (R p)) /\
  pixel_bytes row !! (3 * x + 1)%nat = Some (byte_of_Z (G p)) /\
  pixel_bytes row !! (3 * x + 2)%nat = Some (byte_of_Z (B p)).
Proof.
  revert x. induction row as [|q row IH]; intros x Hx; [done|].
  destruct x as [|x].
  - injection Hx as ->. done.
  - simpl in Hx. destruct (IH x Hx) as (Hr & Hg & Hb).
    replace (3 * S x)%nat with (S (S (S (3 * x)))) by lia.
    unfold pixel_bytes in *. simpl. done.
Qed.

(** The loops of [Save] for the format P6. *)
Lemma save_pixel_bytes_row (d : list (list Pixel)) (w y : Z) (row : list Pixel) :
  0 <= y -> d !! Z.to_nat y = Some row -> len row = w ->
  forall (n : nat) (x : Z) (out : list ascii),
    0 <= x -> Z.of_nat n = w - x ->
    forM (range x w) out (fun x out =>
      pixel ← index2 d y x;
      Ret (out ++ [byte_of_Z (R pixel); byte_of_Z (G pixel); byte_of_Z (B pixel)]))
    = Ret (out ++ pixel_bytes (drop (Z.to_nat x) row)).
Proof.
  intros Hy Hrow Hlen. unfold len in *.
  induction n as [|n IH]; intros x out Hx Hn.
  - rewrite range_nil by lia. rewrite drop_ge by lia. simpl. by rewrite app_nil_r.
  - match goal with |- forM _ _ ?b = _ => set (body := b) in * end.
    rewrite range_cons by lia. simpl forM.
    destruct (lookup_lt_is_Some_2 row (Z.to_nat x)) as [p Hp]; [lia|].
    assert (Hhead : body x out
                    = Ret (out ++ [byte_of_Z (R p); byte_of_Z (G p); byte_of_Z (B p)])).
    { subst body. cbv beta.
      unfold index2. rewrite (index_lookup d y row) by done.
      by rewrite bind_Ret, (index_lookup row x p) by done. }
    rewrite Hhead, bind_Ret.
    rewrite (IH (x + 1)) by lia. f_equal.
    rewrite (drop_S row p (Z.to_nat x)) by done.
    replace (Z.to_nat (x + 1)) with (S (Z.to_nat x)) by lia.
    unfold pixel_bytes. cbn [map concat]. by rewrite <- !app_assoc.
Qed.

Lemma save_pixel_bytes_rows (d : list (list Pixel)) (w h : Z) :
  rect d w h ->
  forall (n : nat) (y : Z) (out : list ascii),
    0 <= y -> Z.of_nat n = h - y ->
    forM (range y h) out (fun y out =>
      out ← forM (range 0 w) out (fun x out =>
        pixel ← index2 d y x;
        Ret (out ++ [byte_of_Z (R pixel); byte_of_Z (G pixel); byte_of_Z (B pixel)]));
      Ret out)
    = Ret (out ++ concat (map pixel_bytes (drop (Z.to_nat y) d))).
Proof.
  intros (Hw & Hh & Hlen & Hrows).
  induction n as [|n IH]; intros y out Hy Hn.
  - rewrite range_nil by lia. rewrite drop_ge by lia. simpl. by rewrite app_nil_r.
  - match goal with |- forM _ _ ?b = _ => set (body := b) in * end.
    rewrite range_cons by lia. simpl forM.
    destruct (lookup_lt_is_Some_2 d (Z.to_nat y)) as [row Hrow]; [lia|].
    assert (Hrl : len row = w).
    { rewrite Forall_lookup in Hrows. exact (Hrows _ _ Hrow). }
    assert (Hhead : body y out = Ret (out ++ pixel_bytes row)).
    { subst body. cbv beta.
      rewrite (save_pixel_bytes_row d w y row Hy Hrow Hrl (Z.to_nat w) 0 out) by lia.
      by rewrite bind_Ret. }
    rewrite Hhead, bind_Ret. rewrite (IH (y + 1)) by lia. f_equal.
    rewrite (drop_S d row (Z.to_nat y)) by done.
    replace (Z.to_nat (y + 1)) with (S (Z.to_nat y)) by lia.
    simpl. by rewrite <- app_assoc.
Qed.

(** The bytes of a row are read back as its pixels. *)
Lemma readRowP6_exact (w : Z) (row : list Pixel) :
  len row = w -> int_size (3 * w) ->
  Forall (fun p => byte_pixel p = true) row ->
  PPM.readRowP6 w 3 (pixel_bytes row) (replicate (Z.to_nat w) PPM.zeroPixel) = Ret row.
Proof.
  intros Hlen Hint Hbytes. unfold PPM.readRowP6, int_size in *. unfold len in Hlen.
  destruct (forM_range_inv
    (fun x rd => rd = take (Z.to_nat x) row ++ replicate (Z.to_nat (w - x)) PPM.zeroPixel)
    (fun x rowData =>
      r ← index (pixel_bytes row) (int_mul x 3);
      g ← index (pixel_bytes row) (int_add (int_mul x 3) 1);
      b ← index (pixel_bytes row) (int_add (int_mul x 3) 2);
      store rowData x (mkPixel (Z_of_byte r) (Z_of_byte g) (Z_of_byte b)))
    0 w (replicate (Z.to_nat w) PPM.zeroPixel)) as (rd & Hrun & Hrd).
  - lia.
  - simpl. by rewrite Z.sub_0_r.
  - intros x rd Hx ->.
    destruct (lookup_lt_is_Some_2 row (Z.to_nat x)) as [p Hp]; [lia|].
    destruct (pixel_bytes_lookup row (Z.to_nat x) p Hp) as (Hr & Hg & Hb).
    rewrite Forall_lookup in Hbytes. pose proof (Hbytes _ _ Hp) as Hbp.
    unfold byte_pixel in Hbp. apply andb_prop in Hbp as [Hbp HB].
    apply andb_prop in Hbp as [HR HG].
    unfold int_add, int_mul.
    assert (Hx3 : - 2 ^ 63 <= x * 3 < 2 ^ 63) by lia.
    rewrite !(wrap64_small (x * 3)) by exact Hx3.
    assert (Hx4 : - 2 ^ 63 <= x * 3 + 2 < 2 ^ 63) by lia.
    assert (Hx5 : - 2 ^ 63 <= x * 3 + 1 < 2 ^ 63) by lia.
    rewrite (wrap64_small (x * 3 + 1)) by exact Hx5.
    rewrite (wrap64_small (x * 3 + 2)) by exact Hx4.
    rewrite (index_lookup _ (x * 3) (byte_of_Z (R p)))
      by (try lia; by replace (Z.to_nat (x * 3)) with (3 * Z.to_nat x)%nat by lia).
    rewrite bind_Ret.
    rewrite (index_lookup _ (x * 3 + 1) (byte_of_Z (G p)))
      by (try lia; by replace (Z.to_nat (x * 3 + 1)) with (3 * Z.to_nat x + 1)%nat by lia).
    rewrite bind_Ret.
    rewrite (index_lookup _ (x * 3 + 2) (byte_of_Z (B p)))
      by (try lia; by replace (Z.to_nat (x * 3 + 2)) with (3 * Z.to_nat x + 2)%nat by lia).
    rewrite bind_Ret. rewrite !byte_round_trip by done.
    rewrite store_inside
      by (unfold len; rewrite length_app, length_take, length_replicate; lia).
    eexists. split; [reflexivity|].
    replace (Z.to_nat (w - x)) with (S (Z.to_nat (w - (x + 1)))) by lia.
    simpl replicate.
    replace (Z.to_nat x) with (length (take (Z.to_nat x) row)) at 1
      by (rewrite length_take; lia).
    rewrite insert_middle.
    replace (Z.to_nat (x + 1)) with (S (Z.to_nat x)) by lia.
    rewrite (take_S_r row (Z.to_nat x) p Hp). by destruct p.
  - rewrite Hrun. f_equal. rewrite Hrd, Z.sub_diag. simpl.
    rewrite app_nil_r. apply take_ge. lia.
Qed.

(** The rows that [Save] writes for P6 are read back one [Read] each,
    as long as they are in the buffer. *)
Lemma readRowsP6_exact (w : Z) (e : bool)
    (body : Z -> Reader * list (list Pixel) -> exec (Reader * list (list Pixel))) :
  0 < w -> int_size (3 * w) ->
  (forall y reader data, body y (reader, data) =
     (_ ← make zero (int_mul w 3);
      let '(got, err, reader) := Read reader (Z.to_nat (int_mul w 3)) in
      if err : bool then Err (ErrUnexpectedEOF y) else
      if len got <? int_mul w 3 then Err (ErrShortRow y (int_mul w 3) (len got)) else
      rowData ← make PPM.zeroPixel w;
      rowData ← PPM.readRowP6 w 3 (filled (Z.to_nat (int_mul w 3)) got) rowData;
      data ← store data y rowData;
      Ret (reader, data))) ->
  forall (rows done old : list (list Pixel)) (tail : list ascii),
    length old = length rows ->
    Forall (fun row => len row = w /\ Forall (fun p => byte_pixel p = true) row) rows ->
    forM (range (len done) (len done + len rows))
         ({| rest := concat (map pixel_bytes rows) ++ tail;
             nbuf := length (concat (map pixel_bytes rows) ++ tail);
             eof := e |}, done ++ old) body
    = Ret ({| rest := tail; nbuf := length tail; eof := e |}, done ++ rows).
Proof.
  intros Hw Hint Hbody. unfold int_size in Hint.
  induction rows as [|row rows IH]; intros done old tail Hlen Hrows.
  - destruct old; [|done]. unfold len. simpl. rewrite range_nil by lia.
    by rewrite app_nil_r.
  - destruct old as [|o old]; [done|]. simpl in Hlen.
    apply Forall_cons in Hrows as [[Hrow Hbytes] Hrows].
    unfold len in *. simpl length. rewrite range_cons by lia. simpl forM.
    rewrite Hbody. unfold int_mul. rewrite wrap64_small by lia.
    rewrite (make_ok zero (w * 3)), bind_Ret by lia.
    rewrite <- app_assoc.
    rewrite (Read_buffered (Z.to_nat (w * 3)) (pixel_bytes row))
      by (rewrite ?pixel_bytes_length; lia).
    cbv iota beta.
    rewrite !pixel_bytes_length, Nat2Z.inj_mul. change (Z.of_nat 3) with 3.
    replace (3 * Z.of_nat (length row) <? w * 3) with false by lia.
    rewrite (make_ok PPM.zeroPixel w), bind_Ret by lia.
    unfold filled. rewrite ?pixel_bytes_length.
    replace (Z.to_nat (w * 3) - 3 * length row)%nat with 0%nat by lia. simpl replicate.
    rewrite app_nil_r.
    rewrite readRowP6_exact by (done || (unfold int_size; lia)).
    rewrite bind_Ret.
    rewrite store_inside by (unfold len; rewrite length_app; simpl; lia).
    rewrite !bind_Ret. rewrite Nat2Z.id, insert_middle.
    specialize (IH (done ++ [row]) old tail ltac:(lia) Hrows).
    rewrite length_app in IH. simpl length in IH.
    replace (Z.of_nat (length done) + 1) with (Z.of_nat (length done + 1)) by lia.
    replace (Z.of_nat (length done) + Z.of_nat (S (length rows)))
      with (Z.of_nat (length done + 1) + Z.of_nat (length rows)) by lia.
    rewrite ?bind_Ret. rewrite IH. by rewrite <- app_assoc.
Qed.

(** The same for a pixel map with the magic number P6. *)
Lemma PPM_P6_round_trip (ppm : PPM.t) :
  PPM_ok ppm -> PPM.magicNumber ppm = "P6"%string ->
  0 < PPM.width ppm -> 0 < PPM.height ppm ->
  int_size (3 * PPM.width ppm) -> int_size (PPM.height ppm) ->
  is_byte (PPM.max ppm) = true ->
  Forall (Forall (fun p => byte_pixel p = true)) (PPM.data ppm) ->
  exists file, PPM.Save ppm = Ret file /\
    ((length file <= defaultBufSize)%nat -> PPM.ReadPPM file = Ret ppm).
Proof.
  destruct ppm as [d w h m mx]. unfold PPM_ok. simpl.
  intros Hrect -> Hw0 Hh0 Hiw Hih Hmx Hbytes.
  pose proof Hrect as (Hw & Hh & Hlen & Hrows).
  unfold PPM.Save. cbv zeta.
  cbn [PPM.magicNumber PPM.width PPM.height PPM.data PPM.max].
  change ("P6" =? "P6")%string with true. change ("P6" =? "P3")%string with false.
  cbv iota. simpl orb. cbv iota.
  pose proof (save_pixel_bytes_rows d w h Hrect (Z.to_nat h) 0
                (str "P6" ++ [NL] ++ format_d w ++ str " " ++ format_d h ++ [NL]
                   ++ format_d mx ++ [NL])
                ltac:(lia) ltac:(lia)) as Hsave.
  change (Z.to_nat 0) with 0%nat in Hsave. rewrite drop_0 in Hsave.
  rewrite Hsave.
  eexists. split; [reflexivity|]. intros Hfit.
  unfold int_size in *.
  destruct (dimensions_round_trip w h ltac:(lia) ltac:(lia)) as [Hnl Hscan].
  set (dims := format_d w ++ str " " ++ format_d h) in *.
  assert (Hfile : (str "P6" ++ [NL] ++ format_d w ++ str " " ++ format_d h ++ [NL]
                   ++ format_d mx ++ [NL]) ++ concat (map pixel_bytes d)
                  = str "P6" ++ NL :: dims ++ NL :: format_d mx ++ NL
                      :: concat (map pixel_bytes d) ++ []).
  { subst dims. rewrite app_nil_r, <- !app_assoc. reflexivity. }
  rewrite Hfile in Hfit |- *.
  unfold PPM.ReadPPM. cbv zeta.
  rewrite ReadString_first by (done || by repeat constructor).
  rewrite bind_Ret. cbv beta iota.
  change (string_of_list_ascii (TrimSpace (str "P6" ++ [NL]))) with "P6"%string.
  change ("P6" =? "P3")%string with false.
  change ("P6" =? "P6")%string with true.
  cbv beta iota. simpl negb. simpl andb. cbv iota.
  rewrite (ReadString_buffered dims (format_d mx ++ NL :: concat (map pixel_bytes d) ++ []))
    by done.
  rewrite bind_Ret. cbv beta iota.
  rewrite Hscan. cbv beta iota.
  replace ((w <=? 0) || (h <=? 0)) with false by lia.
  assert (Hmx0 : 0 <= mx) by (unfold is_byte in Hmx; lia).
  destruct (format_d_digits mx Hmx0) as (_ & Hmxd & _).
  rewrite (ReadString_buffered (format_d mx) (concat (map pixel_bytes d) ++ []))
    by (done || by apply digits_no_newline).
  rewrite bind_Ret. cbv beta iota.
  rewrite TrimSpace_format_d, Sscanf_format_byte by done.
  rewrite (make_ok (A := list Pixel) [] h), bind_Ret by done.
  unfold PPM.readRowsP6. cbv zeta.
  match goal with
  | |- context [forM _ _ ?b] =>
      pose proof (readRowsP6_exact w false b Hw0 Hiw ltac:(reflexivity)
                    d [] (replicate (Z.to_nat h) []) []) as Hrun
  end.
  change (len (@nil (list Pixel))) with 0 in Hrun. cbn [app] in Hrun.
  rewrite Z.add_0_l in Hrun. replace (len d) with h in Hrun by (unfold len; lia).
  cbn [eof]. rewrite Hrun.
  - reflexivity.
  - rewrite length_replicate. lia.
  - apply Forall_forall. intros row Hin. split.
    + rewrite Forall_forall in Hrows. by apply Hrows.
    + rewrite Forall_forall in Hbytes. by apply Hbytes.
Qed.

(** * Packed rows *)

Lemma all_bytes_complete (b : ascii) : In b all_bytes.
Proof.
  unfold all_bytes. apply in_map_iff. exists (nat_of_ascii b).
  split; [apply ascii_nat_embedding|]. apply in_seq.
  pose proof (nat_ascii_bounded b). lia.
Qed.

(** Setting one bit of a byte, and testing one. *)
Lemma set_bit_spec (b : ascii) (k k' : Z) :
  0 <= k < 8 -> 0 <= k' < 8 ->
  Z.testbit (Z_of_byte (byte_of_Z (Z.lor (Z_of_byte b) (Z.shiftl 1 k)))) k'
  = Z.testbit (Z_of_byte b) k' || (k' =? k).
Proof.
  intros Hk Hk'.
  assert (H : forallb (fun b => forallb (fun k => forallb (fun k' =>
    Bool.eqb (Z.testbit (Z_of_byte (byte_of_Z (Z.lor (Z_of_byte b) (Z.shiftl 1 k)))) k')
             (Z.testbit (Z_of_byte b) k' || (k' =? k)))
    (range 0 8)) (range 0 8)) all_bytes = true) by (vm_compute; reflexivity).
  rewrite forallb_forall in H. specialize (H b (all_bytes_complete b)).
  rewrite forallb_forall in H.
  specialize (H k ltac:(apply list_elem_of_In, elem_of_range; lia)).
  rewrite forallb_forall in H.
  specialize (H k' ltac:(apply list_elem_of_In, elem_of_range; lia)).
  by apply Bool.eqb_prop in H.
Qed.

Lemma test_bit_spec (b : ascii) (k : Z) :
  0 <= k < 8 ->
  negb (Z.land (Z.shiftr (Z_of_byte b) k) 1 =? 0) = Z.testbit (Z_of_byte b) k.
Proof.
  intros Hk.
  assert (H : forallb (fun b => forallb (fun k =>
    Bool.eqb (negb (Z.land (Z.shiftr (Z_of_byte b) k) 1 =? 0))
             (Z.testbit (Z_of_byte b) k))
    (range 0 8)) all_bytes = true) by (vm_compute; reflexivity).
  rewrite forallb_forall in H. specialize (H b (all_bytes_complete b)).
  rewrite forallb_forall in H.
  specialize (H k ltac:(apply list_elem_of_In, elem_of_range; lia)).
  by apply Bool.eqb_prop in H.
Qed.

Lemma bit_at_insert (bytes : list ascii) (i : nat) (b : ascii) (q : Z) :
  0 <= q -> (i < length bytes)%nat ->
  bit_at (<[i:=b]> bytes) q =
  if decide (Z.to_nat (q / 8) = i) then Z.testbit (Z_of_byte b) (7 - q mod 8)
  else bit_at bytes q.
Proof.
  intros Hq Hi. unfold bit_at. destruct (decide (Z.to_nat (q / 8) = i)) as [->|Hne].
  - by rewrite list_lookup_insert_eq.
  - by rewrite list_lookup_insert_ne.
Qed.

(** The row that [saveP4] writes holds the bits of the row. *)
Lemma save_packed_row (d : list (list bool)) (w y : Z) (row : list bool) :
  0 <= y -> d !! Z.to_nat y = Some row -> len row = w -> 0 <= w ->
  exists bytes,
    forM (range 0 w) (replicate (Z.to_nat ((w + 7) / 8)) zero) (fun x row =>
      let byteIndex := Z.quot x 8 in
      let bitIndex := 7 - Z.rem x 8 in
      v ← index2 d y x;
      if v : bool then
        b ← index row byteIndex;
        store row byteIndex (byte_of_Z (Z.lor (Z_of_byte b) (Z.shiftl 1 bitIndex)))
      else Ret row)
    = Ret bytes /\ packs w row bytes.
Proof.
  intros Hy Hrow Hlen Hw. unfold len in Hlen.
  set (n := (w + 7) / 8).
  assert (Hn : 0 <= n /\ w <= 8 * n) by (subst n; Z.div_mod_to_equations; lia).
  set (rowbit := fun q : Z => default false (row !! Z.to_nat q)).
  destruct (forM_range_inv
    (fun x bytes => len bytes = n /\
       forall q, 0 <= q < 8 * n -> bit_at bytes q = (q <? x) && rowbit q)
    (fun x row =>
      let byteIndex := Z.quot x 8 in
      let bitIndex := 7 - Z.rem x 8 in
      v ← index2 d y x;
      if v : bool then
        b ← index row byteIndex;
        store row byteIndex (byte_of_Z (Z.lor (Z_of_byte b) (Z.shiftl 1 bitIndex)))
      else Ret row)
    0 w (replicate (Z.to_nat n) zero)) as (bytes & Hrun & Hbl & Hbits).
  - lia.
  - split; [unfold len; rewrite length_replicate; lia|].
    intros q Hq. unfold bit_at.
    rewrite lookup_replicate_2 by (Z.div_mod_to_equations; lia).
    replace (q <? 0) with false by lia. simpl.
    change (Z_of_byte zero) with 0. apply Z.testbit_0_l.
  - intros x bytes Hx (Hbl & Hbits). cbv zeta.
    destruct (lookup_lt_is_Some_2 row (Z.to_nat x)) as [v Hv]; [lia|].
    unfold index2. rewrite (index_lookup d y row) by done.
    rewrite bind_Ret, (index_lookup row x v) by (done || lia). rewrite bind_Ret.
    assert (Hrx : rowbit x = v) by (unfold rowbit; by rewrite Hv).
    rewrite Z.quot_div_nonneg, Z.rem_mod_nonneg by lia.
    unfold len in Hbl.
    destruct v.
    + destruct (lookup_lt_is_Some_2 bytes (Z.to_nat (x / 8))) as [b Hb];
        [Z.div_mod_to_equations; lia|].
      rewrite (index_lookup bytes (x / 8) b) by (done || Z.div_mod_to_equations; lia).
      rewrite bind_Ret.
      rewrite store_inside by (unfold len; Z.div_mod_to_equations; lia).
      eexists. split; [reflexivity|]. split; [unfold len; rewrite length_insert; lia|].
      intros q Hq.
      rewrite bit_at_insert by (try lia; Z.div_mod_to_equations; lia).
      destruct (decide (Z.to_nat (q / 8) = Z.to_nat (x / 8))) as [Hsame|Hdiff].
      * rewrite set_bit_spec by (Z.div_mod_to_equations; lia).
        specialize (Hbits q Hq). unfold bit_at in Hbits.
        rewrite Hsame, Hb in Hbits. rewrite Hbits.
        destruct (decide (q = x)) as [->|Hqx].
        -- rewrite Hrx. replace (7 - x mod 8 =? 7 - x mod 8) with true by lia.
           replace (x <? x + 1) with true by lia. by rewrite orb_true_r.
        -- replace (7 - q mod 8 =? 7 - x mod 8) with false
             by (Z.div_mod_to_equations; lia).
           rewrite orb_false_r. f_equal. lia.
      * rewrite Hbits by done. f_equal.
        assert (q <> x) by (intros ->; done). lia.
    + eexists. split; [reflexivity|]. split; [done|].
      intros q Hq. rewrite Hbits by done.
      destruct (decide (q = x)) as [->|Hqx].
      * rewrite Hrx. by rewrite !andb_false_r.
      * f_equal. lia.
  - exists bytes. split; [exact Hrun|]. split; [done|].
    intros q Hq. rewrite Hbits by lia.
    replace (q <? w) with true by lia. simpl. unfold rowbit.
    destruct (lookup_lt_is_Some_2 row (Z.to_nat q)) as [v Hv]; [lia|].
    by rewrite Hv.
Qed.

Lemma save_packed_rows (d : list (list bool)) (w h : Z) :
  rect d w h ->
  forall (n : nat) (y : Z) (out : list ascii),
    0 <= y -> Z.of_nat n = h - y ->
    exists packed,
      forM (range y h) out (fun y out =>
        row ← make zero ((w + 7) / 8);
        row ← forM (range 0 w) row (fun x row =>
          let byteIndex := Z.quot x 8 in
          let bitIndex := 7 - Z.rem x 8 in
          v ← index2 d y x;
          if v : bool then
            b ← index row byteIndex;
            store row byteIndex (byte_of_Z (Z.lor (Z_of_byte b) (Z.shiftl 1 bitIndex)))
          else Ret row);
        Ret (out ++ row))
      = Ret (out ++ concat packed) /\
      Forall2 (packs w) (drop (Z.to_nat y) d) packed.
Proof.
  intros (Hw & Hh & Hlen & Hrows).
  induction n as [|n IH]; intros y out Hy Hn.
  - rewrite range_nil by lia. rewrite drop_ge by lia. exists []. simpl.
    split; [by rewrite app_nil_r|constructor].
  - match goal with |- context [forM _ _ ?b] => set (body := b) in * end.
    rewrite range_cons by lia. simpl forM.
    destruct (lookup_lt_is_Some_2 d (Z.to_nat y)) as [row Hrow]; [lia|].
    assert (Hrl : len row = w).
    { rewrite Forall_lookup in Hrows. exact (Hrows _ _ Hrow). }
    destruct (save_packed_row d w y row Hy Hrow Hrl Hw) as (bytes & Hrun & Hpack).
    assert (Hhead : body y out = Ret (out ++ bytes)).
    { subst body. cbv beta.
      rewrite make_ok, bind_Ret by (Z.div_mod_to_equations; lia).
      cbv zeta in Hrun |- *. by rewrite Hrun, bind_Ret. }
    rewrite Hhead, bind_Ret.
    destruct (IH (y + 1) (out ++ bytes) ltac:(lia) ltac:(lia)) as (packed & Hrest & Hall).
    exists (bytes :: packed). split.
    + rewrite Hrest. simpl. by rewrite <- app_assoc.
    + rewrite (drop_S d row (Z.to_nat y)) by done.
      replace (Z.to_nat (y + 1)) with (S (Z.to_nat y)) in Hall by lia.
      by constructor.
Qed.

(** The bits of a packed row are read back as the row. *)
Lemma readRowP4_exact (w y : Z) (row old : list bool) (bytes : list ascii)
    (data : list (list bool)) :
  0 <= y -> data !! Z.to_nat y = Some old -> len old = w -> len row = w ->
  packs w row bytes ->
  PBM.readRowP4 w y bytes data = Ret (<[Z.to_nat y:=row]> data).
Proof.
  intros Hy Hold Hol Hrl [Hbl Hbits]. unfold PBM.readRowP4. unfold len in *.
  assert (Hyl : (Z.to_nat y < length data)%nat) by (by apply lookup_lt_Some in Hold).
  destruct (forM_range_inv
    (fun x dx => dx = <[Z.to_nat y:=take (Z.to_nat x) row ++ drop (Z.to_nat x) old]> data)
    (fun x data =>
      let byteIndex := Z.quot x 8 in
      let bitIndex := 7 - Z.rem x 8 in
      b ← index bytes byteIndex;
      let bitValue := Z.land (Z.shiftr (Z_of_byte b) bitIndex) 1 in
      store2 data y x (negb (bitValue =? 0)))
    0 w data) as (dw & Hrun & Hdw).
  - lia.
  - simpl. by rewrite list_insert_id.
  - intros x dx Hx ->. cbv zeta.
    rewrite Z.quot_div_nonneg, Z.rem_mod_nonneg by lia.
    destruct (lookup_lt_is_Some_2 bytes (Z.to_nat (x / 8))) as [b Hb];
      [Z.div_mod_to_equations; lia|].
    rewrite (index_lookup bytes (x / 8) b) by (done || Z.div_mod_to_equations; lia).
    rewrite bind_Ret, test_bit_spec by (Z.div_mod_to_equations; lia).
    pose proof (Hbits x Hx) as Hv. unfold bit_at in Hv. rewrite Hb in Hv.
    destruct (lookup_lt_is_Some_2 old (Z.to_nat x)) as [o Ho]; [lia|].
    unfold store2.
    rewrite (index_lookup _ y (take (Z.to_nat x) row ++ drop (Z.to_nat x) old))
      by (done || by rewrite list_lookup_insert_eq).
    rewrite bind_Ret.
    rewrite store_inside
      by (unfold len; rewrite length_app, length_take, length_drop; lia).
    rewrite bind_Ret.
    rewrite store_inside by (unfold len; rewrite length_insert; lia).
    eexists. split; [reflexivity|].
    rewrite list_insert_insert_eq. f_equal.
    rewrite (drop_S old o (Z.to_nat x)) by done.
    replace (Z.to_nat x) with (length (take (Z.to_nat x) row)) at 1
      by (rewrite length_take; lia).
    rewrite insert_middle.
    replace (Z.to_nat (x + 1)) with (S (Z.to_nat x)) by lia.
    by rewrite (take_S_r row (Z.to_nat x) _ Hv).
  - cbv zeta in Hrun |- *. rewrite Hrun. f_equal. rewrite Hdw. f_equal.
    rewrite take_ge by lia. rewrite drop_ge by lia. by rewrite app_nil_r.
Qed.

(** The rows that [saveP4] writes are read back one [Read] each, as
    long as they are in the buffer. *)
Lemma readRowsP4_exact (w : Z) (e : bool)
    (body : Z -> Reader * list (list bool) -> exec (Reader * list (list bool))) :
  0 < w -> int_size (w + 7) ->
  (forall y reader data, body y (reader, data) =
     (_ ← make zero (Z.quot (int_add w 7) 8);
      let '(got, err, reader) := Read reader (Z.to_nat (Z.quot (int_add w 7) 8)) in
      if err : bool then Err (ErrUnexpectedEOF y) else
      if len got <? Z.quot (int_add w 7) 8
      then Err (ErrShortRow y (Z.quot (int_add w 7) 8) (len got)) else
      data ← PBM.readRowP4 w y (filled (Z.to_nat (Z.quot (int_add w 7) 8)) got) data;
      Ret (reader, data))) ->
  forall (rows : list (list bool)) (packed : list (list ascii))
         (done old : list (list bool)) (tail : list ascii),
    Forall2 (packs w) rows packed ->
    length old = length rows ->
    Forall (fun row => len row = w) rows -> Forall (fun row => len row = w) old ->
    forM (range (len done) (len done + len rows))
         ({| rest := concat packed ++ tail;
             nbuf := length (concat packed ++ tail);
             eof := e |}, done ++ old) body
    = Ret ({| rest := tail; nbuf := length tail; eof := e |}, done ++ rows).
Proof.
  intros Hw Hint Hbody. unfold int_size in Hint.
  assert (Hn : Z.quot (int_add w 7) 8 = (w + 7) / 8).
  { unfold int_add. rewrite wrap64_small by lia. apply Z.quot_div_nonneg; lia. }
  assert (Hnpos : 0 < (w + 7) / 8) by (Z.div_mod_to_equations; lia).
  intros rows packed done old tail Hpacked. revert done old tail.
  induction Hpacked as [|row bytes rows packed Hpack Hpacked IH];
    intros done old tail Hlen Hrows Hold.
  - destruct old; [|done]. unfold len. simpl. rewrite range_nil by lia.
    by rewrite app_nil_r.
  - destruct old as [|o old]; [done|]. simpl in Hlen.
    apply Forall_cons in Hrows as [Hrow Hrows]. apply Forall_cons in Hold as [Ho Hold].
    pose proof Hpack as [Hbl _].
    unfold len in *. simpl length. rewrite range_cons by lia. simpl forM.
    rewrite Hbody, Hn.
    rewrite (make_ok zero ((w + 7) / 8)), bind_Ret by lia.
    simpl concat. rewrite <- app_assoc.
    rewrite (Read_buffered (Z.to_nat ((w + 7) / 8)) bytes) by lia.
    cbv iota beta.
    replace (Z.of_nat (length bytes) <? (w + 7) / 8) with false by lia.
    unfold filled.
    replace (Z.to_nat ((w + 7) / 8) - length bytes)%nat with 0%nat by lia.
    simpl replicate. rewrite app_nil_r.
    rewrite (readRowP4_exact w (Z.of_nat (length done)) row o bytes (done ++ o :: old));
      [|lia| |done|done|done].
    2:{ rewrite Nat2Z.id. rewrite lookup_app_r by lia. by rewrite Nat.sub_diag. }
    rewrite !bind_Ret. rewrite Nat2Z.id, insert_middle.
    specialize (IH (done ++ [row]) old tail ltac:(lia) Hrows Hold).
    rewrite length_app in IH. simpl length in IH.
    replace (Z.of_nat (length done) + 1) with (Z.of_nat (length done + 1)) by lia.
    replace (Z.of_nat (length done) + Z.of_nat (S (length rows)))
      with (Z.of_nat (length done + 1) + Z.of_nat (length rows)) by lia.
    rewrite IH. by rewrite <- app_assoc.
Qed.

(** The same for a bitmap with the magic number P4. *)
Lemma PBM_P4_round_trip (pbm : PBM.t) :
  PBM_ok pbm -> PBM.magicNumber pbm = "P4"%string ->
  0 < PBM.width pbm -> 0 < PBM.height pbm ->
  int_size (PBM.width pbm + 7) -> int_size (PBM.height pbm) ->
  exists file, PBM.Save pbm = Ret file /\
    ((length file <= defaultBufSize)%nat -> PBM.ReadPBM file = Ret pbm).
Proof.
  destruct pbm as [d w h m]. unfold PBM_ok, int_size. simpl.
  intros Hrect -> Hw0 Hh0 Hiw Hih. pose proof Hrect as (Hw & Hh & Hlen & Hrows).
  unfold PBM.Save, PBM.saveP4. cbv zeta.
  cbn [PBM.magicNumber PBM.width PBM.height PBM.data].
  change ("P4" =? "P1")%string with false. change ("P4" =? "P4")%string with true.
  cbv iota.
  assert (Hn : Z.quot (int_add w 7) 8 = (w + 7) / 8).
  { unfold int_add. rewrite wrap64_small by lia. apply Z.quot_div_nonneg; lia. }
  rewrite Hn.
  destruct (save_packed_rows d w h Hrect (Z.to_nat h) 0 [] ltac:(lia) ltac:(lia))
    as (packed & Hsave & Hpacked).
  cbv zeta in Hsave. change (Z.to_nat 0) with 0%nat in Hpacked.
  rewrite drop_0 in Hpacked.
  rewrite Hsave, bind_Ret. rewrite app_nil_l.
  eexists. split; [reflexivity|]. intros Hfit.
  destruct (dimensions_round_trip w h ltac:(lia) ltac:(lia)) as [Hnl Hscan].
  set (dims := format_d w ++ str " " ++ format_d h) in *.
  assert (Hfile : (str "P4" ++ [NL] ++ format_d w ++ str " " ++ format_d h ++ [NL])
                   ++ concat packed
                  = str "P4" ++ NL :: dims ++ NL :: concat packed ++ []).
  { subst dims. rewrite app_nil_r, <- !app_assoc. reflexivity. }
  rewrite Hfile in Hfit |- *.
  unfold PBM.ReadPBM. cbv zeta.
  rewrite ReadString_first by (done || by repeat constructor).
  rewrite bind_Ret. cbv beta iota.
  change (string_of_list_ascii (TrimSpace (str "P4" ++ [NL]))) with "P4"%string.
  change ("P4" =? "P1")%string with false.
  change ("P4" =? "P4")%string with true.
  cbv beta iota. simpl negb. simpl andb. cbv iota.
  rewrite (ReadString_buffered dims (concat packed ++ [])) by done.
  rewrite bind_Ret. cbv beta iota.
  rewrite Hscan. cbv beta iota.
  rewrite makeRows_rect, bind_Ret by done.
  unfold PBM.readRowsP4. cbv zeta.
  match goal with
  | |- context [forM _ _ ?b] =>
      pose proof (readRowsP4_exact w false b Hw0 Hiw ltac:(reflexivity)
                    d packed [] (replicate (Z.to_nat h) (replicate (Z.to_nat w) false)) []
                    Hpacked) as Hrun
  end.
  change (len (@nil (list bool))) with 0 in Hrun. cbn [app] in Hrun.
  rewrite Z.add_0_l in Hrun. replace (len d) with h in Hrun by (unfold len; lia).
  cbn [eof]. rewrite Hrun.
  - reflexivity.
  - rewrite length_replicate. lia.
  - done.
  - apply Forall_replicate. unfold len. rewrite length_replicate. lia.
Qed.

(** X29: in the binary encodings a saved image is read back when the
    file is not longer than the buffer of the reader: a bitmap with
    the magic number P4, a gray map with the magic number P5 and a
    pixel map with the magic number P6, each with positive dimensions
    and a buffer of the announced size, and the gray and the pixel map
    with a maximum and samples that are bytes, are saved to a file
    from which the decoder of the format returns the same image. *)
Theorem raw_round_trip_within_buffer (pbm : PBM.t) (pgm : PGM.t) (ppm : PPM.t) :
  PBM_ok pbm -> PBM.magicNumber pbm = "P4"%string ->
  0 < PBM.width pbm -> 0 < PBM.height pbm ->
  int_size (PBM.width pbm + 7) -> int_size (PBM.height pbm) ->
  PGM_ok pgm -> PGM.magicNumber pgm = "P5"%string ->
  0 < PGM.width pgm -> 0 < PGM.height pgm ->
  int_size (PGM.width pgm) -> int_size (PGM.height pgm) ->
  is_byte (PGM.max pgm) = true ->
  Forall (Forall (fun v => is_byte v = true)) (PGM.data pgm) ->
  PPM_ok ppm -> PPM.magicNumber ppm = "P6"%string ->
  0 < PPM.width ppm -> 0 < PPM.height ppm ->
  int_size (3 * PPM.width ppm) -> int_size (PPM.height ppm) ->
  is_byte (PPM.max ppm) = true ->
  Forall (Forall (fun p => byte_pixel p = true)) (PPM.data ppm) ->
  (exists file, PBM.Save pbm = Ret file /\
     ((length file <= defaultBufSize)%nat -> PBM.ReadPBM file = Ret pbm)) /\
  (exists file, PGM.Save pgm = Ret file /\
     ((length file <= defaultBufSize)%nat -> PGM.ReadPGM file = Ret pgm)) /\
  (exists file, PPM.Save ppm = Ret file /\
     ((length file <= defaultBufSize)%nat -> PPM.ReadPPM file = Ret ppm)).
Proof.
  intros Hb Hbm Hbw Hbh Hbiw Hbih Hg Hgm Hgw Hgh Hgiw Hgih Hgmx Hgd
         Hp Hpm Hpw Hph Hpiw Hpih Hpmx Hpd.
  split; [|split].
  - by apply PBM_P4_round_trip.
  - by apply PGM_P5_round_trip.
  - by apply PPM_P6_round_trip.
Qed.

Lemma raw_round_trip_within_buffer_witness :
  (exists file, PBM.Save (PBM.SetMagicNumber steps_pbm "P4") = Ret file /\
     ((length file <= defaultBufSize)%nat ->
      PBM.ReadPBM file = Ret (PBM.SetMagicNumber steps_pbm "P4"))) /\
  (exists file, PGM.Save (PGM.SetMagicNumber steps_pgm "P5") = Ret file /\
     ((length file <= defaultBufSize)%nat ->
      PGM.ReadPGM file = Ret (PGM.SetMagicNumber steps_pgm "P5"))) /\
  (exists file, PPM.Save (PPM.SetMagicNumber steps_ppm "P6") = Ret file /\
     ((length file <= defaultBufSize)%nat ->
      PPM.ReadPPM file = Ret (PPM.SetMagicNumber steps_ppm "P6"))).
Proof.
  apply (raw_round_trip_within_buffer (PBM.SetMagicNumber steps_pbm "P4")
           (PGM.SetMagicNumber steps_pgm "P5") (PPM.SetMagicNumber steps_ppm "P6")).
  - literal_rect.
  - reflexivity.
  - simpl. lia.
  - simpl. lia.
  - unfold int_size. simpl. lia.
  - unfold int_size. simpl. lia.
  - literal_rect.
  - reflexivity.
  - simpl. lia.
  - simpl. lia.
  - unfold int_size. simpl. lia.
  - unfold int_size. simpl. lia.
  - reflexivity.
  - repeat constructor.
  - literal_rect.
  - reflexivity.
  - simpl. lia.
  - simpl. lia.
  - unfold int_size. simpl. lia.
  - unfold int_size. simpl. lia.
  - reflexivity.
  - repeat constructor.
Defined.

(** * Saving under a foreign magic number *)

(** X30: with a magic number that is not one of the two of its format,
    [PBM.Save] returns the error "unsupported magic number" and
    [PPM.Save] the error "magic number error", while [PGM.Save] writes
    the header alone and returns no error; and [PGM.Save] answers a
    buffer with a row that has not [width] samples with the error
    "inconsistent row length in data", whatever the magic number. *)
Theorem Save_foreign_magic (pbm : PBM.t) (pgm ragged : PGM.t) (ppm : PPM.t) :
  PBM.magicNumber pbm <> "P1"%string -> PBM.magicNumber pbm <> "P4"%string ->
  PGM.magicNumber pgm <> "P2"%string -> PGM.magicNumber pgm <> "P5"%string ->
  PPM.magicNumber ppm <> "P3"%string -> PPM.magicNumber ppm <> "P6"%string ->
  Forall (fun row => len row = PGM.width pgm) (PGM.data pgm) ->
  Exists (fun row => len row <> PGM.width ragged) (PGM.data ragged) ->
  PBM.Save pbm = Err (ErrUnsupportedMagic (PBM.magicNumber pbm)) /\
  PPM.Save ppm = Err ErrMagicNumber /\
  PGM.Save pgm = Ret (str (PGM.magicNumber pgm) ++ [NL]
                      ++ format_d (PGM.width pgm) ++ str " " ++ format_d (PGM.height pgm)
                      ++ [NL] ++ format_d (PGM.max pgm) ++ [NL]) /\
  PGM.Save ragged = Err ErrInconsistentRow.
Proof.
  intros Hb1 Hb4 Hg2 Hg5 Hp3 Hp6 Hrows Hragged.
  apply String.eqb_neq in Hb1, Hb4, Hg2, Hg5, Hp3, Hp6.
  split; [|split; [|split]].
  - unfold PBM.Save. cbv zeta. by rewrite Hb1, Hb4.
  - unfold PPM.Save. cbv zeta. by rewrite Hp3, Hp6.
  - unfold PGM.Save. cbv zeta.
    assert (Hcheck : forallb (fun row => len row =? PGM.width pgm) (PGM.data pgm) = true).
    { apply forallb_forall. intros row Hin. apply list_elem_of_In in Hin.
      rewrite Forall_forall in Hrows. specialize (Hrows row Hin). lia. }
    by rewrite Hcheck, Hg2, Hg5.
  - unfold PGM.Save. cbv zeta.
    assert (Hcheck : forallb (fun row => len row =? PGM.width ragged) (PGM.data ragged)
                     = false).
    { apply not_true_is_false. intros Hall. rewrite forallb_forall in Hall.
      apply Exists_exists in Hragged as (row & Hin & Hne).
      apply list_elem_of_In in Hin. specialize (Hall row Hin). lia. }
    by rewrite Hcheck.
Qed.

Lemma Save_foreign_magic_witness :
  PBM.Save (PBM.SetMagicNumber steps_pbm "P2")
    = Err (ErrUnsupportedMagic (PBM.magicNumber (PBM.SetMagicNumber steps_pbm "P2"))) /\
  PPM.Save (PPM.SetMagicNumber steps_ppm "P2") = Err ErrMagicNumber /\
  PGM.Save (PGM.SetMagicNumber steps_pgm "P3")
    = Ret (str (PGM.magicNumber (PGM.SetMagicNumber steps_pgm "P3")) ++ [NL]
           ++ format_d (PGM.width (PGM.SetMagicNumber steps_pgm "P3")) ++ str " "
           ++ format_d (PGM.height (PGM.SetMagicNumber steps_pgm "P3"))
           ++ [NL] ++ format_d (PGM.max (PGM.SetMagicNumber steps_pgm "P3")) ++ [NL]) /\
  PGM.Save (PGM.mk [[1; 2]; [3]] 2 2 "P2" 9) = Err ErrInconsistentRow.
Proof.
  apply (Save_foreign_magic (PBM.SetMagicNumber steps_pbm "P2")
           (PGM.SetMagicNumber steps_pgm "P3") (PGM.mk [[1; 2]; [3]] 2 2 "P2" 9)
           (PPM.SetMagicNumber steps_ppm "P2")); try discriminate.
  - repeat constructor.
  - apply Exists_cons_tl, Exists_cons_hd. simpl. unfold len. simpl. lia.
Defined.

(** * Instances *)

Lemma unparsable_dimensions_witness :
  PBM.ReadPBM (str "P1" ++ NL :: str "2 x" ++ NL :: []) = Err ErrScanDimensions /\
  PBM.ReadPBM (str "P4" ++ NL :: str "2 x" ++ NL :: []) = Err ErrScanDimensions /\
  PGM.ReadPGM (str "P2" ++ NL :: str "2 x" ++ NL :: []) = Err ErrScanDimensions /\
  PGM.ReadPGM (str "P5" ++ NL :: str "2 x" ++ NL :: []) = Err ErrScanDimensions /\
  PPM.ReadPPM (str "P3" ++ NL :: str "2 x" ++ NL :: []) = Err ErrScanDimensions /\
  PPM.ReadPPM (str "P6" ++ NL :: str "2 x" ++ NL :: []) = Err ErrScanDimensions.
Proof.
  apply (unparsable_dimensions (str "2 x") []).
  - reflexivity.
  - vm_compute. reflexivity.
Defined.

Lemma nonpositive_dimensions_rejected_witness :
  PGM.ReadPGM (str "P2" ++ NL :: str "0 3" ++ NL :: []) = Err ErrNonPositiveDimensions /\
  PGM.ReadPGM (str "P5" ++ NL :: str "0 3" ++ NL :: []) = Err ErrNonPositiveDimensions /\
  PPM.ReadPPM (str "P3" ++ NL :: str "0 3" ++ NL :: []) = Err ErrNonPositiveDimensions /\
  PPM.ReadPPM (str "P6" ++ NL :: str "0 3" ++ NL :: []) = Err ErrNonPositiveDimensions.
Proof.
  apply (nonpositive_dimensions_rejected (str "0 3") [] 0 3).
  - unfold no_newline. vm_compute. repeat constructor.
  - vm_compute. reflexivity.
  - left. lia.
Defined.

Lemma PGM_Invert_bounded_witness :
  Forall (Forall (fun v => 0 <= v <= PGM.max (PGM.Invert steps_pgm)))
         (PGM.data (PGM.Invert steps_pgm)).
Proof.
  apply (PGM_Invert_bounded steps_pgm).
  - simpl. lia.
  - simpl. repeat constructor; lia.
Defined.
